(* ===== verification/_CoqProject ===== *)
-Q . S2P
Prelude.v
RustStd.v
Text.v
NetAddr.v
RustFloat.v
FloatFacts.v
FloatRound.v
Errors.v
Proto.v
Urb.v
Stream.v
Wire.v
Descriptor.v
Pool.v
Crypto.v
CryptoStream.v
Bandwidth.v
UsbBackend.v
UsbManager.v
Iokit.v
Batcher.v
Benchmark.v
Server.v
Encrypted.v
Api.v
Discovery.v
Hotplug.v
Connections.v
Leases.v
Locks.v
Reconnect.v
Backoff.v
Vhci.v
Client.v
TestsCore.v
EndToEnd.v
Pipeline.v
Wiring.v
Interface.v
ServerCli.v
TestsServer.v
Daemon.v
SetupApi.v
DaemonSocket.v
ClientCli.v
WindowsApp.v
WindowsMain.v
WindowsView.v
TestsClient.v
