(* ===== verification/Prelude.v ===== *)
(** * AnyPlug: a verification development of the USB/IP bridge

    AnyPlug shares USB devices over TCP.  A server (server/usbip-server) opens the
    devices of its machine through a backend, lists them, lets a client import
    one, executes the URBs the client sends on the device and returns their
    results; a client (client/usbip-client) imports a device, creates a virtual
    one through a virtual host controller and hands the results it receives to
    it, alone or as a daemon that keeps connections alive.  Both are built on a
    core library (shared/usbip-core): wire structures, framing, descriptors,
    errors, buffer pool, encryption.  The server is also run behind an HTTP
    interface and advertises itself with mDNS; a Windows application (windows)
    starts server and client from a window.  All paths below are under src/.

    ** Files

    - [Prelude]: results and panics, machine integers, bytes, the class
      [WireCodec] of fixed-size wire structures, list lemmas, tactics, hints.
    - [RustStd], [RustFloat]: what the sources use of Rust's standard library:
      UTF-8, splitting and searching strings, parsing and printing numbers;
      binary64 arithmetic (over SpecFloat) with the casts to and from integers;
      [FloatFacts], [FloatRound]: what that arithmetic computes, its rounding and
      its order; [Text]: printed numbers are parsed back; [NetAddr]: socket addresses
      as std::net parses and prints them.
    - [Errors]: shared/usbip-core/src/error.rs.
    - [Proto], [Urb], [Wire]: lib.rs, protocol.rs, urb.rs, reply.rs and wire.rs of
      the core library; [Stream]: a TCP stream as one end sees it and the monad
      [io S A] of fallible stateful operations.
    - [Descriptor]: descriptor.rs; [Pool]: pool.rs, over the interface
      [BoundedQueue]; [Crypto]: crypto.rs, over the interface [Ring].
    - [CryptoStream], [Bandwidth], [UsbBackend], [UsbManager], [Batcher], [Server]:
      crypto_stream.rs, bandwidth.rs, usb_backend.rs, usb.rs, batcher.rs and the
      connection handler of server.rs; [Encrypted]: that handler with encryption
      enabled; [Connections]: any number of such handlers
      that interleave over one export table; [Leases]: the machine they implement;
      [Locks]: the locks they take;
      [Pipeline]: the URB loop against a client that limits its unanswered
      commands; [Benchmark]: bin/benchmark.rs.  [UsbBackend] is the trait as a
      class, with the laws [UsbBackendLaws] its clients rely on; the libusb backend is an
      instance over the class [Rusb], the fake backend another one, and [Iokit]
      (iokit_backend.rs) a third, over a class of the I/O Kit calls with ghost
      reference counts.
    - [Api]: api.rs, the handlers over classes for their collaborators; [Discovery]:
      both discovery.rs, with the reader of the Android client; [Hotplug]: hotplug.rs;
      [Wiring]: the rest of server.rs, where these components meet; [Interface]: the
      requests of the interface beside the connections; [ServerCli]:
      main.rs and metrics.rs of the server.
    - [Reconnect], [Vhci], [Client], [Daemon]: reconnect.rs, vhci/, client.rs and
      daemon.rs of the client; [Backoff]: the delays of the default configuration.
      [VhciBackend] is the trait as a class, with the
      Linux, Windows and recording backends as instances.  [DaemonSocket]: the
      control socket, the configuration and the main loop of the daemon;
      [ClientCli]: main.rs of the client and the construction of a client.
    - [SetupApi], [WindowsApp], [WindowsMain]: windows_usb.rs, actions.rs and main.rs
      of the Windows application; [WindowsView]: the frames its window draws.
    - [EndToEnd]: client and server on the two ends of one connection.
    - [TestsCore], [TestsServer], [TestsClient]: the unit tests of the sources, run on
      the models.

    ** How code becomes definitions

    A function of the source is a definition of the same name where that is free
    (otherwise with a prefix: [tunnel_read_message] is [CryptoStream::read_message]).
    A [Result] is [result], an error is its [ErrorKind]; a function that can panic
    or loop returns an [outcome].  Integers are [Z]; a wrap-around, a cast and a
    range check are written out.  A Rust string is the string of its UTF-8 bytes.
    Time is an argument, in nanoseconds.  Loops that are not structural take fuel:
    one unit per byte still to be received is enough for the URB loop of the
    server, the forwarding loop of the client, the control socket of the daemon and
    the descriptor parser (unless a configuration announces a length of 0, when no
    fuel is), one per session for the reconnect task with a retry limit, and one per
    device, with one more, for the enumerations of macOS and Windows; each has its
    theorem.  A client with a window takes at most four steps for each command.
    Concurrency (connections of the server, requests of the interface, the tasks of
    the daemon, the hotplug thread, the threads of the window) is a step relation
    over the shared state, one step from one wait to the next.

    Code that is not in the repository is a class with laws taken from its
    documentation: [Ring] (the ring crate: AES-GCM, X25519, HKDF), [Rusb] (libusb),
    [BoundedQueue] (crossbeam's ArrayQueue), [SysFs], [Win32], [IOKit], [SetupApi],
    [MdnsSd], [HostFs], [Toml], [DaemonJson]; [powi] and the random draw are section
    variables with what their documentation says as hypotheses.  Each class has a concrete instance, at which the
    witnesses of the theorems are computed.

    ** What is shown

    - Framing: [read_message] is the exact inverse of the encoding of messages,
      batching is invisible to a reader, a reply can be framed exactly when its
      data has the length its header announces (Wire, Urb, UsbManager).
    - Sessions: the server's handler always ends; it refuses what it cannot serve
      and changes nothing; a plain session executes the URBs in order, sends the
      replies taken into batches in order, and gives the device back; over all
      interleavings of connections a bus id is held by one of them at a time
      (Server, Batcher, UsbManager, Connections); every such run is a run of a
      machine that lends devices, and the handler is one of the interleavings (Leases);
      with its locks no connection can be part of a deadlock (Locks).
    - End to end: the client reads back the server's device list; an import makes
      the client create a device with the server's entry and descriptors; the
      results of the URBs reach the host controller once each, in order, unchanged
      (EndToEnd, Client).
    - Encryption: decryption accepts exactly what encryption produces, the
      handshake gives both ends the same key, the tunnel delivers exactly what was
      written, up to its size limit, and a session through the tunnel carries what a
      plain one would (Crypto, CryptoStream, Encrypted).
    - Descriptors: serialization and parsing are inverse on trees that announce
      their true lengths; what libusb reports becomes such a tree, field by field
      (Descriptor, UsbBackend).
    - Resources: buffers of the pool are always zeroed and bounded in number, and of
      the pool's shape unless a holder changed it; over any calls the tokens of a bucket
      stay between zero and its capacity; the retry limit is exact, the delays keep
      their documented schedule whatever jitter is drawn, and the reconnect task ends
      (Pool, Bandwidth, Reconnect, Backoff, Client).
    - Flow: a client with any window against the URB loop comes to an end; with a
      window of 8 it stalls only through replies the batcher refused, with a smaller
      one it always stalls (Pipeline).
    - Measurements and tests: the performance gate of the benchmark is the percentile
      it claims to be; the unit tests that have a counterpart pass on the models for every key, id, draw and
      schedule, and for every clock reading but those that make three tests of the
      batcher fail (Benchmark, TestsCore, TestsServer, TestsClient).
    - The daemon: over all interleavings of commands and tasks, every managed
      connection has its own token and its own task, which ends only for the reasons
      given, a panic of its import among them; a device is managed once unless Connect
      commands overlap (Daemon).
    - The control socket: what [daemon-ctl] sends is what the daemon executes, its
      answer is what [daemon-ctl] shows, and status 0 means that the action was done,
      whatever the connection loses (DaemonSocket, ClientCli).
    - The interface: under all interleavings the configuration keeps the identity of
      the server, and its ports are the first ones or valid ones; an update is stored or
      refused as a whole; the identity survives a restart; the device list agrees with
      the connections and the requests that entered or removed an export (Api, Wiring,
      Interface).
    - Discovery and hotplug: clients on the network see exactly the devices the allow
      list names, as far as they fit a TXT string; every hotplug event is delivered, in order, under a fair schedule
      (Discovery, Wiring, Hotplug).
    - Platforms: listing on macOS releases every reference; Windows finds the devices
      whose ids have the documented form and type; the window runs one server at a
      time, which ends when it is told to, and shows the state it has (Iokit,
      SetupApi, WindowsApp, WindowsView).
    - The command lines: one host address is bound; what [list] prints can be given
      to [--allow] (ServerCli).
    - Where the code does not do what it means to, that is a theorem too: replies
      lost by the batcher ([push_flush_loses]), an export that stays after a failed
      claim ([failed_claim_leaks]), descriptors taken for a message
      ([descriptors_taken_for_unlink]) or cut by the network
      ([descriptors_depend_on_cut]), a dropped connection that is never retried
      ([drop_never_reconnects]), a parser that loops or panics
      ([parse_tree_zero_length_spins], [parse_tree_panics]), a bucket that lets
      twice its rate through ([throttle_doubles_rate]), refused bulk reads
      ([libusb_bulk_in_refused]), an interface that cannot import
      ([connect_never_imports]), a window whose server stops accepting
      ([window_server_stalls]), devices Windows and macOS never list
      ([enumerate_by_type], [high_vendor_skipped]), a daemon its control command does
      not find ([ctl_meets_daemon]), a device that is never detached
      ([connect_never_detaches]), a client that waits for its answers and gets none
      ([small_window_stalls]), a benchmark that measures refusals
      ([benchmarks_exercise]), a client that blocks the export table by not reading its
      refusal ([refusal_holds_table]), an import whose panic leaves a connection without
      a task ([import_panic_orphans]), a buffer that keeps the shape a holder gave it
      ([pool_shape_not_restored]), descriptor fields that change on the way
      ([libusb_fields_garbled]), a request that lets two clients have a device
      ([api_disconnect_breaks_exclusion]).

    ** What is not modelled

    A peer that stays connected and sends nothing: a stream is what comes and how it
    ends, so that what ends does so at the end of the input (the server has no read timeout);
    how the operating system runs tasks, so that a task which waits for a mutex of the
    standard library keeps no thread from the others; log output; memory exhaustion; option parsing by clap and the decoding of HTTP
    requests by axum, whose results are the inputs of the models; how egui lays
    out and paints the widgets of the window (which ones it is given is); the module lists of the crates; the Android
    bridge, which exports a version string.  Of the unit tests, those that ask the
    compiler (Send, Sync, implements a trait), Debug output, the option parser, the
    uuid crate or the network of the machine.  The integration tests
    (tests/) and the criterion benchmarks (benches/) of the crates. *)

From stdpp Require Export base gmap strings list pretty.
From Stdlib Require Export ZArith Lia.
From Stdlib Require Export Strings.Byte.
From Stdlib Require String.

#[export] Set Default Goal Selector "!".
Open Scope Z_scope.

(** ** Results, panics and the notations that thread them *)

(** Rust's [Result<A, E>]. *)
Inductive result (E A : Type) : Type :=
| Ok (a : A)
| Err (e : E).
Arguments Ok {E A} a.
Arguments Err {E A} e.

(** The outcome of running a Rust function that may panic (index or slice out
    of range, arithmetic overflow) or, for a loop run with fuel, not finish. *)
Inductive outcome (A : Type) : Type :=
| Returns (a : A)
| Panics
| OutOfFuel.
Arguments Returns {A} a.
Arguments Panics {A}.
Arguments OutOfFuel {A}.

Declare Scope anyplug_scope.
Delimit Scope anyplug_scope with anyplug.

(** [e?] on a [Result]: go on with the value, return the error. *)
Notation "'let?' x := c1 'in' c2" :=
  (match c1 with Ok x => c2 | Err e => Err e end)
  (at level 10, x pattern, c1 at level 100, c2 at level 200) : anyplug_scope.

(** Sequencing of computations that may panic or run out of fuel. *)
Notation "'let!' x := c1 'in' c2" :=
  (match c1 with Returns x => c2 | Panics => Panics | OutOfFuel => OutOfFuel end)
  (at level 10, x pattern, c1 at level 100, c2 at level 200) : anyplug_scope.

Open Scope anyplug_scope.

(** [Result::map_err]. *)
Definition map_err {E F A} (f : E -> F) (r : result E A) : result F A :=
  match r with Ok a => Ok a | Err e => Err (f e) end.

(** [Result::ok]. *)
Definition result_ok {E A} (r : result E A) : option A :=
  match r with Ok a => Some a | Err _ => None end.

#[export] Instance byte_eq_dec : EqDecision byte := Byte.byte_eq_dec.
#[export] Instance byte_inhabited : Inhabited byte := populate x00.

(** ** Machine integers *)

(** Wrap-around of an unsigned integer of [w] bits; [as u8], [as u16], [as u32]. *)
Definition wrap (w z : Z) : Z := z mod 2 ^ w.

(** [z as i32] for a 32-bit pattern [z]. *)
Definition to_i32 (z : Z) : Z :=
  let u := wrap 32 z in if u <? 2 ^ 31 then u else u - 2 ^ 32.

Definition is_u8 (z : Z) : Prop := 0 <= z < 2 ^ 8.
Definition is_u16 (z : Z) : Prop := 0 <= z < 2 ^ 16.
Definition is_u32 (z : Z) : Prop := 0 <= z < 2 ^ 32.
Definition is_i32 (z : Z) : Prop := - 2 ^ 31 <= z < 2 ^ 31.

(** [slice.len()] as an integer. *)
Definition zlen {A} (l : list A) : Z := Z.of_nat (length l).

(** ** Bytes *)

(** The value of a byte, and the byte of a value ([as u8]). *)
Definition u8 (b : byte) : Z := Z.of_N (Byte.to_N b).

Definition to_u8 (z : Z) : byte :=
  match Byte.of_N (Z.to_N (wrap 8 z)) with Some b => b | None => x00 end.

(** [to_le_bytes], [from_le_bytes], [to_be_bytes], [from_be_bytes] at [n] bytes. *)
Fixpoint le_bytes (n : nat) (z : Z) : list byte :=
  match n with
  | O => []
  | S n => to_u8 z :: le_bytes n (z / 256)
  end.

Fixpoint le_val (l : list byte) : Z :=
  match l with
  | [] => 0
  | b :: l => u8 b + 256 * le_val l
  end.

Definition be_bytes (n : nat) (z : Z) : list byte := reverse (le_bytes n z).
Definition be_val (l : list byte) : Z := le_val (reverse l).

(** [vec![0u8; n]] and [[0u8; n]]. *)
Definition zeros (n : nat) : list byte := replicate n x00.

(** The UTF-8 bytes of a Rust string, and back: a Rust [String] is modelled by
    the Rocq string that holds its bytes. *)
Definition as_bytes (s : string) : list byte := String.list_byte_of_string s.
Definition of_bytes (l : list byte) : string := String.string_of_list_byte l.

(** Rust [iter().position(|&b| b == 0)]. *)
Fixpoint position_zero (l : list byte) : option nat :=
  match l with
  | [] => None
  | b :: l => if decide (b = x00) then Some O else S <$> position_zero l
  end.

(** ** Reading fixed-size fields from the front of a byte string *)

Definition take_n (n : nat) (l : list byte) : option (list byte * list byte) :=
  if (length l <? n)%nat then None else Some (take n l, drop n l).

Definition take_be (n : nat) (l : list byte) : option (Z * list byte) :=
  '(bs, r) ← take_n n l; Some (be_val bs, r).

Definition take_u8 (l : list byte) : option (byte * list byte) :=
  match l with [] => None | b :: r => Some (b, r) end.

(** What a wire structure of fixed size promises to the code that reads and
    writes it: the two directions of its layout agree, and decoding fails
    exactly on an input that is too short. *)
Class WireCodec (A : Type) : Type := {
  wire_size : nat;
  encode_wire : A -> list byte;
  decode_wire : list byte -> option (A * list byte);
  wire_wf : A -> Prop;
  encode_length : forall a, wire_wf a -> length (encode_wire a) = wire_size;
  decode_encode_wire : forall a l, wire_wf a -> decode_wire (encode_wire a ++ l) = Some (a, l);
  encode_decode_wire : forall l a r, decode_wire l = Some (a, r) -> wire_wf a /\ l = encode_wire a ++ r;
  decode_short : forall l, decode_wire l = None <-> (length l < wire_size)%nat
}.

(** ** Lemmas on machine integers and bytes *)

Lemma u8_range b : 0 <= u8 b < 256.
Proof. unfold u8. pose proof (Byte.to_N_bounded b). lia. Qed.

Lemma u8_to_u8 z : u8 (to_u8 z) = wrap 8 z.
Proof.
  unfold u8, to_u8, wrap.
  assert (0 <= z mod 2 ^ 8 < 256) by (apply Z.mod_pos_bound; lia).
  destruct (Byte.of_N _) eqn:E.
  - apply Byte.to_of_N in E. lia.
  - apply Byte.of_N_None_iff in E. lia.
Qed.

Lemma u8_inj b1 b2 : u8 b1 = u8 b2 -> b1 = b2.
Proof.
  unfold u8. intros H. assert (Byte.to_N b1 = Byte.to_N b2) as E by lia.
  pose proof (Byte.of_to_N b1) as E1. pose proof (Byte.of_to_N b2). congruence.
Qed.

Lemma to_u8_u8 b : to_u8 (u8 b) = b.
Proof. apply u8_inj. rewrite u8_to_u8. apply Z.mod_small, u8_range. Qed.

Lemma wrap_small w z : 0 <= z < 2 ^ w -> wrap w z = z.
Proof. apply Z.mod_small. Qed.

Lemma wrap_range w z : 0 <= w -> 0 <= wrap w z < 2 ^ w.
Proof. intros. apply Z.mod_pos_bound. lia. Qed.

Lemma to_i32_wrap z : is_i32 z -> to_i32 (wrap 32 z) = z.
Proof.
  unfold is_i32, to_i32, wrap. intros H. rewrite Z.mod_mod by lia.
  destruct (decide (0 <= z)) as [Hz|Hz].
  - rewrite Z.mod_small by lia. destruct (Z.ltb_spec z (2 ^ 31)); lia.
  - rewrite (Z.mod_eq z) by lia.
    replace (z / 2 ^ 32) with (-1) by (apply Z.div_unique with (r := z + 2 ^ 32); lia).
    destruct (Z.ltb_spec (z - 2 ^ 32 * -1) (2 ^ 31)); lia.
Qed.

Lemma to_i32_range z : is_i32 (to_i32 z).
Proof.
  unfold is_i32, to_i32. pose proof (wrap_range 32 z).
  destruct (Z.ltb_spec (wrap 32 z) (2 ^ 31)); lia.
Qed.

Lemma wrap_to_i32 z : is_u32 z -> wrap 32 (to_i32 z) = z.
Proof.
  unfold is_u32, to_i32. intros H. rewrite (wrap_small 32 z) by lia.
  destruct (Z.ltb_spec z (2 ^ 31)).
  - apply wrap_small. lia.
  - unfold wrap. rewrite <- (Z.mod_add _ 1) by lia. rewrite Z.mod_small; lia.
Qed.

Lemma length_le_bytes n z : length (le_bytes n z) = n.
Proof. revert z. induction n; intros; simpl; auto. Qed.

Lemma length_be_bytes n z : length (be_bytes n z) = n.
Proof. unfold be_bytes. rewrite length_reverse. apply length_le_bytes. Qed.

Lemma le_val_range l : 0 <= le_val l < 256 ^ zlen l.
Proof.
  unfold zlen. induction l as [|b l IH]; simpl; [lia|].
  pose proof (u8_range b).
  replace (Z.of_nat (S (length l))) with (Z.succ (Z.of_nat (length l))) by lia.
  rewrite Z.pow_succ_r by lia. lia.
Qed.

Lemma be_val_range l : 0 <= be_val l < 256 ^ zlen l.
Proof.
  unfold be_val. pose proof (le_val_range (reverse l)) as H.
  unfold zlen in *. rewrite length_reverse in H. exact H.
Qed.

Lemma le_val_le_bytes n z : 0 <= z < 256 ^ Z.of_nat n -> le_val (le_bytes n z) = z.
Proof.
  revert z. induction n as [|n IH]; intros z Hz; simpl.
  - change (256 ^ Z.of_nat 0) with 1 in Hz. lia.
  - replace (Z.of_nat (S n)) with (Z.succ (Z.of_nat n)) in Hz by lia.
    rewrite Z.pow_succ_r in Hz by lia.
    rewrite u8_to_u8, IH.
    + unfold wrap. pose proof (Z.div_mod z 256). change (2 ^ 8) with 256. lia.
    + split; [apply Z.div_pos; lia|apply Z.div_lt_upper_bound; lia].
Qed.

Lemma le_bytes_le_val l : le_bytes (length l) (le_val l) = l.
Proof.
  induction l as [|b l IH]; simpl; [done|].
  pose proof (u8_range b) as Hb. f_equal.
  - apply u8_inj. rewrite u8_to_u8. unfold wrap. change (2 ^ 8) with 256.
    rewrite (Z.mul_comm 256), Z.mod_add, Z.mod_small by lia. done.
  - rewrite (Z.mul_comm 256), Z.div_add, Z.div_small by lia. exact IH.
Qed.

Lemma be_val_be_bytes n z : 0 <= z < 256 ^ Z.of_nat n -> be_val (be_bytes n z) = z.
Proof. intros. unfold be_val, be_bytes. rewrite reverse_involutive. by apply le_val_le_bytes. Qed.

Lemma be_bytes_be_val n l : length l = n -> be_bytes n (be_val l) = l.
Proof.
  intros <-. unfold be_val, be_bytes.
  rewrite <- (length_reverse l), le_bytes_le_val. apply reverse_involutive.
Qed.

Lemma le_bytes_mod n z : le_bytes n (z mod 256 ^ Z.of_nat n) = le_bytes n z.
Proof.
  revert z. induction n as [|n IH]; intros z; simpl; [done|].
  replace (Z.of_nat (S n)) with (Z.succ (Z.of_nat n)) by lia.
  rewrite Z.pow_succ_r by lia. f_equal.
  - unfold to_u8, wrap. change (2 ^ 8) with 256. do 3 f_equal.
    rewrite Z.rem_mul_r by lia. rewrite Z.mul_comm, Z.mod_add, Z.mod_mod by lia. done.
  - rewrite <- (IH (z / 256)). f_equal.
    rewrite Z.rem_mul_r by lia.
    rewrite Z.add_comm, Z.mul_comm, Z.div_add_l by lia.
    rewrite (Z.div_small (z mod 256)) by (apply Z.mod_pos_bound; lia). lia.
Qed.

(** [to_be_bytes] of a negative number is that of its 32-bit pattern. *)
Lemma be_bytes_wrap32 z : be_bytes 4 (wrap 32 z) = be_bytes 4 z.
Proof.
  unfold be_bytes, wrap. f_equal. change (2 ^ 32) with (256 ^ Z.of_nat 4). apply le_bytes_mod.
Qed.

Lemma length_zeros n : length (zeros n) = n.
Proof. apply length_replicate. Qed.

Lemma as_bytes_of_bytes l : as_bytes (of_bytes l) = l.
Proof. apply String.list_byte_of_string_of_list_byte. Qed.

Lemma of_bytes_as_bytes s : of_bytes (as_bytes s) = s.
Proof. apply String.string_of_list_byte_of_string. Qed.

Lemma zlen_app {A} (l1 l2 : list A) : zlen (l1 ++ l2) = zlen l1 + zlen l2.
Proof. unfold zlen. rewrite length_app. lia. Qed.

Lemma zlen_nonneg {A} (l : list A) : 0 <= zlen l.
Proof. unfold zlen. lia. Qed.

Lemma zlen_nil_iff {A} (l : list A) : zlen l = 0 <-> l = [].
Proof. unfold zlen. destruct l; simpl; split; intros; (done || lia). Qed.

(** ** Lemmas on the field readers *)

Lemma take_n_app n a l : length a = n -> take_n n (a ++ l) = Some (a, l).
Proof.
  intros <-. unfold take_n. rewrite length_app.
  destruct (Nat.ltb_spec (length a + length l) (length a)); [lia|].
  by rewrite take_app_length, drop_app_length.
Qed.

Lemma take_n_Some n l a r : take_n n l = Some (a, r) <-> l = a ++ r /\ length a = n.
Proof.
  split.
  - unfold take_n. destruct (Nat.ltb_spec (length l) n); intros [= <- <-].
    rewrite take_drop, length_take. split; [done|lia].
  - intros [-> <-]. by apply take_n_app.
Qed.

Lemma take_n_None n l : take_n n l = None <-> (length l < n)%nat.
Proof. unfold take_n. destruct (Nat.ltb_spec (length l) n); split; intros; (done || lia). Qed.

Lemma take_be_app n z l :
  0 <= z < 256 ^ Z.of_nat n -> take_be n (be_bytes n z ++ l) = Some (z, l).
Proof.
  intros. unfold take_be. rewrite take_n_app by apply length_be_bytes. simpl.
  by rewrite be_val_be_bytes.
Qed.

Lemma take_be_Some n l z r :
  take_be n l = Some (z, r) -> l = be_bytes n z ++ r /\ 0 <= z < 256 ^ Z.of_nat n.
Proof.
  unfold take_be. destruct (take_n n l) as [[a r']|] eqn:E; [|done].
  simpl. intros [= <- <-]. apply take_n_Some in E as [-> Hl].
  rewrite be_bytes_be_val by done. split; [done|].
  pose proof (be_val_range a). unfold zlen in *. by rewrite Hl in *.
Qed.

Lemma take_be_None n l : take_be n l = None <-> (length l < n)%nat.
Proof.
  unfold take_be. destruct (take_n n l) as [[a r]|] eqn:E; simpl.
  - apply take_n_Some in E as [-> <-]. rewrite length_app. split; intros; (done || lia).
  - by rewrite take_n_None in E.
Qed.

(** ** Automation *)

Create HintDb anyplug discriminated.
#[export] Hint Resolve u8_range wrap_range to_i32_range be_val_range zlen_nonneg : anyplug.
Create Rewrite HintDb anyplug_len.
#[export] Hint Rewrite @length_app @length_nil @length_cons @length_replicate length_le_bytes
  length_be_bytes length_zeros @length_take @length_drop @length_reverse : anyplug_len.

(** Computes the lengths of concatenated fields. *)
Ltac len_simpl := autorewrite with anyplug_len in *; simpl length in *.
Ltac len_solve := len_simpl; lia.

(** Evaluates a chain of field readers on a concatenation of encoded fields. *)
Ltac decode_fields :=
  rewrite <- ?app_assoc;
  repeat (first
    [ rewrite take_be_app by lia
    | rewrite take_n_app by (first [assumption | len_solve])
    | progress cbn [mbind option_bind take_u8 app] ]).

(** Reads off a successful (or failed) chain of field readers what the input was. *)
Ltac invert_reads :=
  repeat match goal with
  | H : context [take_be ?n ?l ≫= _] |- _ =>
      let E := fresh "E" in destruct (take_be n l) as [[? ?]|] eqn:E; cbn [mbind option_bind] in H; [|try done]
  | H : context [take_n ?n ?l ≫= _] |- _ =>
      let E := fresh "E" in destruct (take_n n l) as [[? ?]|] eqn:E; cbn [mbind option_bind] in H; [|try done]
  | H : context [take_u8 ?l ≫= _] |- _ =>
      let E := fresh "E" in destruct l as [|? ?] eqn:E; cbn [mbind option_bind take_u8] in H; [try done|]
  end.

(** Case analysis on the comparison or the match that blocks the goal. *)
Ltac case_bool :=
  match goal with
  | |- context [Z.eqb ?a ?b] => destruct (Z.eqb_spec a b)
  | |- context [Z.ltb ?a ?b] => destruct (Z.ltb_spec a b)
  | |- context [Z.leb ?a ?b] => destruct (Z.leb_spec a b)
  | |- context [Nat.ltb ?a ?b] => destruct (Nat.ltb_spec a b)
  | |- context [Nat.leb ?a ?b] => destruct (Nat.leb_spec a b)
  end.

(** What a chain of readers that stopped early, or did not, says of the length. *)
Ltac reads_length :=
  repeat match goal with
  | E : take_be _ _ = Some _ |- _ => apply take_be_Some in E as [-> ?]
  | E : take_n _ _ = Some _ |- _ => apply take_n_Some in E as [-> ?]
  | E : take_be _ _ = None |- _ => apply take_be_None in E
  | E : take_n _ _ = None |- _ => apply take_n_None in E
  end; subst; len_simpl.

#[global] Arguments be_bytes : simpl never.
#[global] Arguments be_val : simpl never.
#[global] Arguments le_bytes : simpl never.
#[global] Arguments le_val : simpl never.
#[global] Arguments take_be : simpl never.
#[global] Arguments take_n : simpl never.
#[global] Arguments zeros : simpl never.
#[global] Arguments wrap : simpl never.
#[global] Arguments to_i32 : simpl never.
#[global] Arguments u8 : simpl never.
#[global] Arguments to_u8 : simpl never.
#[global] Arguments zlen : simpl never.
#[global] Opaque be_bytes be_val le_bytes take_be take_n.

Lemma filter_none {A} (P : A -> Prop) `{!forall x, Decision (P x)} l : Forall (fun x => ~ P x) l -> filter P l = [].
Proof. induction 1 as [|x l Hx Hl IH]; [done|]. by rewrite filter_cons_False. Qed.
