(* ===== verification/RustStd.v ===== *)
(** * The parts of Rust's standard library the sources use

    UTF-8 validation ([core::str::from_utf8]) and its lossy variant
    ([String::from_utf8_lossy]), [str::split], [str::parse] for unsigned integers,
    [from_str_radix], and the hexadecimal formats. *)

From Stdlib Require Import Ascii.
From S2P Require Import Prelude.

(** ** UTF-8 *)

(** Number of bytes of the character that starts with byte value [b0] and the
    range its second byte must lie in; [None] for a byte that starts none of
    the multi-byte forms. *)
Definition utf8_second (b0 : Z) : option (nat * Z * Z) :=
  if (0xC2 <=? b0) && (b0 <=? 0xDF) then Some (2%nat, 0x80, 0xBF)
  else if b0 =? 0xE0 then Some (3%nat, 0xA0, 0xBF)
  else if b0 =? 0xED then Some (3%nat, 0x80, 0x9F)
  else if (0xE1 <=? b0) && (b0 <=? 0xEF) then Some (3%nat, 0x80, 0xBF)
  else if b0 =? 0xF0 then Some (4%nat, 0x90, 0xBF)
  else if (0xF1 <=? b0) && (b0 <=? 0xF3) then Some (4%nat, 0x80, 0xBF)
  else if b0 =? 0xF4 then Some (4%nat, 0x80, 0x8F)
  else None.

(** How many of the first [n] bytes are continuation bytes. *)
Fixpoint continuation (n : nat) (l : list byte) : nat :=
  match n, l with
  | S n, b :: l => if (0x80 <=? u8 b) && (u8 b <=? 0xBF) then S (continuation n l) else O
  | _, _ => O
  end.

(** The first character of [l]: [inl n] for a valid one of [n] bytes, [inr n]
    for an ill-formed prefix of [n] bytes (the maximal one). *)
Definition utf8_char (b0 : byte) (rest : list byte) : nat + nat :=
  if u8 b0 <? 0x80 then inl 1%nat
  else match utf8_second (u8 b0), rest with
       | Some (w, lo, hi), b1 :: rest' =>
           if (lo <=? u8 b1) && (u8 b1 <=? hi) then
             let k := continuation (w - 2) rest' in
             if (k =? w - 2)%nat then inl w else inr (2 + k)%nat
           else inr 1%nat
       | _, _ => inr 1%nat
       end.

(** Walks over the characters; [fuel] bounds their number. *)
Fixpoint utf8_valid_go (fuel : nat) (l : list byte) : bool :=
  match fuel, l with
  | _, [] => true
  | O, _ => false
  | S fuel, b :: rest =>
      match utf8_char b rest with
      | inl n => utf8_valid_go fuel (drop n l)
      | inr _ => false
      end
  end.

Definition utf8_valid (l : list byte) : bool := utf8_valid_go (length l) l.

(** [core::str::from_utf8]. *)
Definition from_utf8 (l : list byte) : option string :=
  if utf8_valid l then Some (of_bytes l) else None.

(** U+FFFD in UTF-8. *)
Definition replacement : list byte := [xef; xbf; xbd].

Fixpoint utf8_lossy_go (fuel : nat) (l : list byte) : list byte :=
  match fuel, l with
  | _, [] => []
  | O, _ => []
  | S fuel, b :: rest =>
      match utf8_char b rest with
      | inl n => take n l ++ utf8_lossy_go fuel (drop n l)
      | inr n => replacement ++ utf8_lossy_go fuel (drop n l)
      end
  end.

(** [String::from_utf8_lossy]. *)
Definition from_utf8_lossy (l : list byte) : string := of_bytes (utf8_lossy_go (length l) l).

(** ** Strings *)

(** [s.split(c).collect::<Vec<_>>()]. *)
Fixpoint split_on (c : ascii) (s : string) : list string :=
  match s with
  | EmptyString => [EmptyString]
  | String a s =>
      if decide (a = c) then EmptyString :: split_on c s
      else match split_on c s with
           | p :: ps => String a p :: ps
           | [] => [String a EmptyString]
           end
  end.

(** [s.contains(c)] for a character. *)
Fixpoint contains_char (c : ascii) (s : string) : bool :=
  match s with
  | EmptyString => false
  | String a s => bool_decide (a = c) || contains_char c s
  end.

(** [s.contains(pat)] for a string. *)
Fixpoint contains_str (pat s : string) : bool :=
  String.prefix pat s
  || match s with EmptyString => false | String _ s => contains_str pat s end.

(** [line.strip_suffix('\r')], or the line itself. *)
Fixpoint strip_cr (s : string) : string :=
  match s with
  | EmptyString => EmptyString
  | String "013" EmptyString => EmptyString
  | String a s => String a (strip_cr s)
  end.

(** [s.lines()]: the pieces that end in a newline lose it and a carriage return
    before it, a last piece without one is a line when it is not empty. *)
Fixpoint lines_of_pieces (ps : list string) : list string :=
  match ps with
  | [] => []
  | [last] => if decide (last = EmptyString) then [] else [last]
  | p :: ps => strip_cr p :: lines_of_pieces ps
  end.

Definition lines (s : string) : list string := lines_of_pieces (split_on "010" s).

(** ** Numbers *)

(** [char::to_digit(radix)]. *)
Definition to_digit (radix : Z) (a : ascii) : option Z :=
  let n := Z.of_N (Ascii.N_of_ascii a) in
  let d := if (48 <=? n) && (n <=? 57) then n - 48
           else if (97 <=? n) && (n <=? 122) then n - 97 + 10
           else if (65 <=? n) && (n <=? 90) then n - 65 + 10
           else 99 in
  if d <? radix then Some d else None.

Fixpoint parse_digits (radix max acc : Z) (s : string) : option Z :=
  match s with
  | EmptyString => Some acc
  | String a s =>
      match to_digit radix a with
      | Some d =>
          let acc' := acc * radix + d in
          if max <? acc' then None else parse_digits radix max acc' s
      | None => None
      end
  end.

(** [uN::from_str_radix(s, radix)] for the unsigned type of maximum [max]; a
    leading [+] is accepted, an empty digit string is not. *)
Definition from_str_radix (radix max : Z) (s : string) : option Z :=
  match s with
  | EmptyString => None
  | String a rest =>
      if decide (a = "+"%char) then
        match rest with EmptyString => None | _ => parse_digits radix max 0 rest end
      else parse_digits radix max 0 s
  end.

(** [s.parse::<u8>()]. *)
Definition parse_u8 (s : string) : option Z := from_str_radix 10 255 s.

Definition hex_digit (d : Z) : ascii :=
  Ascii.ascii_of_N (Z.to_N (if d <? 10 then 48 + d else 87 + d)).

(** [format!("{:0nx}", z)] for [z < 16 ^ n]. *)
Fixpoint hex_pad (n : nat) (z : Z) : string :=
  match n with
  | O => EmptyString
  | S n => hex_pad n (z / 16) +:+ String (hex_digit (z mod 16)) EmptyString
  end.

(** ** Lemmas *)

Definition is_ascii (l : list byte) : Prop := Forall (fun b => u8 b < 128) l.

Lemma as_bytes_app s1 s2 : as_bytes (s1 +:+ s2) = as_bytes s1 ++ as_bytes s2.
Proof.
  unfold as_bytes, String.list_byte_of_string. rewrite <- map_app. f_equal.
  induction s1 as [|a s1 IH]; [done|].
  change (String a s1 +:+ s2) with (String a (s1 +:+ s2)). simpl. by rewrite IH.
Qed.

Lemma length_as_bytes s : length (as_bytes s) = String.length s.
Proof.
  induction s as [|a s IH]; [done|]. change (S (length (as_bytes s)) = S (String.length s)). by rewrite IH.
Qed.

Lemma utf8_char_ascii b rest : u8 b < 128 -> utf8_char b rest = inl 1%nat.
Proof. intros. unfold utf8_char. destruct (Z.ltb_spec (u8 b) 128); [done|lia]. Qed.

Lemma utf8_char_inl b rest n : utf8_char b rest = inl n -> (1 <= n <= length (b :: rest))%nat.
Proof.
  unfold utf8_char. assert (Hc : forall m l, (continuation m l <= length l)%nat).
  { induction m; destruct l; simpl; try lia. destruct (_ && _); [|lia]. specialize (IHm l). lia. }
  assert (Hw : forall w lo hi, utf8_second (u8 b) = Some (w, lo, hi) -> (2 <= w)%nat).
  { unfold utf8_second. intros. repeat (destruct (_ && _) || destruct (_ =? _)); naive_solver lia. }
  case_bool; [intros [= <-]; simpl; lia|].
  destruct (utf8_second _) as [[[w lo] hi]|]; [|done]. specialize (Hw w lo hi eq_refl).
  destruct rest as [|b1 rest']; [done|]. destruct (_ && _); [|done].
  specialize (Hc (w - 2)%nat rest'). destruct (Nat.eqb_spec (continuation (w - 2) rest') (w - 2)); [|done].
  intros [= <-]. simpl. lia.
Qed.

(** On valid UTF-8 the lossy conversion changes nothing. *)
Lemma utf8_lossy_valid fuel l :
  (length l <= fuel)%nat -> utf8_valid_go fuel l = true -> utf8_lossy_go fuel l = l.
Proof.
  revert l. induction fuel as [|fuel IH]; intros [|b rest] Hf; simpl; try done.
  destruct (utf8_char b rest) as [n|n] eqn:E; [|done].
  apply utf8_char_inl in E. simpl in E, Hf. intros H. rewrite IH; [|len_solve|done].
  apply (take_drop n (b :: rest)).
Qed.

Lemma from_utf8_lossy_valid l : utf8_valid l = true -> from_utf8_lossy l = of_bytes l.
Proof. intros. unfold from_utf8_lossy. rewrite utf8_lossy_valid; done. Qed.

Lemma utf8_valid_ascii l : is_ascii l -> utf8_valid l = true.
Proof.
  unfold utf8_valid. induction 1 as [|b l Hb Hl IH]; [done|].
  cbn [length utf8_valid_go]. rewrite utf8_char_ascii by done. simpl. by rewrite drop_0.
Qed.

Lemma split_on_nonempty c s : split_on c s <> [].
Proof. destruct s; simpl; [done|]. case_decide; [done|]. by destruct (split_on c s). Qed.

Lemma split_on_none c s : contains_char c s = false -> split_on c s = [s].
Proof.
  induction s as [|a s IH]; simpl; [done|].
  rewrite orb_false_iff. intros [Ha Hs]. rewrite bool_decide_eq_false in Ha.
  rewrite decide_False by done. by rewrite IH.
Qed.

Lemma split_on_app c s1 s2 :
  contains_char c s1 = false -> split_on c (s1 +:+ String c s2) = s1 :: split_on c s2.
Proof.
  induction s1 as [|a s1 IH]; intros H.
  - change ("" +:+ String c s2) with (String c s2). simpl. by rewrite decide_True.
  - change (String a s1 +:+ String c s2) with (String a (s1 +:+ String c s2)).
    simpl in *. rewrite orb_false_iff in H. destruct H as [Ha Hs].
    rewrite bool_decide_eq_false in Ha. rewrite decide_False by done. by rewrite IH.
Qed.
