(* ===== verification/Text.v ===== *)
(** * Numbers as text

    What [format!] prints for an unsigned number, in decimal and in padded
    hexadecimal, is read back by [from_str_radix] and by the digit reader of the
    address parser.  The lemmas go through the list of digits of a text. *)

From Stdlib Require Import Ascii.
From S2P Require Import Prelude RustStd.

(** ** Digit strings *)

Fixpoint digit_string (ds : list Z) : string :=
  match ds with
  | [] => EmptyString
  | d :: ds => String (hex_digit d) (digit_string ds)
  end.

Definition digits_from (radix acc : Z) (ds : list Z) : Z := fold_left (fun a d => a * radix + d) ds acc.
Definition digits_val (radix : Z) (ds : list Z) : Z := digits_from radix 0 ds.

(** The digits at the front of a text, and what follows them. *)
Fixpoint span_digits (radix : Z) (s : string) : list Z * string :=
  match s with
  | EmptyString => ([], EmptyString)
  | String a s' =>
      match to_digit radix a with
      | Some d => let '(ds, rest) := span_digits radix s' in (d :: ds, rest)
      | None => ([], s)
      end
  end.

Definition no_digit_first (radix : Z) (s : string) : bool :=
  match s with EmptyString => true | String a _ => bool_decide (to_digit radix a = None) end.

Definition are_digits (radix : Z) (ds : list Z) : Prop := Forall (fun d => 0 <= d < radix) ds.

(** ** Lemmas *)

Lemma string_app_cons a s1 s2 : String a s1 +:+ s2 = String a (s1 +:+ s2).
Proof. reflexivity. Qed.

Lemma string_app_nil s : EmptyString +:+ s = s.
Proof. reflexivity. Qed.

Lemma string_app_nil_r s : s +:+ EmptyString = s.
Proof. induction s as [|a s IH]; [done|]. by rewrite string_app_cons, IH. Qed.

Lemma string_app_assoc s1 s2 s3 : (s1 +:+ s2) +:+ s3 = s1 +:+ (s2 +:+ s3).
Proof. induction s1 as [|a s1 IH]; [done|]. by rewrite !string_app_cons, IH. Qed.

Lemma string_length_app s1 s2 : String.length (s1 +:+ s2) = (String.length s1 + String.length s2)%nat.
Proof. induction s1 as [|a s1 IH]; [done|]. rewrite string_app_cons. simpl. by rewrite IH. Qed.

Lemma string_app_inj_r t s1 s2 : s1 +:+ t = s2 +:+ t -> s1 = s2.
Proof.
  revert s2. induction s1 as [|a s1 IH]; intros s2 H; destruct s2 as [|b s2]; [done|exfalso|exfalso|].
  1, 2: apply (f_equal String.length) in H; rewrite !string_length_app in H; simpl in H; lia.
  rewrite !string_app_cons in H. injection H as -> H. by rewrite (IH s2 H).
Qed.

Lemma contains_char_app c s1 s2 : contains_char c (s1 +:+ s2) = contains_char c s1 || contains_char c s2.
Proof.
  induction s1 as [|a s1 IH]; [done|]. rewrite string_app_cons. simpl. by rewrite IH, orb_assoc.
Qed.

Lemma digit_string_app ds1 ds2 : digit_string (ds1 ++ ds2) = digit_string ds1 +:+ digit_string ds2.
Proof. induction ds1 as [|d ds1 IH]; [done|]. simpl. by rewrite IH. Qed.

Lemma length_digit_string ds : String.length (digit_string ds) = length ds.
Proof. induction ds as [|d ds IH]; [done|]. simpl. by rewrite IH. Qed.

Lemma digit_cases d : 0 <= d < 16 ->
  d = 0 \/ d = 1 \/ d = 2 \/ d = 3 \/ d = 4 \/ d = 5 \/ d = 6 \/ d = 7 \/ d = 8 \/ d = 9 \/
  d = 10 \/ d = 11 \/ d = 12 \/ d = 13 \/ d = 14 \/ d = 15.
Proof. lia. Qed.

Lemma to_digit_hex radix d : 0 <= d < radix -> radix <= 16 -> to_digit radix (hex_digit d) = Some d.
Proof.
  intros Hd Hr. assert (Hd16 : 0 <= d < 16) by lia.
  assert (H16 : to_digit 16 (hex_digit d) = Some d) by
    (destruct (digit_cases d Hd16) as [->|Hc]; [done|]; repeat (destruct Hc as [->|Hc]; [done|]); by subst).
  unfold to_digit in *. destruct (_ <? 16); [|done]. injection H16 as H16. rewrite H16.
  by rewrite (proj2 (Z.ltb_lt d radix)) by lia.
Qed.

Lemma hex_digit_not c d :
  0 <= d < 16 -> to_digit 16 c = None -> bool_decide (hex_digit d = c) = false.
Proof.
  intros Hd Hc. apply bool_decide_eq_false. intros <-. rewrite to_digit_hex in Hc; [done|lia..].
Qed.

Lemma digit_string_no_char c radix ds :
  are_digits radix ds -> radix <= 16 -> to_digit 16 c = None -> contains_char c (digit_string ds) = false.
Proof.
  intros Hds Hr Hc. induction Hds as [|d ds Hd _ IH]; [done|]. simpl.
  rewrite hex_digit_not by (done || lia). by rewrite IH.
Qed.

Lemma span_digit_string radix ds rest :
  are_digits radix ds -> radix <= 16 -> no_digit_first radix rest = true ->
  span_digits radix (digit_string ds +:+ rest) = (ds, rest).
Proof.
  intros Hds Hr Hn. induction Hds as [|d ds Hd _ IH].
  - rewrite string_app_nil. destruct rest as [|a rest]; [done|]. simpl in *.
    apply bool_decide_eq_true in Hn. by rewrite Hn.
  - simpl digit_string. rewrite string_app_cons. simpl. rewrite to_digit_hex by done. by rewrite IH.
Qed.

Lemma digits_from_ge radix acc ds : 0 < radix -> 0 <= acc -> are_digits radix ds -> acc <= digits_from radix acc ds.
Proof.
  intros Hr. revert acc. induction ds as [|d ds IH]; intros acc Hacc Hds; [done|].
  inversion Hds as [|?? Hd Hds']; subst. simpl. transitivity (acc * radix + d); [nia|].
  apply IH; [nia|done].
Qed.

Lemma parse_digit_string radix max acc ds :
  are_digits radix ds -> 0 < radix <= 16 -> 0 <= acc -> digits_from radix acc ds <= max ->
  parse_digits radix max acc (digit_string ds) = Some (digits_from radix acc ds).
Proof.
  intros Hds Hr. revert acc. induction Hds as [|d ds Hd Hds IH]; intros acc Hacc Hmax; [done|].
  simpl. rewrite to_digit_hex by lia. simpl in Hmax.
  assert (acc * radix + d <= max).
  { etrans; [|exact Hmax]. apply digits_from_ge; [lia|nia|done]. }
  rewrite (proj2 (Z.ltb_ge max _)) by lia. apply IH; [nia|done].
Qed.

Lemma from_digit_string radix max ds :
  are_digits radix ds -> 0 < radix <= 16 -> ds <> [] -> digits_val radix ds <= max ->
  from_str_radix radix max (digit_string ds) = Some (digits_val radix ds).
Proof.
  intros Hds Hr Hne Hmax. unfold from_str_radix. destruct ds as [|d ds]; [done|].
  assert (Hd : 0 <= d < radix) by (by inversion Hds).
  change (digit_string (d :: ds)) with (String (hex_digit d) (digit_string ds)).
  cbv beta iota. rewrite decide_False.
  - change (String (hex_digit d) (digit_string ds)) with (digit_string (d :: ds)).
    by apply parse_digit_string.
  - apply (bool_decide_eq_false_1 (hex_digit d = "+"%char)). apply hex_digit_not; [lia|done].
Qed.

Lemma to_digit_nonneg radix a d : to_digit radix a = Some d -> 0 <= d.
Proof.
  unfold to_digit. set (n := Z.of_N (N_of_ascii a)). destruct (_ <? radix); [|done]. intros [= <-].
  destruct (Z.leb_spec 48 n), (Z.leb_spec n 57), (Z.leb_spec 97 n), (Z.leb_spec n 122), (Z.leb_spec 65 n), (Z.leb_spec n 90);
    simpl; lia.
Qed.

Lemma parse_digits_range radix max acc s v :
  0 < radix -> 0 <= acc <= max -> parse_digits radix max acc s = Some v -> 0 <= v <= max.
Proof.
  intros Hr. revert acc. induction s as [|a s IH]; intros acc Hacc; simpl; [by intros [= <-]|].
  destruct (to_digit radix a) as [d|] eqn:Ed; [|done]. destruct (Z.ltb_spec max (acc * radix + d)); [done|].
  apply to_digit_nonneg in Ed. apply IH. assert (0 <= acc * radix) by (apply Z.mul_nonneg_nonneg; lia). lia.
Qed.

Lemma from_str_radix_range radix max s v : 0 < radix /\ 0 <= max -> from_str_radix radix max s = Some v -> 0 <= v <= max.
Proof.
  intros [Hr Hm]. unfold from_str_radix. destruct s as [|a s]; [done|].
  case_decide; [destruct s; [done|]|]; apply parse_digits_range; lia.
Qed.

(** *** Decimal *)

Lemma pretty_N_char_hex x : (x < 10)%N -> pretty_N_char x = hex_digit (Z.of_N x).
Proof.
  intros Hx. assert (x = 0 \/ x = 1 \/ x = 2 \/ x = 3 \/ x = 4 \/ x = 5 \/ x = 6 \/ x = 7 \/ x = 8 \/ x = 9)%N
    as Hc by lia. repeat (destruct Hc as [->|Hc]; [done|]). by subst.
Qed.

Lemma pretty_N_go_digits x s :
  exists ds, pretty_N_go x s = digit_string ds +:+ s /\ are_digits 10 ds /\ digits_val 10 ds = Z.of_N x
  /\ (x <> 0%N -> ds <> [] /\ hd 0 ds <> 0)
  /\ forall n, Z.of_N x < 10 ^ Z.of_nat n -> (length ds <= n)%nat.
Proof.
  revert s. induction (N.lt_wf_0 x) as [x _ IH]; intros s. destruct (decide (x = 0%N)) as [->|Hx].
  { exists []. split_and!; [done|constructor|done|done|]. simpl. lia. }
  rewrite pretty_N_go_step by lia. assert (Hlt : (x / 10 < x)%N) by (apply N.div_lt; lia).
  destruct (IH _ Hlt (String (pretty_N_char (x mod 10)) s)) as (ds & -> & Hds & Hv & Hhd & Hlen).
  assert (Hm : (x mod 10 < 10)%N) by (apply N.mod_lt; lia).
  assert (Hxe : Z.of_N x = Z.of_N (x / 10) * 10 + Z.of_N (x mod 10)).
  { pose proof (N.div_mod x 10). lia. }
  generalize dependent (x mod 10)%N. generalize dependent (x / 10)%N. intros q Hq Hv Hhd Hlen m Hm Hxe.
  exists (ds ++ [Z.of_N m]). split_and!.
  - rewrite digit_string_app, string_app_assoc. simpl digit_string. rewrite string_app_cons, string_app_nil.
    by rewrite pretty_N_char_hex.
  - apply Forall_app. split; [done|]. constructor; [lia|constructor].
  - unfold digits_val, digits_from in *. rewrite fold_left_app, Hv. simpl. lia.
  - intros _. split; [by destruct ds|]. destruct (decide (q = 0)%N) as [E|E].
    + assert (Hnil : ds = []).
      { specialize (Hlen O). rewrite E in Hlen. simpl in Hlen. destruct ds; [done|simpl in Hlen; lia]. }
      subst ds. simpl. lia.
    + destruct (Hhd E) as [Hne H0]. by destruct ds.
  - intros n Hn. rewrite length_app. simpl. destruct n as [|n]; [simpl in Hn; lia|].
    rewrite Nat2Z.inj_succ, Z.pow_succ_r in Hn by lia. specialize (Hlen n). lia.
Qed.

(** The decimal form of a number: its digits, without a leading zero. *)
Lemma pretty_digits z :
  0 <= z ->
  exists ds, pretty z = digit_string ds /\ are_digits 10 ds /\ digits_val 10 ds = z /\ ds <> []
  /\ (hd 0 ds = 0 -> ds = [0]) /\ forall n, (0 < n)%nat -> z < 10 ^ Z.of_nat n -> (length ds <= n)%nat.
Proof.
  intros Hz. assert (Hp : pretty z = pretty (Z.to_N z)) by (destruct z; [done|done|lia]).
  rewrite Hp. unfold pretty at 1, pretty_N. case_decide as E.
  - exists [0]. split_and!; try done.
    + constructor; [lia|constructor].
    + unfold digits_val; simpl; lia.
  - destruct (pretty_N_go_digits (Z.to_N z) "") as (ds & Hs & Hds & Hv & Hhd & Hlen).
    rewrite string_app_nil_r in Hs. destruct (Hhd E) as [Hne H0].
    exists ds. split_and!; try done; [lia|]. intros n _ Hn. apply Hlen. lia.
Qed.

Lemma parse_pretty max z : 0 <= z <= max -> from_str_radix 10 max (pretty z) = Some z.
Proof.
  intros Hz. destruct (pretty_digits z) as (ds & -> & Hds & Hv & Hne & _); [lia|].
  rewrite <- Hv. apply from_digit_string; [done|lia|done|lia].
Qed.

Lemma pretty_no_char c z : 0 <= z -> to_digit 16 c = None -> contains_char c (pretty z) = false.
Proof.
  intros Hz Hc. destruct (pretty_digits z Hz) as (ds & -> & Hds & _). by eapply digit_string_no_char.
Qed.

(** *** Padded hexadecimal *)

Lemma hex_pad_digits n z :
  0 <= z < 16 ^ Z.of_nat n ->
  exists ds, hex_pad n z = digit_string ds /\ length ds = n /\ are_digits 16 ds /\ digits_val 16 ds = z.
Proof.
  revert z. induction n as [|n IH]; intros z Hz.
  - exists []. split_and!; try done; [constructor|]. unfold digits_val. simpl in *. lia.
  - rewrite Nat2Z.inj_succ, Z.pow_succ_r in Hz by lia.
    pose proof (Z.div_mod z 16 ltac:(lia)). pose proof (Z.mod_pos_bound z 16 ltac:(lia)).
    destruct (IH (z / 16)) as (ds & Hs & Hl & Hds & Hv).
    { split; [apply Z.div_pos; lia|]. apply Z.div_lt_upper_bound; lia. }
    exists (ds ++ [z mod 16]). split_and!.
    + simpl. by rewrite Hs, digit_string_app.
    + rewrite length_app, Hl. simpl. lia.
    + apply Forall_app. split; [done|]. constructor; [cbv beta; lia|constructor].
    + unfold digits_val, digits_from in *. rewrite fold_left_app, Hv. simpl. lia.
Qed.

Lemma length_hex_pad n z : String.length (hex_pad n z) = n.
Proof. revert z. induction n as [|n IH]; intros z; [done|]. simpl. rewrite string_length_app, IH. simpl. lia. Qed.

Lemma parse_hex_pad n max z :
  (0 < n)%nat -> 0 <= z < 16 ^ Z.of_nat n -> z <= max -> from_str_radix 16 max (hex_pad n z) = Some z.
Proof.
  intros Hn Hz Hmax. destruct (hex_pad_digits n z Hz) as (ds & -> & Hl & Hds & Hv).
  rewrite <- Hv. apply from_digit_string; [done|lia| |lia]. intros ->. simpl in Hl. lia.
Qed.

Lemma hex_pad_no_char c n z :
  0 <= z < 16 ^ Z.of_nat n -> to_digit 16 c = None -> contains_char c (hex_pad n z) = false.
Proof.
  intros Hz Hc. destruct (hex_pad_digits n z Hz) as (ds & -> & _ & Hds & _). by eapply digit_string_no_char.
Qed.
