(* ===== verification/NetAddr.v ===== *)
(** * Socket addresses as text

    The parts of [std::net] that the sources rely on: [SocketAddr], its
    [FromStr] and its [Display], for both address families.  The parser is the
    recursive descent parser of the standard library; each function returns the
    rest of the text, and fails without consuming anything. *)

From Stdlib Require Import Ascii.
From S2P Require Import Prelude RustStd Text.

Inductive IpAddr :=
| IpV4 (a b c d : Z)
| IpV6 (segments : list Z).

Record SocketAddr := { sa_ip : IpAddr; sa_scope_id : Z; sa_port : Z }.

#[export] Instance IpAddr_eq_dec : EqDecision IpAddr.
Proof. solve_decision. Defined.

#[export] Instance SocketAddr_eq_dec : EqDecision SocketAddr.
Proof. solve_decision. Defined.

Definition ip_wf (ip : IpAddr) : Prop :=
  match ip with
  | IpV4 a b c d => is_u8 a /\ is_u8 b /\ is_u8 c /\ is_u8 d
  | IpV6 segments => length segments = 8%nat /\ Forall is_u16 segments
  end.

(** ** Parsing *)

Definition parser (A : Type) : Type := string -> option (A * string).

Definition read_given_char (c : ascii) : parser unit := fun s =>
  match s with
  | String a s => if decide (a = c) then Some (tt, s) else None
  | EmptyString => None
  end.

(** [read_number]: digits up to [max], at most [max_digits] of them when given. *)
Definition read_number (radix max : Z) (max_digits : option nat) (allow_zero_prefix : bool) : parser Z := fun s =>
  let '(ds, rest) := span_digits radix s in
  let v := digits_val radix ds in
  if bool_decide (ds = []) then None
  else if match max_digits with Some n => (n <? length ds)%nat | None => false end then None
  else if negb allow_zero_prefix && (hd 0 ds =? 0) && (1 <? length ds)%nat then None
  else if max <? v then None
  else Some (v, rest).

(** [read_separator] at index [i]. *)
Definition read_separator {A} (sep : ascii) (i : nat) (inner : parser A) : parser A := fun s =>
  match i with
  | O => inner s
  | S _ => match read_given_char sep s with Some (_, s) => inner s | None => None end
  end.

Fixpoint read_octets (i n : nat) : parser (list Z) := fun s =>
  match n with
  | O => Some ([], s)
  | S n =>
      match read_separator "." i (read_number 10 255 (Some 3%nat) false) s with
      | Some (o, s) =>
          match read_octets (S i) n s with Some (os, s) => Some (o :: os, s) | None => None end
      | None => None
      end
  end.

Definition read_ipv4_addr : parser (list Z) := read_octets 0 4.

(** [read_groups] for the [room] groups from index [i] on; tells whether an IPv4
    address ended them. *)
Fixpoint read_groups (i room : nat) (s : string) : list Z * bool * string :=
  match room with
  | O => ([], false, s)
  | S room =>
      match (match room with O => None | S _ => read_separator ":" i read_ipv4_addr s end) with
      | Some ([a; b; c; d], s) => ([a * 256 + b; c * 256 + d], true, s)
      | _ =>
          match read_separator ":" i (read_number 16 65535 (Some 4%nat) true) s with
          | Some (g, s) => let '(gs, v4, s) := read_groups (S i) room s in (g :: gs, v4, s)
          | None => ([], false, s)
          end
      end
  end.

Definition read_ipv6_addr : parser (list Z) := fun s =>
  let '(head, head_ipv4, s) := read_groups 0 8 s in
  if (length head =? 8)%nat then Some (head, s)
  else if head_ipv4 then None
  else match read_given_char ":" s with
       | Some (_, s) =>
           match read_given_char ":" s with
           | Some (_, s) =>
               let '(tail, _, s) := read_groups 0 (8 - (length head + 1)) s in
               Some (head ++ replicate (8 - length head - length tail) 0 ++ tail, s)
           | None => None
           end
       | None => None
       end.

Definition read_port : parser Z := fun s =>
  match read_given_char ":" s with Some (_, s) => read_number 10 65535 None true s | None => None end.

Definition read_scope_id : parser Z := fun s =>
  match read_given_char "%" s with Some (_, s) => read_number 10 (2 ^ 32 - 1) None true s | None => None end.

Definition read_socket_addr_v4 : parser SocketAddr := fun s =>
  match read_ipv4_addr s with
  | Some ([a; b; c; d], s) =>
      match read_port s with
      | Some (port, s) => Some ({| sa_ip := IpV4 a b c d; sa_scope_id := 0; sa_port := port |}, s)
      | None => None
      end
  | _ => None
  end.

Definition read_socket_addr_v6 : parser SocketAddr := fun s =>
  match read_given_char "[" s with
  | Some (_, s) =>
      match read_ipv6_addr s with
      | Some (segments, s) =>
          let '(scope, s) := match read_scope_id s with Some r => r | None => (0, s) end in
          match read_given_char "]" s with
          | Some (_, s) =>
              match read_port s with
              | Some (port, s) => Some ({| sa_ip := IpV6 segments; sa_scope_id := scope; sa_port := port |}, s)
              | None => None
              end
          | None => None
          end
      | None => None
      end
  | None => None
  end.

(** [s.parse::<SocketAddr>()]: the whole text must be used. *)
Definition parse_socket_addr (s : string) : option SocketAddr :=
  match (match read_socket_addr_v4 s with Some r => Some r | None => read_socket_addr_v6 s end) with
  | Some (a, EmptyString) => Some a
  | _ => None
  end.

(** The text of [AddrParseError] for a socket address. *)
Definition addr_parse_error : string := "invalid socket address syntax".

(** ** Printing *)

Definition ipv4_to_string (a b c d : Z) : string :=
  pretty a +:+ "." +:+ pretty b +:+ "." +:+ pretty c +:+ "." +:+ pretty d.

(** [{:x}] of a segment: without padding. *)
Definition hex_plain (z : Z) : string :=
  hex_pad (if z <? 16 then 1%nat else if z <? 256 then 2%nat else if z <? 4096 then 3%nat else 4%nat) z.

Definition fmt_subslice (chunk : list Z) : string := String.concat ":" (map hex_plain chunk).

(** The longest run of zero segments, as start and length: [longest] and
    [current] are those of the loop. *)
Fixpoint zero_span (i : nat) (segments : list Z) (longest current : nat * nat) : nat * nat :=
  match segments with
  | [] => longest
  | seg :: segments =>
      if seg =? 0 then
        let current := if (snd current =? 0)%nat then (i, 1%nat) else (fst current, S (snd current)) in
        zero_span (S i) segments (if (snd longest <? snd current)%nat then current else longest) current
      else zero_span (S i) segments longest (0%nat, 0%nat)
  end.

Definition ipv6_to_string (segments : list Z) : string :=
  match segments with
  | [0; 0; 0; 0; 0; 65535; ab; cd] =>
      "::ffff:" +:+ ipv4_to_string (ab / 256) (ab mod 256) (cd / 256) (cd mod 256)
  | _ =>
      let '(start, len) := zero_span 0 segments (0%nat, 0%nat) (0%nat, 0%nat) in
      if (1 <? len)%nat
      then fmt_subslice (take start segments) +:+ "::" +:+ fmt_subslice (drop (start + len) segments)
      else fmt_subslice segments
  end.

Definition ip_to_string (ip : IpAddr) : string :=
  match ip with
  | IpV4 a b c d => ipv4_to_string a b c d
  | IpV6 segments => ipv6_to_string segments
  end.

(** [SocketAddr::to_string]. *)
Definition addr_to_string (a : SocketAddr) : string :=
  match sa_ip a with
  | IpV4 _ _ _ _ => ip_to_string (sa_ip a) +:+ ":" +:+ pretty (sa_port a)
  | IpV6 segments =>
      "[" +:+ ipv6_to_string segments
      +:+ (if sa_scope_id a =? 0 then "" else "%" +:+ pretty (sa_scope_id a))
      +:+ "]:" +:+ pretty (sa_port a)
  end.

(** [SocketAddr::from(([0, 0, 0, 0], 0))]. *)
Definition unspecified : SocketAddr := {| sa_ip := IpV4 0 0 0 0; sa_scope_id := 0; sa_port := 0 |}.

(** ** Lemmas *)

Example parse_examples :
  parse_socket_addr "192.168.1.7:3240"
  = Some {| sa_ip := IpV4 192 168 1 7; sa_scope_id := 0; sa_port := 3240 |}
  /\ parse_socket_addr "192.168.01.7:3240" = None
  /\ parse_socket_addr "localhost:3240" = None
  /\ parse_socket_addr "1.2.3.4:65536" = None
  /\ option_map addr_to_string (parse_socket_addr "[fe80::1%3]:3240") = Some "[fe80::1%3]:3240"
  /\ option_map addr_to_string (parse_socket_addr "[0:0:0:0:0:0:0:1]:80") = Some "[::1]:80"
  /\ option_map addr_to_string (parse_socket_addr "[::ffff:10.0.0.1]:80") = Some "[::ffff:10.0.0.1]:80"
  /\ parse_socket_addr "::1:80" = None.
Proof. vm_compute. repeat split; reflexivity. Qed.

Lemma read_number_pretty max md azp z rest :
  0 <= z <= max -> no_digit_first 10 rest = true ->
  match md with Some n => (0 < n)%nat /\ z < 10 ^ Z.of_nat n | None => True end ->
  read_number 10 max md azp (pretty z +:+ rest) = Some (z, rest).
Proof.
  intros Hz Hrest Hmd. destruct (pretty_digits z) as (ds & -> & Hds & Hv & Hne & Hhd & Hlen); [lia|].
  unfold read_number. rewrite span_digit_string by (done || lia). rewrite Hv.
  rewrite bool_decide_eq_false_2 by done.
  assert (Hm : match md with Some n => (n <? length ds)%nat | None => false end = false).
  { destruct md as [n|]; [|done]. destruct Hmd as [Hn Hzn]. apply Nat.ltb_ge. by apply Hlen. }
  rewrite Hm. rewrite (proj2 (Z.ltb_ge max z)) by lia.
  destruct (Z.eqb_spec (hd 0 ds) 0) as [E|E]; [|by rewrite andb_false_r].
  rewrite (Hhd E). by rewrite !andb_false_r.
Qed.

Lemma read_given_char_here c s : read_given_char c (String c s) = Some (tt, s).
Proof. simpl. by rewrite decide_True. Qed.

Lemma read_octets_pretty i o os rest :
  Forall is_u8 (o :: os) -> no_digit_first 10 rest = true ->
  read_octets i (length (o :: os))
    ((match i with O => "" | S _ => "." end) +:+ String.concat "." (map pretty (o :: os)) +:+ rest)
  = Some (o :: os, rest).
Proof.
  revert i o. induction os as [|o' os IH]; intros i o Hos Hrest; inversion Hos as [|?? Ho Hos']; subst;
    unfold is_u8 in Ho.
  - simpl. destruct i; simpl; rewrite ?string_app_nil, ?string_app_cons;
      unfold read_separator; rewrite ?read_given_char_here, ?string_app_nil, read_number_pretty;
      (done || (simpl; lia)).
  - change (length (o :: o' :: os)) with (S (length (o' :: os))).
    change (String.concat "." (map pretty (o :: o' :: os)))
      with (pretty o +:+ "." +:+ String.concat "." (map pretty (o' :: os))).
    rewrite !string_app_assoc. specialize (IH (S i) o' Hos' Hrest).
    assert (Hsep : forall t, read_separator "." i (read_number 10 255 (Some 3%nat) false)
      ((match i with O => "" | S _ => "." end) +:+ pretty o +:+ "." +:+ t) = Some (o, "." +:+ t)).
    { intros t. destruct i; simpl; rewrite ?string_app_nil, ?string_app_cons;
        unfold read_separator; rewrite ?read_given_char_here, ?string_app_nil, read_number_pretty;
        (done || (simpl; lia)). }
    cbn [read_octets]. rewrite Hsep. by rewrite IH.
Qed.

(** An IPv4 socket address that is printed is parsed back. *)
Lemma parse_display_v4 a b c d port :
  is_u8 a -> is_u8 b -> is_u8 c -> is_u8 d -> is_u16 port ->
  let addr := {| sa_ip := IpV4 a b c d; sa_scope_id := 0; sa_port := port |} in
  parse_socket_addr (addr_to_string addr) = Some addr.
Proof.
  intros Ha Hb Hc Hd Hp addr. unfold parse_socket_addr, read_socket_addr_v4, read_ipv4_addr.
  assert (Hs : addr_to_string addr
    = "" +:+ String.concat "." (map pretty [a; b; c; d]) +:+ ":" +:+ pretty port).
  { unfold addr_to_string, addr, ip_to_string, ipv4_to_string; simpl.
    rewrite string_app_nil, !string_app_assoc. done. }
  rewrite Hs, (read_octets_pretty 0 a [b; c; d]); [|by rewrite !Forall_cons, Forall_nil|done].
  unfold read_port. rewrite string_app_cons, string_app_nil, read_given_char_here.
  rewrite <- (string_app_nil_r (pretty port)). unfold is_u16 in Hp.
  rewrite read_number_pretty by (done || lia). done.
Qed.
