(* ===== verification/RustFloat.v ===== *)
(** * Rust's [f64]

    IEEE 754 binary64 numbers, as the Standard Library's executable
    specification [SpecFloat] defines them, under the names and with the
    conversions of Rust's [f64]. *)

From Stdlib Require Import Floats.SpecFloat.
From S2P Require Import Prelude.

Definition f64 : Type := spec_float.
#[global] Instance f64_eq_dec : EqDecision f64.
Proof. unfold f64. solve_decision. Defined.

Definition prec : Z := 53.
Definition emax : Z := 1024.

(** [z as f64] and the literals with an integral value. *)
Definition f64_of_Z (z : Z) : f64 := binary_normalize prec emax z 0 false.

Definition f64_add : f64 -> f64 -> f64 := SFadd prec emax.
Definition f64_sub : f64 -> f64 -> f64 := SFsub prec emax.
Definition f64_mul : f64 -> f64 -> f64 := SFmul prec emax.
Definition f64_div : f64 -> f64 -> f64 := SFdiv prec emax.
Definition f64_lt : f64 -> f64 -> bool := SFltb.
Definition f64_le : f64 -> f64 -> bool := SFleb.
Definition f64_eq : f64 -> f64 -> bool := SFeqb.
Definition f64_neg : f64 -> f64 := SFopp.

Definition f64_is_nan (x : f64) : bool := match x with S754_nan => true | _ => false end.

(** [f64::min] and [f64::max]: a NaN argument is ignored. *)
Definition f64_min (x y : f64) : f64 :=
  if f64_is_nan x then y else if f64_is_nan y then x else if f64_le x y then x else y.

Definition f64_max (x y : f64) : f64 :=
  if f64_is_nan x then y else if f64_is_nan y then x else if f64_le y x then x else y.

(** Values written in the sources. *)
Definition f64_zero : f64 := S754_zero false.
Definition f64_ratio (n d : Z) : f64 := f64_div (f64_of_Z n) (f64_of_Z d).

(** The floor and the ceiling of a finite number. *)
Definition finite_floor (s : bool) (m : positive) (e : Z) : Z :=
  let v := if s then Zneg m else Zpos m in
  if 0 <=? e then v * 2 ^ e else v / 2 ^ (- e).

Definition finite_ceil (s : bool) (m : positive) (e : Z) : Z :=
  - finite_floor (negb s) m e.

(** Rounding towards zero, as [as] does. *)
Definition finite_trunc (s : bool) (m : positive) (e : Z) : Z :=
  if s then finite_ceil s m e else finite_floor s m e.

Definition saturate (max z : Z) : Z := Z.max 0 (Z.min max z).

(** [x as uN] for the unsigned type of maximum [max]. *)
Definition f64_as_unsigned (max : Z) (x : f64) : Z :=
  match x with
  | S754_nan => 0
  | S754_zero _ => 0
  | S754_infinity s => if s then 0 else max
  | S754_finite s m e => saturate max (finite_trunc s m e)
  end.

(** [x.ceil() as uN]: the ceiling is representable, so the cast sees its value. *)
Definition f64_ceil_as_unsigned (max : Z) (x : f64) : Z :=
  match x with
  | S754_nan => 0
  | S754_zero _ => 0
  | S754_infinity s => if s then 0 else max
  | S754_finite s m e => saturate max (finite_ceil s m e)
  end.

Definition USIZE_MAX : Z := 2 ^ 64 - 1.

(** [Duration::as_secs_f64] of a duration in nanoseconds. *)
Definition as_secs_f64 (ns : Z) : f64 :=
  f64_add (f64_of_Z (ns / 1000000000))
          (f64_div (f64_of_Z (ns mod 1000000000)) (f64_of_Z 1000000000)).

(** ** Lemmas *)

Lemma f64_as_unsigned_range max x : 0 <= max -> 0 <= f64_as_unsigned max x <= max.
Proof. destruct x as [?|[]| |? ? ?]; simpl; unfold saturate; lia. Qed.

Lemma f64_ceil_as_unsigned_range max x : 0 <= max -> 0 <= f64_ceil_as_unsigned max x <= max.
Proof. destruct x as [?|[]| |? ? ?]; simpl; unfold saturate; lia. Qed.

Lemma f64_le_refl x : f64_is_nan x = false -> f64_le x x = true.
Proof.
  destruct x as [[]|[]| |[] ?]; unfold f64_le, SFleb, SFcompare; try done;
    by rewrite Z.compare_refl, Pos.compare_cont_refl.
Qed.

Lemma f64_min_le x y : f64_is_nan y = false -> f64_le (f64_min x y) y = true.
Proof.
  intros Hy. unfold f64_min. rewrite Hy. destruct (f64_is_nan x); [by apply f64_le_refl|].
  destruct (f64_le x y) eqn:E; [done|by apply f64_le_refl].
Qed.

(** The numbers of the examples. *)
Lemma f64_examples :
  f64_as_unsigned USIZE_MAX (f64_ratio 7 2) = 3 /\ f64_ceil_as_unsigned USIZE_MAX (f64_ratio 7 2) = 4
  /\ f64_le (f64_of_Z 3) (f64_ratio 7 2) = true /\ as_secs_f64 1500000000 = f64_ratio 3 2.
Proof. vm_compute. done. Qed.

#[global] Arguments f64_of_Z : simpl never.
#[global] Arguments f64_add : simpl never.
#[global] Arguments f64_sub : simpl never.
#[global] Arguments f64_mul : simpl never.
#[global] Arguments f64_div : simpl never.
#[global] Arguments f64_le : simpl never.
#[global] Arguments f64_lt : simpl never.
#[global] Arguments f64_eq : simpl never.
#[global] Arguments f64_min : simpl never.
#[global] Arguments f64_max : simpl never.
#[global] Arguments as_secs_f64 : simpl never.
