(* ===== verification/FloatFacts.v ===== *)
(** * Facts about [f64]

    What the definitions of [SpecFloat] compute, as far as the sources need it:
    a shift to the right keeps the bits it drops, rounding is to a nearest number,
    a product of positive numbers is the rounded product of their values, and
    arithmetic on numbers that are not negative yields no NaN. *)

From Stdlib Require Import Floats.SpecFloat.
From S2P Require Import Prelude RustFloat.

(** ** Shifting and rounding *)

Lemma iter_pos_nat {A} (f : A -> A) n x : SpecFloat.iter_pos f n x = Nat.iter (Pos.to_nat n) f x.
Proof.
  revert x. induction n as [n IH|n IH|]; intros x; cbn [SpecFloat.iter_pos]; [| |done].
  - rewrite !IH, Pos2Nat.inj_xI, <- Nat.iter_add, <- Nat.iter_succ_r. f_equal. lia.
  - rewrite !IH, Pos2Nat.inj_xO, <- Nat.iter_add. f_equal. lia.
Qed.

Lemma shr_1_eq m r s : 0 <= m -> shr_1 {| shr_m := m; shr_r := r; shr_s := s |}
  = {| shr_m := m / 2; shr_r := Z.odd m; shr_s := r || s |}.
Proof.
  intros Hm. rewrite <- Z.div2_div. destruct m as [|[p|p|]|p]; [done..|lia].
Qed.

(** After [n] shifts: the quotient, the last bit dropped, and whether any bit
    dropped before it was set. *)
Definition shifted (m n : Z) : shr_record :=
  {| shr_m := m / 2 ^ n; shr_r := Z.odd (m / 2 ^ (n - 1)); shr_s := negb (m mod 2 ^ (n - 1) =? 0) |}.

Lemma mod_step m k : 0 <= m -> 0 <= k ->
  (m mod 2 ^ (k + 1) =? 0) = negb (Z.odd (m / 2 ^ k)) && (m mod 2 ^ k =? 0).
Proof.
  intros Hm Hk. rewrite Z.pow_add_r by lia. change (2 ^ 1) with 2. rewrite Z.rem_mul_r by lia.
  pose proof (Z.pow_pos_nonneg 2 k ltac:(lia) ltac:(lia)).
  pose proof (Z.mod_pos_bound m (2 ^ k) ltac:(lia)). rewrite Zmod_odd.
  destruct (Z.odd _); simpl; apply eq_true_iff_eq; rewrite ?Z.eqb_eq; lia.
Qed.

Lemma iter_shr m n : 0 <= m ->
  Nat.iter (S n) shr_1 {| shr_m := m; shr_r := false; shr_s := false |} = shifted m (Z.of_nat (S n)).
Proof.
  intros Hm. induction n as [|n IH].
  - cbn [Nat.iter nat_rect]. rewrite shr_1_eq by done. unfold shifted. simpl. by rewrite Z.div_1_r, Z.mod_1_r.
  - rewrite Nat.iter_succ, IH. unfold shifted at 1. rewrite shr_1_eq by (apply Z.div_pos; lia).
    unfold shifted. rewrite (Nat2Z.inj_succ (S n)). unfold Z.succ. rewrite Z.add_simpl_r.
    pose proof (mod_step m (Z.of_nat (S n) - 1) Hm ltac:(lia)) as Hs. rewrite Z.sub_add in Hs. rewrite Hs.
    f_equal; [|by rewrite negb_andb, negb_involutive].
    rewrite Z.pow_add_r, Z.div_div by lia. done.
Qed.

(** The mantissa after a shift by [n] and rounding. *)
Definition rounded (m n : Z) : Z := round_nearest_even (m / 2 ^ n) (loc_of_shr_record (shifted m n)).

Lemma rounded_near m n : 0 <= m -> 0 < n -> 2 * Z.abs (rounded m n * 2 ^ n - m) <= 2 ^ n.
Proof.
  intros Hm Hn. unfold rounded, shifted, loc_of_shr_record, round_nearest_even.
  assert (H2 : 2 ^ n = 2 * 2 ^ (n - 1)) by (rewrite <- Z.pow_succ_r by lia; f_equal; lia).
  pose proof (Z.pow_pos_nonneg 2 (n - 1) ltac:(lia) ltac:(lia)) as Hp.
  set (h := 2 ^ (n - 1)) in *. pose proof (Z.div_mod m h ltac:(lia)) as Hd.
  pose proof (Z.mod_pos_bound m h ltac:(lia)) as Hr.
  replace (m / 2 ^ n) with (m / h / 2) by (by rewrite H2, Z.div_div, (Z.mul_comm h 2) by lia).
  pose proof (Zdiv2_odd_eqn (m / h)) as Ho. rewrite Z.div2_div in Ho.
  set (q := m / h / 2) in *. set (r := m mod h) in *. set (o := Z.odd (m / h)) in *. rewrite H2, Ho in *.
  clearbody o q r. subst m. clear - Hp Hr.
  destruct o, (Z.eqb_spec r 0); simpl; [destruct (Z.even q)|..]; lia.
Qed.

Lemma rounded_nonneg m n : 0 <= m -> 0 < n -> 0 <= rounded m n.
Proof.
  intros Hm Hn. pose proof (rounded_near m n Hm Hn). pose proof (Z.pow_pos_nonneg 2 n ltac:(lia) ltac:(lia)). nia.
Qed.

(** ** Digits *)

Lemma digits2_pos_log2 p : Zpos (digits2_pos p) = Z.log2 (Zpos p) + 1.
Proof.
  induction p as [p IH|p IH|]; [| |done]; simpl digits2_pos; rewrite Pos2Z.inj_succ, IH.
  - rewrite Pos2Z.inj_xI, Z.log2_succ_double by done. done.
  - rewrite Pos2Z.inj_xO, Z.log2_double by done. done.
Qed.

Lemma digits_bounds p : 2 ^ (Zpos (digits2_pos p) - 1) <= Zpos p < 2 ^ Zpos (digits2_pos p).
Proof.
  rewrite digits2_pos_log2. replace (Z.log2 (Zpos p) + 1 - 1) with (Z.log2 (Zpos p)) by lia. by apply Z.log2_spec.
Qed.

Lemma digits_unique p d : 2 ^ (d - 1) <= Zpos p < 2 ^ d -> 0 < d -> Zpos (digits2_pos p) = d.
Proof.
  intros H Hd. rewrite digits2_pos_log2. rewrite (Z.log2_unique (Zpos p) (d - 1)); [lia|lia|].
  by replace (Z.succ (d - 1)) with d by lia.
Qed.

(** ** Rounding to 53 bits *)

Lemma fexp_normal d : -1021 <= d -> fexp prec emax d = d - 53.
Proof. intros H. unfold fexp, emin, prec, emax. lia. Qed.

Lemma shr_fexp_pos m e : -1021 <= Zpos (digits2_pos m) + e -> 53 < Zpos (digits2_pos m) ->
  shr_fexp prec emax (Zpos m) e loc_Exact
  = (shifted (Zpos m) (Zpos (digits2_pos m) - 53), e + (Zpos (digits2_pos m) - 53)).
Proof.
  intros He Hd. unfold shr_fexp. cbn [Zdigits2]. rewrite fexp_normal by done.
  replace (Zpos (digits2_pos m) + e - 53 - e) with (Zpos (digits2_pos m) - 53) by lia.
  destruct (Zpos (digits2_pos m) - 53) as [|s|s] eqn:Es; [lia| |lia]. simpl shr. rewrite iter_pos_nat.
  destruct (Pos2Nat.is_succ s) as [n Hn]. rewrite Hn, iter_shr by lia. rewrite <- Hn, positive_nat_Z. done.
Qed.

Lemma shr_fexp_short m e : -1021 <= Zpos (digits2_pos m) + e -> Zpos (digits2_pos m) <= 53 ->
  shr_fexp prec emax (Zpos m) e loc_Exact = ({| shr_m := Zpos m; shr_r := false; shr_s := false |}, e).
Proof.
  intros He Hd. unfold shr_fexp. cbn [Zdigits2]. rewrite fexp_normal by done.
  replace (Zpos (digits2_pos m) + e - 53 - e) with (Zpos (digits2_pos m) - 53) by lia.
  by destruct (Zpos (digits2_pos m) - 53) as [|s|s] eqn:Es; [|lia|].
Qed.

Lemma round_short sx m e : -1021 <= Zpos (digits2_pos m) + e -> Zpos (digits2_pos m) <= 53 -> e <= 971 ->
  binary_round_aux prec emax sx (Zpos m) e loc_Exact = S754_finite sx m e.
Proof.
  intros He Hd H. unfold binary_round_aux. rewrite shr_fexp_short by done. simpl. rewrite shr_fexp_short by done. simpl.
  by replace (e <=? emax - prec) with true by (unfold emax, prec; lia).
Qed.

Lemma rounded_53 m : 53 < Zpos (digits2_pos m) ->
  2 ^ 52 <= rounded (Zpos m) (Zpos (digits2_pos m) - 53) <= 2 ^ 53.
Proof.
  intros Hd. pose proof (digits_bounds m) as Hb. set (s := Zpos (digits2_pos m) - 53) in *.
  replace (Zpos (digits2_pos m) - 1) with (52 + s) in Hb by lia. replace (Zpos (digits2_pos m)) with (53 + s) in Hb by lia.
  rewrite !Z.pow_add_r in Hb by lia. pose proof (Z.pow_pos_nonneg 2 s ltac:(lia) ltac:(lia)).
  unfold rounded. assert (Hq : 2 ^ 52 <= Zpos m / 2 ^ s < 2 ^ 53).
  { split; [apply Z.div_le_lower_bound; lia|apply Z.div_lt_upper_bound; lia]. }
  unfold round_nearest_even. repeat case_match; lia.
Qed.

(** Rounding a mantissa of more than 53 bits; a carry moves the exponent by one. *)
Lemma round_long sx m e (s := Zpos (digits2_pos m) - 53) : 0 < s -> -1021 <= s + 53 + e -> e + s < 971 ->
  exists m' e', binary_round_aux prec emax sx (Zpos m) e loc_Exact = S754_finite sx m' e'
  /\ (Zpos m' = rounded (Zpos m) s /\ e' = e + s
      \/ rounded (Zpos m) s = 2 ^ 53 /\ m' = (2 ^ 52)%positive /\ e' = e + s + 1).
Proof.
  intros Hs He Hmax. pose proof (rounded_53 m ltac:(lia)) as Hr. fold s in Hr.
  unfold binary_round_aux. rewrite shr_fexp_pos by lia. fold s. cbn [shr_m shifted]. fold (rounded (Zpos m) s).
  destruct (rounded (Zpos m) s) as [|r|r] eqn:Er; [lia| |lia].
  destruct (Z.eq_dec (Zpos r) (2 ^ 53)) as [Hc|Hc].
  - exists (2 ^ 52)%positive, (e + s + 1). rewrite Hc.
    assert (shr_fexp prec emax (2 ^ 53) (e + s) loc_Exact = ({| shr_m := 2 ^ 52; shr_r := false; shr_s := false |}, e + s + 1)) as ->.
    { change (2 ^ 53) with (Zpos (2 ^ 53)). rewrite shr_fexp_pos by (simpl; lia). reflexivity. }
    simpl. replace (e + s + 1 <=? emax - prec) with true by (unfold emax, prec; lia). split; [done|]. right. by rewrite <- Hc.
  - assert (Zpos (digits2_pos r) = 53) by (apply digits_unique; [simpl Z.sub; lia|done]).
    exists r, (e + s). rewrite shr_fexp_short by lia. simpl.
    replace (e + s <=? emax - prec) with true by (unfold emax, prec; lia). split; [done|by left].
Qed.

(** The integral part after a carry is that before it. *)
Lemma round_long_trunc m e (s := Zpos (digits2_pos m) - 53) : 0 < s -> -1021 <= s + 53 + e -> e + s < 0 ->
  exists m' e', binary_round_aux prec emax false (Zpos m) e loc_Exact = S754_finite false m' e'
  /\ finite_trunc false m' e' = rounded (Zpos m) s / 2 ^ (- (e + s)).
Proof.
  intros Hs He Hneg. destruct (round_long false m e Hs He ltac:(lia)) as (m' & e' & -> & H). fold s in H.
  exists m', e'. split; [done|]. unfold finite_trunc, finite_floor. destruct H as [[<- ->]|(-> & -> & ->)].
  - by replace (0 <=? e + s) with false by lia.
  - destruct (Z.eq_dec (e + s) (-1)) as [->|Hn]; [done|]. replace (0 <=? e + s + 1) with false by lia.
    replace (- (e + s)) with (1 + - (e + s + 1)) by lia. rewrite Z.pow_add_r by lia.
    change (2 ^ 53) with (2 * Zpos (2 ^ 52)). change (2 ^ 1) with 2. rewrite Z.div_mul_cancel_l by lia. done.
Qed.

(** ** Integers as numbers *)

Lemma Pos_iter_xO m d : Zpos (Pos.iter xO m d) = Zpos m * 2 ^ Zpos d.
Proof.
  induction d as [|d IH] using Pos.peano_ind; [simpl; lia|].
  rewrite Pos.iter_succ, Pos2Z.inj_xO, IH, Pos2Z.inj_succ, Z.pow_succ_r by lia. lia.
Qed.

(** The number of bits of a positive integer. *)
Definition bits (n : Z) : Z := Z.log2 n + 1.

Lemma bits_spec n : 0 < n -> 2 ^ (bits n - 1) <= n < 2 ^ bits n.
Proof. intros H. unfold bits. replace (Z.log2 n + 1 - 1) with (Z.log2 n) by lia. by apply Z.log2_spec. Qed.

Lemma bits_pos n : 0 < n -> 0 < bits n.
Proof. intros H. unfold bits. pose proof (Z.log2_nonneg n). lia. Qed.

(** An integer of at most 53 bits is exact, with its mantissa shifted up to 53 bits. *)
Lemma f64_of_Z_exact n : 0 < n < 2 ^ 53 -> exists m,
  f64_of_Z n = S754_finite false m (bits n - 53) /\ Zpos m = n * 2 ^ (53 - bits n) /\ Zpos (digits2_pos m) = 53.
Proof.
  intros [Hn Hmax]. pose proof (bits_spec n Hn) as Hb. pose proof (bits_pos n Hn) as Hbp.
  assert (Hle : bits n <= 53) by (unfold bits; pose proof (Z.log2_lt_pow2 n 53 Hn); lia).
  destruct n as [|p|p]; [lia| |lia]. unfold f64_of_Z, binary_normalize, binary_round.
  rewrite digits2_pos_log2. fold (bits (Zpos p)). rewrite Z.add_0_r, fexp_normal by lia.
  set (d := bits (Zpos p)) in *. unfold shl_align. rewrite Z.sub_0_r.
  assert (Hdig : forall m, Zpos m = Zpos p * 2 ^ (53 - d) -> Zpos (digits2_pos m) = 53).
  { intros m Hm. apply digits_unique; [|done]. rewrite Hm.
    replace (2 ^ (53 - 1)) with (2 ^ (d - 1) * 2 ^ (53 - d)) by (rewrite <- Z.pow_add_r by lia; f_equal; lia).
    replace (2 ^ 53) with (2 ^ d * 2 ^ (53 - d)) by (rewrite <- Z.pow_add_r by lia; f_equal; lia).
    pose proof (Z.pow_pos_nonneg 2 (53 - d) ltac:(lia) ltac:(lia)). nia. }
  destruct (d - 53) as [|q|q] eqn:E; [|lia|].
  - assert (Hm : Zpos p = Zpos p * 2 ^ (53 - d)) by (replace (53 - d) with 0 by lia; lia).
    exists p. rewrite round_short by (rewrite ?(Hdig p Hm); lia). by repeat split; [..|apply Hdig].
  - assert (Hm : Zpos (Pos.iter xO p q) = Zpos p * 2 ^ (53 - d)).
    { rewrite Pos_iter_xO. do 2 f_equal. lia. }
    eexists. rewrite round_short by (rewrite ?(Hdig _ Hm); lia). by repeat split; [..|apply Hdig].
Qed.

(** ** Fractions of an integer

    [(n as f64 * c) as usize] for a literal [c] that is the number nearest to
    [num]/100 and not above it.  In the bounds, [M] is the product of the mantissas,
    of 105 or 106 bits, [r] its first 53 bits, rounded, and [err] how far [M] is
    below the true product. *)
Lemma fraction_105 Y T P M r err : 100 * M = 2 ^ 53 * (100 * Y + T) - err -> 0 <= err < 50 * 2 ^ 52 ->
  0 <= T <= 99 * P -> 2 ^ 13 <= P -> 2 * Z.abs (r * 2 ^ 52 - M) <= 2 ^ 52 -> 2 * Y <= r < 2 * Y + 2 * P.
Proof. lia. Qed.

Lemma fraction_106 Y T P M r err : 100 * M = 2 ^ 53 * (100 * Y + T) - err -> 0 <= err < 50 * 2 ^ 53 ->
  0 <= T <= 99 * P -> 2 ^ 13 <= P -> 2 * Z.abs (r * 2 ^ 53 - M) <= 2 ^ 53 -> Y <= r < Y + P.
Proof. lia. Qed.

Lemma product_bits m c : Zpos (digits2_pos m) = 53 -> Zpos (digits2_pos c) = 53 ->
  Zpos (digits2_pos (m * c)) = 105 \/ Zpos (digits2_pos (m * c)) = 106.
Proof.
  intros Hm Hc. pose proof (digits_bounds m) as Hmb. pose proof (digits_bounds c) as Hcb. rewrite Hm in Hmb. rewrite Hc in Hcb.
  change (53 - 1) with 52 in *. pose proof (digits_bounds (m * c)) as HD. set (D := Zpos (digits2_pos (m * c))) in *.
  assert (H : 2 ^ 52 * 2 ^ 52 <= Zpos (m * c) < 2 ^ 53 * 2 ^ 53)
    by (rewrite Pos2Z.inj_mul; split; [apply Z.mul_le_mono_nonneg|apply Z.mul_lt_mono_nonneg]; lia).
  rewrite <- !Z.pow_add_r in H by lia. simpl (_ + _) in H.
  assert (104 < D) by (apply (Z.pow_lt_mono_r_iff 2); lia).
  assert (D - 1 < 106) by (apply (Z.pow_lt_mono_r_iff 2); lia). lia.
Qed.

(** How far a literal is below the fraction it stands for, in units of 2^-53 percent. *)
Definition literal_error (num : Z) (cm : positive) : Z := num * 2 ^ 53 - 100 * Zpos cm.

Lemma mul_trunc num cm n :
  f64_ratio num 100 = S754_finite false cm (-53) -> Zpos (digits2_pos cm) = 53 ->
  0 <= literal_error num cm <= 49 -> literal_error num cm * 2 ^ 53 <= 50 * Zpos cm -> 0 <= num < 100 -> 0 < n < 2 ^ 40 ->
  f64_as_unsigned USIZE_MAX (f64_mul (f64_of_Z n) (f64_ratio num 100)) = num * n / 100.
Proof.
  intros -> Hcd Hc Hcase Hnum Hn. destruct (f64_of_Z_exact n ltac:(lia)) as (m & -> & Hm & Hd).
  assert (Hb40 : 0 < bits n <= 40).
  { split; [by apply bits_pos; lia|]. unfold bits. pose proof (Z.log2_lt_pow2 n 40 ltac:(lia)). lia. }
  pose proof (product_bits m cm Hd Hcd) as HDr. pose proof (digits_bounds (m * cm)) as HD.
  pose proof (digits_bounds m) as Hmb. rewrite Hd in Hmb.
  unfold f64_mul, SFmul. simpl xorb. set (d := bits n) in *. set (D := Zpos (digits2_pos (m * cm))) in *.
  destruct (round_long_trunc (m * cm) (d - 53 + -53)) as (m' & e' & -> & Ht); fold D; [lia..|].
  fold D in Ht. cbn [f64_as_unsigned]. rewrite Ht. clear Ht.
  pose proof (rounded_near (Zpos (m * cm)) (D - 53) ltac:(lia) ltac:(lia)) as Hr.
  set (r := rounded _ _) in *. set (M := Zpos (m * cm)) in *.
  pose proof (Z.div_mod (num * n) 100 ltac:(lia)) as Hdm. pose proof (Z.mod_pos_bound (num * n) 100 ltac:(lia)) as Hmod.
  assert (Hq100 : 0 <= num * n / 100 <= n)
    by (split; [apply Z.div_pos; lia|apply Z.div_le_upper_bound; [lia|apply Z.mul_le_mono_nonneg_r; lia]]).
  set (q := num * n / 100) in *. set (t := num * n mod 100) in *.
  assert (Hp : 2 ^ 13 <= 2 ^ (53 - d)) by (apply Z.pow_le_mono_r; lia). set (P := 2 ^ (53 - d)) in *.
  assert (HM : 100 * M = 2 ^ 53 * (100 * (q * P) + t * P) - literal_error num cm * Zpos m).
  { subst M. unfold literal_error. rewrite Pos2Z.inj_mul. replace (100 * (q * P) + t * P) with (num * Zpos m); [lia|].
    rewrite Hm, Z.mul_assoc, Hdm. lia. }
  assert (HT : 0 <= t * P <= 99 * P) by (split; [lia|apply Z.mul_le_mono_nonneg_r; lia]).
  assert (Hq : r / 2 ^ (- (d - 53 + -53 + (D - 53))) = q).
  { destruct HDr as [HDr|HDr]; rewrite HDr in *.
    - replace (2 ^ (- (d - 53 + -53 + (105 - 53)))) with (2 * P) by (subst P; rewrite <- Z.pow_succ_r by lia; f_equal; lia).
      assert (He : literal_error num cm * Zpos m * 2 ^ 53 <= 50 * M)
        by (subst M; rewrite Pos2Z.inj_mul; apply (Z.mul_le_mono_nonneg_r _ _ (Zpos m)) in Hcase; lia).
      pose proof (fraction_105 (q * P) (t * P) P M r _ HM ltac:(lia) HT Hp Hr).
      symmetry. apply (Z.div_unique_pos r (2 * P) q (r - q * (2 * P))); lia.
    - replace (2 ^ (- (d - 53 + -53 + (106 - 53)))) with P by (subst P; f_equal; lia).
      assert (He : literal_error num cm * Zpos m <= 49 * Zpos m) by (apply Z.mul_le_mono_nonneg_r; lia).
      pose proof (fraction_106 (q * P) (t * P) P M r _ HM ltac:(lia) HT Hp Hr).
      symmetry. apply (Z.div_unique_pos r P q (r - q * P)); lia. }
  rewrite Hq. unfold saturate, USIZE_MAX. lia.
Qed.

(** The literals of the sources. *)
Lemma half_of n : 0 < n < 2 ^ 40 -> f64_as_unsigned USIZE_MAX (f64_mul (f64_of_Z n) (f64_ratio 50 100)) = 50 * n / 100.
Proof. intros H. by apply (mul_trunc 50 4503599627370496). Qed.

Lemma percent_95_of n : 0 < n < 2 ^ 40 -> f64_as_unsigned USIZE_MAX (f64_mul (f64_of_Z n) (f64_ratio 95 100)) = 95 * n / 100.
Proof. intros H. by apply (mul_trunc 95 8556839292003942). Qed.

Lemma percent_99_of n : 0 < n < 2 ^ 40 -> f64_as_unsigned USIZE_MAX (f64_mul (f64_of_Z n) (f64_ratio 99 100)) = 99 * n / 100.
Proof. intros H. by apply (mul_trunc 99 8917127262193582). Qed.

(** ** Numbers that are not negative *)

Definition f64_nonneg (x : f64) : Prop :=
  match x with S754_zero s | S754_infinity s | S754_finite s _ _ => s = false | S754_nan => False end.

Lemma nonneg_not_nan x : f64_nonneg x -> f64_is_nan x = false.
Proof. by destruct x. Qed.

Lemma shr_nonneg rec e n : 0 <= shr_m rec -> 0 <= shr_m (fst (shr rec e n)).
Proof.
  intros H. unfold shr. destruct n as [|n|n]; [done| |done]. cbn [fst]. rewrite iter_pos_nat.
  induction (Pos.to_nat n) as [|k IH]; [done|]. rewrite Nat.iter_succ.
  destruct (Nat.iter k shr_1 rec) as [m r s]. rewrite shr_1_eq by done. by apply Z.div_pos.
Qed.

Lemma shr_fexp_nonneg m e l : 0 <= m -> 0 <= shr_m (fst (shr_fexp prec emax m e l)).
Proof. intros H. apply shr_nonneg. by destruct l as [|[]]. Qed.

Lemma round_aux_nonneg m e l : 0 <= m -> f64_nonneg (binary_round_aux prec emax false m e l).
Proof.
  intros H. unfold binary_round_aux. pose proof (shr_fexp_nonneg m e l H) as H1.
  destruct (shr_fexp prec emax m e l) as [rec e1]. cbn [fst] in H1.
  assert (H2 : 0 <= round_nearest_even (shr_m rec) (loc_of_shr_record rec))
    by (unfold round_nearest_even; repeat case_match; lia).
  pose proof (shr_fexp_nonneg _ e1 loc_Exact H2) as H3. destruct (shr_fexp prec emax _ e1 loc_Exact) as [rec' e2].
  cbn [fst] in H3. destruct (shr_m rec'); [done|by case_match|lia].
Qed.

Lemma binary_normalize_nonneg m e : 0 <= m -> f64_nonneg (binary_normalize prec emax m e false).
Proof.
  intros H. unfold binary_normalize, binary_round. destruct m as [|m|m]; [done| |lia].
  destruct (shl_align _ _ _). by apply round_aux_nonneg.
Qed.

Lemma f64_of_Z_nonneg n : 0 <= n -> f64_nonneg (f64_of_Z n).
Proof. apply binary_normalize_nonneg. Qed.

Lemma f64_add_nonneg x y : f64_nonneg x -> f64_nonneg y -> f64_nonneg (f64_add x y).
Proof.
  destruct x as [s|s| |s m e], y as [t|t| |t n k]; simpl; intros; subst; try done. by apply binary_normalize_nonneg.
Qed.

(** A finite number above zero. *)
Definition f64_finite_pos (x : f64) : Prop := match x with S754_finite false _ _ => True | _ => False end.

Lemma f64_mul_nonneg x y : f64_nonneg x -> f64_finite_pos y -> f64_nonneg (f64_mul x y).
Proof.
  destruct x as [s|s| |s m e], y as [t|t| |[] n k]; simpl; intros; subst; try done. by apply round_aux_nonneg.
Qed.

Lemma f64_mul_nonneg_l x y : f64_finite_pos x -> f64_nonneg y -> f64_nonneg (f64_mul x y).
Proof.
  destruct x as [s|s| |[] m e], y as [t|t| |t n k]; simpl; intros; subst; try done. by apply round_aux_nonneg.
Qed.

Lemma f64_div_nonneg x y : f64_nonneg x -> f64_finite_pos y -> f64_nonneg (f64_div x y).
Proof.
  destruct x as [s|s| |s m e], y as [t|t| |[] n k]; simpl; intros; subst; try done.
  unfold f64_div, SFdiv, SFdiv_core_binary. simpl xorb.
  set (m' := match _ with 0 => Zpos m | Zpos _ => _ | Zneg _ => 0 end).
  assert (0 <= m') by (subst m'; case_match; [done|apply Z.shiftl_nonneg; lia|done]).
  pose proof (Z.div_eucl_eq m' (Zpos n) ltac:(lia)) as Hq. pose proof (Z.mod_pos_bound m' (Zpos n) ltac:(lia)) as Hm.
  unfold Z.modulo in Hm. destruct (Z.div_eucl m' (Zpos n)) as [q r]. apply round_aux_nonneg. nia.
Qed.

Lemma as_secs_f64_nonneg ns : 0 <= ns -> f64_nonneg (as_secs_f64 ns).
Proof.
  intros H. unfold as_secs_f64. apply f64_add_nonneg; [apply f64_of_Z_nonneg, Z.div_pos; lia|].
  apply f64_div_nonneg; [|done]. apply f64_of_Z_nonneg, Z.mod_pos_bound. lia.
Qed.

(** ** The order *)

Ltac compare_cases :=
  change (Pos.compare_cont Eq) with Pos.compare in *;
  repeat match goal with
  | |- context [Z.compare ?a ?b] => destruct (Z.compare_spec a b); subst
  | |- context [Pos.compare ?a ?b] => destruct (Pos.compare_spec a b); subst
  end; simpl; try done; try lia.

Lemma f64_le_total x y : f64_is_nan x = false -> f64_is_nan y = false -> f64_le x y = true \/ f64_lt y x = true.
Proof.
  destruct x as [[]|[]| |[] m e], y as [[]|[]| |[] n k]; simpl; try done; intros _ _; try (by left); try (by right);
    unfold f64_le, f64_lt, SFleb, SFltb, SFcompare; compare_cases; auto.
Qed.

Lemma f64_lt_not_le x y : f64_lt y x = true -> f64_le x y = false.
Proof.
  destruct x as [[]|[]| |[] m e], y as [[]|[]| |[] n k]; unfold f64_le, f64_lt, SFleb, SFltb, SFcompare; try done;
    compare_cases.
Qed.

Lemma f64_le_trans x y z : f64_nonneg x -> f64_nonneg y -> f64_nonneg z ->
  f64_le x y = true -> f64_le y z = true -> f64_le x z = true.
Proof.
  destruct x as [s|s| |s m e], y as [t|t| |t n k], z as [u|u| |u o l]; simpl; intros; subst; try done.
  revert H2 H3. unfold f64_le, SFleb, SFcompare. compare_cases.
Qed.

Lemma f64_lt_le x y : f64_lt x y = true -> f64_le x y = true.
Proof. unfold f64_lt, f64_le, SFltb, SFleb. by destruct (SFcompare x y) as [[]|]. Qed.

Lemma f64_le_lt_trans x y z : f64_nonneg x -> f64_nonneg y -> f64_nonneg z ->
  f64_le x y = true -> f64_lt y z = true -> f64_lt x z = true.
Proof.
  intros Hx Hy Hz H1 H2. destruct (f64_le_total z x) as [H|H]; [by apply nonneg_not_nan..| |done].
  apply f64_lt_not_le in H2. by rewrite (f64_le_trans z x y) in H2.
Qed.
