(* ===== verification/FloatRound.v ===== *)
(** * Rounded sums and quotients of [f64]

    The order of the finite numbers is that of their values, and a sum, a quotient
    or a duration in seconds is on the same side of every number as the exact
    result is. *)

From Stdlib Require Import Floats.SpecFloat.
From S2P Require Import Prelude RustFloat FloatFacts.

(** ** The value of a number *)

Definition valid (x : f64) : Prop := valid_binary prec emax x = true.
Definition finite (x : f64) : Prop := match x with S754_zero _ | S754_finite _ _ _ => True | _ => False end.

(** The value in units of 2^-1074, the smallest positive number. *)
Definition fixed (x : f64) : Z :=
  match x with S754_finite s m e => (if s then Zneg m else Zpos m) * 2 ^ (e + 1074) | _ => 0 end.

Lemma valid_finite s m e : valid (S754_finite s m e) ->
  -1074 <= e <= 971 /\ Zpos m < 2 ^ 53 /\ (2 ^ 52 <= Zpos m \/ e = -1074).
Proof.
  unfold valid, valid_binary, bounded, canonical_mantissa. rewrite andb_true_iff, Z.leb_le, Z.eqb_eq.
  unfold fexp, emin, emax, prec. intros [H1 H2]. pose proof (digits_bounds m) as Hd.
  set (d := Zpos (digits2_pos m)) in *. assert (d <= 53) by lia.
  assert (2 ^ d <= 2 ^ 53) by (apply Z.pow_le_mono_r; lia). repeat split; [lia..|].
  destruct (Z.eq_dec e (-1074)); [by right|left]. assert (d = 53) as Hd53 by lia. rewrite Hd53 in Hd. lia.
Qed.

Lemma valid_normal s m e : 2 ^ 52 <= Zpos m < 2 ^ 53 -> -1074 <= e <= 971 -> valid (S754_finite s m e).
Proof.
  intros Hm He. assert (Hd : Zpos (digits2_pos m) = 53) by (by apply digits_unique).
  unfold valid, valid_binary, bounded, canonical_mantissa. rewrite andb_true_iff, Z.leb_le, Z.eqb_eq, Hd.
  unfold fexp, emin, emax, prec. lia.
Qed.

(** A number with the smaller exponent has the smaller value. *)
Lemma fixed_exponent m e n k :
  valid (S754_finite false m e) -> valid (S754_finite false n k) -> e < k -> Zpos m * 2 ^ (e + 1074) < Zpos n * 2 ^ (k + 1074).
Proof.
  intros (He & Hm & _)%valid_finite (Hk & _ & Hn)%valid_finite Hlt. destruct Hn as [Hn|]; [|lia].
  replace (k + 1074) with ((e + 1074) + 1 + (k - e - 1)) by lia.
  rewrite (Z.pow_add_r 2 (e + 1074 + 1)), (Z.pow_add_r 2 (e + 1074) 1) by lia.
  pose proof (Z.pow_pos_nonneg 2 (e + 1074) ltac:(lia) ltac:(lia)) as Hp.
  pose proof (Z.pow_pos_nonneg 2 (k - e - 1) ltac:(lia) ltac:(lia)) as Hq.
  set (p := 2 ^ (e + 1074)) in *. set (q := 2 ^ (k - e - 1)) in *. change (2 ^ 1) with 2.
  apply (Z.lt_le_trans _ (2 ^ 53 * p)); [by apply Z.mul_lt_mono_pos_r|].
  apply (Z.le_trans _ (2 ^ 52 * (p * 2 * 1))); [lia|]. apply Z.mul_le_mono_nonneg; [lia|done|lia|].
  apply Z.mul_le_mono_nonneg_l; lia.
Qed.

Lemma fixed_compare m e n k :
  valid (S754_finite false m e) -> valid (S754_finite false n k) ->
  match Z.compare e k with Lt => Lt | Gt => Gt | Eq => Pos.compare m n end
  = Z.compare (Zpos m * 2 ^ (e + 1074)) (Zpos n * 2 ^ (k + 1074)).
Proof.
  intros Hx Hy. symmetry. destruct (Z.compare_spec e k) as [->|H|H].
  - pose proof (valid_finite _ _ _ Hx) as (He & _). pose proof (Z.pow_pos_nonneg 2 (k + 1074) ltac:(lia) ltac:(lia)).
    by rewrite <- Zmult_compare_compat_r by lia.
  - by apply Z.compare_lt_iff, fixed_exponent.
  - by apply Z.compare_gt_iff, fixed_exponent.
Qed.

Lemma fixed_sign s m e : valid (S754_finite s m e) -> 0 < Zpos m * 2 ^ (e + 1074).
Proof. intros (He & _)%valid_finite. pose proof (Z.pow_pos_nonneg 2 (e + 1074) ltac:(lia) ltac:(lia)). lia. Qed.

Lemma compare_fixed x y : valid x -> valid y -> finite x -> finite y -> SFcompare x y = Some (Z.compare (fixed x) (fixed y)).
Proof.
  destruct x as [s|s| |s m e], y as [t|t| |t n k]; try done; intros Hx Hy _ _; unfold SFcompare, fixed.
  - pose proof (fixed_sign _ _ _ Hy). f_equal. symmetry. destruct t; [apply Z.compare_gt_iff|apply Z.compare_lt_iff]; lia.
  - pose proof (fixed_sign _ _ _ Hx). f_equal. symmetry. destruct s; [apply Z.compare_lt_iff|apply Z.compare_gt_iff]; lia.
  - change (Pos.compare_cont Eq) with Pos.compare. pose proof (fixed_sign _ _ _ Hx). pose proof (fixed_sign _ _ _ Hy).
    pose proof (fixed_compare m e n k Hx Hy) as Hc. f_equal. symmetry. destruct s, t.
    + rewrite <- !Pos2Z.opp_pos, !Z.mul_opp_l, Z.compare_opp, Z.compare_antisym, <- Hc. by destruct (Z.compare e k).
    + apply Z.compare_lt_iff. lia.
    + apply Z.compare_gt_iff. lia.
    + by rewrite <- Hc.
Qed.

Lemma fixed_le x y : valid x -> valid y -> finite x -> finite y -> f64_le x y = (fixed x <=? fixed y).
Proof. intros. unfold f64_le, SFleb. rewrite compare_fixed by done. unfold Z.leb. by destruct (_ ?= _). Qed.

Lemma fixed_lt x y : valid x -> valid y -> finite x -> finite y -> f64_lt x y = (fixed x <? fixed y).
Proof. intros. unfold f64_lt, SFltb. rewrite compare_fixed by done. unfold Z.ltb. by destruct (_ ?= _). Qed.

(** ** Rounding

    [x] is the exact result [M]/[D] rounded: it is finite and lies on the same side
    of every number as [M]/[D]. *)
Record rounds (M D : Z) (x : f64) : Prop := {
  rounds_finite : finite x;
  rounds_valid : valid x;
  rounds_ge : forall v, valid v -> finite v -> D * fixed v <= M -> fixed v <= fixed x;
  rounds_le : forall v, valid v -> finite v -> M <= D * fixed v -> fixed x <= fixed v
}.

Lemma rounds_exact x : valid x -> finite x -> rounds (fixed x) 1 x.
Proof. intros Hv Hf. split; [done..| |]; intros; lia. Qed.

(** [R] is a rounded [N]/[A]. *)
Definition nearby (N A R : Z) : Prop :=
  (forall V, V * A <= N -> V <= R) /\ (forall V, N <= V * A -> R <= V).

Lemma nearby_rounded m n : 0 <= m -> 0 < n -> nearby m (2 ^ n) (rounded m n).
Proof.
  intros Hm Hn. pose proof (rounded_near m n Hm Hn) as Hr. pose proof (Z.pow_pos_nonneg 2 n ltac:(lia) ltac:(lia)).
  split; intros V HV; nia.
Qed.

Lemma nearby_floor N A F R : 0 < A -> F * A <= N < (F + 1) * A -> F <= R <= F + 1 -> (N = F * A -> R = F) -> nearby N A R.
Proof.
  intros HA HF HR Hex. split; intros V HV; [nia|]. destruct (Z.eq_dec N (F * A)) as [E|E]; [rewrite (Hex E); nia|nia].
Qed.

(** [R] units of 2^([k] - 1074), where the exact result has 53 bits. *)
Lemma rounds_nearby M D R k x : valid x -> f64_finite_pos x -> fixed x = R * 2 ^ k -> 0 <= k -> 0 < D ->
  2 ^ 52 <= R -> D * (2 ^ 52 * 2 ^ k) <= M -> nearby M (D * 2 ^ k) R -> rounds M D x.
Proof.
  intros Hx Hpos Hf Hk HD HR HM [Hlo Hhi]. pose proof (Z.pow_pos_nonneg 2 k ltac:(lia) ltac:(lia)) as Hp.
  assert (HMpos : 0 < M) by nia.
  assert (Hcase : forall v, valid v -> finite v ->
    (exists V, fixed v = V * 2 ^ k) \/ fixed v < 2 ^ 52 * 2 ^ k).
  { intros [s|s| |s m e] Hv Hfin; try done; [left; by exists 0|]. pose proof (valid_finite _ _ _ Hv) as (He & Hm & _).
    unfold fixed. pose proof (Z.pow_pos_nonneg 2 (e + 1074) ltac:(lia) ltac:(lia)) as Hpe. destruct (Z.le_gt_cases k (e + 1074)) as [Hle|Hgt].
    - left. exists ((if s then Zneg m else Zpos m) * 2 ^ (e + 1074 - k)). rewrite <- Z.mul_assoc, <- Z.pow_add_r by lia.
      do 2 f_equal. lia.
    - right. apply (Z.le_lt_trans _ (Zpos m * 2 ^ (e + 1074))); [apply Z.mul_le_mono_nonneg_r; [lia|by destruct s]|].
      apply (Z.lt_le_trans _ (2 ^ 53 * 2 ^ (e + 1074))); [by apply Z.mul_lt_mono_pos_r|].
      rewrite <- !Z.pow_add_r by lia. apply Z.pow_le_mono_r; lia. }
  split; [by destruct x|done| |]; intros v Hv Hfin Hm; rewrite ?Hf; destruct (Hcase v Hv Hfin) as [[V HV]|Hlt].
  - rewrite HV in *. apply Z.mul_le_mono_nonneg_r; [lia|]. apply Hlo. lia.
  - apply Z.lt_le_incl, (Z.lt_le_trans _ _ _ Hlt). by apply Z.mul_le_mono_pos_r.
  - rewrite HV in *. apply Z.mul_le_mono_nonneg_r; [lia|]. apply Hhi. lia.
  - assert (D * fixed v < D * (2 ^ 52 * 2 ^ k)) by (by apply Z.mul_lt_mono_pos_l). lia.
Qed.

(** The end of every rounding: a mantissa of 53 bits, or 2^53. *)
Lemma round_end R e : 2 ^ 52 <= R <= 2 ^ 53 -> -1074 <= e < 971 ->
  exists m e', (let '(mrs, e'') := shr_fexp prec emax R e loc_Exact in
     match shr_m mrs with
     | Z0 => S754_zero false
     | Zpos m => if e'' <=? emax - prec then S754_finite false m e'' else S754_infinity false
     | _ => S754_nan
     end) = S754_finite false m e' /\ valid (S754_finite false m e') /\ fixed (S754_finite false m e') = R * 2 ^ (e + 1074).
Proof.
  intros HR He. destruct R as [|r|r]; [lia| |lia]. destruct (Z.eq_dec (Zpos r) (2 ^ 53)) as [Hc|Hc].
  - exists (2 ^ 52)%positive, (e + 1).
    assert (shr_fexp prec emax (Zpos r) e loc_Exact = ({| shr_m := 2 ^ 52; shr_r := false; shr_s := false |}, e + 1)) as ->.
    { injection Hc as ->. rewrite shr_fexp_pos by (simpl; lia). reflexivity. }
    cbn [shr_m]. change (2 ^ 52) with (Zpos (2 ^ 52)). replace (e + 1 <=? emax - prec) with true by (unfold emax, prec; lia).
    split; [done|]. split; [apply valid_normal; [by compute|lia]|]. unfold fixed. rewrite Hc.
    replace (e + 1 + 1074) with (1 + (e + 1074)) by lia. rewrite (Z.pow_add_r 2 1) by lia. lia.
  - assert (Hd : Zpos (digits2_pos r) = 53) by (apply digits_unique; [simpl Z.sub; lia|done]).
    exists r, e. rewrite shr_fexp_short by lia. cbn [shr_m]. replace (e <=? emax - prec) with true by (unfold emax, prec; lia).
    split; [done|]. split; [apply valid_normal; lia|done].
Qed.

Lemma round_pos_rounds p e (d := Zpos (digits2_pos p)) : -1074 <= e -> -1021 <= d + e < 1000 -> 53 < d ->
  rounds (Zpos p * 2 ^ (e + 1074)) 1 (binary_round_aux prec emax false (Zpos p) e loc_Exact)
  /\ f64_finite_pos (binary_round_aux prec emax false (Zpos p) e loc_Exact).
Proof.
  intros He Hd Hlong. unfold binary_round_aux. rewrite shr_fexp_pos by (fold d; lia). fold d. cbn [shr_m shifted].
  fold (rounded (Zpos p) (d - 53)). pose proof (rounded_53 p Hlong) as HR. fold d in HR.
  destruct (round_end (rounded (Zpos p) (d - 53)) (e + (d - 53)) HR ltac:(lia)) as (m & e' & -> & Hv & Hf).
  split; [|done]. pose proof (digits_bounds p) as Hb. fold d in Hb.
  pose proof (Z.pow_pos_nonneg 2 (e + 1074) ltac:(lia) ltac:(lia)) as Hp.
  assert (Hk : 2 ^ (e + (d - 53) + 1074) = 2 ^ (d - 53) * 2 ^ (e + 1074)) by (rewrite <- Z.pow_add_r by lia; f_equal; lia).
  eapply (rounds_nearby _ 1 _ (e + (d - 53) + 1074)); [done|done|exact Hf|lia|lia|lia| |].
  - rewrite Hk, Z.mul_1_l, Z.mul_assoc, <- Z.pow_add_r by lia. replace (52 + (d - 53)) with (d - 1) by lia.
    apply Z.mul_le_mono_nonneg_r; lia.
  - rewrite Hk, Z.mul_1_l. destruct (nearby_rounded (Zpos p) (d - 53) ltac:(lia) ltac:(lia)) as [H1 H2].
    split; intros V HV; [apply H1|apply H2]; (apply (Z.mul_le_mono_pos_r _ _ (2 ^ (e + 1074))); [done|lia]).
Qed.

Lemma normalize_rounds p e (d := Zpos (digits2_pos p)) : -1074 <= e -> -1021 <= d + e < 1000 ->
  rounds (Zpos p * 2 ^ (e + 1074)) 1 (binary_normalize prec emax (Zpos p) e false)
  /\ f64_finite_pos (binary_normalize prec emax (Zpos p) e false).
Proof.
  intros He Hd. unfold binary_normalize, binary_round. fold d. rewrite fexp_normal by lia. unfold shl_align.
  destruct (Z.lt_trichotomy d 53) as [Hs|[Hs|Hs]].
  - destruct (d + e - 53 - e) as [|q|q] eqn:Eq; [lia|lia|]. pose proof (Pos_iter_xO p q) as Hi.
    set (p' := Pos.iter xO p q) in *. assert (Hq : Zpos q = 53 - d) by lia. rewrite Hq in Hi.
    assert (Hd' : Zpos (digits2_pos p') = 53).
    { apply digits_unique; [|done]. rewrite Hi. pose proof (digits_bounds p) as Hb. fold d in Hb.
      pose proof (Z.pow_pos_nonneg 2 (53 - d) ltac:(lia) ltac:(lia)).
      replace (2 ^ (53 - 1)) with (2 ^ (d - 1) * 2 ^ (53 - d)) by (rewrite <- Z.pow_add_r by lia; f_equal; lia).
      replace (2 ^ 53) with (2 ^ d * 2 ^ (53 - d)) by (rewrite <- Z.pow_add_r by lia; f_equal; lia).
      split; [apply Z.mul_le_mono_nonneg_r|apply Z.mul_lt_mono_pos_r]; lia. }
    rewrite round_short by lia. split; [|done].
    replace (Zpos p * 2 ^ (e + 1074)) with (fixed (S754_finite false p' (d + e - 53))).
    + apply rounds_exact; [|done]. apply valid_normal; [|lia]. pose proof (digits_bounds p') as Hb. rewrite Hd' in Hb. done.
    + unfold fixed. rewrite Hi, <- Z.mul_assoc, <- Z.pow_add_r by lia. do 2 f_equal. lia.
  - replace (d + e - 53 - e) with 0 by lia. rewrite round_short by (fold d; lia). split; [|done].
    change (Zpos p * 2 ^ (e + 1074)) with (fixed (S754_finite false p e)).
    apply rounds_exact; [|done]. apply valid_normal; [|lia]. pose proof (digits_bounds p) as Hb. fold d in Hb. by rewrite Hs in Hb.
  - destruct (d + e - 53 - e) as [|q|q] eqn:Eq; [lia| |lia]. by apply round_pos_rounds.
Qed.

Lemma digits_of_fixed p e : -1074 <= e -> 2 ^ 60 <= Zpos p * 2 ^ (e + 1074) < 2 ^ 2000 ->
  -1021 <= Zpos (digits2_pos p) + e < 1000.
Proof.
  intros He [H1 H2]. pose proof (digits_bounds p) as [Hb1 Hb2]. set (d := Zpos (digits2_pos p)) in *.
  pose proof (Z.pow_pos_nonneg 2 (e + 1074) ltac:(lia) ltac:(lia)) as Hp. split.
  - assert (60 < d + (e + 1074)); [|lia]. apply (Z.pow_lt_mono_r_iff 2); [lia|lia|]. rewrite Z.pow_add_r by lia.
    apply (Z.le_lt_trans _ _ _ H1). by apply Z.mul_lt_mono_pos_r.
  - assert (d - 1 + (e + 1074) < 2000); [|lia]. apply (Z.pow_lt_mono_r_iff 2); [lia|lia|]. rewrite Z.pow_add_r by lia.
    apply (Z.le_lt_trans _ (Zpos p * 2 ^ (e + 1074))); [by apply Z.mul_le_mono_pos_r|done].
Qed.

(** The sum of two numbers. *)
Lemma shl_align_value m e k : k <= e -> Zpos (fst (shl_align m e k)) = Zpos m * 2 ^ (e - k).
Proof.
  intros H. unfold shl_align. destruct (k - e) as [|q|q] eqn:E; [|lia|].
  - replace (e - k) with 0 by lia. simpl. lia.
  - cbn [fst]. rewrite Pos_iter_xO. do 2 f_equal. lia.
Qed.

Lemma add_rounds x y : valid x -> valid y -> finite x -> finite y -> 2 ^ 60 <= fixed x + fixed y < 2 ^ 2000 ->
  rounds (fixed x + fixed y) 1 (f64_add x y) /\ f64_finite_pos (f64_add x y).
Proof.
  destruct x as [s|s| |s m e], y as [t|t| |t n k]; try done; intros Hx Hy _ _ H.
  - simpl in H. lia.
  - change (fixed (S754_zero s)) with 0 in *. rewrite Z.add_0_l in *. split; [by apply rounds_exact|].
    pose proof (fixed_sign _ _ _ Hy). destruct t; [|done]. unfold fixed in H. lia.
  - change (fixed (S754_zero t)) with 0 in *. rewrite Z.add_0_r in *. split; [by apply rounds_exact|].
    pose proof (fixed_sign _ _ _ Hx). destruct s; [|done]. unfold fixed in H. lia.
  - pose proof (valid_finite _ _ _ Hx) as (He & _). pose proof (valid_finite _ _ _ Hy) as (Hk & _).
    unfold f64_add, SFadd. set (z := Z.min e k).
    pose proof (shl_align_value m e z ltac:(lia)) as Hm. pose proof (shl_align_value n k z ltac:(lia)) as Hn.
    set (a := fst (shl_align m e z)) in *. set (b := fst (shl_align n k z)) in *.
    assert (Hf : forall (s : bool) (p q : positive) w, z <= w -> Zpos q = Zpos p * 2 ^ (w - z) ->
      (if s then Zneg p else Zpos p) * 2 ^ (w + 1074) = cond_Zopp s (Zpos q) * 2 ^ (z + 1074)).
    { intros u p q w Hw Hq. replace (w + 1074) with ((w - z) + (z + 1074)) by lia. rewrite (Z.pow_add_r 2 (w - z)) by lia.
      destruct u; unfold cond_Zopp; rewrite ?Hq; lia. }
    unfold fixed in H |- *. rewrite (Hf s m a e ltac:(lia) Hm), (Hf t n b k ltac:(lia) Hn) in *.
    rewrite <- Z.mul_add_distr_r in *. destruct (cond_Zopp s (Zpos a) + cond_Zopp t (Zpos b)) as [|p|p].
    + lia.
    + apply normalize_rounds; [lia|]. apply digits_of_fixed; [lia|done].
    + pose proof (Z.pow_pos_nonneg 2 (z + 1074) ltac:(lia) ltac:(lia)). lia.
Qed.

(** ** Quotients *)

Lemma round_even_floor F l : F <= round_nearest_even F l <= F + 1.
Proof. unfold round_nearest_even. repeat case_match; lia. Qed.

(** A quotient of 53 bits keeps its location, one of 54 bits is shifted once. *)
Lemma shr_fexp_quotient q e l (d := Zpos (digits2_pos q)) : -1021 <= d + e -> d = 53 \/ d = 54 ->
  exists rec, shr_fexp prec emax (Zpos q) e l = (rec, e + (d - 53))
  /\ shr_m rec = Zpos q / 2 ^ (d - 53)
  /\ (l = loc_Exact -> Zpos q mod 2 ^ (d - 53) = 0 -> loc_of_shr_record rec = loc_Exact).
Proof.
  intros He Hd. unfold shr_fexp. cbn [Zdigits2]. fold d. rewrite fexp_normal by lia.
  replace (d + e - 53 - e) with (d - 53) by lia. destruct Hd as [Hd|Hd]; rewrite Hd.
  - exists (shr_record_of_loc (Zpos q) l). change (53 - 53) with 0. rewrite Z.add_0_r, Z.pow_0_r, Z.div_1_r.
    split; [done|]. split; [by destruct l as [|[]]|by intros -> _].
  - change (54 - 53) with 1. cbn [shr SpecFloat.iter_pos]. eexists. split; [done|].
    change (2 ^ 1) with 2. pose proof (Zmod_odd (Zpos q)) as Ho.
    split; [by destruct l as [|[]]; cbn [shr_record_of_loc]; rewrite shr_1_eq|].
    intros -> Hm. cbn [shr_record_of_loc]. rewrite shr_1_eq by lia. rewrite Hm in Ho. by destruct (Z.odd (Zpos q)).
Qed.

Lemma new_location_exact n r : new_location n r = loc_Exact <-> r = 0.
Proof.
  unfold new_location, new_location_even, new_location_odd. destruct (Z.even n), (Z.eqb_spec r 0); done.
Qed.

Lemma top_53 q (d := Zpos (digits2_pos q)) : 53 <= d -> 2 ^ 52 <= Zpos q / 2 ^ (d - 53) < 2 ^ 53.
Proof.
  intros Hd. pose proof (digits_bounds q) as [H1 H2]. fold d in H1, H2.
  pose proof (Z.pow_pos_nonneg 2 (d - 53) ltac:(lia) ltac:(lia)). split.
  - apply Z.div_le_lower_bound; [done|]. rewrite <- Z.pow_add_r by lia. by replace (d - 53 + 52) with (d - 1) by lia.
  - apply Z.div_lt_upper_bound; [done|]. rewrite <- Z.pow_add_r by lia. by replace (d - 53 + 53) with d by lia.
Qed.

(** Rounding the quotient [q] of [N] by [m], remainder [r]. *)
Lemma quotient_rounds N m q r k (d := Zpos (digits2_pos q)) : N = Zpos m * Zpos q + r -> 0 <= r < Zpos m ->
  d = 53 \/ d = 54 -> -1000 <= k <= 800 ->
  rounds (N * 2 ^ (k + 1074)) (Zpos m) (binary_round_aux prec emax false (Zpos q) k (new_location (Zpos m) r)).
Proof.
  intros HN Hr Hd Hk. destruct (shr_fexp_quotient q k (new_location (Zpos m) r) ltac:(fold d; lia) Hd) as (rec & Hrec & Hm & Hloc).
  fold d in Hrec, Hm, Hloc. unfold binary_round_aux. rewrite Hrec, Hm.
  pose proof (round_even_floor (Zpos q / 2 ^ (d - 53)) (loc_of_shr_record rec)) as HR.
  pose proof (top_53 q ltac:(fold d; lia)) as HF. fold d in HF.
  pose proof (Z.pow_pos_nonneg 2 (d - 53) ltac:(lia) ltac:(lia)) as Ht.
  pose proof (Z.pow_pos_nonneg 2 (k + 1074) ltac:(lia) ltac:(lia)) as Hs.
  pose proof (Z.div_mod (Zpos q) (2 ^ (d - 53)) ltac:(lia)) as Hdm.
  pose proof (Z.mod_pos_bound (Zpos q) (2 ^ (d - 53)) Ht) as Hmod.
  assert (He : 2 ^ (k + (d - 53) + 1074) = 2 ^ (d - 53) * 2 ^ (k + 1074)) by (rewrite <- Z.pow_add_r by lia; f_equal; lia).
  set (F := Zpos q / 2 ^ (d - 53)) in *. set (R := round_nearest_even F (loc_of_shr_record rec)) in *.
  set (t := 2 ^ (d - 53)) in *. set (s := 2 ^ (k + 1074)) in *.
  destruct (round_end R (k + (d - 53)) ltac:(lia) ltac:(lia)) as (p & e' & -> & Hv & Hf).
  assert (nearby N (Zpos m * t) R) as [N1 N2].
  { apply (nearby_floor _ _ F); [lia| |done|].
    - rewrite HN. split; [nia|]. apply (Z.lt_le_trans _ (Zpos m * (Zpos q + 1))); [lia|].
      replace ((F + 1) * (Zpos m * t)) with (Zpos m * (t * F + t)) by lia. apply Z.mul_le_mono_nonneg_l; lia.
    - intros HE. assert (r = 0 /\ Zpos q mod t = 0) as [-> Hz] by nia.
      unfold R. rewrite Hloc; [done|by apply new_location_exact|done]. }
  eapply (rounds_nearby _ (Zpos m) R (k + (d - 53) + 1074)); [done|done|exact Hf|lia|lia|lia| |]; rewrite He.
  - apply (Z.le_trans _ (Zpos m * (F * t) * s)); [nia|]. apply Z.mul_le_mono_nonneg_r; [lia|]. nia.
  - split; intros V HV; [apply N1|apply N2]; (apply (Z.mul_le_mono_pos_r _ _ s); [done|lia]).
Qed.

Lemma div_rounds m1 e1 m2 e2 (x := S754_finite false m1 e1) (y := S754_finite false m2 e2) :
  2 ^ 52 <= Zpos m1 < 2 ^ 53 -> 2 ^ 52 <= Zpos m2 < 2 ^ 53 -> -500 <= e1 - e2 <= 500 ->
  rounds (Zpos m1 * 2 ^ (e1 - e2 + 1074)) (Zpos m2) (f64_div x y).
Proof.
  intros H1 H2 He. unfold f64_div, x, y, SFdiv, SFdiv_core_binary. cbn [Zdigits2 xorb].
  assert (Hd1 : Zpos (digits2_pos m1) = 53) by (by apply digits_unique).
  assert (Hd2 : Zpos (digits2_pos m2) = 53) by (by apply digits_unique). rewrite Hd1, Hd2, fexp_normal by lia.
  replace (Z.min (53 + e1 - (53 + e2) - 53) (e1 - e2)) with (e1 - e2 - 53) by lia.
  set (k := e1 - e2) in *. replace (k - (k - 53)) with 53 by lia. rewrite Z.shiftl_mul_pow2 by lia.
  pose proof (Z.div_eucl_eq (Zpos m1 * 2 ^ 53) (Zpos m2) ltac:(lia)) as Hq.
  pose proof (Z.mod_pos_bound (Zpos m1 * 2 ^ 53) (Zpos m2) ltac:(lia)) as Hr. unfold Z.modulo in Hr.
  destruct (Z.div_eucl (Zpos m1 * 2 ^ 53) (Zpos m2)) as [q r].
  assert (Hqb : 2 ^ 52 <= q < 2 ^ 54) by nia. destruct q as [|q|q]; [lia| |lia].
  pose proof (digits_bounds q) as Hb.
  assert (52 < Zpos (digits2_pos q)) by (apply (Z.pow_lt_mono_r_iff 2); lia).
  assert (Zpos (digits2_pos q) - 1 < 54) by (apply (Z.pow_lt_mono_r_iff 2); lia).
  replace (Zpos m1 * 2 ^ (k + 1074)) with ((Zpos m1 * 2 ^ 53) * 2 ^ (k - 53 + 1074))
    by (rewrite <- Z.mul_assoc, <- Z.pow_add_r by lia; do 2 f_equal; lia).
  apply quotient_rounds; [exact Hq|exact Hr|lia|lia].
Qed.

(** The quotient of two integers. *)
Lemma div_integers n d : 0 < n < 2 ^ 53 -> 0 < d < 2 ^ 53 -> rounds (n * 2 ^ 1074) d (f64_div (f64_of_Z n) (f64_of_Z d)).
Proof.
  intros Hn Hd. destruct (f64_of_Z_exact n Hn) as (m1 & -> & Hm1 & Hd1). destruct (f64_of_Z_exact d Hd) as (m2 & -> & Hm2 & Hd2).
  pose proof (digits_bounds m1) as B1. rewrite Hd1 in B1. pose proof (digits_bounds m2) as B2. rewrite Hd2 in B2.
  assert (Hb : forall z, 0 < z < 2 ^ 53 -> 0 < bits z <= 53).
  { intros z Hz. split; [apply bits_pos; lia|]. unfold bits. pose proof (Z.log2_lt_pow2 z 53 ltac:(lia)). lia. }
  pose proof (Hb n Hn). pose proof (Hb d Hd).
  destruct (div_rounds m1 (bits n - 53) m2 (bits d - 53) B1 B2 ltac:(lia)) as [Hf Hv Hge Hle].
  assert (HM : Zpos m1 * 2 ^ (bits n - 53 - (bits d - 53) + 1074) = n * 2 ^ 1074 * 2 ^ (53 - bits d)).
  { rewrite Hm1, <- !Z.mul_assoc, <- !Z.pow_add_r by lia. do 2 f_equal. lia. }
  pose proof (Z.pow_pos_nonneg 2 (53 - bits d) ltac:(lia) ltac:(lia)). rewrite HM, Hm2 in *.
  split; [done..| |]; intros v Hvv Hvf Hvm; [apply Hge|apply Hle]; try done;
    rewrite (Z.mul_shuffle0 d); apply Z.mul_le_mono_nonneg_r; lia.
Qed.

(** ** Durations *)

Lemma f64_of_Z_fixed n : 0 <= n < 2 ^ 53 ->
  valid (f64_of_Z n) /\ finite (f64_of_Z n) /\ fixed (f64_of_Z n) = n * 2 ^ 1074.
Proof.
  intros Hn. destruct (Z.eq_dec n 0) as [->|Hz]; [done|]. destruct (f64_of_Z_exact n ltac:(lia)) as (m & -> & Hm & Hd).
  pose proof (digits_bounds m) as B. rewrite Hd in B.
  assert (0 < bits n <= 53).
  { split; [apply bits_pos; lia|]. unfold bits. pose proof (Z.log2_lt_pow2 n 53 ltac:(lia)). lia. }
  split; [apply valid_normal; [done|lia]|]. split; [done|]. unfold fixed. rewrite Hm, <- Z.mul_assoc, <- Z.pow_add_r by lia.
  do 2 f_equal. lia.
Qed.

(** Quarters of a second. *)
Lemma quarter_fixed k : 0 <= k < 2 ^ 10 ->
  valid (f64_ratio k 4) /\ finite (f64_ratio k 4) /\ fixed (f64_ratio k 4) = k * 2 ^ 1072.
Proof.
  intros Hk. assert (H : forallb (fun k => let x := f64_ratio k 4 in
    valid_binary prec emax x && match x with S754_zero _ | S754_finite _ _ _ => true | _ => false end
    && (fixed x =? k * 2 ^ 1072)) (map Z.of_nat (seq 0 1024)) = true) by (vm_compute; reflexivity).
  rewrite forallb_forall in H. specialize (H k). rewrite !andb_true_iff, Z.eqb_eq in H.
  destruct H as [[H1 H2] H3].
  { rewrite in_map_iff. exists (Z.to_nat k). split; [lia|]. apply in_seq. lia. }
  split; [done|]. split; [|done]. by destruct (f64_ratio k 4).
Qed.

(** The part of a second below the full seconds. *)
Lemma nanos_quarters r (b := f64_div (f64_of_Z r) (f64_of_Z 1000000000)) : 0 <= r < 1000000000 ->
  valid b /\ finite b
  /\ forall j, 0 <= j <= 4 -> (j * 250000000 <= r -> j * 2 ^ 1072 <= fixed b) /\ (r <= j * 250000000 -> fixed b <= j * 2 ^ 1072).
Proof.
  intros Hr. destruct (Z.eq_dec r 0) as [->|Hz].
  - change b with f64_zero. repeat split; try done; intros; simpl fixed; lia.
  - destruct (div_integers r 1000000000 ltac:(lia) ltac:(lia)) as [Bf Bv Bge Ble]. fold b in Bf, Bv, Bge, Ble.
    split; [done|]. split; [done|]. intros j Hj. destruct (quarter_fixed j ltac:(lia)) as (Jv & Jf & Jx).
    change (2 ^ 1074) with (4 * 2 ^ 1072) in *. rewrite <- Jx.
    split; intros Hjr; [apply Bge|apply Ble]; try done; rewrite Jx; lia.
Qed.

(** A duration in seconds is on the same side of every quarter of a second as the
    duration itself. *)
Lemma as_secs_quarters ns k : 250000000 <= ns < 2 ^ 38 -> 0 <= k < 2 ^ 10 ->
  finite (as_secs_f64 ns) /\ valid (as_secs_f64 ns)
  /\ (k * 250000000 <= ns -> f64_le (f64_ratio k 4) (as_secs_f64 ns) = true)
  /\ (ns <= k * 250000000 -> f64_le (as_secs_f64 ns) (f64_ratio k 4) = true).
Proof.
  intros Hns Hk. unfold as_secs_f64. pose proof (Z.div_mod ns 1000000000 ltac:(lia)) as Hdm.
  pose proof (Z.mod_pos_bound ns 1000000000 ltac:(lia)) as Hr. set (s := ns / 1000000000) in *. set (r := ns mod 1000000000) in *.
  destruct (f64_of_Z_fixed s ltac:(lia)) as (Sv & Sf & Sx). destruct (nanos_quarters r Hr) as (Bv & Bf & Bj).
  set (b := f64_div _ _) in *. destruct (quarter_fixed k Hk) as (Kv & Kf & Kx). change (2 ^ 1074) with (4 * 2 ^ 1072) in *.
  assert (HP : 2 ^ 60 <= 2 ^ 1072 /\ 2 ^ 1072 * 2 ^ 40 < 2 ^ 2000) by (vm_compute; done).
  set (P := 2 ^ 1072) in *. clearbody P b s r.
  destruct (Bj 0 ltac:(lia)) as [B0 B0']. destruct (Bj 1 ltac:(lia)) as [B1 _]. destruct (Bj 4 ltac:(lia)) as [_ B4].
  assert (Hsum : (k * 250000000 <= ns -> k * P <= fixed (f64_of_Z s) + fixed b)
    /\ (ns <= k * 250000000 -> fixed (f64_of_Z s) + fixed b <= k * P)).
  { rewrite Sx. destruct (Z.lt_trichotomy (k - 4 * s) 0) as [Hneg|[H0|Hpos]]; [split; nia|split; nia|].
    destruct (Z.le_gt_cases (k - 4 * s) 4) as [H4|H4]; [destruct (Bj (k - 4 * s) ltac:(lia)); split; lia|split; nia]. }
  assert (Hrange : 2 ^ 60 <= fixed (f64_of_Z s) + fixed b < 2 ^ 2000).
  { rewrite Sx. destruct HP as [P1 P2]. set (Q := 2 ^ 2000) in *. clearbody Q.
    assert (s * (4 * P) <= 300 * (4 * P)) by (apply Z.mul_le_mono_nonneg_r; lia).
    destruct (Z.eq_dec s 0) as [->|Hs]; [lia|]. assert (1 * (4 * P) <= s * (4 * P)) by (apply Z.mul_le_mono_nonneg_r; lia). lia. }
  destruct (add_rounds (f64_of_Z s) b Sv Bv Sf Bf Hrange) as [[Tf Tv Tge Tle] _].
  rewrite !fixed_le by done. repeat split; [done..| |]; intros H; apply Z.leb_le; [apply Tge|apply Tle]; try done;
    rewrite Kx, Z.mul_1_l; by apply Hsum.
Qed.

(** ** Magnitudes *)

Lemma pow_float k : 53 <= k <= 2000 -> exists v, valid v /\ finite v /\ fixed v = 2 ^ k.
Proof.
  intros Hk. exists (S754_finite false (2 ^ 52) (k - 52 - 1074)). split; [apply valid_normal; lia|]. split; [done|].
  unfold fixed. change (Zpos (2 ^ 52)) with (2 ^ 52). rewrite <- Z.pow_add_r by lia. f_equal. lia.
Qed.

(** [x] is a positive number between two powers of two. *)
Record between (a b : Z) (x : f64) : Prop := {
  bw_valid : valid x;
  bw_pos : f64_finite_pos x;
  bw_range : 2 ^ a <= fixed x <= 2 ^ b
}.

Lemma fixed_pos x : finite x -> 0 < fixed x -> f64_finite_pos x.
Proof. destruct x as [| | |[] m e]; simpl; try done; intros _ H. pose proof (Z.pow_nonneg 2 (e + 1074) ltac:(lia)). lia. Qed.

Lemma pos_finite x : f64_finite_pos x -> finite x.
Proof. by destruct x as [| | |[]]. Qed.

Lemma pos_nonneg x : f64_finite_pos x -> f64_nonneg x.
Proof. by destruct x as [| | |[]]. Qed.

Lemma rounds_between M D x a b : rounds M D x -> 53 <= a -> a <= b -> b <= 2000 -> D * 2 ^ a <= M <= D * 2 ^ b -> between a b x.
Proof.
  intros [Hf Hv Hge Hle] Ha Hab Hb [H1 H2].
  destruct (pow_float a ltac:(lia)) as (va & Va & Fa & Ea). destruct (pow_float b ltac:(lia)) as (vb & Vb & Fb & Eb).
  assert (Hx1 : 2 ^ a <= fixed x) by (rewrite <- Ea; apply Hge; [done..|by rewrite Ea]).
  assert (Hx2 : fixed x <= 2 ^ b) by (rewrite <- Eb; apply Hle; [done..|by rewrite Eb]).
  split; [done|apply fixed_pos; [done|]; pose proof (Z.pow_pos_nonneg 2 a ltac:(lia) ltac:(lia)); lia|done].
Qed.

(** Its mantissa has 53 bits, and its exponent is known up to 53. *)
Lemma between_normal a b x : between a b x -> 53 <= a -> a <= b ->
  exists m e, x = S754_finite false m e /\ 2 ^ 52 <= Zpos m < 2 ^ 53 /\ a - 52 <= e + 1074 <= b - 52
              /\ fixed x = Zpos m * 2 ^ (e + 1074).
Proof.
  intros [Hv Hp [H1 H2]] Ha Hab. destruct x as [| | |[] m e]; try done. pose proof (valid_finite _ _ _ Hv) as (He & Hm & Hn).
  unfold fixed in *. pose proof (Z.pow_pos_nonneg 2 (e + 1074) ltac:(lia) ltac:(lia)) as Hpos.
  assert (Hm52 : 2 ^ 52 <= Zpos m).
  { destruct Hn as [Hn|Hn]; [done|]. rewrite Hn in H1. change (-1074 + 1074) with 0 in H1.
    pose proof (Z.pow_le_mono_r 2 53 a ltac:(lia) ltac:(lia)). lia. }
  exists m, e. split_and!; [done|done|done| | |done].
  - assert (2 ^ a < 2 ^ (53 + (e + 1074))) by (rewrite Z.pow_add_r by lia; eapply Z.le_lt_trans; [exact H1|]; by apply Z.mul_lt_mono_pos_r).
    apply Z.pow_lt_mono_r_iff in H; lia.
  - assert (2 ^ (52 + (e + 1074)) <= 2 ^ b).
    { rewrite Z.pow_add_r by lia. eapply Z.le_trans; [|exact H2]. by apply Z.mul_le_mono_nonneg_r; [lia|]. }
    apply Z.pow_le_mono_r_iff in H; lia.
Qed.

Lemma f64_of_Z_between n : 0 < n < 2 ^ 64 -> between 1074 1138 (f64_of_Z n).
Proof.
  intros Hn. destruct n as [|p|p]; [lia| |lia]. unfold f64_of_Z. pose proof (digits_bounds p) as [H1 H2].
  assert (Hd : Zpos (digits2_pos p) - 1 < 64) by (apply (Z.pow_lt_mono_r_iff 2); lia).
  destruct (normalize_rounds p 0 ltac:(lia) ltac:(lia)) as [Hr _]. eapply rounds_between; [exact Hr|lia..|].
  change (0 + 1074) with 1074. rewrite !Z.mul_1_l. change 1138 with (64 + 1074). rewrite Z.pow_add_r by lia.
  pose proof (Z.pow_pos_nonneg 2 1074 ltac:(lia) ltac:(lia)). split; [|apply Z.mul_le_mono_nonneg_r; lia].
  rewrite <- (Z.mul_1_l (2 ^ 1074)) at 1. apply Z.mul_le_mono_nonneg_r; lia.
Qed.

Lemma mul_between a b c d x y : between a b x -> between c d y -> 53 <= a -> a <= b -> 53 <= c -> c <= d ->
  1180 <= a + c -> b + d <= 2800 -> between (a + c - 1076) (b + d - 1072) (f64_mul x y).
Proof.
  intros Hx Hy Ha Hab Hc Hcd H1 H2. destruct (between_normal _ _ _ Hx Ha Hab) as (m & e & -> & Hm & He & _).
  destruct (between_normal _ _ _ Hy Hc Hcd) as (n & k & -> & Hn & Hk & _). unfold f64_mul, SFmul. cbn [xorb].
  assert (Hp : 2 ^ 104 <= Zpos (m * n) < 2 ^ 106) by (rewrite Pos2Z.inj_mul; nia).
  pose proof (digits_bounds (m * n)) as [B1 B2]. set (p := (m * n)%positive) in *.
  assert (104 < Zpos (digits2_pos p)) by (apply (Z.pow_lt_mono_r_iff 2); lia).
  assert (Zpos (digits2_pos p) - 1 < 106) by (apply (Z.pow_lt_mono_r_iff 2); lia).
  destruct (round_pos_rounds p (e + k) ltac:(lia) ltac:(lia) ltac:(lia)) as [Hr _]. eapply rounds_between; [exact Hr|lia..|].
  pose proof (Z.pow_pos_nonneg 2 (e + k + 1074) ltac:(lia) ltac:(lia)). rewrite !Z.mul_1_l. split.
  - apply (Z.le_trans _ (2 ^ (104 + (e + k + 1074)))); [apply Z.pow_le_mono_r; lia|].
    rewrite (Z.pow_add_r 2 104) by lia. apply Z.mul_le_mono_nonneg_r; lia.
  - apply (Z.le_trans _ (2 ^ (106 + (e + k + 1074)))); [|apply Z.pow_le_mono_r; lia].
    rewrite (Z.pow_add_r 2 106) by lia. apply Z.mul_le_mono_nonneg_r; lia.
Qed.

Lemma div_between a b c d x y : between a b x -> between c d y -> 53 <= a -> a <= b -> 53 <= c -> c <= d ->
  d - a <= 400 -> b - c <= 400 -> between (a - d + 1072) (b - c + 1076) (f64_div x y).
Proof.
  intros Hx Hy Ha Hab Hc Hcd H1 H2. destruct (between_normal _ _ _ Hx Ha Hab) as (m & e & -> & Hm & He & _).
  destruct (between_normal _ _ _ Hy Hc Hcd) as (n & k & -> & Hn & Hk & _).
  pose proof (div_rounds m e n k Hm Hn ltac:(lia)) as Hr. cbv zeta in Hr. eapply rounds_between; [exact Hr|lia..|].
  pose proof (Z.pow_pos_nonneg 2 (e - k + 1073) ltac:(lia) ltac:(lia)) as Hp.
  replace (e - k + 1074) with (1 + (e - k + 1073)) by lia. rewrite (Z.pow_add_r 2 1) by lia. split.
  - apply (Z.le_trans _ (Zpos n * 2 ^ (e - k + 1073))); [apply Z.mul_le_mono_nonneg_l; [lia|]; apply Z.pow_le_mono_r; lia|].
    rewrite Z.mul_assoc. apply Z.mul_le_mono_nonneg_r; lia.
  - apply (Z.le_trans _ (Zpos n * 2 ^ (2 + (e - k + 1073)))); [|apply Z.mul_le_mono_nonneg_l; [lia|]; apply Z.pow_le_mono_r; lia].
    rewrite (Z.pow_add_r 2 2), !Z.mul_assoc by lia. apply Z.mul_le_mono_nonneg_r; lia.
Qed.

(** ** Differences *)

Lemma f64_sub_add x y : f64_sub x y = f64_add x (f64_neg y).
Proof.
  unfold f64_sub, f64_add, f64_neg, SFsub, SFadd, SFopp.
  destruct x as [s|s| |s m e], y as [t|t| |t n k]; try done; try (by destruct s, t).
Qed.

Lemma neg_valid x : valid x -> valid (f64_neg x).
Proof. by destruct x. Qed.

Lemma neg_fixed x : fixed (f64_neg x) = - fixed x.
Proof. destruct x as [| | |[] m e]; unfold fixed, f64_neg, SFopp; simpl negb; try done; by rewrite <- Z.mul_opp_l. Qed.

(** A number of at least one is a multiple of 2^-52. *)
Lemma one_multiple b x : between 1074 b x -> 1074 <= b -> exists q, fixed x = q * 2 ^ 1022.
Proof.
  intros Hx Hb. destruct (between_normal _ _ _ Hx ltac:(lia) Hb) as (m & e & -> & Hm & He & ->). exists (Zpos m * 2 ^ (e + 52)).
  rewrite <- Z.mul_assoc, <- Z.pow_add_r by lia. do 2 f_equal. lia.
Qed.

Lemma sub_rounds x y : valid x -> valid y -> finite x -> finite y -> 2 ^ 60 <= fixed x - fixed y < 2 ^ 2000 ->
  rounds (fixed x - fixed y) 1 (f64_sub x y) /\ f64_finite_pos (f64_sub x y).
Proof.
  intros Vx Vy Fx Fy H. rewrite f64_sub_add. rewrite <- Z.add_opp_r, <- neg_fixed in *.
  apply add_rounds; [done|by apply neg_valid|done|by destruct y|done].
Qed.

Lemma sub_same x y : valid x -> valid y -> f64_finite_pos x -> f64_finite_pos y -> fixed x = fixed y -> f64_sub x y = f64_zero.
Proof.
  intros Vx Vy Px Py He. pose proof (compare_fixed x y Vx Vy (pos_finite _ Px) (pos_finite _ Py)) as Hc.
  rewrite He, Z.compare_refl in Hc. destruct x as [| | |[] m e], y as [| | |[] n k]; try done. simpl in Hc.
  destruct (e ?= k) eqn:Ek; try done. apply Z.compare_eq in Ek. injection Hc as Hc.
  apply Pos.compare_eq in Hc. subst. unfold f64_sub, SFsub. rewrite Z.sub_diag. done.
Qed.
