(* ===== verification/Errors.v ===== *)
(** * Errors of the USB/IP stack (shared/usbip-core/src/error.rs)

    The error kinds and their categories, the structured error with its context,
    the [From] conversions that the [?] operator uses, the one-line [Display]
    form, and the mapping of USB error codes to URB status numbers.

    [std::io::Error] is modelled by its kind and its text.  A correlation id is
    the text of the UUID drawn when the error is created, an argument here. *)

From stdpp Require Import sorting.
From S2P Require Import Prelude.

(** ** The data *)

Inductive ErrorCategory := Transient | Permanent | Fatal.

#[export] Instance ErrorCategory_eq_dec : EqDecision ErrorCategory.
Proof. solve_decision. Defined.

Definition category_to_string (c : ErrorCategory) : string :=
  match c with
  | Transient => "transient"
  | Permanent => "permanent"
  | Fatal => "fatal"
  end.

(** [std::io::ErrorKind] (the stable kinds). *)
Inductive IoErrorKind :=
| IoNotFound | IoPermissionDenied | IoConnectionRefused | IoConnectionReset
| IoConnectionAborted | IoNotConnected | IoAddrInUse | IoAddrNotAvailable
| IoBrokenPipe | IoAlreadyExists | IoWouldBlock | IoInvalidInput | IoInvalidData
| IoTimedOut | IoWriteZero | IoInterrupted | IoUnsupported | IoUnexpectedEof
| IoOutOfMemory | IoOther.

#[export] Instance IoErrorKind_eq_dec : EqDecision IoErrorKind.
Proof. solve_decision. Defined.

Record IoError := { io_kind : IoErrorKind; io_text : string }.

#[export] Instance IoError_eq_dec : EqDecision IoError.
Proof. solve_decision. Defined.

Inductive UsbErrorCode :=
| UsbIo | UsbInvalidParam | UsbAccess | UsbNoDevice | UsbNotFound | UsbBusy
| UsbTimeout | UsbOverflow | UsbPipe | UsbInterrupted | UsbNoMem | UsbNotSupported
| UsbBadDescriptor | UsbOther.

#[export] Instance UsbErrorCode_eq_dec : EqDecision UsbErrorCode.
Proof. solve_decision. Defined.

Definition usb_code_to_string (c : UsbErrorCode) : string :=
  match c with
  | UsbIo => "I/O error"
  | UsbInvalidParam => "invalid parameter"
  | UsbAccess => "access denied"
  | UsbNoDevice => "no such device"
  | UsbNotFound => "entity not found"
  | UsbBusy => "device busy"
  | UsbTimeout => "operation timed out"
  | UsbOverflow => "overflow"
  | UsbPipe => "pipe error"
  | UsbInterrupted => "interrupted"
  | UsbNoMem => "out of memory"
  | UsbNotSupported => "not supported"
  | UsbBadDescriptor => "bad descriptor"
  | UsbOther => "other USB error"
  end.

Inductive ErrorKind :=
| Io (e : IoError)
| Usb (c : UsbErrorCode)
| Protocol (msg : string)
| InvalidMessage (msg : string)
| ConnectionClosed
| DeviceNotFound (busid : string)
| DeviceBusy (msg : string)
| UrbFailed (status : Z)
| Timeout
| NotSupported (msg : string)
| Encryption (msg : string)
| Serialization (msg : string).

#[export] Instance ErrorKind_eq_dec : EqDecision ErrorKind.
Proof. solve_decision. Defined.

Definition kind_to_string (k : ErrorKind) : string :=
  match k with
  | Io e => "I/O error: " +:+ io_text e
  | Usb c => "USB error: " +:+ usb_code_to_string c
  | Protocol m => "Protocol error: " +:+ m
  | InvalidMessage m => "Invalid message: " +:+ m
  | ConnectionClosed => "Connection closed by peer"
  | DeviceNotFound b => "Device not found: " +:+ b
  | DeviceBusy m => "Device busy: " +:+ m
  | UrbFailed s => "Device error (URB failed): status=" +:+ pretty s
  | Timeout => "Operation timed out"
  | NotSupported m => "Not supported: " +:+ m
  | Encryption m => "Encryption error: " +:+ m
  | Serialization m => "Serialization error: " +:+ m
  end.

(** ** Classification *)

(** [ErrorKind::category]. *)
Definition category (k : ErrorKind) : ErrorCategory :=
  match k with
  | Timeout | ConnectionClosed => Transient
  | Io e =>
      match io_kind e with
      | IoWouldBlock | IoTimedOut | IoInterrupted | IoNotConnected | IoConnectionReset
      | IoConnectionRefused | IoConnectionAborted | IoBrokenPipe | IoUnexpectedEof => Transient
      | _ => Permanent
      end
  | Usb c => match c with UsbTimeout | UsbBusy => Transient | _ => Permanent end
  | DeviceNotFound _ | DeviceBusy _ | NotSupported _ | Protocol _ | InvalidMessage _ => Permanent
  | UrbFailed _ | Encryption _ | Serialization _ => Fatal
  end.

Record UsbIpError := {
  err_kind : ErrorKind;
  err_category : ErrorCategory;
  err_correlation_id : string;
  err_context : gmap string string
}.

(** [UsbIpError::new], with the id that [Uuid::now_v7] returned. *)
Definition error_new (now_v7 : string) (k : ErrorKind) (c : ErrorCategory) : UsbIpError :=
  {| err_kind := k; err_category := c; err_correlation_id := now_v7; err_context := ∅ |}.

(** [UsbIpError::with_context] and [UsbIpError::get_context]. *)
Definition with_context (e : UsbIpError) (key value : string) : UsbIpError :=
  {| err_kind := err_kind e; err_category := err_category e;
     err_correlation_id := err_correlation_id e;
     err_context := <[key := value]> (err_context e) |}.

Definition get_context (e : UsbIpError) (key : string) : option string := err_context e !! key.

(** The [From] conversions. *)
Definition from_kind (now_v7 : string) (k : ErrorKind) : UsbIpError :=
  error_new now_v7 k (category k).

Definition from_io_error (now_v7 : string) (e : IoError) : UsbIpError :=
  let c := match io_kind e with
           | IoWouldBlock | IoTimedOut | IoInterrupted | IoNotConnected | IoConnectionReset
           | IoConnectionRefused | IoConnectionAborted | IoBrokenPipe | IoUnexpectedEof => Transient
           | _ => Permanent
           end in
  error_new now_v7 (Io e) c.

Definition from_usb_code (now_v7 : string) (c : UsbErrorCode) : UsbIpError :=
  let cat := match c with UsbTimeout | UsbBusy => Transient | _ => Permanent end in
  error_new now_v7 (Usb c) cat.

(** Results of the modelled operations carry the kind of the error: every error
    they raise is [UsbIpError::from] of that kind ([from_conversions_agree]). *)
Abbreviation UsbIpResult := (result ErrorKind).

(** ** Display *)

Definition key_le (p q : string * string) : Prop := String.le p.1 q.1.

#[export] Instance key_le_dec : RelDecision key_le.
Proof. intros p q. unfold key_le. apply _. Defined.

Definition fmt_pair (p : string * string) : string := " " +:+ p.1 +:+ "=" +:+ p.2.

(** The [Display] form, where [pairs] is the order in which the hash map of the
    context is iterated; the code sorts it by key. *)
Definition display_error (e : UsbIpError) (pairs : list (string * string)) : string :=
  "[" +:+ category_to_string (err_category e) +:+ "] [" +:+ err_correlation_id e +:+ "] "
  +:+ kind_to_string (err_kind e)
  +:+ String.concat "" (map fmt_pair (merge_sort key_le pairs)).

(** ** URB status numbers *)

(** [usb_error_to_urb_status]. *)
Definition usb_error_to_urb_status (c : UsbErrorCode) : Z :=
  match c with
  | UsbIo => -5
  | UsbInvalidParam => -22
  | UsbAccess => -1
  | UsbNoDevice => -19
  | UsbNotFound => -2
  | UsbBusy => -16
  | UsbTimeout => -62
  | UsbOverflow => -75
  | UsbPipe => -32
  | UsbInterrupted => -4
  | UsbNoMem => -12
  | UsbNotSupported => -95
  | UsbBadDescriptor => -5
  | UsbOther => -5
  end.

(** ** Theorems *)

(** The three [From] conversions agree: each one is [from_kind] of the kind it
    wraps, so the category of an error raised with [?] is that of its kind. *)
Lemma from_conversions_agree id e c :
  from_io_error id e = from_kind id (Io e) /\ from_usb_code id c = from_kind id (Usb c).
Proof. split; reflexivity. Qed.

Lemma usb_status_negative c : -95 <= usb_error_to_urb_status c <= -1.
Proof. destruct c; simpl; lia. Qed.

(** What [with_context] attaches is what [get_context] finds, the last
    value under a key wins, other keys are not disturbed, and the kind, the
    category and the correlation id stay as they were. *)
Theorem with_context_lookup e k v k' :
  get_context (with_context e k v) k' = (if decide (k = k') then Some v else get_context e k')
  /\ err_kind (with_context e k v) = err_kind e
  /\ err_category (with_context e k v) = err_category e
  /\ err_correlation_id (with_context e k v) = err_correlation_id e.
Proof.
  unfold get_context, with_context; simpl. split; [apply lookup_insert|done].
Qed.

#[export] Instance key_le_trans : Transitive key_le.
Proof. intros x y z. unfold key_le. apply (transitivity (R := String.le)). Qed.

#[export] Instance key_le_total : Total key_le.
Proof. intros x y. unfold key_le. apply total, _. Qed.

Lemma sorted_keys_unique l1 l2 :
  l1 ≡ₚ l2 -> NoDup (l1.*1) -> merge_sort key_le l1 = merge_sort key_le l2.
Proof.
  intros Hp Hnd. apply (Sorted_unique_strong key_le).
  - intros [k1 v1] [k2 v2] H1 H2 Hle1 Hle2.
    rewrite merge_sort_Permutation in H1. rewrite merge_sort_Permutation, <- Hp in H2.
    unfold key_le in *; simpl in *. assert (k1 = k2) as <- by (by apply (anti_symm String.le)).
    apply list_elem_of_lookup in H1 as [i Hi]. apply list_elem_of_lookup in H2 as [j Hj].
    assert (i = j) as <-; [|congruence].
    eapply (NoDup_lookup (l1.*1)); eauto; by rewrite list_lookup_fmap, ?Hi, ?Hj.
  - apply Sorted_merge_sort, _.
  - apply Sorted_merge_sort, _.
  - by rewrite !merge_sort_Permutation.
Qed.

(** The [Display] line of an error does not depend on the order in which
    the hash map of its context is iterated. *)
Theorem display_order_independent e pairs :
  pairs ≡ₚ map_to_list (err_context e) ->
  display_error e pairs = display_error e (map_to_list (err_context e)).
Proof.
  intros Hp. unfold display_error.
  rewrite (sorted_keys_unique pairs (map_to_list (err_context e))); [done|done|].
  rewrite Hp. apply NoDup_fst_map_to_list.
Qed.

Definition sample_error : UsbIpError :=
  with_context (with_context (from_kind "0190" ConnectionClosed) "peer" "10.0.0.1:3240") "busid" "3-2".

Lemma display_order_independent_witness :
  display_error sample_error [("peer", "10.0.0.1:3240"); ("busid", "3-2")]
  = "[transient] [0190] Connection closed by peer busid=3-2 peer=10.0.0.1:3240".
Proof.
  rewrite display_order_independent.
  - vm_compute. reflexivity.
  - apply (bool_decide_unpack _). vm_compute. exact I.
Defined.
