(* ===== verification/Proto.v ===== *)
(** * Protocol constants, header and device entry
    (shared/usbip-core/src/lib.rs and protocol.rs)

    The wire structures are packed and big-endian, read and written field after
    field; each is an instance of [WireCodec]. *)

From S2P Require Import Prelude RustStd.

(** ** Constants *)

Definition USBIP_PORT : Z := 3240.
Definition USBIP_VERSION : Z := 0x0111.
Definition MAX_MESSAGE_SIZE : Z := 1048576.

Definition OP_REQ_DEVLIST : Z := 0x8003.
Definition OP_REP_DEVLIST : Z := 0x0005.
Definition OP_REQ_IMPORT : Z := 0x8006.
Definition OP_REP_IMPORT : Z := 0x0007.
Definition USBIP_CMD_SUBMIT : Z := 0x0001.
Definition USBIP_RET_UNLINK : Z := 0x0002.
Definition USBIP_RET_SUBMIT : Z := 0x0003.

Definition STATUS_SUCCESS : Z := 0.
Definition STATUS_ST_NA : Z := 1.
Definition STATUS_ST_DEV_BUSY : Z := 2.
Definition STATUS_ST_DEV_ERR : Z := 3.
Definition STATUS_ST_NODEV : Z := 4.
Definition STATUS_ST_ERROR : Z := 5.

Definition URB_DIR_IN : Z := 0x0200.
Definition URB_DIR_OUT : Z := 0.

(** ** Speeds and directions *)

Inductive UsbSpeed := SpeedUnknown | SpeedLow | SpeedFull | SpeedHigh | SpeedWireless
                    | SpeedSuper | SpeedSuperPlus.

(** The [repr(u32)] discriminants and [UsbSpeed::from_u32]. *)
Definition speed_to_u32 (s : UsbSpeed) : Z :=
  match s with
  | SpeedUnknown => 0 | SpeedLow => 1 | SpeedFull => 2 | SpeedHigh => 3
  | SpeedWireless => 4 | SpeedSuper => 5 | SpeedSuperPlus => 6
  end.

Definition speed_from_u32 (v : Z) : UsbSpeed :=
  match v with
  | 1 => SpeedLow | 2 => SpeedFull | 3 => SpeedHigh | 4 => SpeedWireless
  | 5 => SpeedSuper | 6 => SpeedSuperPlus | _ => SpeedUnknown
  end.

Inductive Direction := DirOut | DirIn.

Definition direction_from_u32 (v : Z) : Direction :=
  match v with 0 => DirOut | _ => DirIn end.

(** ** The header *)

Record UsbIpHeader := { version : Z; command : Z; hstatus : Z }.

Definition header_wf (h : UsbIpHeader) : Prop :=
  is_u16 (version h) /\ is_u16 (command h) /\ is_i32 (hstatus h).

Definition header_SIZE : nat := 8.

Definition header_with_status (cmd status : Z) : UsbIpHeader :=
  {| version := USBIP_VERSION; command := cmd; hstatus := status |}.

Definition header_new (cmd : Z) : UsbIpHeader :=
  {| version := USBIP_VERSION; command := cmd; hstatus := 0 |}.

Definition header_as_bytes (h : UsbIpHeader) : list byte :=
  be_bytes 2 (version h) ++ be_bytes 2 (command h) ++ be_bytes 4 (hstatus h).

Definition header_read_from_prefix (l : list byte) : option (UsbIpHeader * list byte) :=
  '(v, l) ← take_be 2 l;
  '(c, l) ← take_be 2 l;
  '(s, l) ← take_be 4 l;
  Some ({| version := v; command := c; hstatus := to_i32 s |}, l).

(** ** The device entry *)

Record UsbIpDeviceEntry := {
  path : list byte;
  busid : list byte;
  busnum : Z;
  devnum : Z;
  speed : Z;
  id_vendor : Z;
  id_product : Z;
  bcd_device : Z;
  b_device_class : byte;
  b_device_sub_class : byte;
  b_device_protocol : byte;
  b_configuration_value : byte;
  b_num_configurations : byte;
  b_num_interfaces : byte
}.

#[export] Instance UsbIpDeviceEntry_eq_dec : EqDecision UsbIpDeviceEntry.
Proof. solve_decision. Defined.

Definition entry_wf (d : UsbIpDeviceEntry) : Prop :=
  length (path d) = 256%nat /\ length (busid d) = 32%nat /\
  is_u32 (busnum d) /\ is_u32 (devnum d) /\ is_u32 (speed d) /\
  is_u16 (id_vendor d) /\ is_u16 (id_product d) /\ is_u16 (bcd_device d).

Definition entry_SIZE : nat := 312.

Definition entry_as_bytes (d : UsbIpDeviceEntry) : list byte :=
  path d ++ busid d ++ be_bytes 4 (busnum d) ++ be_bytes 4 (devnum d) ++ be_bytes 4 (speed d)
  ++ be_bytes 2 (id_vendor d) ++ be_bytes 2 (id_product d) ++ be_bytes 2 (bcd_device d)
  ++ [b_device_class d; b_device_sub_class d; b_device_protocol d;
      b_configuration_value d; b_num_configurations d; b_num_interfaces d].

Definition entry_read_from_prefix (l : list byte) : option (UsbIpDeviceEntry * list byte) :=
  '(p, l) ← take_n 256 l;
  '(b, l) ← take_n 32 l;
  '(bn, l) ← take_be 4 l;
  '(dn, l) ← take_be 4 l;
  '(sp, l) ← take_be 4 l;
  '(v, l) ← take_be 2 l;
  '(pr, l) ← take_be 2 l;
  '(bcd, l) ← take_be 2 l;
  '(c1, l) ← take_u8 l;
  '(c2, l) ← take_u8 l;
  '(c3, l) ← take_u8 l;
  '(c4, l) ← take_u8 l;
  '(c5, l) ← take_u8 l;
  '(c6, l) ← take_u8 l;
  Some ({| path := p; busid := b; busnum := bn; devnum := dn; speed := sp; id_vendor := v;
           id_product := pr; bcd_device := bcd; b_device_class := c1; b_device_sub_class := c2;
           b_device_protocol := c3; b_configuration_value := c4; b_num_configurations := c5;
           b_num_interfaces := c6 |}, l).

(** [busid_str] and [path_str]: up to the first NUL, "???" when not UTF-8. *)
Definition busid_str (d : UsbIpDeviceEntry) : string :=
  let end_ := default 32%nat (position_zero (busid d)) in
  default "???" (from_utf8 (take end_ (busid d))).

Definition path_str (d : UsbIpDeviceEntry) : string :=
  let end_ := default 256%nat (position_zero (path d)) in
  default "???" (from_utf8 (take end_ (path d))).

Definition vid (d : UsbIpDeviceEntry) : Z := id_vendor d.
Definition pid (d : UsbIpDeviceEntry) : Z := id_product d.
Definition speed_val (d : UsbIpDeviceEntry) : Z := speed d.

(** The copy every constructor of an entry or request makes of a string into a
    zeroed array of [n] bytes: at most [n - 1] bytes, so a NUL always ends it. *)
Definition copy_padded (n : nat) (s : list byte) : list byte :=
  let copy_len := Nat.min (length s) (n - 1) in
  take copy_len s ++ zeros (n - copy_len).

(** ** The codecs *)

Lemma header_codec_decode h l :
  header_wf h -> header_read_from_prefix (header_as_bytes h ++ l) = Some (h, l).
Proof.
  destruct h as [v c s]. unfold header_wf, is_u16; simpl. intros (Hv & Hc & Hs).
  unfold header_read_from_prefix, header_as_bytes. cbn [version command hstatus]. rewrite <- (be_bytes_wrap32 s).
  pose proof (wrap_range 32 s ltac:(lia)). decode_fields. by rewrite to_i32_wrap.
Qed.

Lemma header_codec_encode l h r :
  header_read_from_prefix l = Some (h, r) -> header_wf h /\ l = header_as_bytes h ++ r.
Proof.
  unfold header_read_from_prefix, header_as_bytes. intros H. invert_reads.
  injection H as <- <-. reads_length. split.
  - repeat split; simpl; try lia; apply to_i32_range.
  - simpl. rewrite <- (be_bytes_wrap32 (to_i32 _)), wrap_to_i32 by (unfold is_u32; lia).
    by rewrite <- !app_assoc.
Qed.

Lemma header_codec_short l : header_read_from_prefix l = None <-> (length l < 8)%nat.
Proof.
  split.
  - unfold header_read_from_prefix. intros H. invert_reads; try done; reads_length; lia.
  - intros Hl. destruct (header_read_from_prefix l) as [[h r]|] eqn:E; [|done].
    apply header_codec_encode in E as [_ ->]. unfold header_as_bytes in Hl. len_solve.
Qed.

#[export] Instance header_codec : WireCodec UsbIpHeader.
Proof.
  refine {| wire_size := header_SIZE; encode_wire := header_as_bytes;
            decode_wire := header_read_from_prefix; wire_wf := header_wf |}.
  - intros a _. unfold header_as_bytes, header_SIZE. len_solve.
  - intros. by apply header_codec_decode.
  - apply header_codec_encode.
  - apply header_codec_short.
Defined.

Lemma entry_codec_decode d l :
  entry_wf d -> entry_read_from_prefix (entry_as_bytes d ++ l) = Some (d, l).
Proof.
  destruct d as [p b bn dn sp v pr bcd c1 c2 c3 c4 c5 c6].
  unfold entry_wf, is_u16, is_u32; simpl. intros (? & ? & ? & ? & ? & ? & ? & ?).
  unfold entry_read_from_prefix, entry_as_bytes.
  cbn [path busid busnum devnum speed id_vendor id_product
       bcd_device b_device_class b_device_sub_class b_device_protocol b_configuration_value
       b_num_configurations b_num_interfaces]. by decode_fields.
Qed.

Lemma entry_codec_encode l d r :
  entry_read_from_prefix l = Some (d, r) -> entry_wf d /\ l = entry_as_bytes d ++ r.
Proof.
  unfold entry_read_from_prefix, entry_as_bytes. intros H. invert_reads.
  injection H as <- <-. reads_length. split.
  - repeat split; simpl; lia.
  - simpl. by rewrite <- !app_assoc.
Qed.

Lemma entry_codec_short l : entry_read_from_prefix l = None <-> (length l < 312)%nat.
Proof.
  split.
  - unfold entry_read_from_prefix. intros H. invert_reads; try done; reads_length; lia.
  - intros Hl. destruct (entry_read_from_prefix l) as [[h r]|] eqn:E; [|done].
    apply entry_codec_encode in E as [(? & ? & _) ->]. unfold entry_as_bytes in Hl. len_solve.
Qed.

#[export] Instance entry_codec : WireCodec UsbIpDeviceEntry.
Proof.
  refine {| wire_size := entry_SIZE; encode_wire := entry_as_bytes;
            decode_wire := entry_read_from_prefix; wire_wf := entry_wf |}.
  - intros a (? & ? & _). unfold entry_as_bytes, entry_SIZE. len_solve.
  - intros. by apply entry_codec_decode.
  - apply entry_codec_encode.
  - apply entry_codec_short.
Defined.

(** ** Strings in fixed-size arrays *)

Definition no_nul (l : list byte) : Prop := Forall (fun b => b <> x00) l.

Lemma length_copy_padded n s : (0 < n)%nat -> length (copy_padded n s) = n.
Proof. intros. unfold copy_padded. len_solve. Qed.

Lemma position_zero_padded a k : no_nul a -> position_zero (a ++ zeros (S k)) = Some (length a).
Proof.
  induction 1 as [|b a Hb Ha IH]; simpl; [done|].
  rewrite decide_False by done. rewrite IH. done.
Qed.

Lemma take_copy_padded n s :
  (0 < n)%nat -> no_nul s -> (length s < n)%nat ->
  take (default n (position_zero (copy_padded n s))) (copy_padded n s) = s.
Proof.
  intros Hn Hs Hl. unfold copy_padded. rewrite Nat.min_l by lia.
  rewrite (take_ge s) by lia. replace (n - length s)%nat with (S (n - length s - 1)) by lia.
  rewrite position_zero_padded by done. apply take_app_length.
Qed.

Lemma busid_str_padded d s :
  busid d = copy_padded 32 (as_bytes s) ->
  no_nul (as_bytes s) -> utf8_valid (as_bytes s) = true -> (length (as_bytes s) <= 31)%nat ->
  busid_str d = s.
Proof.
  intros Hd Hn Hu Hl. unfold busid_str. rewrite Hd, take_copy_padded by (done || lia).
  unfold from_utf8. rewrite Hu. apply of_bytes_as_bytes.
Qed.

(** ** Theorems *)

(** A device entry survives the wire. Its encoding has exactly the 312 bytes
    of the protocol, and reading it back from the front of any byte string gives
    the entry and leaves the rest. *)
Theorem device_entry_roundtrip d l :
  entry_wf d ->
  length (entry_as_bytes d) = 312%nat
  /\ entry_read_from_prefix (entry_as_bytes d ++ l) = Some (d, l).
Proof.
  intros H. split; [exact (encode_length (A := UsbIpDeviceEntry) d H)|by apply entry_codec_decode].
Qed.

Definition sample_entry : UsbIpDeviceEntry :=
  {| path := copy_padded 256 (as_bytes "/sys/bus/usb/devices/1-2");
     busid := copy_padded 32 (as_bytes "1-2"); busnum := 1; devnum := 2; speed := 3;
     id_vendor := 0x046d; id_product := 0xc261; bcd_device := 0x0100;
     b_device_class := x00; b_device_sub_class := x00; b_device_protocol := x00;
     b_configuration_value := x01; b_num_configurations := x01; b_num_interfaces := x02 |}.

Lemma sample_entry_wf : entry_wf sample_entry.
Proof. repeat split; vm_compute; congruence. Qed.

Lemma device_entry_roundtrip_witness :
  entry_read_from_prefix (entry_as_bytes sample_entry ++ [xff]) = Some (sample_entry, [xff])
  /\ entry_wf sample_entry.
Proof.
  split; [apply device_entry_roundtrip|]; repeat split; vm_compute; congruence.
Defined.

(** Every 8 bytes are a header. Parsing the header of a message never fails
    on 8 bytes or more, and the header parsed is exactly what those bytes encode,
    so no information is lost or invented. *)
Theorem header_parse_total l :
  (8 <= length l)%nat ->
  exists h r, header_read_from_prefix l = Some (h, r)
              /\ header_wf h /\ l = header_as_bytes h ++ r /\ length r = (length l - 8)%nat.
Proof.
  intros Hl. destruct (header_read_from_prefix l) as [[h r]|] eqn:E.
  - pose proof (header_codec_encode _ _ _ E) as [Hwf ->]. exists h, r. split; [done|].
    split; [done|]. split; [done|]. unfold header_as_bytes. len_solve.
  - apply header_codec_short in E. lia.
Qed.

Lemma header_parse_total_witness :
  exists h r, header_read_from_prefix (header_as_bytes (header_with_status OP_REP_IMPORT (-4)) ++ [x07])
              = Some (h, r) /\ hstatus h = -4 /\ r = [x07].
Proof.
  destruct (header_parse_total (header_as_bytes (header_with_status OP_REP_IMPORT (-4)) ++ [x07]))
    as (h & r & H & _); [vm_compute; lia|].
  exists h, r. split; [exact H|]. vm_compute in H. injection H as <- <-. split; reflexivity.
Defined.

(** A bus id written into an entry is read back unchanged. A NUL-free UTF-8
    bus id of at most 31 bytes copied into the 32-byte field is what [busid_str]
    returns. *)
Theorem busid_field_roundtrip d s :
  busid d = copy_padded 32 (as_bytes s) ->
  no_nul (as_bytes s) -> utf8_valid (as_bytes s) = true -> (length (as_bytes s) <= 31)%nat ->
  busid_str d = s.
Proof. apply busid_str_padded. Qed.

Lemma busid_field_roundtrip_witness : busid_str sample_entry = "1-2".
Proof.
  apply busid_field_roundtrip; [reflexivity| |reflexivity|vm_compute; lia].
  repeat constructor; discriminate.
Defined.

(** The discriminants of [UsbSpeed] are what [from_u32] reads. *)
Lemma speed_roundtrip s : speed_from_u32 (speed_to_u32 s) = s.
Proof. destruct s; reflexivity. Qed.
