(* ===== verification/Urb.v ===== *)
(** * URB structures and reply serialization
    (shared/usbip-core/src/urb.rs and reply.rs) *)

From S2P Require Import Prelude RustStd Proto.

(** ** USBIP_CMD_SUBMIT *)

Record UsbIpCmdSubmit := {
  cs_seqnum : Z;
  cs_devid : Z;
  cs_direction : Z;
  cs_ep : Z;
  cs_transfer_flags : Z;
  cs_transfer_buffer_length : Z;
  cs_start_frame : Z;
  cs_number_of_packets : Z;
  cs_interval : Z;
  cs_setup : list byte
}.

Definition cmd_wf (c : UsbIpCmdSubmit) : Prop :=
  is_u32 (cs_seqnum c) /\ is_u32 (cs_devid c) /\ is_u32 (cs_direction c) /\ is_u32 (cs_ep c) /\
  is_u32 (cs_transfer_flags c) /\ is_u32 (cs_transfer_buffer_length c) /\
  is_u32 (cs_start_frame c) /\ is_u32 (cs_number_of_packets c) /\ is_u32 (cs_interval c) /\
  length (cs_setup c) = 8%nat.

(** [HEADER_SIZE], the bytes of a CMD_SUBMIT on the wire: 4 more than the
    structure has. *)
Definition cmd_HEADER_SIZE : nat := 48.

Definition cmd_as_bytes (c : UsbIpCmdSubmit) : list byte :=
  be_bytes 4 (cs_seqnum c) ++ be_bytes 4 (cs_devid c) ++ be_bytes 4 (cs_direction c)
  ++ be_bytes 4 (cs_ep c) ++ be_bytes 4 (cs_transfer_flags c)
  ++ be_bytes 4 (cs_transfer_buffer_length c) ++ be_bytes 4 (cs_start_frame c)
  ++ be_bytes 4 (cs_number_of_packets c) ++ be_bytes 4 (cs_interval c) ++ cs_setup c.

Definition cmd_read_from_prefix (l : list byte) : option (UsbIpCmdSubmit * list byte) :=
  '(sn, l) ← take_be 4 l;
  '(dv, l) ← take_be 4 l;
  '(di, l) ← take_be 4 l;
  '(e, l) ← take_be 4 l;
  '(tf, l) ← take_be 4 l;
  '(tl, l) ← take_be 4 l;
  '(sf, l) ← take_be 4 l;
  '(np, l) ← take_be 4 l;
  '(iv, l) ← take_be 4 l;
  '(st, l) ← take_n 8 l;
  Some ({| cs_seqnum := sn; cs_devid := dv; cs_direction := di; cs_ep := e;
           cs_transfer_flags := tf; cs_transfer_buffer_length := tl; cs_start_frame := sf;
           cs_number_of_packets := np; cs_interval := iv; cs_setup := st |}, l).

Definition cs_data_len (c : UsbIpCmdSubmit) : Z := cs_transfer_buffer_length c.

(** [is_in]: from the transfer flags, not from the direction field. *)
Definition cs_is_in (c : UsbIpCmdSubmit) : bool :=
  negb (Z.land (cs_transfer_flags c) URB_DIR_IN =? 0).

Definition cs_is_control (c : UsbIpCmdSubmit) : bool := negb (bool_decide (cs_setup c = zeros 8)).

Definition cs_wire_size (c : UsbIpCmdSubmit) : Z :=
  let base := Z.of_nat cmd_HEADER_SIZE in
  if negb (cs_is_in c) then base + cs_data_len c else base.

(** ** USBIP_RET_SUBMIT *)

Record UsbIpRetSubmit := {
  rs_seqnum : Z;
  rs_devid : Z;
  rs_direction : Z;
  rs_ep : Z;
  rs_status : Z;
  rs_actual_length : Z;
  rs_start_frame : Z;
  rs_number_of_packets : Z;
  rs_error_count : Z;
  rs_setup : list byte
}.

Definition ret_wf (c : UsbIpRetSubmit) : Prop :=
  is_u32 (rs_seqnum c) /\ is_u32 (rs_devid c) /\ is_u32 (rs_direction c) /\ is_u32 (rs_ep c) /\
  is_u32 (rs_status c) /\ is_u32 (rs_actual_length c) /\
  is_u32 (rs_start_frame c) /\ is_u32 (rs_number_of_packets c) /\ is_u32 (rs_error_count c) /\
  length (rs_setup c) = 8%nat.

Definition ret_HEADER_SIZE : nat := 44.

Definition ret_as_bytes (c : UsbIpRetSubmit) : list byte :=
  be_bytes 4 (rs_seqnum c) ++ be_bytes 4 (rs_devid c) ++ be_bytes 4 (rs_direction c)
  ++ be_bytes 4 (rs_ep c) ++ be_bytes 4 (rs_status c)
  ++ be_bytes 4 (rs_actual_length c) ++ be_bytes 4 (rs_start_frame c)
  ++ be_bytes 4 (rs_number_of_packets c) ++ be_bytes 4 (rs_error_count c) ++ rs_setup c.

Definition ret_read_from_prefix (l : list byte) : option (UsbIpRetSubmit * list byte) :=
  '(sn, l) ← take_be 4 l;
  '(dv, l) ← take_be 4 l;
  '(di, l) ← take_be 4 l;
  '(e, l) ← take_be 4 l;
  '(st, l) ← take_be 4 l;
  '(al, l) ← take_be 4 l;
  '(sf, l) ← take_be 4 l;
  '(np, l) ← take_be 4 l;
  '(ec, l) ← take_be 4 l;
  '(su, l) ← take_n 8 l;
  Some ({| rs_seqnum := sn; rs_devid := dv; rs_direction := di; rs_ep := e;
           rs_status := st; rs_actual_length := al; rs_start_frame := sf;
           rs_number_of_packets := np; rs_error_count := ec; rs_setup := su |}, l).

Definition rs_is_success (r : UsbIpRetSubmit) : bool := rs_status r =? 0.

Definition rs_has_data (r : UsbIpRetSubmit) : bool :=
  rs_is_success r && negb (rs_direction r =? 0) && (0 <? rs_actual_length r).

Definition rs_wire_size (r : UsbIpRetSubmit) : Z :=
  let base := Z.of_nat ret_HEADER_SIZE in
  if rs_has_data r then base + rs_actual_length r else base.

(** ** USBIP_RET_UNLINK *)

Record UsbIpRetUnlink := { ru_seqnum : Z; ru_devid : Z; ru_status : Z }.

Definition unlink_wf (u : UsbIpRetUnlink) : Prop :=
  is_u32 (ru_seqnum u) /\ is_u32 (ru_devid u) /\ is_u32 (ru_status u).

Definition unlink_SIZE : nat := 12.

Definition unlink_as_bytes (u : UsbIpRetUnlink) : list byte :=
  be_bytes 4 (ru_seqnum u) ++ be_bytes 4 (ru_devid u) ++ be_bytes 4 (ru_status u).

Definition unlink_read_from_prefix (l : list byte) : option (UsbIpRetUnlink * list byte) :=
  '(sn, l) ← take_be 4 l;
  '(dv, l) ← take_be 4 l;
  '(st, l) ← take_be 4 l;
  Some ({| ru_seqnum := sn; ru_devid := dv; ru_status := st |}, l).

(** ** Whole messages *)

Record UsbIpMessage := { msg_header : UsbIpHeader; msg_payload : list byte }.

Definition as_cmd_submit (m : UsbIpMessage) : option UsbIpCmdSubmit :=
  if negb (command (msg_header m) =? USBIP_CMD_SUBMIT) then None
  else fst <$> cmd_read_from_prefix (msg_payload m).

Definition as_ret_submit (m : UsbIpMessage) : option UsbIpRetSubmit :=
  if negb (command (msg_header m) =? USBIP_RET_SUBMIT) then None
  else fst <$> ret_read_from_prefix (msg_payload m).

Definition as_ret_unlink (m : UsbIpMessage) : option UsbIpRetUnlink :=
  if negb (command (msg_header m) =? USBIP_RET_UNLINK) then None
  else fst <$> unlink_read_from_prefix (msg_payload m).

(** ** Replies *)

(** The [UsbIpRetSubmit] that answers [cmd]. *)
Definition reply_ret (cmd : UsbIpCmdSubmit) (status actual_length : Z) : UsbIpRetSubmit :=
  {| rs_seqnum := cs_seqnum cmd;
     rs_devid := cs_devid cmd;
     rs_direction := cs_direction cmd;
     rs_ep := cs_ep cmd;
     rs_status := wrap 32 status;
     rs_actual_length := actual_length;
     rs_start_frame := cs_start_frame cmd;
     rs_number_of_packets := cs_number_of_packets cmd;
     rs_error_count := if status =? 0 then 0 else 1;
     rs_setup := cs_setup cmd |}.

(** [serialize_reply_into]: the extended buffer and the number of bytes added. *)
Definition serialize_reply_into (buf : list byte) (cmd : UsbIpCmdSubmit)
    (status actual_length : Z) (data : list byte) : list byte * Z :=
  let start := zlen buf in
  let buf := buf ++ header_as_bytes (header_new USBIP_RET_SUBMIT) in
  let buf := buf ++ ret_as_bytes (reply_ret cmd status actual_length) in
  let buf := buf ++ data in
  (buf, zlen buf - start).

Definition serialize_reply (cmd : UsbIpCmdSubmit) (status actual_length : Z) (data : list byte)
    : list byte :=
  fst (serialize_reply_into [] cmd status actual_length data).

Definition serialize_ret_submit (ret : UsbIpRetSubmit) (data : list byte) : list byte :=
  header_as_bytes (header_new USBIP_RET_SUBMIT) ++ ret_as_bytes ret ++ data.

(** ** Buffers of the hot path *)

Record UrbBuffer := { ub_buf : list byte; ub_data_offset : nat; ub_data_capacity : nat }.

Definition UrbBuffer_new (data_capacity : nat) : UrbBuffer :=
  let header_size := (cmd_HEADER_SIZE + header_SIZE)%nat in
  let total := (header_size + data_capacity)%nat in
  {| ub_buf := zeros total; ub_data_offset := header_size; ub_data_capacity := data_capacity |}.

Definition UrbBuffer_reset (b : UrbBuffer) : UrbBuffer :=
  {| ub_buf := (fun _ => x00) <$> ub_buf b; ub_data_offset := ub_data_offset b;
     ub_data_capacity := ub_data_capacity b |}.

(** ** The codecs *)

Lemma cmd_codec_decode c l :
  cmd_wf c -> cmd_read_from_prefix (cmd_as_bytes c ++ l) = Some (c, l).
Proof.
  destruct c. unfold cmd_wf, is_u32; simpl. intros (? & ? & ? & ? & ? & ? & ? & ? & ? & ?).
  unfold cmd_read_from_prefix, cmd_as_bytes; simpl. by decode_fields.
Qed.

Lemma cmd_codec_encode l c r :
  cmd_read_from_prefix l = Some (c, r) -> cmd_wf c /\ l = cmd_as_bytes c ++ r.
Proof.
  unfold cmd_read_from_prefix, cmd_as_bytes. intros H. invert_reads.
  injection H as <- <-. reads_length. split.
  - repeat split; simpl; lia.
  - simpl. by rewrite <- !app_assoc.
Qed.

Lemma cmd_codec_short l : cmd_read_from_prefix l = None <-> (length l < 44)%nat.
Proof.
  split.
  - unfold cmd_read_from_prefix. intros H. invert_reads; try done; reads_length; lia.
  - intros Hl. destruct (cmd_read_from_prefix l) as [[h r]|] eqn:E; [|done].
    apply cmd_codec_encode in E as [(? & ? & ? & ? & ? & ? & ? & ? & ? & ?) ->].
    unfold cmd_as_bytes in Hl. len_solve.
Qed.

#[export] Instance cmd_codec : WireCodec UsbIpCmdSubmit.
Proof.
  refine {| wire_size := 44; encode_wire := cmd_as_bytes;
            decode_wire := cmd_read_from_prefix; wire_wf := cmd_wf |}.
  - intros c (? & ? & ? & ? & ? & ? & ? & ? & ? & ?). unfold cmd_as_bytes. len_solve.
  - intros. by apply cmd_codec_decode.
  - apply cmd_codec_encode.
  - apply cmd_codec_short.
Defined.

Lemma ret_codec_decode c l :
  ret_wf c -> ret_read_from_prefix (ret_as_bytes c ++ l) = Some (c, l).
Proof.
  destruct c. unfold ret_wf, is_u32; simpl. intros (? & ? & ? & ? & ? & ? & ? & ? & ? & ?).
  unfold ret_read_from_prefix, ret_as_bytes; simpl. by decode_fields.
Qed.

Lemma ret_codec_encode l c r :
  ret_read_from_prefix l = Some (c, r) -> ret_wf c /\ l = ret_as_bytes c ++ r.
Proof.
  unfold ret_read_from_prefix, ret_as_bytes. intros H. invert_reads.
  injection H as <- <-. reads_length. split.
  - repeat split; simpl; lia.
  - simpl. by rewrite <- !app_assoc.
Qed.

Lemma ret_codec_short l : ret_read_from_prefix l = None <-> (length l < 44)%nat.
Proof.
  split.
  - unfold ret_read_from_prefix. intros H. invert_reads; try done; reads_length; lia.
  - intros Hl. destruct (ret_read_from_prefix l) as [[h r]|] eqn:E; [|done].
    apply ret_codec_encode in E as [(? & ? & ? & ? & ? & ? & ? & ? & ? & ?) ->].
    unfold ret_as_bytes in Hl. len_solve.
Qed.

#[export] Instance ret_codec : WireCodec UsbIpRetSubmit.
Proof.
  refine {| wire_size := ret_HEADER_SIZE; encode_wire := ret_as_bytes;
            decode_wire := ret_read_from_prefix; wire_wf := ret_wf |}.
  - intros c (? & ? & ? & ? & ? & ? & ? & ? & ? & ?). unfold ret_as_bytes, ret_HEADER_SIZE. len_solve.
  - intros. by apply ret_codec_decode.
  - apply ret_codec_encode.
  - apply ret_codec_short.
Defined.

Lemma unlink_codec_decode c l :
  unlink_wf c -> unlink_read_from_prefix (unlink_as_bytes c ++ l) = Some (c, l).
Proof.
  destruct c. unfold unlink_wf, is_u32; simpl. intros (? & ? & ?).
  unfold unlink_read_from_prefix, unlink_as_bytes; simpl. by decode_fields.
Qed.

Lemma unlink_codec_encode l c r :
  unlink_read_from_prefix l = Some (c, r) -> unlink_wf c /\ l = unlink_as_bytes c ++ r.
Proof.
  unfold unlink_read_from_prefix, unlink_as_bytes. intros H. invert_reads.
  injection H as <- <-. reads_length. split.
  - repeat split; simpl; lia.
  - simpl. by rewrite <- !app_assoc.
Qed.

Lemma unlink_codec_short l : unlink_read_from_prefix l = None <-> (length l < 12)%nat.
Proof.
  split.
  - unfold unlink_read_from_prefix. intros H. invert_reads; try done; reads_length; lia.
  - intros Hl. destruct (unlink_read_from_prefix l) as [[h r]|] eqn:E; [|done].
    apply unlink_codec_encode in E as [_ ->]. unfold unlink_as_bytes in Hl. len_solve.
Qed.

#[export] Instance unlink_codec : WireCodec UsbIpRetUnlink.
Proof.
  refine {| wire_size := unlink_SIZE; encode_wire := unlink_as_bytes;
            decode_wire := unlink_read_from_prefix; wire_wf := unlink_wf |}.
  - intros c _. unfold unlink_as_bytes, unlink_SIZE. len_solve.
  - intros. by apply unlink_codec_decode.
  - apply unlink_codec_encode.
  - apply unlink_codec_short.
Defined.

(** ** Lemmas on replies *)

Lemma serialize_reply_eq cmd status al data :
  serialize_reply cmd status al data
  = header_as_bytes (header_new USBIP_RET_SUBMIT) ++ ret_as_bytes (reply_ret cmd status al) ++ data.
Proof. unfold serialize_reply, serialize_reply_into. simpl. by rewrite <- app_assoc. Qed.

Lemma reply_ret_wf cmd status al : cmd_wf cmd -> is_u32 al -> ret_wf (reply_ret cmd status al).
Proof.
  intros (? & ? & ? & ? & ? & ? & ? & ? & ? & ?) Hal.
  unfold ret_wf, reply_ret; simpl.
  pose proof (wrap_range 32 status ltac:(lia)). unfold is_u32 in *.
  destruct (status =? 0); repeat split; (assumption || lia).
Qed.

Lemma header_new_ret_wf : header_wf (header_new USBIP_RET_SUBMIT).
Proof. repeat split; vm_compute; congruence. Qed.

Lemma length_header h : length (header_as_bytes h) = 8%nat.
Proof. unfold header_as_bytes. len_solve. Qed.

Lemma length_ret r : length (rs_setup r) = 8%nat -> length (ret_as_bytes r) = 44%nat.
Proof. intros. unfold ret_as_bytes. len_solve. Qed.

Lemma length_cmd c : length (cs_setup c) = 8%nat -> length (cmd_as_bytes c) = 44%nat.
Proof. intros. unfold cmd_as_bytes. len_solve. Qed.

Lemma length_unlink u : length (unlink_as_bytes u) = 12%nat.
Proof. unfold unlink_as_bytes. len_solve. Qed.

(** ** Theorems *)

(** The reply the server puts on the wire can be read back: header and
    RET_SUBMIT are found, the RET_SUBMIT echoes the request's sequence number,
    device, direction, endpoint and setup, its status is the i32 given, and the
    data follows. [serialize_reply_into] appends exactly these bytes. *)
Theorem reply_roundtrip cmd status al data rest buf :
  cmd_wf cmd -> is_u32 al -> is_i32 status ->
  exists ret l,
    header_read_from_prefix (serialize_reply cmd status al data ++ rest)
      = Some (header_new USBIP_RET_SUBMIT, l)
    /\ ret_read_from_prefix l = Some (ret, data ++ rest)
    /\ rs_seqnum ret = cs_seqnum cmd /\ rs_devid ret = cs_devid cmd
    /\ rs_direction ret = cs_direction cmd /\ rs_ep ret = cs_ep cmd
    /\ rs_setup ret = cs_setup cmd
    /\ to_i32 (rs_status ret) = status /\ rs_actual_length ret = al
    /\ serialize_reply_into buf cmd status al data
       = (buf ++ serialize_reply cmd status al data, zlen data + 52).
Proof.
  intros Hc Hal Hst. exists (reply_ret cmd status al), (ret_as_bytes (reply_ret cmd status al) ++ data ++ rest).
  rewrite serialize_reply_eq, <- !app_assoc, header_codec_decode by apply header_new_ret_wf.
  rewrite ret_codec_decode by (by apply reply_ret_wf).
  repeat split; try done.
  - by apply to_i32_wrap.
  - unfold serialize_reply_into. rewrite <- !app_assoc. f_equal.
    rewrite !zlen_app. unfold zlen. rewrite length_header.
    rewrite length_ret by (destruct Hc as (? & ? & ? & ? & ? & ? & ? & ? & ? & ?); done). lia.
Qed.

Definition sample_cmd : UsbIpCmdSubmit :=
  {| cs_seqnum := 7; cs_devid := 1; cs_direction := 1; cs_ep := 0x81; cs_transfer_flags := URB_DIR_IN;
     cs_transfer_buffer_length := 4; cs_start_frame := 0; cs_number_of_packets := 0; cs_interval := 0;
     cs_setup := zeros 8 |}.

Lemma sample_cmd_wf : cmd_wf sample_cmd.
Proof. repeat split; vm_compute; congruence. Qed.

Lemma reply_roundtrip_witness :
  exists ret l,
    header_read_from_prefix (serialize_reply sample_cmd (-62) 0 [] ++ [x01])
      = Some (header_new USBIP_RET_SUBMIT, l)
    /\ ret_read_from_prefix l = Some (ret, [x01])
    /\ rs_seqnum ret = 7 /\ to_i32 (rs_status ret) = -62.
Proof.
  destruct (reply_roundtrip sample_cmd (-62) 0 [] [x01] []) as (ret & l & H1 & H2 & H3 & _ & _ & _ & _ & H4 & _).
  - repeat split; vm_compute; congruence.
  - split; vm_compute; congruence.
  - split; vm_compute; congruence.
  - exists ret, l. repeat split; assumption.
Defined.
