(* ===== verification/Stream.v ===== *)
(** * Byte streams and the monad of fallible stateful operations

    A TCP stream as one end sees it: the bytes still to be received before the
    peer stops sending, the error a read reports after them ([UnexpectedEof] for
    an orderly close), the bytes written so far, and how many more bytes can be
    written before the connection breaks ([None]: it does not).  Operations are
    functions from a state to a result and a state, as tokio's [read_exact],
    [write_all] and [read] behave. *)

From S2P Require Import Prelude Errors.

(** ** The monad *)

Definition io (S A : Type) : Type := S -> UsbIpResult A * S.

Definition io_ret {S A} (a : A) : io S A := fun s => (Ok a, s).
Definition io_err {S A} (k : ErrorKind) : io S A := fun s => (Err k, s).
Definition io_bind {S A B} (m : io S A) (f : A -> io S B) : io S B :=
  fun s => match m s with
           | (Ok a, s') => f a s'
           | (Err k, s') => (Err k, s')
           end.

Notation "x <-- m ;; k" := (io_bind m (fun x => k))
  (at level 100, m at next level, right associativity) : anyplug_scope.
Notation "m ;;; k" := (io_bind m (fun _ => k))
  (at level 100, right associativity) : anyplug_scope.

(** Lifts a computation on a part of the state. *)
Definition io_zoom {S T A} (get : S -> T) (set : T -> S -> S) (m : io T A) : io S A :=
  fun s => let '(r, t) := m (get s) in (r, set t s).

(** ** Streams *)

Record Stream := {
  rx : list byte;
  rx_end : IoError;
  tx : list byte;
  tx_room : option nat
}.

Definition eof : IoError := {| io_kind := IoUnexpectedEof; io_text := "early eof" |}.
Definition broken_pipe : IoError := {| io_kind := IoBrokenPipe; io_text := "Broken pipe" |}.

Definition set_rx (l : list byte) (s : Stream) : Stream :=
  {| rx := l; rx_end := rx_end s; tx := tx s; tx_room := tx_room s |}.

Definition read_exact (n : nat) : io Stream (list byte) :=
  fun s => match take_n n (rx s) with
           | Some (bs, l) => (Ok bs, set_rx l s)
           | None => (Err (Io (rx_end s)), set_rx [] s)
           end.

Definition write_all (data : list byte) : io Stream unit :=
  fun s => match tx_room s with
           | None => (Ok tt, {| rx := rx s; rx_end := rx_end s; tx := tx s ++ data; tx_room := None |})
           | Some room =>
               if (length data <=? room)%nat
               then (Ok tt, {| rx := rx s; rx_end := rx_end s; tx := tx s ++ data;
                               tx_room := Some (room - length data)%nat |})
               else (Err (Io broken_pipe),
                     {| rx := rx s; rx_end := rx_end s; tx := tx s ++ take room data;
                        tx_room := Some O |})
           end.

(** [TcpStream::flush] does nothing. *)
Definition flush : io Stream unit := io_ret tt.

(** A stream on which the peer will send [l] and then close, and that accepts
    every write. *)
Definition peer_sends (l : list byte) : Stream :=
  {| rx := l; rx_end := eof; tx := []; tx_room := None |}.

(** ** Lemmas *)

Lemma read_exact_app n bs l s :
  length bs = n -> read_exact n (set_rx (bs ++ l) s) = (Ok bs, set_rx l s).
Proof. intros. unfold read_exact. simpl. by rewrite take_n_app. Qed.

Lemma read_exact_Ok n s bs s' :
  read_exact n s = (Ok bs, s') -> exists l, s' = set_rx l s /\ rx s = bs ++ l /\ length bs = n.
Proof.
  unfold read_exact. destruct (take_n n (rx s)) as [[a l]|] eqn:E; intros [= <- <-].
  apply take_n_Some in E as [? ?]. by exists l.
Qed.

Lemma read_exact_Err n s k s' :
  read_exact n s = (Err k, s') -> (length (rx s) < n)%nat /\ k = Io (rx_end s) /\ s' = set_rx [] s.
Proof.
  unfold read_exact. destruct (take_n n (rx s)) as [[a l]|] eqn:E; intros [= <- <-].
  by apply take_n_None in E.
Qed.

Lemma set_rx_rx s : set_rx (rx s) s = s.
Proof. by destruct s. Qed.

Lemma set_rx_set_rx l l' s : set_rx l (set_rx l' s) = set_rx l s.
Proof. done. Qed.

Lemma write_all_ok data s :
  tx_room s = None ->
  write_all data s
  = (Ok tt, {| rx := rx s; rx_end := rx_end s; tx := tx s ++ data; tx_room := None |}).
Proof. intros H. unfold write_all. by rewrite H. Qed.

Lemma io_bind_ok {S A B} (m : io S A) (f : A -> io S B) s a s' :
  m s = (Ok a, s') -> io_bind m f s = f a s'.
Proof. intros H. unfold io_bind. by rewrite H. Qed.

Lemma io_bind_err {S A B} (m : io S A) (f : A -> io S B) s k s' :
  m s = (Err k, s') -> io_bind m f s = (Err k, s').
Proof. intros H. unfold io_bind. by rewrite H. Qed.

(** A write only ever extends what was written, and leaves the input alone. *)
Lemma write_all_extends data s r s' :
  write_all data s = (r, s') ->
  rx s' = rx s /\ rx_end s' = rx_end s /\ exists k, tx s' = tx s ++ take k data.
Proof.
  unfold write_all. destruct (tx_room s) as [room|].
  - destruct (Nat.leb_spec (length data) room); intros [= <- <-]; simpl.
    + repeat split. exists (length data). by rewrite take_ge.
    + repeat split. by exists room.
  - intros [= <- <-]. repeat split. exists (length data). simpl. by rewrite take_ge.
Qed.

(** The stream after [l] was written to it. *)
Definition sent (l : list byte) (s : Stream) : Stream :=
  {| rx := rx s; rx_end := rx_end s; tx := tx s ++ l; tx_room := tx_room s |}.

Lemma sent_nil s : sent [] s = s.
Proof. destruct s. unfold sent. simpl. by rewrite app_nil_r. Qed.

Lemma sent_sent l l' s : sent l' (sent l s) = sent (l ++ l') s.
Proof. unfold sent. simpl. by rewrite app_assoc. Qed.

Lemma write_all_sent l s : tx_room s = None -> write_all l s = (Ok tt, sent l s).
Proof. intros H. rewrite write_all_ok by done. unfold sent. by rewrite H. Qed.

(** *** Computations that do not grow a measure of their state *)

Definition non_growing {S A} (len : S -> nat) (m : io S A) : Prop :=
  forall s, (len (snd (m s)) <= len s)%nat.

Lemma non_growing_ret {S A} (len : S -> nat) (a : A) : non_growing len (io_ret a).
Proof. intros s. done. Qed.

Lemma non_growing_err {S A} (len : S -> nat) k : non_growing len (io_err (A := A) k).
Proof. intros s. done. Qed.

Lemma non_growing_bind {S A B} (len : S -> nat) (m : io S A) (f : A -> io S B) :
  non_growing len m -> (forall a, non_growing len (f a)) -> non_growing len (io_bind m f).
Proof.
  intros Hm Hf s. specialize (Hm s). unfold io_bind. destruct (m s) as [[a|k] s']; simpl in *; [|done].
  specialize (Hf a s'). lia.
Qed.

Lemma non_growing_zoom {S T A} (get : S -> T) (set : T -> S -> S) (len : T -> nat) (m : io T A) :
  (forall t s, get (set t s) = t) -> non_growing len m ->
  non_growing (fun s => len (get s)) (io_zoom get set m).
Proof.
  intros Hgs Hm s. specialize (Hm (get s)). unfold io_zoom. destruct (m (get s)) as [r t]. simpl in *.
  by rewrite Hgs.
Qed.

Definition rx_length (s : Stream) : nat := length (rx s).

Lemma read_exact_non_growing n : non_growing rx_length (read_exact n).
Proof.
  intros s. unfold rx_length. destruct (read_exact n s) as [[bs|k] s'] eqn:E; simpl.
  - apply read_exact_Ok in E as (l & -> & -> & _). simpl. rewrite length_app. lia.
  - apply read_exact_Err in E as (_ & _ & ->). simpl. lia.
Qed.

Lemma write_all_non_growing data : non_growing rx_length (write_all data).
Proof.
  intros s. unfold rx_length. destruct (write_all data s) as [r s'] eqn:E.
  apply write_all_extends in E as (Hrx & _). simpl. by rewrite Hrx.
Qed.

Create HintDb non_growing discriminated.
#[export] Hint Resolve non_growing_ret non_growing_err non_growing_bind read_exact_non_growing
  write_all_non_growing : non_growing.
#[export] Hint Extern 1 (non_growing _ flush) => apply non_growing_ret : non_growing.

#[global] Opaque read_exact.
