(* ===== verification/Wire.v ===== *)
(** * Framing of USB/IP messages in the URB phase (shared/usbip-core/src/wire.rs)

    [read_message] and [write_message], the self-delimiting framing without
    length prefix that the server's and the client's URB loops share.  The
    abstract side is [frame]: the messages the framing can carry.  The theorems
    show that reading is exactly the inverse of concatenating encoded frames. *)

From S2P Require Import Prelude RustStd Errors Proto Urb Stream.

(** ** The operations *)

Definition read_message : io Stream (list byte) :=
  buf <-- read_exact header_SIZE;;
  match header_read_from_prefix buf with
  | None => io_err (InvalidMessage "truncated header")
  | Some (header, _) =>
      if command header =? USBIP_CMD_SUBMIT then
        rest <-- read_exact cmd_HEADER_SIZE;;
        match cmd_read_from_prefix rest with
        | None => io_err (InvalidMessage "truncated CMD_SUBMIT")
        | Some (cmd, _) =>
            let buf := buf ++ rest in
            if negb (cs_is_in cmd) && (0 <? cs_data_len cmd) then
              data <-- read_exact (Z.to_nat (cs_data_len cmd));;
              io_ret (buf ++ data)
            else io_ret buf
        end
      else if command header =? USBIP_RET_SUBMIT then
        rest <-- read_exact ret_HEADER_SIZE;;
        match ret_read_from_prefix rest with
        | None => io_err (InvalidMessage "truncated RET_SUBMIT")
        | Some (ret, _) =>
            let buf := buf ++ rest in
            if rs_has_data ret then
              data <-- read_exact (Z.to_nat (rs_actual_length ret));;
              io_ret (buf ++ data)
            else io_ret buf
        end
      else if command header =? USBIP_RET_UNLINK then
        rest <-- read_exact unlink_SIZE;;
        io_ret (buf ++ rest)
      else io_ret buf
  end.

Definition write_message (msg : list byte) : io Stream unit :=
  write_all msg ;;; flush ;;; io_ret tt.

(** ** The messages the framing carries *)

Inductive frame :=
| FCmd (h : UsbIpHeader) (cmd : UsbIpCmdSubmit) (pad data : list byte)
| FRet (h : UsbIpHeader) (ret : UsbIpRetSubmit) (data : list byte)
| FUnlink (h : UsbIpHeader) (u : UsbIpRetUnlink)
| FOther (h : UsbIpHeader).

Definition frame_bytes (f : frame) : list byte :=
  match f with
  | FCmd h cmd pad data => header_as_bytes h ++ cmd_as_bytes cmd ++ pad ++ data
  | FRet h ret data => header_as_bytes h ++ ret_as_bytes ret ++ data
  | FUnlink h u => header_as_bytes h ++ unlink_as_bytes u
  | FOther h => header_as_bytes h
  end.

(** The data section a message announces. *)
Definition cmd_data_size (cmd : UsbIpCmdSubmit) : Z :=
  if negb (cs_is_in cmd) && (0 <? cs_data_len cmd) then cs_data_len cmd else 0.
Definition ret_data_size (ret : UsbIpRetSubmit) : Z :=
  if rs_has_data ret then rs_actual_length ret else 0.

Definition frame_wf (f : frame) : Prop :=
  match f with
  | FCmd h cmd pad data =>
      header_wf h /\ command h = USBIP_CMD_SUBMIT /\ cmd_wf cmd /\ length pad = 4%nat
      /\ zlen data = cmd_data_size cmd
  | FRet h ret data =>
      header_wf h /\ command h = USBIP_RET_SUBMIT /\ ret_wf ret /\ zlen data = ret_data_size ret
  | FUnlink h u => header_wf h /\ command h = USBIP_RET_UNLINK /\ unlink_wf u
  | FOther h =>
      header_wf h /\ command h <> USBIP_CMD_SUBMIT /\ command h <> USBIP_RET_SUBMIT
      /\ command h <> USBIP_RET_UNLINK
  end.

(** Reads messages until the stream ends; [fuel] bounds their number. *)
Fixpoint read_all (fuel : nat) (s : Stream) : list (list byte) * Stream :=
  match fuel with
  | O => ([], s)
  | S fuel =>
      match read_message s with
      | (Ok f, s') => let '(fs, s'') := read_all fuel s' in (f :: fs, s'')
      | (Err _, s') => ([], s')
      end
  end.

(** ** Lemmas *)

Lemma zlen_to_nat {A} (l : list A) n : zlen l = n -> length l = Z.to_nat n.
Proof. unfold zlen. lia. Qed.

Lemma io_bind_read_exact {A} n bs l s (f : list byte -> io Stream A) :
  length bs = n -> io_bind (read_exact n) f (set_rx (bs ++ l) s) = f bs (set_rx l s).
Proof. intros. unfold io_bind. by rewrite read_exact_app. Qed.

Lemma read_header {A} h l s (f : list byte -> io Stream A) :
  io_bind (read_exact header_SIZE) f (set_rx (header_as_bytes h ++ l) s)
  = f (header_as_bytes h) (set_rx l s).
Proof. apply io_bind_read_exact, length_header. Qed.

Lemma header_decode_nil h : header_wf h -> header_read_from_prefix (header_as_bytes h) = Some (h, []).
Proof. intros. rewrite <- (app_nil_r (header_as_bytes h)). by apply header_codec_decode. Qed.

Lemma cmd_data_case cmd (data : list byte) :
  cmd_wf cmd -> zlen data = cmd_data_size cmd ->
  (negb (cs_is_in cmd) && (0 <? cs_data_len cmd) = true /\ length data = Z.to_nat (cs_data_len cmd))
  \/ (negb (cs_is_in cmd) && (0 <? cs_data_len cmd) = false /\ data = []).
Proof.
  unfold cmd_data_size. destruct (_ && _) eqn:E; intros.
  - left. split; [done|]. by apply zlen_to_nat.
  - right. split; [done|]. by apply zlen_nil_iff.
Qed.

Lemma ret_data_case ret (data : list byte) :
  zlen data = ret_data_size ret ->
  (rs_has_data ret = true /\ length data = Z.to_nat (rs_actual_length ret))
  \/ (rs_has_data ret = false /\ data = []).
Proof.
  unfold ret_data_size. destruct (rs_has_data ret) eqn:E; intros.
  - left. split; [done|]. by apply zlen_to_nat.
  - right. split; [done|]. by apply zlen_nil_iff.
Qed.

(** Reading from the front of an encoded frame gives the frame. *)
Lemma read_message_frame f l s :
  frame_wf f -> read_message (set_rx (frame_bytes f ++ l) s) = (Ok (frame_bytes f), set_rx l s).
Proof.
  destruct f as [h cmd pad data|h ret data|h u|h]; simpl; unfold read_message; rewrite <- ?app_assoc.
  - intros (Hh & Hc & Hcmd & Hp & Hd). rewrite read_header, header_decode_nil, Hc by done. simpl.
    rewrite (app_assoc (cmd_as_bytes cmd)).
    assert (length (cs_setup cmd) = 8%nat) by apply Hcmd.
    rewrite io_bind_read_exact by (rewrite length_app, length_cmd, Hp; done).
    rewrite cmd_codec_decode by done.
    destruct (cmd_data_case cmd data Hcmd Hd) as [[-> Hl]|[-> ->]].
    + rewrite io_bind_read_exact by done. unfold io_ret. by rewrite <- !app_assoc.
    + unfold io_ret. by rewrite ?app_nil_r, <- ?app_assoc.
  - intros (Hh & Hc & Hret & Hd). rewrite read_header, header_decode_nil, Hc by done. simpl.
    assert (length (rs_setup ret) = 8%nat) by apply Hret.
    rewrite io_bind_read_exact by (by apply length_ret).
    rewrite <- (app_nil_r (ret_as_bytes ret)), ret_codec_decode, app_nil_r by done.
    destruct (ret_data_case ret data Hd) as [[-> Hl]|[-> ->]].
    + rewrite io_bind_read_exact by done. unfold io_ret. by rewrite <- !app_assoc.
    + unfold io_ret. by rewrite ?app_nil_r, <- ?app_assoc.
  - intros (Hh & Hc & Hu). rewrite read_header, header_decode_nil, Hc by done. simpl.
    rewrite io_bind_read_exact by apply length_unlink. done.
  - intros (Hh & H1 & H2 & H3). rewrite read_header, header_decode_nil by done.
    apply Z.eqb_neq in H1, H2, H3. by rewrite H1, H2, H3.
Qed.

(** Splits a run of the stream monad at its first operation. *)
Ltac invert_bind H :=
  unfold io_bind at 1 in H;
  match type of H with
  | context [match read_exact ?n ?s with _ => _ end] =>
      let E := fresh "Er" in
      destruct (read_exact n s) as [[?|?] ?] eqn:E;
      [apply read_exact_Ok in E as (? & -> & ? & ?); rewrite ?set_rx_set_rx in *; cbn [rx set_rx] in *
      |apply read_exact_Err in E as (? & -> & ->); cbn [rx set_rx rx_end] in *]
  end.

(** What a 48-byte CMD_SUBMIT section holds: the structure and 4 bytes of padding. *)
Lemma cmd_section rest cmd r :
  length rest = 48%nat -> cmd_read_from_prefix rest = Some (cmd, r) ->
  cmd_wf cmd /\ rest = cmd_as_bytes cmd ++ r /\ length r = 4%nat.
Proof.
  intros Hl H. apply cmd_codec_encode in H as [Hw ->]. split; [done|]. split; [done|].
  rewrite length_app, length_cmd in Hl by apply Hw. lia.
Qed.

Lemma ret_section rest ret r :
  length rest = 44%nat -> ret_read_from_prefix rest = Some (ret, r) ->
  ret_wf ret /\ rest = ret_as_bytes ret.
Proof.
  intros Hl H. apply ret_codec_encode in H as [Hw ->]. split; [done|].
  rewrite length_app, length_ret in Hl by apply Hw. destruct r; [by rewrite app_nil_r|simpl in Hl; lia].
Qed.

Lemma header_section buf h r :
  length buf = 8%nat -> header_read_from_prefix buf = Some (h, r) ->
  header_wf h /\ buf = header_as_bytes h.
Proof.
  intros Hl H. apply header_codec_encode in H as [Hw ->]. split; [done|].
  rewrite length_app, length_header in Hl. destruct r; [by rewrite app_nil_r|simpl in Hl; lia].
Qed.

Lemma unlink_section rest :
  length rest = 12%nat -> exists u, unlink_wf u /\ rest = unlink_as_bytes u.
Proof.
  intros Hl. destruct (unlink_read_from_prefix rest) as [[u r]|] eqn:E.
  - apply unlink_codec_encode in E as [Hw ->]. exists u. split; [done|].
    rewrite length_app, length_unlink in Hl. destruct r; [by rewrite app_nil_r|simpl in Hl; lia].
  - apply unlink_codec_short in E. lia.
Qed.

Lemma zlen_Z_to_nat {A} (l : list A) n : 0 <= n -> length l = Z.to_nat n -> zlen l = n.
Proof. unfold zlen. lia. Qed.

Ltac close_frame :=
  simpl; split_and!; try done; simplify_eq;
  repeat match goal with H : rx ?s = _ |- _ => rewrite H; clear H end;
  by rewrite ?app_nil_r, <- ?app_assoc.

Lemma read_cmd_cases s h r s' :
  header_wf h -> command h = USBIP_CMD_SUBMIT ->
  (rest <-- read_exact cmd_HEADER_SIZE;;
   match cmd_read_from_prefix rest with
   | None => io_err (InvalidMessage "truncated CMD_SUBMIT")
   | Some (cmd, _) =>
       if negb (cs_is_in cmd) && (0 <? cs_data_len cmd) then
         data <-- read_exact (Z.to_nat (cs_data_len cmd));; io_ret ((header_as_bytes h ++ rest) ++ data)
       else io_ret (header_as_bytes h ++ rest)
   end) s = (r, s') ->
  match r with
  | Ok f => exists fr, frame_wf fr /\ f = frame_bytes fr /\ header_as_bytes h ++ rx s = f ++ rx s'
                       /\ s' = set_rx (rx s') s
  | Err k => k = Io (rx_end s) /\ s' = set_rx [] s
  end.
Proof.
  intros Hh Hc H. invert_bind H; [|injection H as <- <-; done].
  destruct (cmd_read_from_prefix a) as [[cmd pad]|] eqn:Ec.
  2:{ apply cmd_codec_short in Ec. unfold cmd_HEADER_SIZE in *. lia. }
  apply cmd_section in Ec as (Hcmd & -> & Hpad); [|done].
  assert (Hu : 0 <= cs_data_len cmd) by (destruct Hcmd as (_ & _ & _ & _ & _ & [? ?] & _); done).
  destruct (negb _ && _) eqn:Ed.
  - invert_bind H; injection H as <- <-.
    + exists (FCmd h cmd pad a). split; [|close_frame].
      simpl. split_and!; try done. unfold cmd_data_size. rewrite Ed. by apply zlen_Z_to_nat.
    + subst. done.
  - injection H as <- <-. exists (FCmd h cmd pad []). split; [|close_frame].
    simpl. split_and!; try done. unfold cmd_data_size. by rewrite Ed.
Qed.

Lemma read_ret_cases s h r s' :
  header_wf h -> command h = USBIP_RET_SUBMIT ->
  (rest <-- read_exact ret_HEADER_SIZE;;
   match ret_read_from_prefix rest with
   | None => io_err (InvalidMessage "truncated RET_SUBMIT")
   | Some (ret, _) =>
       if rs_has_data ret then
         data <-- read_exact (Z.to_nat (rs_actual_length ret));; io_ret ((header_as_bytes h ++ rest) ++ data)
       else io_ret (header_as_bytes h ++ rest)
   end) s = (r, s') ->
  match r with
  | Ok f => exists fr, frame_wf fr /\ f = frame_bytes fr /\ header_as_bytes h ++ rx s = f ++ rx s'
                       /\ s' = set_rx (rx s') s
  | Err k => k = Io (rx_end s) /\ s' = set_rx [] s
  end.
Proof.
  intros Hh Hc H. invert_bind H; [|injection H as <- <-; done].
  destruct (ret_read_from_prefix a) as [[ret q]|] eqn:Ec.
  2:{ apply ret_codec_short in Ec. unfold ret_HEADER_SIZE in *. lia. }
  apply ret_section in Ec as (Hret & ->); [|done].
  assert (Hu : 0 <= rs_actual_length ret) by (destruct Hret as (_ & _ & _ & _ & _ & [? ?] & _); done).
  destruct (rs_has_data ret) eqn:Ed.
  - invert_bind H; injection H as <- <-.
    + exists (FRet h ret a). split; [|close_frame].
      simpl. split_and!; try done. unfold ret_data_size. rewrite Ed. by apply zlen_Z_to_nat.
    + subst. done.
  - injection H as <- <-. exists (FRet h ret []). split; [|close_frame].
    simpl. split_and!; try done. unfold ret_data_size. by rewrite Ed.
Qed.

(** Every run of [read_message]: a whole frame taken off the input, or the
    error with which the input ended. *)
Lemma read_message_cases s r s' :
  read_message s = (r, s') ->
  match r with
  | Ok f => exists fr, frame_wf fr /\ f = frame_bytes fr /\ rx s = f ++ rx s'
                       /\ s' = set_rx (rx s') s
  | Err k => k = Io (rx_end s) /\ s' = set_rx [] s
  end.
Proof.
  unfold read_message. intros H. invert_bind H; [|injection H as <- <-; done].
  destruct (header_read_from_prefix a) as [[h q]|] eqn:Eh.
  2:{ apply header_codec_short in Eh. unfold header_SIZE in *. lia. }
  apply header_section in Eh as [Hh ->]; [|done].
  destruct (Z.eqb_spec (command h) USBIP_CMD_SUBMIT) as [Hc|Hc].
  { pose proof (read_cmd_cases _ _ _ _ Hh Hc H) as Hcases. destruct r as [f|k]; [|by subst].
    destruct Hcases as (fr & ? & ? & Hrx & Hs'). exists fr. simpl in Hrx. rewrite set_rx_set_rx in Hs'.
    split_and!; [done|done| |done]. etrans; [|exact Hrx]. done. }
  destruct (Z.eqb_spec (command h) USBIP_RET_SUBMIT) as [Hc'|Hc'].
  { pose proof (read_ret_cases _ _ _ _ Hh Hc' H) as Hcases. destruct r as [f|k]; [|by subst].
    destruct Hcases as (fr & ? & ? & Hrx & Hs'). exists fr. simpl in Hrx. rewrite set_rx_set_rx in Hs'.
    split_and!; [done|done| |done]. etrans; [|exact Hrx]. done. }
  destruct (Z.eqb_spec (command h) USBIP_RET_UNLINK) as [Hu|Hu].
  - invert_bind H; injection H as <- <-; [|by subst].
    destruct (unlink_section a) as (u & Hw & ->); [done|].
    exists (FUnlink h u). split; [done|close_frame].
  - injection H as <- <-. exists (FOther h). split; [done|]. close_frame.
Qed.

Lemma frame_bytes_length f : frame_wf f -> (8 <= length (frame_bytes f))%nat.
Proof. intros. destruct f; simpl; rewrite ?length_app, length_header; lia. Qed.

(** ** Theorems *)


(** A read fails only when the stream ends: the error is the one the stream
    ends with, never a parse error, it happens only when no message is a prefix
    of the input, and the input is then used up. *)
Theorem read_message_fails_at_end s k s' :
  read_message s = (Err k, s') ->
  k = Io (rx_end s) /\ s' = set_rx [] s
  /\ forall fr l, frame_wf fr -> rx s <> frame_bytes fr ++ l.
Proof.
  intros H. pose proof (read_message_cases _ _ _ H) as [-> ->]. split; [done|]. split; [done|].
  intros fr l Hw Hrx. rewrite <- (set_rx_rx s), Hrx, read_message_frame in H by done. done.
Qed.

Lemma read_message_fails_at_end_witness :
  exists s', read_message (peer_sends (firstn 20 (serialize_reply sample_cmd 0 4 [x61; x62; x63; x64])))
             = (Err (Io eof), s') /\ rx s' = [].
Proof.
  destruct (read_message (peer_sends (firstn 20 (serialize_reply sample_cmd 0 4 [x61; x62; x63; x64]))))
    as [[f|k] s'] eqn:E; [vm_compute in E; discriminate E|].
  destruct (read_message_fails_at_end _ _ _ E) as (-> & -> & _).
  exists (set_rx [] (peer_sends (firstn 20 (serialize_reply sample_cmd 0 4 [x61; x62; x63; x64])))).
  split; reflexivity.
Defined.

Lemma read_all_frames frs fuel s :
  Forall frame_wf frs -> (length frs < fuel)%nat ->
  read_all fuel (set_rx (concat (map frame_bytes frs)) s) = (map frame_bytes frs, set_rx [] s).
Proof.
  revert fuel. induction frs as [|f frs IH]; intros fuel Hw Hf; (destruct fuel as [|fuel]; [simpl in Hf; lia|]).
  - simpl. destruct (read_message (set_rx [] s)) as [[g|k] s'] eqn:E.
    + pose proof (read_message_cases _ _ _ E) as (fr & Hfr & -> & Hrx & _). simpl in Hrx.
      pose proof (frame_bytes_length fr Hfr). destruct (frame_bytes fr); simpl in *; [lia|done].
    + by pose proof (read_message_cases _ _ _ E) as [_ ->].
  - simpl. inversion Hw; subst. rewrite read_message_frame by done. simpl in Hf.
    rewrite IH by (done || lia). done.
Qed.

(** Batching does not change what a reader sees. Whatever messages are
    written, one by one or concatenated in one write, the reader gets exactly
    those messages, in order, and then the end of the stream. *)
Theorem batch_transparent frs fuel w s :
  Forall frame_wf frs -> (length frs < fuel)%nat -> tx_room w = None -> tx w = [] ->
  forall w', write_message (concat (map frame_bytes frs)) w = (Ok tt, w') ->
  read_all fuel (set_rx (tx w') s) = (map frame_bytes frs, set_rx [] s).
Proof.
  intros Hw Hf Hroom Htx w'. unfold write_message, io_bind. rewrite write_all_ok by done. simpl.
  intros [= <-]. simpl. rewrite Htx. by apply read_all_frames.
Qed.

(** A reply is framed correctly exactly when its data section has the length
    its own header announces. Then the peer reads the reply and nothing else; a
    reply with data that its header does not announce (an error status, or a
    direction field that says OUT) leaves that data in the stream, where the
    peer takes it for the start of the next message. *)
Theorem reply_framing cmd status al data rest s :
  cmd_wf cmd -> is_u32 al ->
  (zlen data = ret_data_size (reply_ret cmd status al) ->
   read_message (set_rx (serialize_reply cmd status al data ++ rest) s)
   = (Ok (serialize_reply cmd status al data), set_rx rest s))
  /\ (rs_has_data (reply_ret cmd status al) = false ->
      read_message (set_rx (serialize_reply cmd status al data ++ rest) s)
      = (Ok (serialize_reply cmd status al []), set_rx (data ++ rest) s)).
Proof.
  intros Hc Hal.
  assert (Hfr : forall d, zlen d = ret_data_size (reply_ret cmd status al) ->
                frame_wf (FRet (header_new USBIP_RET_SUBMIT) (reply_ret cmd status al) d)).
  { intros d Hd. split_and!; auto using header_new_ret_wf, reply_ret_wf. }
  rewrite !serialize_reply_eq. split.
  - intros Hd. apply (read_message_frame (FRet _ _ _)). by apply Hfr.
  - intros Hd. rewrite !app_nil_r.
    pose proof (read_message_frame (FRet (header_new USBIP_RET_SUBMIT) (reply_ret cmd status al) [])
                  (data ++ rest) s) as H.
    cbn [frame_bytes] in H. rewrite app_nil_r, <- app_assoc in H. rewrite <- !app_assoc.
    apply H, Hfr. unfold ret_data_size. by rewrite Hd.
Qed.

Lemma reply_framing_witness :
  read_message (peer_sends (serialize_reply sample_cmd 0 2 [x61; x62] ++ [x2a]))
  = (Ok (serialize_reply sample_cmd 0 2 [x61; x62]), set_rx [x2a] (peer_sends []))
  /\ read_message (peer_sends (serialize_reply sample_cmd (-5) 2 [x61; x62] ++ [x2a]))
     = (Ok (serialize_reply sample_cmd (-5) 2 []), set_rx [x61; x62; x2a] (peer_sends [])).
Proof.
  assert (H2 : is_u32 2) by (split; vm_compute; congruence).
  split.
  - exact (proj1 (reply_framing sample_cmd 0 2 [x61; x62] [x2a] (peer_sends []) sample_cmd_wf H2) eq_refl).
  - exact (proj2 (reply_framing sample_cmd (-5) 2 [x61; x62] [x2a] (peer_sends []) sample_cmd_wf H2) eq_refl).
Defined.

Definition sample_frames : list frame :=
  [FRet (header_new USBIP_RET_SUBMIT) (reply_ret sample_cmd 0 2) [x61; x62];
   FUnlink (header_new USBIP_RET_UNLINK) {| ru_seqnum := 9; ru_devid := 1; ru_status := 0 |};
   FOther (header_new OP_REP_IMPORT)].

Lemma batch_transparent_witness :
  read_all 4 (peer_sends (concat (map frame_bytes sample_frames)))
  = (map frame_bytes sample_frames, peer_sends []).
Proof.
  refine (batch_transparent sample_frames 4 (peer_sends []) (peer_sends []) _ _ eq_refl eq_refl _ eq_refl).
  - repeat constructor; vm_compute; congruence.
  - simpl; lia.
Defined.
