(* ===== verification/Descriptor.v ===== *)
(** * USB descriptors (shared/usbip-core/src/descriptor.rs)

    The five descriptor structures with their parsers and serializers, and the
    parser and the serializer of the descriptor tree that OP_REP_IMPORT carries.
    A [u8] field is a [byte]; a [u16] field is a [Z].  The tree parser indexes
    its input, so it may panic; its outer loop takes fuel, and
    [parse_tree_fuel_irrelevant] shows that one step per input byte decides
    everything there is to decide. *)

From S2P Require Import Prelude.

(** ** The descriptors *)

Record DeviceDescriptor := {
  dd_b_length : byte;
  dd_b_descriptor_type : byte;
  dd_bcd_usb : Z;
  dd_b_device_class : byte;
  dd_b_device_sub_class : byte;
  dd_b_device_protocol : byte;
  dd_b_max_packet_size0 : byte;
  dd_id_vendor : Z;
  dd_id_product : Z;
  dd_bcd_device : Z;
  dd_i_manufacturer : byte;
  dd_i_product : byte;
  dd_i_serial_number : byte;
  dd_b_num_configurations : byte
}.

Definition DeviceDescriptor_SIZE : nat := 18.

Definition DeviceDescriptor_parse (raw : list byte) : option DeviceDescriptor :=
  match raw with
  | r0 :: r1 :: r2 :: r3 :: r4 :: r5 :: r6 :: r7 :: r8 :: r9 :: r10 :: r11 :: r12 :: r13 :: r14
    :: r15 :: r16 :: r17 :: _ =>
      Some {| dd_b_length := r0; dd_b_descriptor_type := r1; dd_bcd_usb := le_val [r2; r3];
              dd_b_device_class := r4; dd_b_device_sub_class := r5; dd_b_device_protocol := r6;
              dd_b_max_packet_size0 := r7; dd_id_vendor := le_val [r8; r9];
              dd_id_product := le_val [r10; r11]; dd_bcd_device := le_val [r12; r13];
              dd_i_manufacturer := r14; dd_i_product := r15; dd_i_serial_number := r16;
              dd_b_num_configurations := r17 |}
  | _ => None
  end.

Definition DeviceDescriptor_to_bytes (d : DeviceDescriptor) : list byte :=
  [dd_b_length d; dd_b_descriptor_type d] ++ le_bytes 2 (dd_bcd_usb d)
  ++ [dd_b_device_class d; dd_b_device_sub_class d; dd_b_device_protocol d; dd_b_max_packet_size0 d]
  ++ le_bytes 2 (dd_id_vendor d) ++ le_bytes 2 (dd_id_product d) ++ le_bytes 2 (dd_bcd_device d)
  ++ [dd_i_manufacturer d; dd_i_product d; dd_i_serial_number d; dd_b_num_configurations d].

Record ConfigDescriptor := {
  cd_b_length : byte;
  cd_b_descriptor_type : byte;
  cd_w_total_length : Z;
  cd_b_num_interfaces : byte;
  cd_b_configuration_value : byte;
  cd_i_configuration : byte;
  cd_bm_attributes : byte;
  cd_b_max_power : byte
}.

Definition ConfigDescriptor_SIZE : nat := 9.

Definition ConfigDescriptor_parse (raw : list byte) : option ConfigDescriptor :=
  match raw with
  | r0 :: r1 :: r2 :: r3 :: r4 :: r5 :: r6 :: r7 :: r8 :: _ =>
      if decide (r1 = x02) then
        Some {| cd_b_length := r0; cd_b_descriptor_type := r1; cd_w_total_length := le_val [r2; r3];
                cd_b_num_interfaces := r4; cd_b_configuration_value := r5;
                cd_i_configuration := r6; cd_bm_attributes := r7; cd_b_max_power := r8 |}
      else None
  | _ => None
  end.

Definition ConfigDescriptor_to_bytes (c : ConfigDescriptor) : list byte :=
  [cd_b_length c; cd_b_descriptor_type c] ++ le_bytes 2 (cd_w_total_length c)
  ++ [cd_b_num_interfaces c; cd_b_configuration_value c; cd_i_configuration c;
      cd_bm_attributes c; cd_b_max_power c].

Record InterfaceDescriptor := {
  id_b_length : byte;
  id_b_descriptor_type : byte;
  id_b_interface_number : byte;
  id_b_alternate_setting : byte;
  id_b_num_endpoints : byte;
  id_b_interface_class : byte;
  id_b_interface_sub_class : byte;
  id_b_interface_protocol : byte;
  id_i_interface : byte
}.

Definition InterfaceDescriptor_SIZE : nat := 9.

Definition InterfaceDescriptor_parse (raw : list byte) : option InterfaceDescriptor :=
  match raw with
  | r0 :: r1 :: r2 :: r3 :: r4 :: r5 :: r6 :: r7 :: r8 :: _ =>
      if decide (r1 = x04) then
        Some {| id_b_length := r0; id_b_descriptor_type := r1; id_b_interface_number := r2;
                id_b_alternate_setting := r3; id_b_num_endpoints := r4;
                id_b_interface_class := r5; id_b_interface_sub_class := r6;
                id_b_interface_protocol := r7; id_i_interface := r8 |}
      else None
  | _ => None
  end.

Definition InterfaceDescriptor_to_bytes (i : InterfaceDescriptor) : list byte :=
  [id_b_length i; id_b_descriptor_type i; id_b_interface_number i; id_b_alternate_setting i;
   id_b_num_endpoints i; id_b_interface_class i; id_b_interface_sub_class i;
   id_b_interface_protocol i; id_i_interface i].

Record EndpointDescriptor := {
  ed_b_length : byte;
  ed_b_descriptor_type : byte;
  ed_b_endpoint_address : byte;
  ed_bm_attributes : byte;
  ed_w_max_packet_size : Z;
  ed_b_interval : byte
}.

Definition EndpointDescriptor_SIZE : nat := 7.

Definition EndpointDescriptor_parse (raw : list byte) : option EndpointDescriptor :=
  match raw with
  | r0 :: r1 :: r2 :: r3 :: r4 :: r5 :: r6 :: _ =>
      if decide (r1 = x05) then
        Some {| ed_b_length := r0; ed_b_descriptor_type := r1; ed_b_endpoint_address := r2;
                ed_bm_attributes := r3; ed_w_max_packet_size := le_val [r4; r5];
                ed_b_interval := r6 |}
      else None
  | _ => None
  end.

Definition EndpointDescriptor_to_bytes (e : EndpointDescriptor) : list byte :=
  [ed_b_length e; ed_b_descriptor_type e; ed_b_endpoint_address e; ed_bm_attributes e]
  ++ le_bytes 2 (ed_w_max_packet_size e) ++ [ed_b_interval e].

Inductive EndpointType := EpControl | EpIsochronous | EpBulk | EpInterrupt.

Definition ep_number (e : EndpointDescriptor) : Z := Z.land (u8 (ed_b_endpoint_address e)) 0x0F.

Definition ep_is_in (e : EndpointDescriptor) : bool :=
  negb (Z.land (u8 (ed_b_endpoint_address e)) 0x80 =? 0).

(** [None] is the [unreachable!()] arm. *)
Definition transfer_type (e : EndpointDescriptor) : option EndpointType :=
  match Z.land (u8 (ed_bm_attributes e)) 0x03 with
  | 0 => Some EpControl
  | 1 => Some EpIsochronous
  | 2 => Some EpBulk
  | 3 => Some EpInterrupt
  | _ => None
  end.

Record HidDescriptor := {
  hd_b_length : byte;
  hd_b_descriptor_type : byte;
  hd_bcd_hid : Z;
  hd_b_country_code : byte;
  hd_b_num_descriptors : byte;
  hd_report_descriptor_type : byte;
  hd_w_report_descriptor_length : Z
}.

Definition HidDescriptor_SIZE : nat := 9.

Definition HidDescriptor_parse (raw : list byte) : option HidDescriptor :=
  match raw with
  | r0 :: r1 :: r2 :: r3 :: r4 :: r5 :: r6 :: r7 :: r8 :: _ =>
      if decide (r1 = x21) then
        Some {| hd_b_length := r0; hd_b_descriptor_type := r1; hd_bcd_hid := le_val [r2; r3];
                hd_b_country_code := r4; hd_b_num_descriptors := r5;
                hd_report_descriptor_type := r6; hd_w_report_descriptor_length := le_val [r7; r8] |}
      else None
  | _ => None
  end.

Definition HidDescriptor_to_bytes (h : HidDescriptor) : list byte :=
  [hd_b_length h; hd_b_descriptor_type h] ++ le_bytes 2 (hd_bcd_hid h)
  ++ [hd_b_country_code h; hd_b_num_descriptors h; hd_report_descriptor_type h]
  ++ le_bytes 2 (hd_w_report_descriptor_length h).

(** ** The descriptor tree *)

Record InterfaceInfo := {
  ii_interface : InterfaceDescriptor;
  ii_endpoints : list EndpointDescriptor;
  ii_hid : option HidDescriptor
}.

Record ConfigInfo := { ci_config : ConfigDescriptor; ci_interfaces : list InterfaceInfo }.

Record UsbDeviceInfo := { ud_device : DeviceDescriptor; ud_configs : list ConfigInfo }.

(** [raw[i]] and [&raw[i..]]. *)
Definition index (raw : list byte) (i : nat) : outcome byte :=
  match raw !! i with Some b => Returns b | None => Panics end.

Definition slice_from (raw : list byte) (i : nat) : outcome (list byte) :=
  if (i <=? length raw)%nat then Returns (drop i raw) else Panics.

(** [b + 1] on a [u8]: overflow panics in a build with overflow checks and wraps
    in one without. *)
Definition u8_succ (overflow_checks : bool) (b : byte) : outcome nat :=
  if decide (b = xff) then (if overflow_checks then Panics else Returns O)
  else Returns (S (Z.to_nat (u8 b))).

(** The loop over the endpoint and HID descriptors of an interface; [n]
    iterations are left. *)
Fixpoint parse_subs (n : nat) (raw : list byte) (config_end inner_offset : nat)
    (endpoints : list EndpointDescriptor) (hid : option HidDescriptor)
    : outcome (nat * list EndpointDescriptor * option HidDescriptor) :=
  match n with
  | O => Returns (inner_offset, endpoints, hid)
  | S n =>
      if (config_end <? inner_offset + 2)%nat then Returns (inner_offset, endpoints, hid)
      else
        let! sub_type := index raw (inner_offset + 1) in
        if decide (sub_type = x05) then
          let! s := slice_from raw inner_offset in
          match EndpointDescriptor_parse s with
          | Some ep =>
              parse_subs n raw config_end (inner_offset + EndpointDescriptor_SIZE)
                (endpoints ++ [ep]) hid
          | None => Returns (inner_offset, endpoints, hid)
          end
        else if decide (sub_type = x21) then
          let! s := slice_from raw inner_offset in
          match HidDescriptor_parse s with
          | Some h =>
              parse_subs n raw config_end (inner_offset + HidDescriptor_SIZE) endpoints (Some h)
          | None => Returns (inner_offset, endpoints, hid)
          end
        else Returns (inner_offset, endpoints, hid)
  end.

(** The loop over the interfaces of a configuration; [None] is the early return
    of the whole parser. *)
Fixpoint parse_interfaces (fuel : nat) (overflow_checks : bool) (raw : list byte)
    (config_end inner_offset : nat) (interfaces : list InterfaceInfo)
    : outcome (option (list InterfaceInfo)) :=
  match fuel with
  | O => OutOfFuel
  | S fuel =>
      if (inner_offset + InterfaceDescriptor_SIZE <=? config_end)%nat then
        let! s := slice_from raw inner_offset in
        match InterfaceDescriptor_parse s with
        | None => Returns None
        | Some iface =>
            let inner_offset := (inner_offset + InterfaceDescriptor_SIZE)%nat in
            let! n := u8_succ overflow_checks (id_b_num_endpoints iface) in
            let! (inner_offset, endpoints, hid) := parse_subs n raw config_end inner_offset [] None in
            let interfaces :=
              interfaces ++ [{| ii_interface := iface; ii_endpoints := endpoints; ii_hid := hid |}] in
            if (config_end <=? inner_offset)%nat then Returns (Some interfaces)
            else parse_interfaces fuel overflow_checks raw config_end inner_offset interfaces
        end
      else Returns (Some interfaces)
  end.

(** The loop over the descriptors that follow the device descriptor. *)
Fixpoint parse_configs (fuel : nat) (overflow_checks : bool) (raw : list byte) (offset : nat)
    (configs : list ConfigInfo) : outcome (option (list ConfigInfo)) :=
  match fuel with
  | O => OutOfFuel
  | S fuel =>
      if (offset <? length raw)%nat then
        let! b := index raw offset in
        let desc_len := Z.to_nat (u8 b) in
        let! desc_type := index raw (offset + 1) in
        if decide (desc_type = x02) then
          let! s := slice_from raw offset in
          match ConfigDescriptor_parse s with
          | None => Returns None
          | Some config =>
              let total_len := Z.to_nat (cd_w_total_length config) in
              let config_end := (offset + Nat.min total_len (length raw))%nat in
              let! r := parse_interfaces (S config_end) overflow_checks raw config_end
                          (offset + ConfigDescriptor_SIZE) [] in
              match r with
              | None => Returns None
              | Some interfaces =>
                  parse_configs fuel overflow_checks raw config_end
                    (configs ++ [{| ci_config := config; ci_interfaces := interfaces |}])
              end
          end
        else if (desc_len =? 0)%nat || (length raw <? offset + desc_len)%nat then Returns (Some configs)
        else parse_configs fuel overflow_checks raw (offset + desc_len) configs
      else Returns (Some configs)
  end.

(** [UsbDeviceInfo::parse_descriptor_tree]. *)
Definition parse_descriptor_tree (fuel : nat) (overflow_checks : bool) (raw : list byte)
    : outcome (option UsbDeviceInfo) :=
  match DeviceDescriptor_parse raw with
  | None => Returns None
  | Some device =>
      let! r := parse_configs fuel overflow_checks raw DeviceDescriptor_SIZE [] in
      Returns ((fun configs => {| ud_device := device; ud_configs := configs |}) <$> r)
  end.

(** [UsbDeviceInfo::serialize_descriptor_tree]. *)
Definition interface_bytes (i : InterfaceInfo) : list byte :=
  InterfaceDescriptor_to_bytes (ii_interface i)
  ++ match ii_hid i with Some h => HidDescriptor_to_bytes h | None => [] end
  ++ concat (map EndpointDescriptor_to_bytes (ii_endpoints i)).

Definition config_bytes (c : ConfigInfo) : list byte :=
  ConfigDescriptor_to_bytes (ci_config c) ++ concat (map interface_bytes (ci_interfaces c)).

Definition serialize_descriptor_tree (t : UsbDeviceInfo) : list byte :=
  DeviceDescriptor_to_bytes (ud_device t) ++ concat (map config_bytes (ud_configs t)).

(** ** Well-formed trees *)

Definition device_wf (d : DeviceDescriptor) : Prop :=
  is_u16 (dd_bcd_usb d) /\ is_u16 (dd_id_vendor d) /\ is_u16 (dd_id_product d) /\ is_u16 (dd_bcd_device d).

Definition config_wf (c : ConfigDescriptor) : Prop :=
  cd_b_descriptor_type c = x02 /\ is_u16 (cd_w_total_length c).

Definition interface_wf (i : InterfaceDescriptor) : Prop := id_b_descriptor_type i = x04.

Definition endpoint_wf (e : EndpointDescriptor) : Prop :=
  ed_b_descriptor_type e = x05 /\ is_u16 (ed_w_max_packet_size e).

Definition hid_wf (h : HidDescriptor) : Prop :=
  hd_b_descriptor_type h = x21 /\ is_u16 (hd_bcd_hid h) /\ is_u16 (hd_w_report_descriptor_length h).

(** The number of descriptors that follow an interface descriptor. *)
Definition sub_count (i : InterfaceInfo) : nat :=
  (match ii_hid i with Some _ => 1 | None => 0 end + length (ii_endpoints i))%nat.

Definition interface_info_wf (i : InterfaceInfo) : Prop :=
  interface_wf (ii_interface i) /\ Forall endpoint_wf (ii_endpoints i)
  /\ (forall h, ii_hid i = Some h -> hid_wf h)
  /\ id_b_num_endpoints (ii_interface i) <> xff
  /\ Z.of_nat (sub_count i) <= u8 (id_b_num_endpoints (ii_interface i)) + 1.

(** A configuration whose [wTotalLength] is what it really takes. *)
Definition config_info_wf (c : ConfigInfo) : Prop :=
  config_wf (ci_config c) /\ Forall interface_info_wf (ci_interfaces c)
  /\ cd_w_total_length (ci_config c) = zlen (config_bytes c).

Definition tree_wf (t : UsbDeviceInfo) : Prop :=
  device_wf (ud_device t) /\ Forall config_info_wf (ud_configs t).

(** ** Lemmas on the descriptors *)

Lemma le_bytes_16 z : is_u16 z -> exists a b, le_bytes 2 z = [a; b] /\ le_val [a; b] = z.
Proof.
  intros Hz. pose proof (le_val_le_bytes 2 z Hz) as Hv. pose proof (length_le_bytes 2 z) as Hl.
  destruct (le_bytes 2 z) as [|a [|b [|c l]]]; simpl in Hl; try lia. by exists a, b.
Qed.

Lemma le_val_16 a b : is_u16 (le_val [a; b]) /\ le_bytes 2 (le_val [a; b]) = [a; b].
Proof. split; [apply (le_val_range [a; b])|apply (le_bytes_le_val [a; b])]. Qed.

(** Turns each [u16] field of a descriptor into its two bytes. *)
Ltac split_u16 :=
  repeat match goal with
  | H : is_u16 ?z |- _ =>
      let a := fresh "a" in let b := fresh "b" in let E := fresh "E" in let V := fresh "V" in
      destruct (le_bytes_16 z H) as (a & b & E & V); rewrite E; clear E H; revert V
  end; intros; subst.

(** Reads off a successful parse that the input starts with the encoding. *)
Ltac invert_parse raw :=
  do 18 (try (destruct raw as [|? raw]; [discriminate|]));
  repeat case_decide; try discriminate; intros [= <-];
  split_and!; simpl; try done; try apply le_val_16;
  rewrite ?(proj2 (le_val_16 _ _)); try done.

Lemma DeviceDescriptor_parse_bytes d l :
  device_wf d -> DeviceDescriptor_parse (DeviceDescriptor_to_bytes d ++ l) = Some d.
Proof.
  destruct d. intros (? & ? & ? & ?). simpl in *. unfold DeviceDescriptor_to_bytes. simpl.
  split_u16. done.
Qed.

Lemma ConfigDescriptor_parse_bytes c l :
  config_wf c -> ConfigDescriptor_parse (ConfigDescriptor_to_bytes c ++ l) = Some c.
Proof.
  destruct c. intros (? & ?). simpl in *. unfold ConfigDescriptor_to_bytes. simpl. split_u16. done.
Qed.

Lemma InterfaceDescriptor_parse_bytes i l :
  interface_wf i -> InterfaceDescriptor_parse (InterfaceDescriptor_to_bytes i ++ l) = Some i.
Proof. destruct i. unfold interface_wf. simpl. by intros ->. Qed.

Lemma EndpointDescriptor_parse_bytes e l :
  endpoint_wf e -> EndpointDescriptor_parse (EndpointDescriptor_to_bytes e ++ l) = Some e.
Proof.
  destruct e. intros (? & ?). simpl in *. unfold EndpointDescriptor_to_bytes. simpl. split_u16. done.
Qed.

Lemma HidDescriptor_parse_bytes h l :
  hid_wf h -> HidDescriptor_parse (HidDescriptor_to_bytes h ++ l) = Some h.
Proof.
  destruct h. intros (? & ? & ?). simpl in *. unfold HidDescriptor_to_bytes. simpl. split_u16. done.
Qed.

Lemma DeviceDescriptor_parse_inv raw d :
  DeviceDescriptor_parse raw = Some d -> device_wf d /\ raw = DeviceDescriptor_to_bytes d ++ drop 18 raw.
Proof. unfold DeviceDescriptor_parse, device_wf, DeviceDescriptor_to_bytes. invert_parse raw. Qed.

Lemma ConfigDescriptor_parse_inv raw d :
  ConfigDescriptor_parse raw = Some d -> config_wf d /\ raw = ConfigDescriptor_to_bytes d ++ drop 9 raw.
Proof. unfold ConfigDescriptor_parse, config_wf, ConfigDescriptor_to_bytes. invert_parse raw. Qed.

Lemma InterfaceDescriptor_parse_inv raw d :
  InterfaceDescriptor_parse raw = Some d ->
  interface_wf d /\ raw = InterfaceDescriptor_to_bytes d ++ drop 9 raw.
Proof. unfold InterfaceDescriptor_parse, interface_wf, InterfaceDescriptor_to_bytes. invert_parse raw. Qed.

Lemma EndpointDescriptor_parse_inv raw d :
  EndpointDescriptor_parse raw = Some d ->
  endpoint_wf d /\ raw = EndpointDescriptor_to_bytes d ++ drop 7 raw.
Proof. unfold EndpointDescriptor_parse, endpoint_wf, EndpointDescriptor_to_bytes. invert_parse raw. Qed.

Lemma HidDescriptor_parse_inv raw d :
  HidDescriptor_parse raw = Some d -> hid_wf d /\ raw = HidDescriptor_to_bytes d ++ drop 9 raw.
Proof. unfold HidDescriptor_parse, hid_wf, HidDescriptor_to_bytes. invert_parse raw. Qed.

Lemma length_DeviceDescriptor d : length (DeviceDescriptor_to_bytes d) = 18%nat.
Proof. unfold DeviceDescriptor_to_bytes. len_solve. Qed.
Lemma length_ConfigDescriptor d : length (ConfigDescriptor_to_bytes d) = 9%nat.
Proof. unfold ConfigDescriptor_to_bytes. len_solve. Qed.
Lemma length_InterfaceDescriptor d : length (InterfaceDescriptor_to_bytes d) = 9%nat.
Proof. done. Qed.
Lemma length_EndpointDescriptor d : length (EndpointDescriptor_to_bytes d) = 7%nat.
Proof. unfold EndpointDescriptor_to_bytes. len_solve. Qed.
Lemma length_HidDescriptor d : length (HidDescriptor_to_bytes d) = 9%nat.
Proof. unfold HidDescriptor_to_bytes. len_solve. Qed.
#[export] Hint Rewrite length_DeviceDescriptor length_ConfigDescriptor length_InterfaceDescriptor
  length_EndpointDescriptor length_HidDescriptor : anyplug_len.

Lemma slice_from_app pre l : slice_from (pre ++ l) (length pre) = Returns l.
Proof.
  unfold slice_from. rewrite length_app. case_bool; [|lia]. by rewrite drop_app_length.
Qed.

Lemma index_app pre a l : index (pre ++ a :: l) (length pre) = Returns a.
Proof. unfold index. by rewrite list_lookup_middle. Qed.

Lemma index_app_1 pre a b l : index (pre ++ a :: b :: l) (length pre + 1) = Returns b.
Proof.
  unfold index. rewrite lookup_app_r by lia. by replace (length pre + 1 - length pre)%nat with 1%nat by lia.
Qed.

(** The second byte of each descriptor is its type. *)
Lemma index_endpoint pre e l :
  index (pre ++ EndpointDescriptor_to_bytes e ++ l) (length pre + 1) = Returns (ed_b_descriptor_type e).
Proof. apply index_app_1. Qed.
Lemma index_hid pre h l :
  index (pre ++ HidDescriptor_to_bytes h ++ l) (length pre + 1) = Returns (hd_b_descriptor_type h).
Proof. apply index_app_1. Qed.
Lemma index_config pre c l :
  index (pre ++ ConfigDescriptor_to_bytes c ++ l) (length pre + 1) = Returns (cd_b_descriptor_type c).
Proof. apply index_app_1. Qed.
Lemma index_config_0 pre c l :
  index (pre ++ ConfigDescriptor_to_bytes c ++ l) (length pre) = Returns (cd_b_length c).
Proof. apply index_app. Qed.
Lemma interface_head i l :
  exists t, InterfaceDescriptor_to_bytes i ++ l = id_b_length i :: id_b_descriptor_type i :: t.
Proof. by eexists. Qed.

#[global] Opaque DeviceDescriptor_to_bytes ConfigDescriptor_to_bytes InterfaceDescriptor_to_bytes
  EndpointDescriptor_to_bytes HidDescriptor_to_bytes.

(** ** Lemmas on the tree parser *)

(** The sub-descriptor loop stops here: the configuration ends, or what follows
    is neither an endpoint nor a HID descriptor. *)
Definition subs_stop (config_end offset : nat) (post : list byte) : Prop :=
  (config_end < offset + 2)%nat \/ exists a b l, post = a :: b :: l /\ b <> x05 /\ b <> x21.

Lemma parse_subs_stop n pre post config_end eps hid :
  subs_stop config_end (length pre) post ->
  parse_subs n (pre ++ post) config_end (length pre) eps hid = Returns (length pre, eps, hid).
Proof.
  destruct n as [|n]; [done|]. simpl. intros [H|(a & b & l & -> & H5 & H21)]; case_bool; try done; try lia.
  rewrite index_app_1. by rewrite !decide_False.
Qed.

Lemma parse_subs_endpoints eps n pre post config_end acc hid :
  Forall endpoint_wf eps -> (length eps <= n)%nat ->
  let last := length (pre ++ concat (map EndpointDescriptor_to_bytes eps)) in
  (last <= config_end)%nat -> subs_stop config_end last post ->
  parse_subs n (pre ++ concat (map EndpointDescriptor_to_bytes eps) ++ post) config_end (length pre) acc hid
  = Returns (last, acc ++ eps, hid).
Proof.
  intros Hwf. revert n pre acc. induction Hwf as [|e eps He Hwf IH]; intros n pre acc Hn last; subst last.
  - simpl. rewrite !app_nil_r. intros _ Hs. by apply parse_subs_stop.
  - simpl. destruct n as [|n]; simpl in Hn; [lia|]. intros Hce Hs. simpl.
    case_bool; [len_solve|].
    pose proof (EndpointDescriptor_parse_bytes e) as Hp. specialize (IH n (pre ++ EndpointDescriptor_to_bytes e) (acc ++ [e])).
    rewrite <- !app_assoc in IH. rewrite <- !app_assoc.
    cbv zeta in IH.
    rewrite index_endpoint, (proj1 He), decide_True, slice_from_app, Hp by done. etrans; [|apply IH; [lia|done|done]].
    f_equal. by rewrite length_app, length_EndpointDescriptor.
Qed.

Lemma parse_subs_interface i n pre post config_end :
  interface_info_wf i -> (sub_count i <= n)%nat ->
  let subs := match ii_hid i with Some h => HidDescriptor_to_bytes h | None => [] end
              ++ concat (map EndpointDescriptor_to_bytes (ii_endpoints i)) in
  (length (pre ++ subs) <= config_end)%nat -> subs_stop config_end (length (pre ++ subs)) post ->
  parse_subs n (pre ++ subs ++ post) config_end (length pre) [] None
  = Returns (length (pre ++ subs), ii_endpoints i, ii_hid i).
Proof.
  destruct i as [iface eps hid]. unfold interface_info_wf, sub_count. simpl.
  intros (_ & Heps & Hhid & _ & _) Hn Hce Hs. destruct hid as [h|]; simpl in *.
  - destruct n as [|n]; [lia|]. simpl. case_bool; [len_solve|].
    rewrite <- !app_assoc.
    rewrite index_hid, (proj1 (Hhid h eq_refl)), decide_False, decide_True, slice_from_app by done.
    rewrite HidDescriptor_parse_bytes by auto.
    pose proof (parse_subs_endpoints eps n (pre ++ HidDescriptor_to_bytes h) post config_end [] (Some h)) as Heq.
    rewrite <- !app_assoc in Heq. cbv zeta in Heq. etrans; [|apply Heq; (done || lia)].
    f_equal. by rewrite length_app, length_HidDescriptor.
  - by apply parse_subs_endpoints.
Qed.

Lemma u8_succ_ok checks b : b <> xff -> u8_succ checks b = Returns (S (Z.to_nat (u8 b))).
Proof. intros. unfold u8_succ. by rewrite decide_False. Qed.

Lemma parse_interfaces_bytes ifs fuel checks pre post acc :
  Forall interface_info_wf ifs -> (length ifs < fuel)%nat ->
  let bytes := concat (map interface_bytes ifs) in
  parse_interfaces fuel checks (pre ++ bytes ++ post) (length (pre ++ bytes)) (length pre) acc
  = Returns (Some (acc ++ ifs)).
Proof.
  intros Hwf. revert fuel pre acc. induction Hwf as [|i ifs Hi Hwf IH]; intros fuel pre acc Hf;
    (destruct fuel as [|fuel]; [simpl in Hf; lia|]); simpl.
  - case_bool; [unfold InterfaceDescriptor_SIZE in *; len_solve|]. by rewrite app_nil_r.
  - set (rest := concat (map interface_bytes ifs)).
    case_bool; [|unfold interface_bytes, InterfaceDescriptor_SIZE in *; len_solve].
    pose proof Hi as (Hif & _ & _ & Hff & Hcount).
    rewrite <- !app_assoc, slice_from_app. unfold interface_bytes at 1. rewrite <- app_assoc.
    rewrite InterfaceDescriptor_parse_bytes, u8_succ_ok by done.
    pose proof (parse_subs_interface i (S (Z.to_nat (u8 (id_b_num_endpoints (ii_interface i)))))
                  (pre ++ InterfaceDescriptor_to_bytes (ii_interface i)) (rest ++ post)
                  (length (pre ++ interface_bytes i ++ rest)) Hi) as Hsub.
    cbv zeta in Hsub. set (subs := (match ii_hid i with Some _ => _ | None => _ end) ++ _) in Hsub.
    assert (Hb : interface_bytes i = InterfaceDescriptor_to_bytes (ii_interface i) ++ subs) by done.
    rewrite Hb in Hsub |- *. rewrite <- !app_assoc in Hsub |- *. 
    replace (length pre + InterfaceDescriptor_SIZE)%nat with
      (length (pre ++ InterfaceDescriptor_to_bytes (ii_interface i))) by (unfold InterfaceDescriptor_SIZE; len_simpl; done).
    rewrite <- (app_assoc pre _ (subs ++ rest ++ post)) in Hsub. rewrite Hsub; clear Hsub.
    + destruct i as [iface eps hid]. simpl in *. specialize (IH fuel (pre ++ InterfaceDescriptor_to_bytes iface ++ subs)
        (acc ++ [{| ii_interface := iface; ii_endpoints := eps; ii_hid := hid |}])).
      rewrite <- !app_assoc in IH. simpl in IH. case_bool; [|apply IH; lia].
      destruct ifs as [|j ifs]; [done|]. exfalso. unfold rest in *. simpl in *.
      unfold interface_bytes in *. len_solve.
    + lia.
    + len_solve.
    + destruct ifs as [|j ifs]; [left; unfold rest; simpl; len_solve|right].
      inversion Hwf as [|? ? Hj]; subst. destruct Hj as (Hj & _). unfold rest; simpl.
      unfold interface_bytes. rewrite <- !app_assoc.
      edestruct interface_head as [t ->]. eexists _, _, t. split; [reflexivity|]. by rewrite Hj.
Qed.

(** The inner loop always ends. *)
Lemma parse_subs_offset n raw ce off eps hid r :
  parse_subs n raw ce off eps hid = Returns r -> (off <= r.1.1)%nat.
Proof.
  revert off eps hid. induction n as [|n IH]; intros off eps hid; simpl; [by intros [= <-]|].
  case_bool; [by intros [= <-]|]. destruct (index _ _); try done.
  repeat case_decide; try (by intros [= <-]).
  all: destruct (slice_from _ _); try done.
  - destruct (EndpointDescriptor_parse _); [intros ?%IH; lia|by intros [= <-]].
  - destruct (HidDescriptor_parse _); [intros ?%IH; lia|by intros [= <-]].
Qed.

Lemma parse_subs_fuel n raw ce off eps hid : parse_subs n raw ce off eps hid <> OutOfFuel.
Proof.
  revert off eps hid. induction n as [|n IH]; intros off eps hid; simpl; [done|].
  case_bool; [done|]. unfold index, slice_from. destruct (_ !! _); [|done].
  repeat case_decide; try done; case_bool; try done.
  - by destruct (EndpointDescriptor_parse _).
  - by destruct (HidDescriptor_parse _).
Qed.

Lemma parse_interfaces_fuel fuel checks raw ce off acc :
  (ce - off < fuel)%nat -> parse_interfaces fuel checks raw ce off acc <> OutOfFuel.
Proof.
  revert off acc. induction fuel as [|fuel IH]; intros off acc Hf; [lia|simpl].
  case_bool; [|done]. unfold slice_from, u8_succ. case_bool; [|done].
  destruct (InterfaceDescriptor_parse _) as [i|]; [|done].
  case_decide; [destruct checks; [done|]|];
    (destruct (parse_subs _ _ _ _ _ _) as [[[off' eps] hid]| |] eqn:E;
     [apply parse_subs_offset in E; simpl in E; case_bool; [done|apply IH; unfold InterfaceDescriptor_SIZE in *; lia]
     |done|by apply parse_subs_fuel in E]).
Qed.

#[global] Arguments parse_interfaces : simpl never.

Lemma length_interfaces_bytes ifs : (length ifs <= length (concat (map interface_bytes ifs)))%nat.
Proof.
  induction ifs as [|i ifs IH]; simpl; [done|]. unfold interface_bytes at 1. len_solve.
Qed.

Lemma parse_configs_bytes cs fuel checks pre acc :
  Forall config_info_wf cs -> (length cs < fuel)%nat ->
  parse_configs fuel checks (pre ++ concat (map config_bytes cs)) (length pre) acc
  = Returns (Some (acc ++ cs)).
Proof.
  intros Hwf. revert fuel pre acc. induction Hwf as [|c cs Hc Hwf IH]; intros fuel pre acc Hf;
    (destruct fuel as [|fuel]; [simpl in Hf; lia|]); simpl.
  - case_bool; [len_solve|]. by rewrite app_nil_r.
  - set (rest := concat (map config_bytes cs)). pose proof Hc as (Hcw & Hifs & Htot).
    assert (Hb : config_bytes c = ConfigDescriptor_to_bytes (ci_config c)
                                  ++ concat (map interface_bytes (ci_interfaces c))) by done.
    set (ifb := concat (map interface_bytes (ci_interfaces c))) in *.
    rewrite Hb, <- app_assoc. case_bool; [|len_solve].
    rewrite index_config_0, index_config, (proj1 Hcw), decide_True, slice_from_app by done.
    rewrite ConfigDescriptor_parse_bytes by done.
    assert (Hend : (length pre + Nat.min (Z.to_nat (cd_w_total_length (ci_config c)))
                      (length (pre ++ ConfigDescriptor_to_bytes (ci_config c) ++ ifb ++ rest)))%nat
                   = length ((pre ++ ConfigDescriptor_to_bytes (ci_config c)) ++ ifb)).
    { rewrite Htot, Hb. unfold zlen. rewrite Nat2Z.id. len_simpl. lia. }
    rewrite Hend. 
    replace (length pre + ConfigDescriptor_SIZE)%nat
      with (length (pre ++ ConfigDescriptor_to_bytes (ci_config c))) by (len_simpl; done).
    pose proof (parse_interfaces_bytes (ci_interfaces c)
      (S (length ((pre ++ ConfigDescriptor_to_bytes (ci_config c)) ++ ifb))) checks
      (pre ++ ConfigDescriptor_to_bytes (ci_config c)) rest [] Hifs) as Hp.
    cbv zeta in Hp. fold ifb in Hp. rewrite <- (app_assoc pre _ (ifb ++ rest)) in Hp.
    rewrite Hp by (pose proof (length_interfaces_bytes (ci_interfaces c)) as Hl; fold ifb in Hl; len_solve).
    specialize (IH fuel ((pre ++ ConfigDescriptor_to_bytes (ci_config c)) ++ ifb)
                  (acc ++ [{| ci_config := ci_config c; ci_interfaces := ci_interfaces c |}])).
    rewrite <- (app_assoc (pre ++ _)), <- (app_assoc pre) in IH. fold rest in IH. simpl in Hf.
    simpl. rewrite IH by lia. destruct c; simpl. by rewrite <- app_assoc.
Qed.


Lemma config_at raw offset c :
  (offset < length raw)%nat -> ConfigDescriptor_parse (drop offset raw) = Some c ->
  index raw offset = Returns (cd_b_length c) /\ index raw (offset + 1) = Returns x02.
Proof.
  intros Ho Hc. pose proof (ConfigDescriptor_parse_inv _ _ Hc) as [[<- _] Hd].
  assert (Hraw : raw = take offset raw ++ ConfigDescriptor_to_bytes c ++ drop 9 (drop offset raw))
    by (by rewrite <- Hd, take_drop).
  assert (Hl : length (take offset raw) = offset) by (rewrite length_take; lia).
  revert Hraw Hl. generalize (take offset raw) (drop 9 (drop offset raw)). intros pre l -> <-.
  by rewrite index_config_0, index_config.
Qed.

(** A configuration that announces no bytes at all keeps the outer loop where it is. *)
Lemma parse_configs_spin fuel checks raw offset acc c :
  (offset < length raw)%nat -> ConfigDescriptor_parse (drop offset raw) = Some c ->
  cd_w_total_length c = 0 -> parse_configs fuel checks raw offset acc = OutOfFuel.
Proof.
  intros Ho Hc Hz. revert acc. induction fuel as [|fuel IH]; intros acc; [done|simpl].
  case_bool; [|lia].
  destruct (config_at raw offset c) as [-> ->]; [done|done|]. rewrite decide_True by done.
  unfold slice_from. case_bool; [|lia]. rewrite Hc, Hz. simpl. rewrite Nat.add_0_r.
  unfold parse_interfaces, InterfaceDescriptor_SIZE, ConfigDescriptor_SIZE. case_bool; [lia|]. apply IH.
Qed.

Lemma parse_configs_fuel fuel1 fuel2 checks raw offset acc :
  (length raw - offset < fuel1)%nat -> (length raw - offset < fuel2)%nat ->
  parse_configs fuel1 checks raw offset acc = parse_configs fuel2 checks raw offset acc.
Proof.
  revert fuel2 offset acc. induction fuel1 as [|fuel1 IH]; intros fuel2 offset acc H1 H2; [lia|].
  destruct fuel2 as [|fuel2]; [lia|simpl]. case_bool; [|done].
  destruct (index raw offset); try done. destruct (index raw (offset + 1)); try done.
  case_decide.
  - unfold slice_from. case_bool; [|done].
    destruct (ConfigDescriptor_parse _) as [c|] eqn:Hc; [|done].
    destruct (parse_interfaces _ _ _ _ _ _) as [[ifs|]| |]; try done.
    destruct (decide (cd_w_total_length c = 0)) as [Hz|Hz].
    + rewrite Hz. simpl. rewrite Nat.add_0_r. by rewrite !(parse_configs_spin _ _ _ _ _ c).
    + assert (0 < cd_w_total_length c).
      { apply ConfigDescriptor_parse_inv in Hc as [[_ [? _]] _]. lia. }
      apply IH; lia.
  - destruct (Nat.eqb_spec (Z.to_nat (u8 a)) 0); [done|]. case_bool; [done|]. simpl. apply IH; lia.
Qed.

Lemma parse_configs_ends fuel checks raw offset acc :
  (forall i c, ConfigDescriptor_parse (drop i raw) = Some c -> cd_w_total_length c <> 0) ->
  (length raw - offset < fuel)%nat -> parse_configs fuel checks raw offset acc <> OutOfFuel.
Proof.
  intros Hnz. revert offset acc. induction fuel as [|fuel IH]; intros offset acc Hf; [lia|simpl].
  case_bool; [|done]. unfold index. destruct (raw !! offset); [|done]. destruct (raw !! (offset + 1)%nat); [|done].
  case_decide.
  - unfold slice_from. case_bool; [|done].
    destruct (ConfigDescriptor_parse _) as [c|] eqn:Hc; [|done].
    pose proof (ConfigDescriptor_parse_inv _ _ Hc) as [[_ [Hr _]] _]. apply Hnz in Hc.
    destruct (parse_interfaces _ _ _ _ _ _) as [[ifs|]| |] eqn:Hp; try done.
    + apply IH; lia.
    + apply parse_interfaces_fuel in Hp; [done|lia].
  - destruct (Nat.eqb_spec (Z.to_nat (u8 b)) 0); [done|]. case_bool; [done|]. simpl. apply IH; lia.
Qed.

Lemma parse_serialized_tree t fuel checks :
  tree_wf t -> (length (ud_configs t) < fuel)%nat ->
  parse_descriptor_tree fuel checks (serialize_descriptor_tree t) = Returns (Some t).
Proof.
  intros [Hd Hc] Hf. unfold parse_descriptor_tree, serialize_descriptor_tree.
  rewrite DeviceDescriptor_parse_bytes by done.
  replace DeviceDescriptor_SIZE with (length (DeviceDescriptor_to_bytes (ud_device t)))
    by apply length_DeviceDescriptor.
  rewrite parse_configs_bytes by done. by destruct t.
Qed.

(** ** Theorems *)

(** Each of the five descriptor parsers is the exact inverse of its
    serializer: what is serialized is parsed back, whatever follows it, and what
    is parsed is, byte for byte, the serialization of the result followed by the
    rest of the input. *)
Theorem descriptor_codecs :
  (forall d l, device_wf d -> DeviceDescriptor_parse (DeviceDescriptor_to_bytes d ++ l) = Some d)
  /\ (forall raw d, DeviceDescriptor_parse raw = Some d -> raw = DeviceDescriptor_to_bytes d ++ drop 18 raw)
  /\ (forall c l, config_wf c -> ConfigDescriptor_parse (ConfigDescriptor_to_bytes c ++ l) = Some c)
  /\ (forall raw c, ConfigDescriptor_parse raw = Some c -> raw = ConfigDescriptor_to_bytes c ++ drop 9 raw)
  /\ (forall i l, interface_wf i -> InterfaceDescriptor_parse (InterfaceDescriptor_to_bytes i ++ l) = Some i)
  /\ (forall raw i, InterfaceDescriptor_parse raw = Some i -> raw = InterfaceDescriptor_to_bytes i ++ drop 9 raw)
  /\ (forall e l, endpoint_wf e -> EndpointDescriptor_parse (EndpointDescriptor_to_bytes e ++ l) = Some e)
  /\ (forall raw e, EndpointDescriptor_parse raw = Some e -> raw = EndpointDescriptor_to_bytes e ++ drop 7 raw)
  /\ (forall h l, hid_wf h -> HidDescriptor_parse (HidDescriptor_to_bytes h ++ l) = Some h)
  /\ (forall raw h, HidDescriptor_parse raw = Some h -> raw = HidDescriptor_to_bytes h ++ drop 9 raw).
Proof.
  split_and!; eauto using DeviceDescriptor_parse_bytes, ConfigDescriptor_parse_bytes,
    InterfaceDescriptor_parse_bytes, EndpointDescriptor_parse_bytes, HidDescriptor_parse_bytes.
  - intros. by apply DeviceDescriptor_parse_inv.
  - intros. by apply ConfigDescriptor_parse_inv.
  - intros. by apply InterfaceDescriptor_parse_inv.
  - intros. by apply EndpointDescriptor_parse_inv.
  - intros. by apply HidDescriptor_parse_inv.
Qed.

(** C24: the descriptor tree survives the wire. A tree whose configurations
    announce the length they have, and whose interfaces announce enough
    endpoints for what follows them and not 255 of them, is parsed back exactly from its
    serialization, without a panic, in debug and in release builds. *)
Theorem descriptor_tree_roundtrip t fuel checks :
  tree_wf t -> (length (ud_configs t) < fuel)%nat ->
  parse_descriptor_tree fuel checks (serialize_descriptor_tree t) = Returns (Some t).
Proof. apply parse_serialized_tree. Qed.

Definition sample_device : DeviceDescriptor :=
  {| dd_b_length := x12; dd_b_descriptor_type := x01; dd_bcd_usb := 0x0200; dd_b_device_class := x00;
     dd_b_device_sub_class := x00; dd_b_device_protocol := x00; dd_b_max_packet_size0 := x40;
     dd_id_vendor := 0x046d; dd_id_product := 0xc261; dd_bcd_device := 0x0100;
     dd_i_manufacturer := x01; dd_i_product := x02; dd_i_serial_number := x03;
     dd_b_num_configurations := x01 |}.

Definition sample_endpoint (address : byte) : EndpointDescriptor :=
  {| ed_b_length := x07; ed_b_descriptor_type := x05; ed_b_endpoint_address := address;
     ed_bm_attributes := x03; ed_w_max_packet_size := 64; ed_b_interval := x01 |}.

Definition sample_interface (number endpoints : byte) : InterfaceDescriptor :=
  {| id_b_length := x09; id_b_descriptor_type := x04; id_b_interface_number := number;
     id_b_alternate_setting := x00; id_b_num_endpoints := endpoints; id_b_interface_class := x03;
     id_b_interface_sub_class := x00; id_b_interface_protocol := x00; id_i_interface := x00 |}.

Definition sample_hid : HidDescriptor :=
  {| hd_b_length := x09; hd_b_descriptor_type := x21; hd_bcd_hid := 0x0111; hd_b_country_code := x00;
     hd_b_num_descriptors := x01; hd_report_descriptor_type := x22;
     hd_w_report_descriptor_length := 133 |}.

Definition sample_config (total : Z) : ConfigDescriptor :=
  {| cd_b_length := x09; cd_b_descriptor_type := x02; cd_w_total_length := total;
     cd_b_num_interfaces := x02; cd_b_configuration_value := x01; cd_i_configuration := x00;
     cd_bm_attributes := x80; cd_b_max_power := x32 |}.

(** A wheel: a HID interface with two endpoints and one with a single endpoint. *)
Definition sample_tree : UsbDeviceInfo :=
  {| ud_device := sample_device;
     ud_configs :=
       [{| ci_config := sample_config 57;
           ci_interfaces :=
             [{| ii_interface := sample_interface x00 x02;
                 ii_endpoints := [sample_endpoint x81; sample_endpoint x01]; ii_hid := Some sample_hid |};
              {| ii_interface := sample_interface x01 x01;
                 ii_endpoints := [sample_endpoint x82]; ii_hid := None |}] |}] |}.

Lemma sample_tree_wf : tree_wf sample_tree.
Proof.
  unfold tree_wf, config_info_wf, interface_info_wf, device_wf, config_wf, interface_wf, endpoint_wf,
    hid_wf, is_u16. simpl.
  repeat match goal with
  | |- _ /\ _ => split
  | |- Forall _ _ => constructor
  | |- forall h, _ = Some h -> _ => simpl; intros h; first [intros [= <-] | by intros [=]]
  end; done || (vm_compute; congruence).
Qed.

Lemma descriptor_tree_roundtrip_witness :
  tree_wf sample_tree
  /\ parse_descriptor_tree 2 true (serialize_descriptor_tree sample_tree) = Returns (Some sample_tree).
Proof.
  split; [exact sample_tree_wf|]. apply descriptor_tree_roundtrip; [exact sample_tree_wf|simpl; lia].
Defined.

(** One step per input byte decides the tree parser: with more fuel than
    the input has bytes the outcome no longer changes, and when no configuration
    descriptor in the input announces a total length of 0 the parser ends (with
    a tree, a rejection or a panic). *)
Theorem parse_tree_fuel_irrelevant fuel checks raw :
  (length raw < fuel)%nat ->
  parse_descriptor_tree fuel checks raw = parse_descriptor_tree (S (length raw)) checks raw
  /\ ((forall i c, ConfigDescriptor_parse (drop i raw) = Some c -> cd_w_total_length c <> 0) ->
      parse_descriptor_tree fuel checks raw <> OutOfFuel).
Proof.
  intros Hf. unfold parse_descriptor_tree. destruct (DeviceDescriptor_parse raw); [|done]. split.
  - rewrite (parse_configs_fuel fuel (S (length raw))) by lia. done.
  - intros Hnz. pose proof (parse_configs_ends fuel checks raw 18 [] Hnz) as H.
    destruct (parse_configs _ _ _ _ _); try done. exfalso. apply H; [lia|done].
Qed.

Lemma parse_tree_fuel_irrelevant_witness :
  parse_descriptor_tree 100 true (serialize_descriptor_tree sample_tree)
  = parse_descriptor_tree 76 true (serialize_descriptor_tree sample_tree)
  /\ parse_descriptor_tree 100 true (serialize_descriptor_tree sample_tree) = Returns (Some sample_tree).
Proof.
  split; [|vm_compute; reflexivity].
  apply (parse_tree_fuel_irrelevant 100 true (serialize_descriptor_tree sample_tree)).
  vm_compute. lia.
Defined.

(** A configuration descriptor right after the device descriptor that
    announces a total length of 0 keeps the parser in its loop for ever: no
    amount of fuel ends it, whatever follows. *)
Theorem parse_tree_zero_length_spins d c l fuel checks :
  device_wf d -> config_wf c -> cd_w_total_length c = 0 ->
  parse_descriptor_tree fuel checks (DeviceDescriptor_to_bytes d ++ ConfigDescriptor_to_bytes c ++ l)
  = OutOfFuel.
Proof.
  intros Hd Hc Hz. unfold parse_descriptor_tree. rewrite DeviceDescriptor_parse_bytes by done.
  rewrite (parse_configs_spin _ _ _ _ _ c); [done| | |done].
  - unfold DeviceDescriptor_SIZE. len_solve.
  - replace DeviceDescriptor_SIZE with (length (DeviceDescriptor_to_bytes d))
      by apply length_DeviceDescriptor.
    by rewrite drop_app_length, ConfigDescriptor_parse_bytes.
Qed.

Lemma parse_tree_zero_length_spins_witness :
  parse_descriptor_tree 1000 true
    (DeviceDescriptor_to_bytes sample_device ++ ConfigDescriptor_to_bytes (sample_config 0) ++ [])
  = OutOfFuel.
Proof.
  apply parse_tree_zero_length_spins; [| |reflexivity]; repeat split; vm_compute; congruence.
Defined.

(** Inputs on which the parser panics: a single byte after the device
    descriptor, a configuration that announces more bytes than the input has,
    and, with overflow checks, an interface with 255 endpoints. *)
Lemma parse_tree_panics :
  parse_descriptor_tree 100 false (DeviceDescriptor_to_bytes sample_device ++ [x09]) = Panics
  /\ parse_descriptor_tree 100 false
       (DeviceDescriptor_to_bytes sample_device ++ ConfigDescriptor_to_bytes (sample_config 57)
        ++ InterfaceDescriptor_to_bytes (sample_interface x00 x02)
        ++ EndpointDescriptor_to_bytes (sample_endpoint x81)) = Panics
  /\ parse_descriptor_tree 100 true
       (DeviceDescriptor_to_bytes sample_device ++ ConfigDescriptor_to_bytes (sample_config 18)
        ++ InterfaceDescriptor_to_bytes (sample_interface x00 xff)) = Panics.
Proof. vm_compute. done. Qed.

(** The [unreachable!()] arm of [transfer_type] is unreachable, and an endpoint
    number is at most 15. *)
Lemma transfer_type_total e : transfer_type e <> None /\ 0 <= ep_number e <= 15.
Proof.
  unfold transfer_type, ep_number. split; [by destruct (ed_bm_attributes e)|].
  by destruct (ed_b_endpoint_address e).
Qed.
