(* ===== verification/Pool.v ===== *)
(** * The URB buffer pool (shared/usbip-core/src/pool.rs)

    The lock-free queue of the crossbeam crate is the interface [BoundedQueue];
    the pool is verified against it.  The clock reading of [record_urb] is an
    argument, in nanoseconds.  Buffers handed out are [PooledBuffer]s; the life
    of a pool with its clients is the step relation [pool_step]. *)

From S2P Require Import Prelude RustFloat Urb.

(** ** crossbeam's [ArrayQueue] *)

(** What the pool relies on: a FIFO queue of fixed capacity, whose [push] fails
    exactly when the queue is full. *)
Class BoundedQueue (Q A : Type) : Type := {
  q_new : nat -> Q;
  q_capacity : Q -> nat;
  q_contents : Q -> list A;
  q_push : A -> Q -> option Q;
  q_pop : Q -> option (A * Q);
  q_new_spec : forall n, (0 < n)%nat -> q_contents (q_new n) = [] /\ q_capacity (q_new n) = n;
  q_push_spec : forall a q, (length (q_contents q) < q_capacity q)%nat ->
    exists q', q_push a q = Some q' /\ q_contents q' = q_contents q ++ [a] /\ q_capacity q' = q_capacity q;
  q_push_full : forall a q, (q_capacity q <= length (q_contents q))%nat -> q_push a q = None;
  q_pop_spec : forall a l q, q_contents q = a :: l ->
    exists q', q_pop q = Some (a, q') /\ q_contents q' = l /\ q_capacity q' = q_capacity q;
  q_pop_empty : forall q, q_contents q = [] -> q_pop q = None
}.

(** A queue that keeps these promises. *)
#[export] Instance list_queue (A : Type) : BoundedQueue (nat * list A) A.
Proof.
  refine {| q_new n := (n, []); q_capacity := fst; q_contents := snd;
            q_push a q := if (length q.2 <? q.1)%nat then Some (q.1, q.2 ++ [a]) else None;
            q_pop q := match q.2 with [] => None | a :: l => Some (a, (q.1, l)) end |}.
  - done.
  - intros a [n l] Hl; simpl in *. case_bool; [|lia]. by eexists.
  - intros a [n l] Hl; simpl in *. case_bool; [lia|done].
  - intros a l [n l'] Hl; simpl in *. subst. by eexists.
  - intros [n l] Hl; simpl in *. by subst.
Defined.

(** ** The pool *)

Definition DEFAULT_MIN_POOL_SIZE : nat := 1024.
Definition DEFAULT_BULK_CAPACITY : nat := 16 * 1024.
Definition DEFAULT_INTERRUPT_CAPACITY : nat := 64.

(** [EWMA_ALPHA], 0.125. *)
Definition EWMA_ALPHA : f64 := f64_ratio 1 8.

Section Pool.
Context {Q : Type} `{!BoundedQueue Q UrbBuffer}.

Record UrbBufferPool := {
  queue : Q;
  data_capacity : nat;
  ewma_rate : f64;
  last_record : option Z;
  window_count : Z;
  min_size : nat;
  max_size : nat
}.

Definition set_queue (q : Q) (p : UrbBufferPool) : UrbBufferPool :=
  {| queue := q; data_capacity := data_capacity p; ewma_rate := ewma_rate p;
     last_record := last_record p; window_count := window_count p;
     min_size := min_size p; max_size := max_size p |}.

(** [for _ in 0..n { queue.push(UrbBuffer::new(cap)) }]: stops at a full queue
    when [stop] is set, and ignores the failure otherwise. *)
Fixpoint push_buffers (stop : bool) (n cap : nat) (q : Q) : Q :=
  match n with
  | O => q
  | S n =>
      match q_push (UrbBuffer_new cap) q with
      | Some q' => push_buffers stop n cap q'
      | None => if stop then q else push_buffers stop n cap q
      end
  end.

(** [UrbBufferPool::new]. *)
Definition pool_new (cap min_size : nat) : UrbBufferPool :=
  let max_size := Nat.max (min_size * 4) 4096 in
  {| queue := push_buffers false min_size cap (q_new max_size); data_capacity := cap;
     ewma_rate := f64_zero; last_record := None; window_count := 0;
     min_size := min_size; max_size := max_size |}.

Definition new_bulk (min_size : nat) : UrbBufferPool := pool_new DEFAULT_BULK_CAPACITY min_size.
Definition new_interrupt (min_size : nat) : UrbBufferPool :=
  pool_new DEFAULT_INTERRUPT_CAPACITY min_size.

(** [PooledBuffer]: the buffer, until it is taken, and whether it goes back. *)
Record PooledBuffer := { pb_inner : option UrbBuffer; pb_pool : bool }.

(** [UrbBufferPool::acquire]. *)
Definition acquire (p : UrbBufferPool) : PooledBuffer * UrbBufferPool :=
  match q_pop (queue p) with
  | Some (b, q) => ({| pb_inner := Some b; pb_pool := true |}, set_queue q p)
  | None => ({| pb_inner := Some (UrbBuffer_new (data_capacity p)); pb_pool := true |}, p)
  end.

(** [Drop for PooledBuffer]. *)
Definition pooled_drop (b : PooledBuffer) (p : UrbBufferPool) : UrbBufferPool :=
  match pb_inner b with
  | Some buf =>
      if pb_pool b then
        match q_push (UrbBuffer_reset buf) (queue p) with
        | Some q => set_queue q p
        | None => p
        end
      else p
  | None => p
  end.

(** [PooledBuffer::take]: the buffer, and what is left to drop. *)
Definition pooled_take (b : PooledBuffer) : outcome (UrbBuffer * PooledBuffer) :=
  match pb_inner b with
  | Some buf => Returns (buf, {| pb_inner := None; pb_pool := pb_pool b |})
  | None => Panics
  end.

(** [PooledBuffer::as_slice], [data_capacity] and [data_offset]. *)
Definition pooled_as_slice (b : PooledBuffer) : outcome (list byte) :=
  match pb_inner b with Some buf => Returns (ub_buf buf) | None => Panics end.

Definition pooled_data_capacity (b : PooledBuffer) : outcome nat :=
  match pb_inner b with Some buf => Returns (ub_data_capacity buf) | None => Panics end.

Definition pooled_data_offset (b : PooledBuffer) : outcome nat :=
  match pb_inner b with Some buf => Returns (ub_data_offset buf) | None => Panics end.

Definition pooled_reset (b : PooledBuffer) : PooledBuffer :=
  {| pb_inner := UrbBuffer_reset <$> pb_inner b; pb_pool := pb_pool b |}.

(** Writing through [as_mut_slice]: other contents, the same length. *)
Definition pooled_write (data : list byte) (b : PooledBuffer) : outcome PooledBuffer :=
  match pb_inner b with
  | Some buf =>
      if (length data =? length (ub_buf buf))%nat then
        Returns {| pb_inner := Some {| ub_buf := data; ub_data_offset := ub_data_offset buf;
                                       ub_data_capacity := ub_data_capacity buf |};
                   pb_pool := pb_pool b |}
      else Panics
  | None => Panics
  end.

(** [DerefMut]: the holder gets the [UrbBuffer] itself, whose fields are public, and
    may leave any other one in its place. *)
Definition pooled_deref_mut (left : UrbBuffer) (b : PooledBuffer) : outcome PooledBuffer :=
  match pb_inner b with
  | Some _ => Returns {| pb_inner := Some left; pb_pool := pb_pool b |}
  | None => Panics
  end.

(** [UrbBufferPool::record_urb] at the instant [now]. *)
Definition record_urb (now : Z) (p : UrbBufferPool) : UrbBufferPool :=
  let count := window_count p + 1 in
  match last_record p with
  | Some last =>
      let elapsed := as_secs_f64 (Z.max 0 (now - last)) in
      if f64_le (f64_of_Z 1) elapsed then
        let observed_rate := f64_div (f64_of_Z count) elapsed in
        let rate :=
          if f64_eq (ewma_rate p) f64_zero then observed_rate
          else f64_add (f64_mul EWMA_ALPHA observed_rate)
                       (f64_mul (f64_sub (f64_of_Z 1) EWMA_ALPHA) (ewma_rate p)) in
        let target := f64_ceil_as_unsigned USIZE_MAX (f64_mul rate (f64_of_Z 2)) in
        let desired := Z.min (Z.max target (Z.of_nat (min_size p))) (Z.of_nat (max_size p)) in
        let current_count := length (q_contents (queue p)) in
        let q :=
          if Z.of_nat current_count <? desired
          then push_buffers true (Z.to_nat desired - current_count) (data_capacity p) (queue p)
          else queue p in
        {| queue := q; data_capacity := data_capacity p; ewma_rate := rate;
           last_record := Some now; window_count := 0;
           min_size := min_size p; max_size := max_size p |}
      else
        {| queue := queue p; data_capacity := data_capacity p; ewma_rate := ewma_rate p;
           last_record := Some last; window_count := count;
           min_size := min_size p; max_size := max_size p |}
  | None =>
      {| queue := queue p; data_capacity := data_capacity p; ewma_rate := ewma_rate p;
         last_record := Some now; window_count := count;
         min_size := min_size p; max_size := max_size p |}
  end.

Definition available (p : UrbBufferPool) : nat := length (q_contents (queue p)).
Definition capacity (p : UrbBufferPool) : nat := q_capacity (queue p).

(** ** The life of a pool *)

(** A pool with the buffers its clients hold. *)
Record PoolWorld := { pw_pool : UrbBufferPool; pw_held : list PooledBuffer }.

(** [leaves] is what the holders may leave in a buffer they have by [DerefMut]. *)
Inductive pool_step (leaves : UrbBuffer -> Prop) : PoolWorld -> PoolWorld -> Prop :=
| step_acquire p held b p' :
    acquire p = (b, p') ->
    pool_step leaves {| pw_pool := p; pw_held := held |} {| pw_pool := p'; pw_held := held ++ [b] |}
| step_write p h1 b h2 data b' :
    pooled_write data b = Returns b' ->
    pool_step leaves {| pw_pool := p; pw_held := h1 ++ b :: h2 |} {| pw_pool := p; pw_held := h1 ++ b' :: h2 |}
| step_deref_mut p h1 b h2 left b' :
    leaves left -> pooled_deref_mut left b = Returns b' ->
    pool_step leaves {| pw_pool := p; pw_held := h1 ++ b :: h2 |} {| pw_pool := p; pw_held := h1 ++ b' :: h2 |}
| step_reset p h1 b h2 :
    pool_step leaves {| pw_pool := p; pw_held := h1 ++ b :: h2 |}
              {| pw_pool := p; pw_held := h1 ++ pooled_reset b :: h2 |}
| step_take p h1 b h2 buf b' :
    pooled_take b = Returns (buf, b') ->
    pool_step leaves {| pw_pool := p; pw_held := h1 ++ b :: h2 |}
              {| pw_pool := pooled_drop b' p; pw_held := h1 ++ h2 |}
| step_drop p h1 b h2 :
    pool_step leaves {| pw_pool := p; pw_held := h1 ++ b :: h2 |}
              {| pw_pool := pooled_drop b p; pw_held := h1 ++ h2 |}
| step_record p held now :
    pool_step leaves {| pw_pool := p; pw_held := held |} {| pw_pool := record_urb now p; pw_held := held |}.

(** A buffer of the pool: the size, offset and capacity every fresh buffer has. *)
Definition buffer_shape (cap : nat) (b : UrbBuffer) : Prop :=
  length (ub_buf b) = (56 + cap)%nat /\ ub_data_offset b = 56%nat /\ ub_data_capacity b = cap.

Definition zeroed (b : UrbBuffer) : Prop := ub_buf b = zeros (length (ub_buf b)).

(** A property of buffers that the pool's own operations keep. *)
Record kept_by_pool (cap : nat) (good : UrbBuffer -> Prop) : Prop := {
  kept_new : good (UrbBuffer_new cap);
  kept_reset : forall b, good b -> good (UrbBuffer_reset b);
  kept_write : forall b data, good b -> length data = length (ub_buf b) ->
    good {| ub_buf := data; ub_data_offset := ub_data_offset b; ub_data_capacity := ub_data_capacity b |}
}.

Definition held_ok (good : UrbBuffer -> Prop) (b : PooledBuffer) : Prop :=
  exists buf, pb_inner b = Some buf /\ pb_pool b = true /\ good buf.

Record pool_inv (good : UrbBuffer -> Prop) (cap size : nat) (w : PoolWorld) : Prop := {
  inv_cap : data_capacity (pw_pool w) = cap;
  inv_size : min_size (pw_pool w) = size;
  inv_max : max_size (pw_pool w) = Nat.max (size * 4) 4096;
  inv_queue : q_capacity (queue (pw_pool w)) = Nat.max (size * 4) 4096;
  inv_bound : (length (q_contents (queue (pw_pool w))) <= Nat.max (size * 4) 4096)%nat;
  inv_clean : Forall (fun b => zeroed b /\ good b) (q_contents (queue (pw_pool w)));
  inv_held : Forall (held_ok good) (pw_held w)
}.

(** ** Lemmas *)

Lemma push_buffers_spec stop n cap q :
  (length (q_contents q) + n <= q_capacity q)%nat ->
  q_contents (push_buffers stop n cap q) = q_contents q ++ replicate n (UrbBuffer_new cap)
  /\ q_capacity (push_buffers stop n cap q) = q_capacity q.
Proof.
  revert q. induction n as [|n IH]; intros q Hq; simpl; [by rewrite app_nil_r|].
  destruct (q_push_spec (UrbBuffer_new cap) q) as (q' & -> & Hc & Hcap); [lia|].
  destruct (IH q') as [-> ->]; [rewrite Hc, Hcap; len_solve|].
  rewrite Hc, Hcap, <- app_assoc. done.
Qed.

Lemma push_cases b q :
  (length (q_contents q) <= q_capacity q)%nat ->
  (q_push b q = None /\ length (q_contents q) = q_capacity q)
  \/ exists q', q_push b q = Some q' /\ q_contents q' = q_contents q ++ [b]
                /\ q_capacity q' = q_capacity q /\ (length (q_contents q') <= q_capacity q)%nat.
Proof.
  intros Hq. destruct (decide (length (q_contents q) = q_capacity q)) as [He|Hne].
  - left. split; [|done]. apply q_push_full. lia.
  - right. destruct (q_push_spec b q) as (q' & Hp & Hc & Hcap); [lia|].
    exists q'. split_and!; [done|done|done|]. rewrite Hc. len_solve.
Qed.

Lemma buffer_shape_new cap : buffer_shape cap (UrbBuffer_new cap).
Proof. repeat split. apply length_zeros. Qed.

Lemma fmap_zero_zeros (l : list byte) : (fun _ => x00) <$> l = zeros (length l).
Proof. induction l as [|b l IH]; [done|]. simpl. unfold zeros in *. simpl. by f_equal. Qed.

Lemma zeroed_reset b : zeroed (UrbBuffer_reset b).
Proof. unfold zeroed, UrbBuffer_reset. cbn [ub_buf]. by rewrite fmap_zero_zeros, length_zeros. Qed.

Lemma zeroed_new cap : zeroed (UrbBuffer_new cap).
Proof. unfold zeroed, UrbBuffer_new. cbn [ub_buf]. by rewrite length_zeros. Qed.

(** A zeroed buffer of the pool's shape is as good as new. *)
Lemma zeroed_shape cap b : zeroed b -> buffer_shape cap b -> b = UrbBuffer_new cap.
Proof. intros Hz (Hl & Ho & Hc). destruct b as [buf o c]. unfold zeroed in Hz. simpl in *. subst. by rewrite Hz, Hl. Qed.

Lemma reset_is_new cap b : buffer_shape cap b -> UrbBuffer_reset b = UrbBuffer_new cap.
Proof.
  intros (Hl & Ho & Hc). apply zeroed_shape; [apply zeroed_reset|]. repeat split; [|done|done]. simpl. by rewrite length_fmap.
Qed.

Lemma shape_kept cap : kept_by_pool cap (buffer_shape cap).
Proof.
  split; [apply buffer_shape_new| |].
  - intros b Hb. rewrite (reset_is_new cap b Hb). apply buffer_shape_new.
  - intros b data (Hl & Ho & Hc) Hd. repeat split; simpl; [lia|done|done].
Qed.

Lemma anything_kept cap : kept_by_pool cap (fun _ => True).
Proof. by split. Qed.

Section Kept.
Context (cap : nat) (good : UrbBuffer -> Prop) (kept : kept_by_pool cap good).

Lemma pool_new_inv size : pool_inv good cap size {| pw_pool := pool_new cap size; pw_held := [] |}.
Proof.
  unfold pool_new. destruct (q_new_spec (Nat.max (size * 4) 4096)) as [Hc Hcap]; [lia|].
  destruct (push_buffers_spec false size cap (q_new (Nat.max (size * 4) 4096))) as [Hp Hpc].
  { rewrite Hc, Hcap. simpl. lia. }
  split; simpl; try done; rewrite ?Hp, ?Hpc, ?Hc; try done.
  - len_solve.
  - apply Forall_replicate. split; [apply zeroed_new|apply kept].
Qed.

Lemma acquire_inv size p held b p' :
  pool_inv good cap size {| pw_pool := p; pw_held := held |} -> acquire p = (b, p') ->
  (exists buf, b = {| pb_inner := Some buf; pb_pool := true |} /\ zeroed buf /\ good buf)
  /\ pool_inv good cap size {| pw_pool := p'; pw_held := held |}
  /\ available p' = (available p - 1)%nat.
Proof.
  intros [Hcap Hsz Hmax Hq Hb Hcl Hh]; simpl in *. unfold acquire, available.
  destruct (q_contents (queue p)) as [|x l] eqn:E.
  - rewrite (q_pop_empty _ E). intros [= <- <-]. rewrite Hcap, E.
    split; [eexists; split; [done|]; split; [apply zeroed_new|apply kept]|]. split; [|done]. split; simpl; rewrite ?E; done.
  - destruct (q_pop_spec _ _ _ E) as (q' & -> & Hq' & Hqc). intros [= <- <-]. simpl.
    apply Forall_cons in Hcl as [Hx Hcl']. simpl in Hb. rewrite Hq'. split; [by eexists|].
    split; [|simpl; lia]. split; simpl; rewrite ?Hq', ?Hqc; try done. lia.
Qed.

Lemma drop_inv size p held b :
  pool_inv good cap size {| pw_pool := p; pw_held := held |} ->
  (forall buf, pb_inner b = Some buf -> good buf) ->
  pool_inv good cap size {| pw_pool := pooled_drop b p; pw_held := held |}.
Proof.
  intros [Hcap Hsz Hmax Hq Hb Hcl Hh] Hbuf; simpl in *. unfold pooled_drop.
  destruct (pb_inner b) as [buf|] eqn:Ei; [|by split]. destruct (pb_pool b); [|by split].
  destruct (push_cases (UrbBuffer_reset buf) (queue p)) as [[-> _]|(q' & -> & Hc & Hqc & Hl)];
    [by rewrite Hq|by split|].
  split; simpl; rewrite ?Hc, ?Hqc; try done.
  - rewrite <- Hc. lia.
  - apply Forall_app. split; [done|]. apply Forall_singleton. split; [apply zeroed_reset|]. by apply kept, Hbuf.
Qed.

Lemma record_inv size p held now :
  pool_inv good cap size {| pw_pool := p; pw_held := held |} ->
  pool_inv good cap size {| pw_pool := record_urb now p; pw_held := held |}.
Proof.
  intros [Hcap Hsz Hmax Hq Hb Hcl Hh]; simpl in *. unfold record_urb.
  destruct (last_record p); [|by split]. destruct (f64_le _ _); [|by split].
  case_bool; [|by split].
  set (desired := Z.min _ _) in *.
  destruct (push_buffers_spec true (Z.to_nat desired - length (q_contents (queue p))) (data_capacity p) (queue p))
    as [Hp Hpc]; [lia|].
  split; simpl; rewrite ?Hp, ?Hpc; try done.
  - rewrite length_app, length_replicate. lia.
  - apply Forall_app. split; [done|]. apply Forall_replicate. rewrite Hcap. split; [apply zeroed_new|apply kept].
Qed.

Lemma inv_set_held size p held held' :
  pool_inv good cap size {| pw_pool := p; pw_held := held |} -> Forall (held_ok good) held' ->
  pool_inv good cap size {| pw_pool := p; pw_held := held' |}.
Proof. intros [] ?. by split. Qed.

Lemma held_drop {A} (P : A -> Prop) h1 b h2 : Forall P (h1 ++ b :: h2) -> P b /\ Forall P (h1 ++ h2).
Proof. rewrite !Forall_app, Forall_cons. tauto. Qed.

Lemma held_replace {A} (P : A -> Prop) h1 b h2 : Forall P (h1 ++ h2) -> P b -> Forall P (h1 ++ b :: h2).
Proof. rewrite !Forall_app, Forall_cons. tauto. Qed.

Lemma pool_step_inv size w w' : pool_inv good cap size w -> pool_step good w w' -> pool_inv good cap size w'.
Proof.
  intros Hw Hs. pose proof (inv_held _ _ _ _ Hw) as Hh.
  destruct Hs as [p held b p' Ha|p h1 b h2 data b' Hwr|p h1 b h2 left b' Hleft Hwr|p h1 b h2|p h1 b h2 buf b' Ht|p h1 b h2|p held now];
    simpl in Hh.
  - destruct (acquire_inv _ _ _ _ _ Hw Ha) as ((buf & -> & _ & Hg) & Hp & _).
    apply (inv_set_held _ _ held); [done|]. apply Forall_app. split; [done|]. apply Forall_singleton. by exists buf.
  - apply (inv_set_held _ _ _ _ Hw). apply held_drop in Hh as [(buf & Hi & Hp & Hg) Hh].
    unfold pooled_write in Hwr. rewrite Hi in Hwr. destruct (Nat.eqb_spec (length data) (length (ub_buf buf))); [|done].
    injection Hwr as <-. apply held_replace; [done|]. eexists. split; [done|]. split; [done|]. by apply kept.
  - apply (inv_set_held _ _ _ _ Hw). apply held_drop in Hh as [(buf & Hi & Hp & Hg) Hh].
    unfold pooled_deref_mut in Hwr. rewrite Hi in Hwr. injection Hwr as <-. apply held_replace; [done|]. by exists left.
  - apply (inv_set_held _ _ _ _ Hw). apply held_drop in Hh as [(buf & Hi & Hp & Hg) Hh].
    apply held_replace; [done|]. unfold pooled_reset. rewrite Hi. eexists. split; [done|]. split; [done|]. by apply kept.
  - apply held_drop in Hh as [_ Hh]. apply (inv_set_held _ _ _ (h1 ++ h2)) in Hw; [|done].
    unfold pooled_take in Ht. destruct (pb_inner b); [|done]. injection Ht as <- <-. by apply drop_inv.
  - apply held_drop in Hh as [(buf & Hi & _ & Hg) Hh]. apply (inv_set_held _ _ _ (h1 ++ h2)) in Hw; [|done].
    apply drop_inv; [done|]. intros ? ?. congruence.
  - by apply record_inv.
Qed.

Lemma pool_reachable_inv size w :
  rtc (pool_step good) {| pw_pool := pool_new cap size; pw_held := [] |} w -> pool_inv good cap size w.
Proof.
  revert w. apply rtc_ind_r; [apply pool_new_inv|]. intros x y _ Hs Hi. by eapply pool_step_inv.
Qed.
End Kept.

(** ** Theorems *)

(** C35: A pool never hands out a dirty buffer and never outgrows its queue. Whatever
    its clients do with the buffers they hold, even when they put others in their
    place, the next buffer acquired holds nothing but zeros and the pool keeps at
    most its capacity of buffers; and as long as those who reach into a buffer leave
    it with the pool's size, offset and capacity, the next buffer acquired is the
    same as a new one. *)
Theorem pool_buffers_clean cap size :
  (forall w b p', rtc (pool_step (fun _ => True)) {| pw_pool := pool_new cap size; pw_held := [] |} w ->
     acquire (pw_pool w) = (b, p') ->
     (exists buf, pb_inner b = Some buf /\ ub_buf buf = zeros (length (ub_buf buf)))
     /\ (available (pw_pool w) <= capacity (pw_pool w))%nat /\ capacity (pw_pool w) = Nat.max (size * 4) 4096)
  /\ (forall w b p', rtc (pool_step (buffer_shape cap)) {| pw_pool := pool_new cap size; pw_held := [] |} w ->
     acquire (pw_pool w) = (b, p') -> pb_inner b = Some (UrbBuffer_new cap)).
Proof.
  split; intros [p held] b p' Hr Ha.
  - apply (pool_reachable_inv cap _ (anything_kept cap)) in Hr.
    destruct (acquire_inv cap _ (anything_kept cap) _ _ _ _ _ Hr Ha) as ((buf & -> & Hz & _) & _). destruct Hr as [_ _ _ Hq Hb _ _].
    split; [by exists buf|]. unfold available, capacity. simpl in *. by rewrite Hq.
  - apply (pool_reachable_inv cap _ (shape_kept cap)) in Hr.
    destruct (acquire_inv cap _ (shape_kept cap) _ _ _ _ _ Hr Ha) as ((buf & -> & Hz & Hg) & _). simpl. f_equal. by apply zeroed_shape.
Qed.

(** A pool that is left alone is filled and refilled: a new pool holds
    exactly its minimum number of buffers; a buffer acquired and dropped leaves
    the pool as full as it was; and after a rate measurement the pool holds at
    least its minimum (or as many as before, when that is more). *)
Theorem pool_refill cap size :
  available (pool_new cap size) = size
  /\ (forall w b p', rtc (pool_step (fun _ => True)) {| pw_pool := pool_new cap size; pw_held := [] |} w ->
        acquire (pw_pool w) = (b, p') -> (0 < available (pw_pool w))%nat ->
        available (pooled_drop b p') = available (pw_pool w))
  /\ (forall w now last, rtc (pool_step (fun _ => True)) {| pw_pool := pool_new cap size; pw_held := [] |} w ->
        last_record (pw_pool w) = Some last ->
        f64_le (f64_of_Z 1) (as_secs_f64 (Z.max 0 (now - last))) = true ->
        (Nat.max size (available (pw_pool w)) <= available (record_urb now (pw_pool w)))%nat).
Proof.
  split_and!.
  - unfold available, pool_new. simpl. destruct (q_new_spec (Nat.max (size * 4) 4096)) as [Hc Hcap]; [lia|].
    destruct (push_buffers_spec false size cap (q_new (Nat.max (size * 4) 4096))) as [-> _].
    { rewrite Hc, Hcap. simpl. lia. }
    rewrite Hc. len_solve.
  - intros [p held] b p' Hr Ha Hpos. apply (pool_reachable_inv cap _ (anything_kept cap)) in Hr. simpl in *.
    destruct (acquire_inv cap _ (anything_kept cap) _ _ _ _ _ Hr Ha) as ((buf & -> & _) & Hp' & Hav). unfold pooled_drop. simpl.
    destruct Hr as [_ _ _ Hq Hb _ _], Hp' as [_ _ _ Hq' Hb' _ _]. simpl in *. unfold available in *.
    destruct (push_cases (UrbBuffer_reset buf) (queue p'))
      as [[-> Hfull]|(q' & -> & Hc & _)]; [lia|lia|]. simpl. rewrite Hc. len_solve.
  - intros [p held] now last Hr Hl He. apply (pool_reachable_inv cap _ (anything_kept cap)) in Hr.
    destruct Hr as [Hcap Hsz Hmax Hq Hb _ _]. simpl in *. unfold available, record_urb. rewrite Hl, He.
    set (desired := Z.min _ _). simpl. assert (Z.of_nat size <= desired) by lia.
    case_bool; [|lia].
    destruct (push_buffers_spec true (Z.to_nat desired - length (q_contents (queue p))) (data_capacity p) (queue p))
      as [-> _]; [lia|]. rewrite length_app, length_replicate. lia.
Qed.
End Pool.

Section Pool_examples.
Let Q := (nat * list UrbBuffer)%type.

(** A client writes to a buffer of a small pool and drops it. *)
Definition sample_pool : UrbBufferPool (Q := Q) := pool_new 4 2.
Definition dirty_buffer : PooledBuffer :=
  {| pb_inner := Some {| ub_buf := replicate 60 xff; ub_data_offset := 56; ub_data_capacity := 4 |};
     pb_pool := true |}.

Lemma pool_buffers_clean_witness :
  exists p', acquire (pooled_drop dirty_buffer (snd (acquire (snd (acquire sample_pool)))))
             = ({| pb_inner := Some (UrbBuffer_new 4); pb_pool := true |}, p').
Proof.
  set (b0 := {| pb_inner := Some (UrbBuffer_new 4); pb_pool := true |}).
  set (p2 := snd (acquire (snd (acquire sample_pool)))).
  assert (Hr : rtc (pool_step (Q := Q) (buffer_shape 4)) {| pw_pool := pool_new 4 2; pw_held := [] |}
                 {| pw_pool := pooled_drop dirty_buffer p2; pw_held := [b0] |}).
  { eapply rtc_l; [by apply (step_acquire _ _ [] b0)|].
    eapply rtc_l; [by apply (step_acquire _ _ [b0] b0)|].
    eapply rtc_l; [by apply (step_write _ _ [b0] b0 [] (replicate 60 xff) dirty_buffer)|].
    eapply rtc_l; [by apply (step_drop _ _ [b0] dirty_buffer [])|]. apply rtc_refl. }
  destruct (acquire (pooled_drop dirty_buffer p2)) as [[i k] p'] eqn:E. exists p'.
  pose proof (proj2 (pool_buffers_clean 4 2) _ _ _ Hr E) as H. simpl in H. rewrite H.
  vm_compute in E. injection E as _ <- _. reflexivity.
Defined.

(** A client that cuts the bytes of a buffer off and drops it passes the short buffer
    on: the next holder has a capacity of 4 and no byte to write to. *)
Definition cut_buffer : UrbBuffer := {| ub_buf := []; ub_data_offset := 56; ub_data_capacity := 4 |}.

Lemma pool_shape_not_restored :
  exists b p', acquire (pooled_drop {| pb_inner := Some cut_buffer; pb_pool := true |} (snd (acquire (snd (acquire sample_pool)))))
               = (b, p')
  /\ pooled_deref_mut cut_buffer {| pb_inner := Some (UrbBuffer_new 4); pb_pool := true |}
     = Returns {| pb_inner := Some cut_buffer; pb_pool := true |}
  /\ pooled_data_capacity b = Returns 4%nat /\ pooled_as_slice b = Returns [].
Proof. eexists _, _. split; [vm_compute; reflexivity|]. split_and!; reflexivity. Qed.

Lemma pool_refill_witness :
  available sample_pool = 2%nat
  /\ available (pooled_drop (fst (acquire sample_pool)) (snd (acquire sample_pool))) = 2%nat
  /\ (2 <= available (record_urb 2000000000 (record_urb 0 sample_pool)))%nat.
Proof.
  destruct (pool_refill (Q := Q) 4 2) as (H1 & H2 & H3). split; [exact H1|]. split.
  - destruct (acquire sample_pool) as [b p'] eqn:E.
    etransitivity; [|exact H1].
    refine (H2 {| pw_pool := sample_pool; pw_held := [] |} b p' (rtc_refl _ _) E _).
    apply (Nat.lt_le_trans _ 1); [lia|]. cbn [pw_pool]. unfold sample_pool. rewrite H1. lia.
  - refine (Nat.le_trans _ _ _ _ (H3 {| pw_pool := record_urb 0 sample_pool; pw_held := [] |} 2000000000 0 _ eq_refl eq_refl)); [lia|].
    apply rtc_once, (step_record (fun _ => True)).
Defined.
End Pool_examples.
