(* ===== verification/Crypto.v ===== *)
(** * Encryption (shared/usbip-core/src/crypto.rs)

    The ring crate is the interface [Ring]: X25519 agreement, HKDF-SHA256 and
    AES-256-GCM, with the documented behaviour the code relies on as its laws.
    What the random number generator delivers is an argument ([None]: it
    failed).  Everything the file itself does, the wire format, the checks, the
    error mapping and the hexadecimal encoding, is defined here. *)

From Stdlib Require Import Ascii.
From S2P Require Import Prelude RustStd.

Inductive CryptoError :=
| KeyGeneration | KeyAgreement | KeyDerivation | EncryptionError | DecryptionError | InvalidNonce.

#[export] Instance CryptoError_eq_dec : EqDecision CryptoError.
Proof. solve_decision. Defined.

Definition crypto_error_to_string (e : CryptoError) : string :=
  match e with
  | KeyGeneration => "key generation failed"
  | KeyAgreement => "key agreement failed"
  | KeyDerivation => "key derivation failed"
  | EncryptionError => "encryption failed"
  | DecryptionError => "decryption failed"
  | InvalidNonce => "invalid nonce"
  end.

Abbreviation CryptoResult := (result CryptoError).

Definition ok_or {E A} (e : E) (o : option A) : result E A :=
  match o with Some a => Ok a | None => Err e end.

Definition ENCRYPTION_OVERHEAD : Z := 20.

(** ** The ring crate *)

Class Ring : Type := {
  Key : Type;                                            (* LessSafeKey *)
  PrivateKey : Type;                                     (* EphemeralPrivateKey *)
  key_new : list byte -> option Key;                     (* UnboundKey::new, LessSafeKey::new *)
  seal_in_place : Key -> list byte -> list byte -> option (list byte);
  open_in_place : Key -> list byte -> list byte -> option nat * list byte;
  public_key : PrivateKey -> option (list byte);
  agree_ephemeral : PrivateKey -> list byte -> option (list byte);
  hkdf : list byte -> list byte -> list byte -> nat -> option (list byte);
  (* a key of AES-256 has 32 bytes *)
  key_new_spec : forall bs, is_Some (key_new bs) <-> length bs = 32%nat;
  (* sealing appends a tag of 16 bytes *)
  seal_length : forall k n p c, seal_in_place k n p = Some c -> length c = (length p + 16)%nat;
  (* opening works in place and gives the length of the plaintext *)
  open_length : forall k n c m b, open_in_place k n c = (m, b) ->
    length b = length c /\ (forall l, m = Some l -> (l + 16)%nat = length c);
  (* opening undoes sealing, and accepts nothing that was not sealed *)
  open_seal : forall k n p c, seal_in_place k n p = Some c ->
    exists b, open_in_place k n c = (Some (length p), b) /\ take (length p) b = p;
  seal_open : forall k n c l b, open_in_place k n c = (Some l, b) ->
    seal_in_place k n (take l b) = Some c;
  (* Diffie-Hellman *)
  agree_comm : forall a b pa pb, public_key a = Some pa -> public_key b = Some pb ->
    agree_ephemeral a pb = agree_ephemeral b pa;
  hkdf_length : forall s m i n k, hkdf s m i n = Some k -> length k = n
}.

(** ** Hexadecimal *)

Definition hex_encode (bytes : list byte) : string :=
  String.concat "" (map (fun b => hex_pad 2 (u8 b)) bytes).

(** A byte inside a multi-byte character: the position before it is no
    character boundary. *)
Definition is_continuation (s : string) : bool :=
  match s with
  | EmptyString => false
  | String a _ => (0x80 <=? Z.of_N (N_of_ascii a)) && (Z.of_N (N_of_ascii a) <=? 0xBF)
  end.

Fixpoint hex_decode_pairs (s : string) : outcome (option (list byte)) :=
  match s with
  | String a (String b rest) =>
      if is_continuation s || is_continuation rest then Panics
      else match from_str_radix 16 255 (String a (String b EmptyString)) with
           | None => Returns None
           | Some v =>
               let! r := hex_decode_pairs rest in
               Returns ((fun l => to_u8 v :: l) <$> r)
           end
  | _ => Returns (Some [])
  end.

(** [hex_decode]: slicing a string elsewhere than at a character boundary panics. *)
Definition hex_decode (s : string) : outcome (option (list byte)) :=
  if (String.length s mod 2 =? 0)%nat then hex_decode_pairs s else Returns None.

(** *** Decoding undoes encoding *)

Lemma hex_byte b :
  exists c1 c2, hex_pad 2 (u8 b) = String c1 (String c2 EmptyString)
    /\ from_str_radix 16 255 (String c1 (String c2 EmptyString)) = Some (u8 b)
    /\ (forall s, is_continuation (String c1 s) = false).
Proof.
  exists (hex_digit (u8 b / 16)), (hex_digit (u8 b mod 16)).
  destruct b; (split; [vm_compute; reflexivity|]); (split; [vm_compute; reflexivity|]);
    intros s; vm_compute; reflexivity.
Qed.

Lemma hex_encode_cons b l : hex_encode (b :: l) = hex_pad 2 (u8 b) +:+ hex_encode l.
Proof.
  unfold hex_encode. destruct l; [|done]. cbn [map String.concat].
  destruct (hex_byte b) as (c1 & c2 & -> & _). done.
Qed.

Lemma hex_encode_head l : is_continuation (hex_encode l) = false.
Proof.
  destruct l as [|b l]; [done|]. rewrite hex_encode_cons.
  destruct (hex_byte b) as (c1 & c2 & -> & _ & Hc). apply Hc.
Qed.

Lemma hex_decode_encode l : hex_decode (hex_encode l) = Returns (Some l).
Proof.
  assert (String.length (hex_encode l) = 2 * length l)%nat as Hlen.
  { induction l as [|b l IH]; [done|]. rewrite hex_encode_cons.
    destruct (hex_byte b) as (c1 & c2 & -> & _).
    change (String c1 (String c2 "") +:+ hex_encode l) with (String c1 (String c2 (hex_encode l))).
    cbn [String.length length]. rewrite IH. lia. }
  unfold hex_decode. rewrite Hlen, (Nat.mul_comm 2), Nat.Div0.mod_mul. simpl. clear Hlen.
  induction l as [|b l IH]; [done|]. rewrite hex_encode_cons.
  destruct (hex_byte b) as (c1 & c2 & -> & Hr & Hc).
  change (String c1 (String c2 "") +:+ hex_encode l) with (String c1 (String c2 (hex_encode l))).
  cbn [hex_decode_pairs]. rewrite Hc, hex_encode_head, Hr, IH. simpl. by rewrite to_u8_u8.
Qed.

(** What is not hexadecimal text: a sign is accepted, and a string whose
    character boundaries are elsewhere panics. *)
Lemma hex_decode_oddities :
  hex_decode "+f" = Returns (Some [x0f])
  /\ hex_decode (of_bytes [x61; xc3; xa9; x61]) = Panics.
Proof. split; vm_compute; reflexivity. Qed.

Section Crypto.
Context `{!Ring}.

(** ** Keys *)

(** [generate_key_pair], given what [EphemeralPrivateKey::generate] returned. *)
Definition generate_key_pair (generated : option PrivateKey) : CryptoResult (list byte * PrivateKey) :=
  let? private_key := ok_or KeyGeneration generated in
  let? pub := ok_or KeyGeneration (public_key private_key) in
  Ok (pub, private_key).

Definition generate_key_pair_hex (generated : option PrivateKey) : CryptoResult (string * PrivateKey) :=
  let? (pub_bytes, priv_key) := generate_key_pair generated in
  Ok (hex_encode pub_bytes, priv_key).

Definition agree (private_key : PrivateKey) (peer_public_key_bytes : list byte)
    : CryptoResult (list byte) :=
  ok_or KeyAgreement (agree_ephemeral private_key peer_public_key_bytes).

Definition SALT : list byte := as_bytes "USBIP-PASSTHROUGH-V1".
Definition INFO : list byte := as_bytes "usbip-session-key".

Definition derive_session_key_to_bytes (shared_secret : list byte) : CryptoResult (list byte) :=
  ok_or KeyDerivation (hkdf SALT shared_secret INFO 32).

Definition derive_session_key (shared_secret : list byte) : CryptoResult Key :=
  let? key_bytes := ok_or KeyDerivation (hkdf SALT shared_secret INFO 32) in
  ok_or KeyDerivation (key_new key_bytes).

(** [derive_session_key_hex] may panic in [hex_decode]. *)
Definition derive_session_key_hex (private_key : PrivateKey) (peer_public_key_hex : string)
    : outcome (CryptoResult (list byte)) :=
  let! decoded := hex_decode peer_public_key_hex in
  Returns (let? pub_bytes := ok_or KeyDerivation decoded in
           let? shared_secret := agree private_key pub_bytes in
           derive_session_key_to_bytes shared_secret).

(** ** Encryption *)

Definition encrypt_with_nonce (k : Key) (plaintext nonce_bytes : list byte) : CryptoResult (list byte) :=
  let? buf := ok_or EncryptionError (seal_in_place k nonce_bytes plaintext) in
  Ok (be_bytes 4 12 ++ nonce_bytes ++ buf).

(** [encrypt] and [encrypt_message], given the nonce the generator filled. *)
Definition encrypt (k : Key) (filled : option (list byte)) (plaintext : list byte)
    : CryptoResult (list byte) :=
  let? nonce_bytes := ok_or EncryptionError filled in
  encrypt_with_nonce k plaintext nonce_bytes.

Definition encrypt_message (k : Key) (filled : option (list byte)) (plaintext : list byte)
    : CryptoResult (list byte) :=
  let? nonce_bytes := ok_or EncryptionError filled in
  encrypt_with_nonce k plaintext nonce_bytes.

Definition encrypt_with_key_bytes (key_bytes : list byte) (filled : option (list byte))
    (plaintext : list byte) : CryptoResult (list byte) :=
  let? k := ok_or EncryptionError (key_new key_bytes) in
  encrypt k filled plaintext.

Definition decrypt (k : Key) (wire_data : list byte) : CryptoResult (list byte) :=
  if (length wire_data <? 4 + 12 + 16)%nat then Err DecryptionError
  else
    let nonce_len := be_val (take 4 wire_data) in
    if negb (nonce_len =? 12) || (length wire_data <? 4 + 12 + 16)%nat then Err InvalidNonce
    else
      let nonce := take 12 (drop 4 wire_data) in
      match open_in_place k nonce (drop 16 wire_data) with
      | (Some len, buf) => Ok (take len buf)
      | (None, _) => Err DecryptionError
      end.

(** [decrypt_in_place]: the result and the buffer afterwards. *)
Definition decrypt_in_place (k : Key) (buf : list byte) : CryptoResult (list byte) * list byte :=
  if (length buf <? 4 + 12 + 16)%nat then (Err DecryptionError, buf)
  else
    let nonce_len := be_val (take 4 buf) in
    if negb (nonce_len =? 12) then (Err InvalidNonce, buf)
    else
      let nonce := take 12 (drop 4 buf) in
      match open_in_place k nonce (drop 16 buf) with
      | (Some plaintext_len, slice) =>
          let buf := take (16 + plaintext_len) (take 16 buf ++ slice) in
          (Ok (drop 16 buf), buf)
      | (None, slice) => (Err DecryptionError, take 16 buf ++ slice)
      end.

Definition decrypt_with_key_bytes (key_bytes wire_data : list byte) : CryptoResult (list byte) :=
  let? k := ok_or DecryptionError (key_new key_bytes) in
  decrypt k wire_data.

(** ** Lemmas *)

Lemma decrypt_wire k nonce c :
  length nonce = 12%nat -> (16 <= length c)%nat ->
  decrypt k (be_bytes 4 12 ++ nonce ++ c)
  = match open_in_place k nonce c with
    | (Some len, buf) => Ok (take len buf)
    | (None, _) => Err DecryptionError
    end.
Proof.
  intros Hn Hc. unfold decrypt.
  replace (length _ <? 4 + 12 + 16)%nat with false by (symmetry; apply Nat.ltb_ge; len_solve).
  rewrite take_app_length' by (symmetry; apply length_be_bytes). rewrite be_val_be_bytes by lia. simpl orb.
  rewrite drop_app_length' by (symmetry; apply length_be_bytes).
  rewrite take_app_length' by done.
  replace (drop 16 _) with c; [done|].
  rewrite app_assoc, drop_app_length'; [done|]. rewrite length_app, length_be_bytes. lia.
Qed.

(** Every accepted wire message is an encryption. *)
Lemma decrypt_Ok k w p :
  decrypt k w = Ok p ->
  exists nonce, length nonce = 12%nat /\ encrypt_with_nonce k p nonce = Ok w.
Proof.
  unfold decrypt. destruct (Nat.ltb_spec (length w) (4 + 12 + 16)) as [|Hl]; [done|].
  rewrite orb_false_r. destruct (Z.eqb_spec (be_val (take 4 w)) 12) as [Hn|]; [simpl|done].
  destruct (open_in_place _ _ _) as [[len|] buf] eqn:E; [|done]. intros [= <-].
  exists (take 12 (drop 4 w)). split; [len_solve|].
  unfold encrypt_with_nonce. rewrite (seal_open _ _ _ _ _ E). simpl. f_equal.
  rewrite <- Hn, be_bytes_be_val by (len_solve).
  rewrite <- (take_drop 4 w) at 4. f_equal.
  rewrite <- (take_drop 12 (drop 4 w)) at 2. by rewrite drop_drop.
Qed.

Lemma decrypt_encrypt k p nonce w :
  length nonce = 12%nat -> encrypt_with_nonce k p nonce = Ok w -> decrypt k w = Ok p.
Proof.
  unfold encrypt_with_nonce. intros Hn. destruct (seal_in_place k nonce p) as [c|] eqn:E; [|done].
  intros [= <-]. destruct (open_seal _ _ _ _ E) as (b & Ho & Hb).
  rewrite decrypt_wire; [|done|rewrite (seal_length _ _ _ _ E); lia]. by rewrite Ho, Hb.
Qed.

Lemma encrypt_wire_length k p nonce w :
  length nonce = 12%nat -> encrypt_with_nonce k p nonce = Ok w -> length w = (length p + 32)%nat.
Proof.
  unfold encrypt_with_nonce. intros Hn. destruct (seal_in_place k nonce p) as [c|] eqn:E; [|done].
  intros [= <-]. apply seal_length in E. len_solve.
Qed.

Lemma decrypt_in_place_spec k buf :
  fst (decrypt_in_place k buf) = decrypt k buf
  /\ (forall p, decrypt k buf = Ok p ->
        snd (decrypt_in_place k buf) = take 16 buf ++ p /\ (length p + 32)%nat = length buf).
Proof.
  unfold decrypt_in_place, decrypt. destruct (Nat.ltb_spec (length buf) (4 + 12 + 16)) as [|Hl]; [done|].
  rewrite orb_false_r. destruct (negb _); [done|].
  destruct (open_in_place _ _ _) as [[len|] b] eqn:E; [|done]. cbn [fst snd].
  apply open_length in E as [Hb Hm]. specialize (Hm len eq_refl).
  assert (Ht : take (16 + len) (take 16 buf ++ b) = take 16 buf ++ take len b).
  { rewrite take_app_ge by len_solve. do 2 f_equal. rewrite length_take. lia. }
  rewrite Ht. split.
  - rewrite drop_app_ge by len_solve. rewrite length_take.
    replace (16 - 16 `min` length buf)%nat with O by lia. done.
  - intros p [= <-]. split; [done|]. len_solve.
Qed.

(** ** Theorems *)

(** C25: decryption accepts exactly what encryption produces: a message decrypts
    to [p] if and only if it is the encryption of [p] under the same key with
    some 12-byte nonce. In particular every message decrypts to what was
    encrypted, at a cost of exactly 32 bytes on the wire. *)
Theorem decrypt_exact k w p :
  decrypt k w = Ok p <->
  exists nonce, length nonce = 12%nat /\ encrypt_with_nonce k p nonce = Ok w
                /\ length w = (length p + 32)%nat.
Proof.
  split.
  - intros (nonce & Hn & He)%decrypt_Ok. exists nonce. eauto using encrypt_wire_length.
  - intros (nonce & Hn & He & _). by eapply decrypt_encrypt.
Qed.

(** Decrypting in place is the same function: it returns what [decrypt]
    returns, errors included, and on success leaves the buffer at the 16 bytes
    of its prefix followed by the plaintext it returned, without the tag. *)
Theorem decrypt_in_place_agrees k buf :
  fst (decrypt_in_place k buf) = decrypt k buf
  /\ (forall p, decrypt k buf = Ok p ->
        snd (decrypt_in_place k buf) = take 16 buf ++ p /\ (length p + 32)%nat = length buf).
Proof. apply decrypt_in_place_spec. Qed.

(** The key exchange works over the hexadecimal bridge: two sides that
    exchange the public keys of their pairs, as raw bytes or as hexadecimal
    text, derive the same session key (or both fail), and what one encrypts
    under it the other decrypts. *)
Theorem key_exchange_agrees a b pa pb :
  generate_key_pair (Some a) = Ok (pa, a) -> generate_key_pair (Some b) = Ok (pb, b) ->
  derive_session_key_hex a (hex_encode pb) = derive_session_key_hex b (hex_encode pa)
  /\ forall key_bytes nonce p w,
       derive_session_key_hex a (hex_encode pb) = Returns (Ok key_bytes) -> length nonce = 12%nat ->
       encrypt_with_key_bytes key_bytes (Some nonce) p = Ok w ->
       decrypt_with_key_bytes key_bytes w = Ok p.
Proof.
  unfold generate_key_pair. simpl.
  destruct (public_key a) as [pa'|] eqn:Ea; [|done]. intros [= ->].
  destruct (public_key b) as [pb'|] eqn:Eb; [|done]. intros [= ->].
  unfold derive_session_key_hex. rewrite !hex_decode_encode. simpl. split.
  - unfold agree. by rewrite (agree_comm a b pa pb).
  - intros kb nonce p w _ Hn. unfold encrypt_with_key_bytes, decrypt_with_key_bytes.
    destruct (key_new kb) as [k|]; [|done]. simpl. unfold encrypt. simpl. by apply decrypt_encrypt.
Qed.
End Crypto.

(** ** A toy instance of the interface *)

(** It keeps the laws of [Ring] and protects nothing: the tag is the first 16
    bytes of the key, the shared secret is the sum of two numbers. *)
Definition toy_open (k n c : list byte) : option nat * list byte :=
  if (length c <? 16)%nat then (None, c)
  else if decide (drop (length c - 16) c = take 16 k) then (Some (length c - 16)%nat, c)
  else (None, c).

Definition toy_key (bs : list byte) : option {k : list byte | length k = 32%nat} :=
  match decide (length bs = 32%nat) with left H => Some (exist _ bs H) | right _ => None end.

Lemma toy_open_length k n c m b : toy_open k n c = (m, b) ->
  length b = length c /\ (forall l, m = Some l -> (l + 16)%nat = length c).
Proof.
  unfold toy_open. case_bool; [by intros [= <- <-]|].
  case_decide; intros [= <- <-]; split; try done; intros l [= <-]; lia.
Qed.

#[export] Instance toy_ring : Ring.
Proof.
  refine {| Key := {k : list byte | length k = 32%nat}; PrivateKey := Z; key_new := toy_key;
            seal_in_place k n p := Some (p ++ take 16 (`k));
            open_in_place k n c := toy_open (`k) n c;
            public_key a := Some (be_bytes 32 (wrap 256 a));
            agree_ephemeral a pb := Some (be_bytes 32 (wrap 256 (a + be_val pb)));
            hkdf s m i n := Some (take n (m ++ zeros n)) |}.
  - intros bs. unfold toy_key. destruct (decide _); split; try done.
  - intros [k Hk] n p c [= <-]. simpl. len_solve.
  - intros. by eapply toy_open_length.
  - intros [k Hk] n p c [= <-]. simpl. unfold toy_open.
    destruct (Nat.ltb_spec (length (p ++ take 16 k)) 16); [len_solve|].
    replace (length (p ++ take 16 k) - 16)%nat with (length p) by len_solve.
    rewrite drop_app_length, decide_True by done. eexists. split; [done|]. by rewrite take_app_length.
  - intros [k Hk] n c l b. simpl. unfold toy_open. case_bool; [done|].
    case_decide as Hd; [|done]. intros [= <- <-]. rewrite <- Hd. by rewrite take_drop.
  - intros a b pa pb [= <-] [= <-]. simpl. do 2 f_equal. rewrite !be_val_be_bytes by (apply wrap_range; lia).
    unfold wrap. rewrite !Zplus_mod_idemp_r. f_equal. lia.
  - intros s m i n k [= <-]. len_solve.
Defined.

Lemma key_exchange_agrees_witness :
  exists key_bytes w,
    derive_session_key_hex (H := toy_ring) 5 (hex_encode (be_bytes 32 7)) = Returns (Ok key_bytes)
    /\ derive_session_key_hex (H := toy_ring) 7 (hex_encode (be_bytes 32 5)) = Returns (Ok key_bytes)
    /\ encrypt_with_key_bytes key_bytes (Some (zeros 12)) [x61] = Ok w
    /\ decrypt_with_key_bytes key_bytes w = Ok [x61].
Proof.
  destruct (key_exchange_agrees (H := toy_ring) 5 7 (be_bytes 32 5) (be_bytes 32 7))
    as [Heq Hdec]; [reflexivity|reflexivity|].
  destruct (derive_session_key_hex (H := toy_ring) 5 (hex_encode (be_bytes 32 7))) as [[kb|e]| |] eqn:E;
    [|vm_compute in E; discriminate E|vm_compute in E; discriminate E|vm_compute in E; discriminate E].
  destruct (encrypt_with_key_bytes kb (Some (zeros 12)) [x61]) as [w|e] eqn:Ew.
  - exists kb, w. repeat split; [exact (eq_sym Heq)|exact Ew|].
    exact (Hdec kb (zeros 12) [x61] w eq_refl eq_refl Ew).
  - exfalso. vm_compute in E. injection E as <-. vm_compute in Ew. discriminate Ew.
Defined.

Definition sample_key : Key (Ring := toy_ring) := exist _ (zeros 32) (length_zeros 32).

Lemma decrypt_exact_witness :
  exists w, encrypt_with_nonce sample_key [x61; x62] (zeros 12) = Ok w
            /\ length w = 34%nat /\ decrypt sample_key w = Ok [x61; x62].
Proof.
  exists (be_bytes 4 12 ++ zeros 12 ++ [x61; x62] ++ zeros 16). split; [reflexivity|].
  split; [reflexivity|].
  apply (decrypt_exact (H := toy_ring) sample_key). exists (zeros 12). repeat split.
Defined.

Lemma decrypt_in_place_agrees_witness :
  fst (decrypt_in_place sample_key (be_bytes 4 12 ++ zeros 12 ++ [x61; x62] ++ zeros 16)) = Ok [x61; x62]
  /\ snd (decrypt_in_place sample_key (be_bytes 4 12 ++ zeros 12 ++ [x61; x62] ++ zeros 16))
     = be_bytes 4 12 ++ zeros 12 ++ [x61; x62].
Proof.
  destruct (decrypt_in_place_agrees (H := toy_ring) sample_key
              (be_bytes 4 12 ++ zeros 12 ++ [x61; x62] ++ zeros 16)) as [-> Hp].
  split; [vm_compute; reflexivity|].
  rewrite (proj1 (Hp [x61; x62] ltac:(vm_compute; reflexivity))). vm_compute. reflexivity.
Defined.
