(* ===== verification/CryptoStream.v ===== *)
(** * The encrypted tunnel (server/usbip-server/src/crypto_stream.rs)

    [CryptoStream], the X25519 + AES-256-GCM tunnel over a TCP stream with its
    length-prefixed ciphertext framing, and [Wire], the stream of messages that
    is either plain USB/IP framing or such a tunnel.  The key pair the generator
    delivers is an argument; the nonces it will deliver are the field [tun_rng],
    the [i]-th entry for the [i]-th message from now on. *)

From S2P Require Import Prelude RustStd Errors Proto Urb Stream Wire Crypto.

(** [MAX_MESSAGE_SIZE + 20 + 4]. *)
Definition ENCRYPTED_MAX : Z := MAX_MESSAGE_SIZE + 20 + 4.

(** [map_err(|e| UsbIpError::from(ErrorKind::Encryption(e.to_string())))]. *)
Definition encryption_error {A} (r : CryptoResult A) : UsbIpResult A :=
  map_err (fun e => Encryption (crypto_error_to_string e)) r.

Definition io_result {S A} (r : UsbIpResult A) : io S A := fun s => (r, s).

Section CryptoStream.
Context `{!Ring}.

Record CryptoStream := {
  tun_stream : Stream;
  tun_key : Key;
  tun_peer : string;
  tun_rng : nat -> option (list byte)
}.

(** What both sides send in the key exchange. *)
Definition pubkey_bytes (pub : list byte) : list byte := be_bytes 4 32 ++ pub.

(** The key exchange of [server_side] on the stream. *)
Definition server_handshake (generated : option PrivateKey) : io Stream Key :=
  kp <-- io_result (encryption_error (generate_key_pair generated));;
  let '(server_pub, server_priv) := kp in
  write_all (pubkey_bytes server_pub) ;;; flush ;;;
  len_buf <-- read_exact 4;;
  let client_pub_len := be_val len_buf in
  if negb (client_pub_len =? 32)
  then io_err (Encryption ("unexpected client pubkey length: " +:+ pretty client_pub_len))
  else
    client_pub <-- read_exact 32;;
    shared <-- io_result (encryption_error (agree server_priv client_pub));;
    key <-- io_result (encryption_error (derive_session_key shared));;
    io_ret key.

(** The key exchange of [client_side] on the stream. *)
Definition client_handshake (generated : option PrivateKey) : io Stream Key :=
  kp <-- io_result (encryption_error (generate_key_pair generated));;
  let '(client_pub, client_priv) := kp in
  write_all (pubkey_bytes client_pub) ;;; flush ;;;
  len_buf <-- read_exact 4;;
  let server_pub_len := be_val len_buf in
  if negb (server_pub_len =? 32)
  then io_err (Encryption ("unexpected server pubkey length: " +:+ pretty server_pub_len))
  else
    server_pub <-- read_exact 32;;
    shared <-- io_result (encryption_error (agree client_priv server_pub));;
    key <-- io_result (encryption_error (derive_session_key shared));;
    io_ret key.

(** [CryptoStream::server_side] and [client_side]: the tunnel, and the stream
    as the exchange left it. *)
Definition tunnel_of (peer : string) (rng : nat -> option (list byte))
    (r : UsbIpResult Key * Stream) : UsbIpResult CryptoStream * Stream :=
  match r with
  | (Ok key, s) =>
      (Ok {| tun_stream := s; tun_key := key; tun_peer := peer; tun_rng := rng |}, s)
  | (Err k, s) => (Err k, s)
  end.

Definition server_side (generated : option PrivateKey) (peer : string)
    (rng : nat -> option (list byte)) (s : Stream) : UsbIpResult CryptoStream * Stream :=
  tunnel_of peer rng (server_handshake generated s).

Definition client_side (generated : option PrivateKey) (peer : string)
    (rng : nat -> option (list byte)) (s : Stream) : UsbIpResult CryptoStream * Stream :=
  tunnel_of peer rng (client_handshake generated s).

Definition set_tun_stream (s : Stream) (t : CryptoStream) : CryptoStream :=
  {| tun_stream := s; tun_key := tun_key t; tun_peer := tun_peer t; tun_rng := tun_rng t |}.

(** [CryptoStream::read_message]. *)
Definition tunnel_read_message : io CryptoStream (list byte) :=
  fun t =>
    io_zoom tun_stream set_tun_stream
      (len_buf <-- read_exact 4;;
       let len := be_val len_buf in
       if (len =? 0) || (ENCRYPTED_MAX <? len)
       then io_err (Encryption ("invalid encrypted frame length: " +:+ pretty len))
       else
         ct <-- read_exact (Z.to_nat len);;
         io_result (encryption_error (fst (decrypt_in_place (tun_key t) ct)))) t.

(** [CryptoStream::write_message]: draws a nonce, encrypts, frames and writes. *)
Definition tunnel_write_message (plaintext : list byte) : io CryptoStream unit :=
  fun t =>
    let t' := {| tun_stream := tun_stream t; tun_key := tun_key t; tun_peer := tun_peer t;
                 tun_rng := fun i => tun_rng t (S i) |} in
    io_zoom tun_stream set_tun_stream
      (ct <-- io_result (encryption_error (encrypt_message (tun_key t) (tun_rng t O) plaintext));;
       write_all (be_bytes 4 (wrap 32 (zlen ct)) ++ ct) ;;; flush ;;; io_ret tt) t'.

(** ** [Wire] *)

Inductive Wire :=
| WirePlain (stream : Stream) (peer : string)
| WireEncrypted (c : CryptoStream).

Definition wire_plain (s : Stream) (peer : string) : Wire := WirePlain s peer.

Definition wire_encrypted (generated : option PrivateKey) (peer : string)
    (rng : nat -> option (list byte)) (s : Stream) : UsbIpResult Wire * Stream :=
  match server_side generated peer rng s with
  | (Ok t, s') => (Ok (WireEncrypted t), s')
  | (Err k, s') => (Err k, s')
  end.

Definition wire_peer_addr (w : Wire) : string :=
  match w with WirePlain _ peer => peer | WireEncrypted t => tun_peer t end.

(** [Wire::inner]. *)
Definition wire_inner (w : Wire) : Stream :=
  match w with WirePlain s _ => s | WireEncrypted t => tun_stream t end.

Definition wire_read_message : io Wire (list byte) :=
  fun w => match w with
           | WirePlain s peer => let '(r, s') := read_message s in (r, WirePlain s' peer)
           | WireEncrypted t => let '(r, t') := tunnel_read_message t in (r, WireEncrypted t')
           end.

Definition wire_write_message (plaintext : list byte) : io Wire unit :=
  fun w => match w with
           | WirePlain s peer => let '(r, s') := write_message plaintext s in (r, WirePlain s' peer)
           | WireEncrypted t => let '(r, t') := tunnel_write_message plaintext t in (r, WireEncrypted t')
           end.

(** ** Lemmas *)

(** The frame that carries the ciphertext [ct]. *)
Definition tunnel_frame (ct : list byte) : list byte := be_bytes 4 (wrap 32 (zlen ct)) ++ ct.

Lemma io_bind_result {S A B} (r : UsbIpResult A) (f : A -> io S B) s :
  io_bind (io_result r) f s = match r with Ok a => f a s | Err k => (Err k, s) end.
Proof. unfold io_bind, io_result. by destruct r. Qed.

Lemma encrypt_with_nonce_length k p n ct :
  length n = 12%nat -> encrypt_with_nonce k p n = Ok ct -> zlen ct = zlen p + 32.
Proof. intros Hn He. apply encrypt_wire_length in He; [|done]. unfold zlen. lia. Qed.

(** Reading a frame that holds [ct]. *)
Lemma tunnel_read_frame t ct l :
  rx (tun_stream t) = tunnel_frame ct ++ l -> 0 < zlen ct <= ENCRYPTED_MAX ->
  tunnel_read_message t
  = (encryption_error (decrypt (tun_key t) ct), set_tun_stream (set_rx l (tun_stream t)) t).
Proof.
  intros Hrx [Hpos Hmax]. unfold tunnel_read_message, io_zoom, tunnel_frame in *.
  assert (HM : ENCRYPTED_MAX < 2 ^ 32) by done.
  rewrite wrap_small in Hrx by lia.
  rewrite <- (set_rx_rx (tun_stream t)), Hrx, <- app_assoc at 1.
  unfold io_bind at 1. rewrite read_exact_app by apply length_be_bytes.
  rewrite be_val_be_bytes by lia.
  destruct (Z.eqb_spec (zlen ct) 0); [lia|]. destruct (Z.ltb_spec ENCRYPTED_MAX (zlen ct)); [lia|]. simpl.
  unfold io_bind. rewrite read_exact_app by (unfold zlen; lia). unfold io_result.
  rewrite (proj1 (decrypt_in_place_spec (tun_key t) ct)). done.
Qed.

(** What a successful read took off the stream. *)
Lemma tunnel_read_Ok t p t' :
  tunnel_read_message t = (Ok p, t') ->
  exists ct l, decrypt (tun_key t) ct = Ok p /\ zlen ct <= ENCRYPTED_MAX
    /\ rx (tun_stream t) = tunnel_frame ct ++ l /\ t' = set_tun_stream (set_rx l (tun_stream t)) t.
Proof.
  unfold tunnel_read_message, io_zoom. intros Hr.
  destruct (io_bind _ _ (tun_stream t)) as [r s'] eqn:E. injection Hr as -> <-.
  invert_bind E; [|done]. rename a into lb.
  destruct ((be_val lb =? 0) || (ENCRYPTED_MAX <? be_val lb)) eqn:Ec; [done|].
  apply orb_false_iff in Ec as [Hnz Hmax]. apply Z.eqb_neq in Hnz. apply Z.ltb_ge in Hmax.
  invert_bind E; [|done]. rename a into ct. unfold io_result in E. injection E as Hd <-.
  rewrite (proj1 (decrypt_in_place_spec (tun_key t) ct)) in Hd. unfold encryption_error in Hd.
  destruct (decrypt (tun_key t) ct) as [p'|] eqn:Edec; [|done]. injection Hd as ->.
  pose proof (be_val_range lb) as Hv. rename x0 into l.
  assert (Hct : zlen ct = be_val lb) by (unfold zlen; lia).
  exists ct, l. split; [done|]. split; [lia|]. split; [|done].
  replace (zlen lb) with 4 in Hv by (unfold zlen; lia).
  unfold tunnel_frame. rewrite Hct, wrap_small by lia.
  rewrite be_bytes_be_val by done. rewrite <- app_assoc. congruence.
Qed.

Lemma tunnel_write_ok t nonce p ct :
  tx_room (tun_stream t) = None -> tun_rng t O = Some nonce ->
  encrypt_with_nonce (tun_key t) p nonce = Ok ct ->
  exists t', tunnel_write_message p t = (Ok tt, t')
    /\ tx (tun_stream t') = tx (tun_stream t) ++ tunnel_frame ct /\ tun_key t' = tun_key t
    /\ rx (tun_stream t') = rx (tun_stream t) /\ tun_rng t' = fun i => tun_rng t (S i).
Proof.
  intros Hroom Hrng He. unfold tunnel_write_message, io_zoom. rewrite Hrng. simpl.
  rewrite io_bind_result. unfold encrypt_message. simpl. rewrite He. simpl.
  unfold io_bind at 1. rewrite write_all_ok by done. by eexists.
Qed.

(** ** Theorems *)

(** The tunnel delivers exactly what was encrypted. A read returns [p] if
    and only if the stream starts with the frame of an encryption of [p] under
    the session key with a 12-byte nonce, of at most [ENCRYPTED_MAX] bytes; it
    consumes that frame and nothing else. So nothing that was not encrypted
    under the key is ever accepted. *)
Theorem tunnel_read_exact t p t' :
  tunnel_read_message t = (Ok p, t') <->
  exists nonce ct l,
    length nonce = 12%nat /\ encrypt_with_nonce (tun_key t) p nonce = Ok ct
    /\ zlen p + 32 <= ENCRYPTED_MAX
    /\ rx (tun_stream t) = tunnel_frame ct ++ l /\ t' = set_tun_stream (set_rx l (tun_stream t)) t.
Proof.
  split.
  - intros (ct & l & Hd & Hmax & Hrx & Ht)%tunnel_read_Ok.
    destruct (decrypt_Ok _ _ _ Hd) as (nonce & Hn & He).
    exists nonce, ct, l. rewrite <- (encrypt_with_nonce_length _ _ _ _ Hn He). done.
  - intros (nonce & ct & l & Hn & He & Hmax & Hrx & ->).
    pose proof (encrypt_with_nonce_length _ _ _ _ Hn He). pose proof (zlen_nonneg p).
    rewrite (tunnel_read_frame t ct l) by (done || lia).
    by rewrite (decrypt_encrypt _ _ _ _ Hn He).
Qed.

(** C20: what one end of the tunnel writes the other end reads: a message
    written under a session key on a working connection is read back, unchanged
    and whole, by a peer with the same key, as long as it has at most
    [MAX_MESSAGE_SIZE - 8] bytes; a longer one (below 4 GiB) is refused by the
    peer as an invalid frame. *)
Theorem tunnel_transfer t nonce p ct u rest :
  tx_room (tun_stream t) = None -> tx (tun_stream t) = [] ->
  tun_rng t O = Some nonce -> length nonce = 12%nat ->
  encrypt_with_nonce (tun_key t) p nonce = Ok ct -> tun_key u = tun_key t ->
  zlen p + 32 < 2 ^ 32 ->
  exists t', tunnel_write_message p t = (Ok tt, t')
  /\ let u1 := set_tun_stream (set_rx (tx (tun_stream t') ++ rest) (tun_stream u)) u in
     if zlen p <=? MAX_MESSAGE_SIZE - 8
     then tunnel_read_message u1 = (Ok p, set_tun_stream (set_rx rest (tun_stream u)) u)
     else fst (tunnel_read_message u1)
          = Err (Encryption ("invalid encrypted frame length: " +:+ pretty (zlen p + 32))).
Proof.
  intros Hroom Htx Hrng Hn He Hk Hlt.
  destruct (tunnel_write_ok t nonce p ct Hroom Hrng He) as (t' & Hw & Htx' & _).
  exists t'. split; [done|]. cbv zeta. rewrite Htx', Htx. simpl app.
  pose proof (encrypt_with_nonce_length _ _ _ _ Hn He) as Hl. pose proof (zlen_nonneg p).
  assert (HM : ENCRYPTED_MAX = MAX_MESSAGE_SIZE + 24) by done.
  case_bool.
  - rewrite (tunnel_read_frame _ ct rest) by (done || lia). simpl.
    by rewrite Hk, (decrypt_encrypt _ _ _ _ Hn He).
  - unfold tunnel_read_message, io_zoom. simpl. unfold tunnel_frame.
    rewrite <- app_assoc. unfold io_bind at 1. rewrite read_exact_app by apply length_be_bytes.
    rewrite Hl, wrap_small, be_val_be_bytes by lia.
    destruct (Z.ltb_spec ENCRYPTED_MAX (zlen p + 32)); [|lia]. by rewrite orb_true_r.
Qed.

Lemma handshake_read_pub {A} pub l s (f : list byte -> io Stream A) (g : Z -> io Stream A) :
  length pub = 32%nat ->
  (len_buf <-- read_exact 4;;
   if negb (be_val len_buf =? 32) then g (be_val len_buf) else (pub <-- read_exact 32;; f pub))
    (set_rx (pubkey_bytes pub ++ l) s) = f pub (set_rx l s).
Proof.
  intros Hp. unfold pubkey_bytes. rewrite <- app_assoc. unfold io_bind at 1.
  rewrite read_exact_app by apply length_be_bytes. rewrite be_val_be_bytes by lia. simpl.
  unfold io_bind. by rewrite read_exact_app.
Qed.

Lemma server_handshake_ok a pa pb secret key s l :
  public_key a = Some pa -> length pb = 32%nat ->
  agree_ephemeral a pb = Some secret -> derive_session_key secret = Ok key -> tx_room s = None ->
  server_handshake (Some a) (set_rx (pubkey_bytes pb ++ l) s)
  = (Ok key, {| rx := l; rx_end := rx_end s; tx := tx s ++ pubkey_bytes pa; tx_room := None |}).
Proof.
  intros Ha Hlb Hs Hk Hr. unfold server_handshake, generate_key_pair. simpl. rewrite Ha.
  rewrite io_bind_result. cbn -[io_bind pretty]. rewrite (io_bind_ok _ _ _ _ _ (write_all_ok _ (set_rx (pubkey_bytes pb ++ l) s) Hr)).
  rewrite (io_bind_ok flush _ _ tt _ eq_refl).
  rewrite (handshake_read_pub pb l {| rx := []; rx_end := rx_end s; tx := tx s ++ pubkey_bytes pa; tx_room := None |} _
             (fun v => io_err (Encryption ("unexpected client pubkey length: " +:+ pretty v)))) by done.
  unfold agree. rewrite Hs, io_bind_result. cbn -[io_bind]. by rewrite Hk, io_bind_result.
Qed.

Lemma client_handshake_ok a pa pb secret key s l :
  public_key a = Some pa -> length pb = 32%nat ->
  agree_ephemeral a pb = Some secret -> derive_session_key secret = Ok key -> tx_room s = None ->
  client_handshake (Some a) (set_rx (pubkey_bytes pb ++ l) s)
  = (Ok key, {| rx := l; rx_end := rx_end s; tx := tx s ++ pubkey_bytes pa; tx_room := None |}).
Proof.
  intros Ha Hlb Hs Hk Hr. unfold client_handshake, generate_key_pair. simpl. rewrite Ha.
  rewrite io_bind_result. cbn -[io_bind pretty]. rewrite (io_bind_ok _ _ _ _ _ (write_all_ok _ (set_rx (pubkey_bytes pb ++ l) s) Hr)).
  rewrite (io_bind_ok flush _ _ tt _ eq_refl).
  rewrite (handshake_read_pub pb l {| rx := []; rx_end := rx_end s; tx := tx s ++ pubkey_bytes pa; tx_room := None |} _
             (fun v => io_err (Encryption ("unexpected server pubkey length: " +:+ pretty v)))) by done.
  unfold agree. rewrite Hs, io_bind_result. cbn -[io_bind]. by rewrite Hk, io_bind_result.
Qed.

(** C21: the key exchange gives both ends the same key. When each side receives
    what the other side writes, the two handshakes succeed together, each has
    written exactly its own public key, each has consumed exactly the peer's,
    and the session keys are the same. *)
Theorem handshake_agrees a b pa pb secret key s c peer_s peer_c rng_s rng_c ls lc :
  public_key a = Some pa -> public_key b = Some pb -> length pa = 32%nat -> length pb = 32%nat ->
  agree_ephemeral a pb = Some secret -> derive_session_key secret = Ok key ->
  tx_room s = None -> tx_room c = None ->
  exists ts tc,
    server_side (Some a) peer_s rng_s (set_rx (pubkey_bytes pb ++ ls) s) = (Ok ts, tun_stream ts)
    /\ client_side (Some b) peer_c rng_c (set_rx (pubkey_bytes pa ++ lc) c) = (Ok tc, tun_stream tc)
    /\ tun_key ts = key /\ tun_key tc = key
    /\ tx (tun_stream ts) = tx s ++ pubkey_bytes pa /\ rx (tun_stream ts) = ls
    /\ tx (tun_stream tc) = tx c ++ pubkey_bytes pb /\ rx (tun_stream tc) = lc.
Proof.
  intros Ha Hb Hla Hlb Hs Hk Hrs Hrc.
  assert (Hs' : agree_ephemeral b pa = Some secret) by (by rewrite <- (agree_comm a b pa pb)).
  unfold server_side, client_side.
  rewrite (server_handshake_ok a pa pb secret key), (client_handshake_ok b pb pa secret key) by done.
  exists {| tun_stream := {| rx := ls; rx_end := rx_end s; tx := tx s ++ pubkey_bytes pa; tx_room := None |};
            tun_key := key; tun_peer := peer_s; tun_rng := rng_s |},
         {| tun_stream := {| rx := lc; rx_end := rx_end c; tx := tx c ++ pubkey_bytes pb; tx_room := None |};
            tun_key := key; tun_peer := peer_c; tun_rng := rng_c |}.
  by split_and!.
Qed.
End CryptoStream.

(** ** The theorems at the toy instance of [Ring] *)

Definition sample_tunnel (l : list byte) : CryptoStream (H := toy_ring) :=
  {| tun_stream := peer_sends l; tun_key := sample_key; tun_peer := "10.0.0.2:40000";
     tun_rng := fun _ => Some (zeros 12) |}.

Definition sample_ct : list byte := be_bytes 4 12 ++ zeros 12 ++ [x61; x62] ++ zeros 16.

Lemma tunnel_read_exact_witness :
  tunnel_read_message (sample_tunnel (tunnel_frame sample_ct ++ [x01])) = (Ok [x61; x62], sample_tunnel [x01]).
Proof.
  apply (tunnel_read_exact (H := toy_ring)). exists (zeros 12), sample_ct, [x01].
  repeat split; vm_compute; congruence.
Defined.

Lemma tunnel_transfer_witness :
  exists t', tunnel_write_message [x61; x62] (sample_tunnel []) = (Ok tt, t')
  /\ tunnel_read_message (sample_tunnel (tx (tun_stream t') ++ [x01])) = (Ok [x61; x62], sample_tunnel [x01]).
Proof.
  destruct (tunnel_transfer (H := toy_ring) (sample_tunnel []) (zeros 12) [x61; x62] sample_ct (sample_tunnel []) [x01])
    as (t' & Hw & Hr); [reflexivity|reflexivity|reflexivity|reflexivity|reflexivity|reflexivity|vm_compute; reflexivity|].
  exists t'. split; [exact Hw|exact Hr].
Defined.

Lemma handshake_agrees_witness :
  exists ts tc,
    server_side (H := toy_ring) (Some 5) "c" (fun _ => None) (peer_sends (pubkey_bytes (be_bytes 32 7)))
    = (Ok ts, tun_stream ts)
    /\ client_side (H := toy_ring) (Some 7) "s" (fun _ => None) (peer_sends (pubkey_bytes (be_bytes 32 5)))
       = (Ok tc, tun_stream tc)
    /\ tun_key ts = tun_key tc.
Proof.
  destruct (derive_session_key (H := toy_ring) (be_bytes 32 12)) as [key|e] eqn:Ek;
    [|exfalso; vm_compute in Ek; discriminate Ek].
  destruct (handshake_agrees (H := toy_ring) 5 7 (be_bytes 32 5) (be_bytes 32 7) (be_bytes 32 12) key
              (peer_sends []) (peer_sends []) "c" "s" (fun _ => None) (fun _ => None) [] [])
    as (ts & tc & Hs & Hc & Hks & Hkc & _);
    [reflexivity|reflexivity|reflexivity|reflexivity|vm_compute; reflexivity|exact Ek|reflexivity|reflexivity|].
  rewrite app_nil_r in Hs, Hc. exists ts, tc. split; [exact Hs|]. split; [exact Hc|]. congruence.
Defined.
