(* ===== verification/Bandwidth.v ===== *)
(** * Bandwidth limits (server/usbip-server/src/bandwidth.rs)

    The token bucket, on [f64] tokens.  Clock readings are arguments, in
    nanoseconds; [throttle] is modelled by the delay it sleeps for. *)

From S2P Require Import Prelude RustFloat FloatFacts FloatRound.

Record BandwidthLimit := { bytes_per_sec : Z }.

Definition unlimited : BandwidthLimit := {| bytes_per_sec := 0 |}.
Definition is_unlimited (l : BandwidthLimit) : bool := bytes_per_sec l =? 0.

Record TokenBucket := {
  tokens : f64;
  max_tokens : f64;
  refill_per_ns : f64;
  last_refill : Z
}.

Definition bucket_new (now bytes_per_sec : Z) : TokenBucket :=
  if bytes_per_sec =? 0 then
    {| tokens := f64_zero; max_tokens := f64_zero; refill_per_ns := f64_zero; last_refill := now |}
  else
    let rate := f64_of_Z bytes_per_sec in
    {| tokens := rate; max_tokens := rate;
       refill_per_ns := f64_div rate (f64_of_Z 1000000000); last_refill := now |}.

Definition into_bucket (now : Z) (l : BandwidthLimit) : option TokenBucket :=
  if is_unlimited l then None else Some (bucket_new now (bytes_per_sec l)).

Definition refill (now : Z) (b : TokenBucket) : TokenBucket :=
  let elapsed_ns := f64_of_Z (Z.max 0 (now - last_refill b)) in
  if f64_lt f64_zero elapsed_ns then
    {| tokens := f64_min (f64_add (tokens b) (f64_mul elapsed_ns (refill_per_ns b))) (max_tokens b);
       max_tokens := max_tokens b; refill_per_ns := refill_per_ns b; last_refill := now |}
  else b.

Definition set_tokens (t : f64) (b : TokenBucket) : TokenBucket :=
  {| tokens := t; max_tokens := max_tokens b; refill_per_ns := refill_per_ns b;
     last_refill := last_refill b |}.

(** [consume]: the delay in nanoseconds ([None]: no limit) and the bucket. *)
Definition consume (now amount : Z) (b : TokenBucket) : option Z * TokenBucket :=
  if f64_eq (max_tokens b) f64_zero then (None, b)
  else
    let b := refill now b in
    let amount := f64_of_Z amount in
    if f64_le amount (tokens b) then (Some 0, set_tokens (f64_sub (tokens b) amount) b)
    else
      let deficit := f64_sub amount (tokens b) in
      let delay_ns := f64_as_unsigned (2 ^ 64 - 1) (f64_div deficit (refill_per_ns b)) in
      (Some delay_ns, set_tokens f64_zero b).

(** [throttle]: how long the caller is put to sleep. *)
Definition throttle (now amount : Z) (b : TokenBucket) : Z * TokenBucket :=
  let '(d, b) := consume now amount b in (default 0 d, b).

(** ** The bucket over its life *)

(** The state after some calls of [consume], each with its clock reading and amount. *)
Definition after_calls (calls : list (Z * Z)) (b : TokenBucket) : TokenBucket :=
  foldl (fun b call => snd (consume (fst call) (snd call) b)) b calls.

Definition is_u64 (n : Z) : Prop := 0 <= n < 2 ^ 64.

Record bucket_ok (rate : Z) (b : TokenBucket) : Prop := {
  bo_max : max_tokens b = f64_of_Z rate;
  bo_refill : refill_per_ns b = f64_div (f64_of_Z rate) (f64_of_Z 1000000000);
  bo_valid : valid (tokens b);
  bo_finite : finite (tokens b);
  bo_nonneg : f64_nonneg (tokens b);
  bo_range : 0 <= fixed (tokens b) <= fixed (f64_of_Z rate);
  bo_time : is_u64 (last_refill b)
}.

Lemma nonneg_fixed x : f64_nonneg x -> 0 <= fixed x.
Proof.
  destruct x as [| | |s m e]; simpl; try done. intros ->. pose proof (Z.pow_nonneg 2 (e + 1074) ltac:(lia)). lia.
Qed.

Section Bucket.
Context (rate : Z) (Hrate : 0 < rate < 2 ^ 64).

Lemma bucket_ok_new now0 : is_u64 now0 -> bucket_ok rate (bucket_new now0 rate).
Proof.
  intros Hn. unfold bucket_new. case_bool; [lia|]. destruct (f64_of_Z_between rate Hrate) as [Hv Hp _].
  split; simpl; try done; [by apply pos_finite|by apply pos_nonneg|]. split; [by apply nonneg_fixed, pos_nonneg|lia].
Qed.

Lemma refill_ok now b : bucket_ok rate b -> is_u64 now ->
  bucket_ok rate (refill now b) /\ fixed (tokens b) <= fixed (tokens (refill now b)).
Proof.
  intros Hb Hn. unfold refill. destruct (f64_lt f64_zero _) eqn:Elt; [|split; [done|lia]].
  destruct Hb as [Hm Hr Hv Hf Hnn [Hr1 Hr2] Ht]. unfold is_u64 in *.
  assert (He : 0 < Z.max 0 (now - last_refill b) < 2 ^ 64).
  { destruct (Z.max 0 (now - last_refill b)) eqn:E; [done|lia|lia]. }
  pose proof (f64_of_Z_between _ He) as Hel. pose proof (f64_of_Z_between rate Hrate) as Hra.
  pose proof (div_between _ _ _ _ _ _ Hra (f64_of_Z_between 1000000000 ltac:(lia)) ltac:(lia) ltac:(lia) ltac:(lia) ltac:(lia) ltac:(lia) ltac:(lia)) as Hpn.
  rewrite <- Hr in Hpn. change (between 1008 1140 (refill_per_ns b)) in Hpn.
  pose proof (mul_between _ _ _ _ _ _ Hel Hpn ltac:(lia) ltac:(lia) ltac:(lia) ltac:(lia) ltac:(lia) ltac:(lia)) as Hpr.
  set (gain := f64_mul _ _) in *. change (between 1006 1206 gain) in Hpr.
  destruct Hpr as [Vg Pg [Hg1 Hg2]]. destruct Hra as [Vr Pr [_ Hra]].
  assert (Hsum : 2 ^ 60 <= fixed (tokens b) + fixed gain < 2 ^ 2000).
  { pose proof (Z.pow_le_mono_r 2 60 1006 ltac:(lia) ltac:(lia)). pose proof (Z.pow_le_mono_r 2 1138 1206 ltac:(lia) ltac:(lia)).
    pose proof (Z.pow_lt_mono_r 2 1207 2000 ltac:(lia) ltac:(lia) ltac:(lia)).
    change (2 ^ 1207) with (2 ^ (1 + 1206)) in *. rewrite (Z.pow_add_r 2 1 1206) in * by lia. lia. }
  destruct (add_rounds (tokens b) gain Hv Vg Hf (pos_finite _ Pg) Hsum) as [[Fs Vs Hge _] Psum].
  set (sum := f64_add _ _) in *.
  assert (Hmono : fixed (tokens b) <= fixed sum).
  { apply Hge; [done..|]. pose proof (nonneg_fixed _ (pos_nonneg _ Pg)). lia. }
  assert (Hmin : f64_min sum (max_tokens b) = sum /\ fixed sum <= fixed (f64_of_Z rate) \/ f64_min sum (max_tokens b) = f64_of_Z rate).
  { rewrite Hm. unfold f64_min. rewrite !nonneg_not_nan by (by apply pos_nonneg).
    rewrite fixed_le by (done || by apply pos_finite). destruct (Z.leb_spec (fixed sum) (fixed (f64_of_Z rate))); auto. }
  destruct Hmin as [[Hmin Hle]|Hmin]; (split; [split; cbn [max_tokens refill_per_ns tokens last_refill]|simpl]); rewrite ?Hmin; try done.
  - by apply pos_nonneg.
  - lia.
  - by apply pos_finite.
  - by apply pos_nonneg.
  - split; [by apply nonneg_fixed, pos_nonneg|lia].
Qed.

(** What is taken out of the bucket is the amount, rounded; nothing is left at least. *)
Lemma take_ok t amount : valid t -> finite t -> f64_nonneg t -> fixed t <= 2 ^ 1138 -> is_u64 amount ->
  f64_le (f64_of_Z amount) t = true ->
  rounds (fixed t - fixed (f64_of_Z amount)) 1 (f64_sub t (f64_of_Z amount))
  /\ f64_nonneg (f64_sub t (f64_of_Z amount)) /\ fixed (f64_sub t (f64_of_Z amount)) <= fixed t.
Proof.
  intros Hv Hf Hn Hmax Ha Hle. unfold is_u64 in Ha. destruct (Z.eq_dec amount 0) as [->|Hz].
  { change (f64_of_Z 0) with f64_zero. change (fixed f64_zero) with 0. rewrite Z.sub_0_r.
    assert (f64_sub t f64_zero = t) as -> by (destruct t as [s|s| |s m e]; [simpl in Hn; by subst s|done..]).
    split; [by apply rounds_exact|]. split; [done|lia]. }
  pose proof (f64_of_Z_between amount ltac:(lia)) as Hb. pose proof Hb as [Va Pa [Ha1 Ha2]].
  set (a := f64_of_Z amount) in *. rewrite fixed_le in Hle by (done || by apply pos_finite). apply Z.leb_le in Hle.
  pose proof (Z.pow_pos_nonneg 2 1074 ltac:(lia) ltac:(lia)) as Hp. assert (Pt : f64_finite_pos t) by (apply fixed_pos; [done|lia]).
  assert (Hbt : between 1074 1138 t) by (split; [done|done|lia]).
  destruct (one_multiple _ _ Hb ltac:(lia)) as [qa Hqa]. destruct (one_multiple _ _ Hbt ltac:(lia)) as [qt Hqt].
  destruct (Z.eq_dec (fixed t) (fixed a)) as [He|He].
  { rewrite (sub_same t a Hv Va Pt Pa He), He, Z.sub_diag. split; [by apply (rounds_exact f64_zero)|]. split; [done|].
    change (fixed f64_zero) with 0. lia. }
  assert (Hd : 2 ^ 60 <= fixed t - fixed a < 2 ^ 2000).
  { pose proof (Z.pow_le_mono_r 2 60 1022 ltac:(lia) ltac:(lia)). pose proof (Z.pow_lt_mono_r 2 1138 2000 ltac:(lia) ltac:(lia) ltac:(lia)).
    rewrite Hqt, Hqa in *. rewrite <- Z.mul_sub_distr_r. assert (0 < qt - qa) by nia. nia. }
  destruct (sub_rounds t a Hv Va Hf (pos_finite _ Pa) Hd) as [Hr Ps]. split; [done|]. split; [by apply pos_nonneg|].
  apply (rounds_le _ _ _ Hr); [done..|]. lia.
Qed.

Lemma consume_cases now amount b : bucket_ok rate b -> is_u64 now -> is_u64 amount ->
  exists d b', consume now amount b = (Some d, b') /\ is_u64 d /\ bucket_ok rate b'
  /\ if f64_le (f64_of_Z amount) (tokens (refill now b))
     then d = 0 /\ rounds (fixed (tokens (refill now b)) - fixed (f64_of_Z amount)) 1 (tokens b')
     else tokens b' = f64_zero.
Proof.
  intros Hb Hn Ha. unfold consume. destruct (f64_of_Z_between rate Hrate) as [Vr Pr [_ Hr]].
  assert (f64_eq (max_tokens b) f64_zero = false) as ->.
  { rewrite (bo_max _ _ Hb). by destruct (f64_of_Z rate) as [| | |[]]. }
  destruct (refill_ok now b Hb Hn) as [[Hm Hp Hv Hf Hnn Hra Ht] _].
  destruct (f64_le (f64_of_Z amount) (tokens (refill now b))) eqn:El; (eexists _, _; split; [done|]).
  - destruct (take_ok _ amount Hv Hf Hnn ltac:(lia) Ha El) as (Hro & Hno & Hle). split; [done|].
    split; [|done]. pose proof (nonneg_fixed _ Hno). split; cbn [set_tokens max_tokens refill_per_ns tokens last_refill]; try done; try lia; apply Hro.
  - split; [unfold is_u64; pose proof (f64_as_unsigned_range (2 ^ 64 - 1) (f64_div (f64_sub (f64_of_Z amount) (tokens (refill now b))) (refill_per_ns (refill now b))) ltac:(lia)); lia|].
    split; [|done]. split; cbn [set_tokens max_tokens refill_per_ns tokens last_refill]; try done.
    change (fixed f64_zero) with 0. pose proof (nonneg_fixed _ (pos_nonneg _ Pr)). lia.
Qed.

Lemma calls_ok calls b : bucket_ok rate b -> Forall (fun call => is_u64 (fst call) /\ is_u64 (snd call)) calls ->
  bucket_ok rate (after_calls calls b).
Proof.
  intros Hb Hc. revert b Hb. induction Hc as [|[now amount] calls [Hn Ha] _ IH]; intros b Hb; [done|].
  apply IH. simpl in Hn, Ha |- *. destruct (consume_cases now amount b Hb Hn Ha) as (d & b' & E & _ & Hok & _). by rewrite E.
Qed.
End Bucket.

(** ** Theorems *)

(** C37: The bucket's contract over its life.  Whatever calls were made before, at any
    clock readings and for any amounts (64-bit numbers), a bucket without a limit never
    delays and never changes; the tokens of one with a limit lie between zero and its
    capacity.  The next call refills it, which takes nothing away; an amount that the
    refilled bucket covers is not delayed and is what is taken out, up to one rounding;
    any other amount empties the bucket and is delayed by a 64-bit number of
    nanoseconds. *)
Theorem consume_contract now0 rate calls now amount (b := after_calls calls (bucket_new now0 rate)) :
  is_u64 now0 -> is_u64 rate -> Forall (fun call => is_u64 (fst call) /\ is_u64 (snd call)) calls ->
  is_u64 now -> is_u64 amount ->
  if is_unlimited {| bytes_per_sec := rate |} then consume now amount b = (None, bucket_new now0 rate)
  else f64_le f64_zero (tokens b) = true /\ f64_le (tokens b) (f64_of_Z rate) = true
       /\ f64_le (tokens b) (tokens (refill now b)) = true
       /\ exists d b', consume now amount b = (Some d, b') /\ is_u64 d
          /\ if f64_le (f64_of_Z amount) (tokens (refill now b))
             then d = 0 /\ rounds (fixed (tokens (refill now b)) - fixed (f64_of_Z amount)) 1 (tokens b')
             else tokens b' = f64_zero.
Proof.
  intros Hn0 Hr Hc Hn Ha. unfold is_unlimited. simpl. destruct (Z.eqb_spec rate 0) as [->|Hz].
  - assert (b = bucket_new now0 0) as ->; [|done]. unfold b. clear. by induction calls as [|[] calls IH].
  - assert (Hrate : 0 < rate < 2 ^ 64) by (unfold is_u64 in Hr; lia).
    assert (Hok : bucket_ok rate b) by (by apply calls_ok, Hc; [done|apply bucket_ok_new]).
    destruct (refill_ok rate Hrate now b Hok Hn) as [Hok' Hmono]. pose proof (f64_of_Z_between rate Hrate) as [Vr Pr _].
    assert (Hle : forall x y, valid x -> finite x -> valid y -> finite y -> fixed x <= fixed y -> f64_le x y = true).
    { intros x y ? ? ? ? Hxy. rewrite fixed_le by done. by apply Z.leb_le. }
    split_and!; [apply Hle; try done; apply Hok|apply Hle; try done; [apply Hok..|by apply pos_finite|apply Hok]
                |by apply Hle; [apply Hok|apply Hok|apply Hok'|apply Hok'|]|].
    destruct (consume_cases rate Hrate now amount b Hok Hn Ha) as (d & b' & E & Hd & _ & Hcase). by exists d, b'.
Qed.

(** A bucket of 1000 bytes per second after a call that emptied it. *)
Lemma consume_contract_witness :
  let b := after_calls [(0, 3000)] (bucket_new 0 1000) in
  exists d b', consume 500000000 400 b = (Some d, b') /\ d = 0 /\ f64_le (tokens b) (f64_of_Z 1000) = true.
Proof.
  cbv zeta. assert (Hu : forall n, (0 <=? n) && (n <? 2 ^ 64) = true -> is_u64 n) by (unfold is_u64; intros n; lia).
  pose proof (consume_contract 0 1000 [(0, 3000)] 500000000 400 (Hu 0 eq_refl) (Hu 1000 eq_refl)
    (Forall_cons_2 _ (0, 3000) _ (conj (Hu 0 eq_refl) (Hu 3000 eq_refl)) (Forall_nil_2 _)) (Hu 500000000 eq_refl) (Hu 400 eq_refl)) as Hc.
  destruct Hc as (_ & Hle & _ & d & b' & E & _ & Hcase). exists d, b'. split; [exact E|]. split; [|exact Hle].
  assert (Ecov : f64_le (f64_of_Z 400) (tokens (refill 500000000 (after_calls [(0, 3000)] (bucket_new 0 1000)))) = true)
    by (vm_compute; reflexivity).
  rewrite Ecov in Hcase. exact (proj1 Hcase).
Defined.

(** The bucket of 1000 bytes per second, emptied at [t]. *)
Definition empty_bucket (t : Z) : TokenBucket :=
  {| tokens := f64_zero; max_tokens := f64_of_Z 1000;
     refill_per_ns := f64_div (f64_of_Z 1000) (f64_of_Z 1000000000); last_refill := t |}.

(** A sender that obeys the bucket gets twice its rate. From an empty
    bucket of 1000 bytes per second, a write of 1000 bytes after one second is
    not delayed, the next one is delayed by one second, and after that second
    the bucket is where it was: the tokens that refill during the delay are
    credited again. So 2000 bytes pass per second, for ever. *)
Theorem throttle_doubles_rate t :
  let '(d1, b1) := throttle (t + 1000000000) 1000 (empty_bucket t) in
  let '(d2, b2) := throttle (t + 1000000000 + d1) 1000 b1 in
  d1 = 0 /\ d2 = 1000000000 /\ b2 = empty_bucket (t + 1000000000).
Proof.
  unfold throttle, consume. change (f64_eq (max_tokens (empty_bucket t)) f64_zero) with false. cbn iota.
  assert (Hr : refill (t + 1000000000) (empty_bucket t)
               = set_tokens (f64_of_Z 1000) (empty_bucket (t + 1000000000))).
  { unfold refill. cbn [last_refill empty_bucket].
    replace (Z.max 0 (t + 1000000000 - t)) with 1000000000 by lia. reflexivity. }
  rewrite Hr. cbn [tokens set_tokens].
  change (f64_le (f64_of_Z 1000) (f64_of_Z 1000)) with true. cbn iota.
  cbn [default from_option]. change (f64_eq (max_tokens (set_tokens _ _)) f64_zero) with false. cbn iota.
  assert (Hr2 : refill (t + 1000000000 + 0)
                  (set_tokens (f64_sub (f64_of_Z 1000) (f64_of_Z 1000))
                     (set_tokens (f64_of_Z 1000) (empty_bucket (t + 1000000000))))
                = empty_bucket (t + 1000000000)).
  { unfold refill. cbn [last_refill empty_bucket set_tokens].
    replace (Z.max 0 (t + 1000000000 + 0 - (t + 1000000000))) with 0 by lia. reflexivity. }
  change (id 0) with 0. rewrite Hr2.
  change (f64_le (f64_of_Z 1000) (tokens (empty_bucket (t + 1000000000)))) with false. cbn iota.
  split; [done|]. split; [vm_compute; done|reflexivity].
Qed.
