(* ===== verification/UsbBackend.v ===== *)
(** * USB backends (server/usbip-server/src/usb_backend.rs)

    The trait [UsbBackend] as a class over the backend's state, with what the
    server relies on as the class [UsbBackendLaws]; the libusb backend over the
    interface [Rusb] of the rusb crate; and [FakeBackend].  An operation that
    may change the state is in the monad [io]. *)

From Stdlib Require Import Ascii.
From S2P Require Import Prelude RustStd Errors Proto Urb Stream Descriptor.

Record UrbTransferResult := {
  ut_status : Z;
  ut_actual_length : Z;
  ut_data : list byte
}.

Class UsbBackend (B : Type) : Type := {
  be_list_devices : B -> list UsbIpDeviceEntry;
  be_get_device_entry : string -> B -> option UsbIpDeviceEntry;
  be_claim_device : string -> io B unit;
  be_get_descriptor_tree : string -> io B (list byte);
  be_execute_urb : string -> UsbIpCmdSubmit -> list byte -> io B UrbTransferResult;
  be_release_device : string -> io B unit
}.

(** A transfer that answers [cmd]: data only for a transfer to the host, as much
    as the length says. *)
Definition transfer_answers (cmd : UsbIpCmdSubmit) (r : UrbTransferResult) : Prop :=
  ut_status r = 0 /\ is_u32 (ut_actual_length r)
  /\ (if cs_is_in cmd then zlen (ut_data r) = ut_actual_length r else ut_data r = []).

(** What the server relies on: releasing does not fail, and a transfer answers
    its command. *)
Class UsbBackendLaws (B : Type) `{!UsbBackend B} : Prop := {
  be_release_ok : forall busid b, exists b', be_release_device busid b = (Ok tt, b');
  be_transfer_answers : forall busid cmd data b r b',
    cmd_wf cmd -> zlen data < 2 ^ 32 ->
    be_execute_urb busid cmd data b = (Ok r, b') -> transfer_answers cmd r
}.

(** ** Bus ids *)

(** [parse_busid]. *)
Definition parse_busid (busid : string) : UsbIpResult (Z * Z) :=
  match split_on "-"%char busid with
  | p0 :: p1 :: _ =>
      match parse_u8 p0 with
      | None => Err (DeviceNotFound busid)
      | Some busnum =>
          match parse_u8 p1 with
          | None => Err (DeviceNotFound busid)
          | Some devnum => Ok (busnum, devnum)
          end
      end
  | _ => Err (DeviceNotFound busid)
  end.

(** [format!("{}-{}", busnum, devnum)]. *)
Definition format_busid (busnum devnum : Z) : string := pretty busnum +:+ "-" +:+ pretty devnum.

(** *** Parsing undoes formatting *)

Definition is_digit_byte (b : byte) : bool := (48 <=? u8 b) && (u8 b <=? 57).

Lemma decimal_u8 b :
  parse_u8 (pretty (u8 b)) = Some (u8 b) /\ contains_char "-"%char (pretty (u8 b)) = false
  /\ (length (as_bytes (pretty (u8 b))) <=? 3)%nat = true
  /\ forallb is_digit_byte (as_bytes (pretty (u8 b))) = true.
Proof. destruct b; vm_compute; repeat split; reflexivity. Qed.

Lemma parse_format_busid b d : parse_busid (format_busid (u8 b) (u8 d)) = Ok (u8 b, u8 d).
Proof.
  destruct (decimal_u8 b) as (Hb & Hbc & _), (decimal_u8 d) as (Hd & Hdc & _).
  unfold parse_busid, format_busid.
  change ("-" +:+ pretty (u8 d)) with (String "-"%char (pretty (u8 d))).
  rewrite split_on_app, split_on_none by done. by rewrite Hb, Hd.
Qed.

(** A bus id that was formatted fits its field and is plain ASCII text. *)
Lemma format_busid_text b d :
  let s := as_bytes (format_busid (u8 b) (u8 d)) in
  (length s <= 7)%nat /\ no_nul s /\ utf8_valid s = true.
Proof.
  destruct (decimal_u8 b) as (_ & _ & Hb & Hbd), (decimal_u8 d) as (_ & _ & Hd & Hdd).
  apply Nat.leb_le in Hb, Hd. cbv zeta. unfold format_busid. rewrite !as_bytes_app.
  assert (Hall : Forall (fun c => is_digit_byte c = true \/ c = x2d)
                   (as_bytes (pretty (u8 b)) ++ as_bytes "-" ++ as_bytes (pretty (u8 d)))).
  { rewrite !Forall_app, !Forall_forall. split_and!.
    - intros c Hc. left. rewrite forallb_forall in Hbd. apply Hbd. by apply list_elem_of_In.
    - intros c Hc. right. change (as_bytes "-") with [x2d] in Hc. by apply list_elem_of_singleton in Hc.
    - intros c Hc. left. rewrite forallb_forall in Hdd. apply Hdd. by apply list_elem_of_In. }
  split_and!.
  - rewrite !length_app. change (length (as_bytes "-")) with 1%nat. lia.
  - eapply Forall_impl; [exact Hall|]. intros c [Hc| ->]; [|done]. by intros ->.
  - apply utf8_valid_ascii. eapply Forall_impl; [exact Hall|]. intros c [Hc| ->]; [|done].
    unfold is_digit_byte in Hc. apply andb_true_iff in Hc as [_ Hc]. apply Z.leb_le in Hc. lia.
Qed.

(** ** The rusb crate *)

Inductive RusbError :=
| RusbIo | RusbInvalidParam | RusbAccess | RusbNoDevice | RusbNotFound | RusbBusy | RusbTimeout
| RusbOverflow | RusbPipe | RusbInterrupted | RusbNoMem | RusbNotSupported | RusbBadDescriptor
| RusbOther.

(** [map_usb_err]. *)
Definition map_usb_err (e : RusbError) : ErrorKind :=
  Usb match e with
      | RusbIo => UsbIo
      | RusbInvalidParam => UsbInvalidParam
      | RusbAccess => UsbAccess
      | RusbNoDevice => UsbNoDevice
      | RusbNotFound => UsbNotFound
      | RusbBusy => UsbBusy
      | RusbTimeout => UsbTimeout
      | RusbOverflow => UsbOverflow
      | RusbPipe => UsbPipe
      | RusbInterrupted => UsbInterrupted
      | RusbNoMem => UsbNoMem
      | RusbNotSupported => UsbNotSupported
      | RusbBadDescriptor => UsbBadDescriptor
      | RusbOther => UsbOther
      end.

(** What the accessors of rusb's descriptors return. *)
Record RusbDeviceDescriptor := {
  rd_length : byte;
  rd_descriptor_type : byte;
  rd_usb_version : byte * byte * byte;
  rd_class_code : byte;
  rd_sub_class_code : byte;
  rd_protocol_code : byte;
  rd_max_packet_size : byte;
  rd_vendor_id : Z;
  rd_product_id : Z;
  rd_device_version : byte * byte * byte;
  rd_manufacturer_string_index : option byte;
  rd_product_string_index : option byte;
  rd_serial_number_string_index : option byte;
  rd_num_configurations : byte
}.

Record RusbEndpointDescriptor := {
  re_length : byte;
  re_descriptor_type : byte;
  re_address : byte;
  re_transfer_type : byte;
  re_max_packet_size : Z;
  re_interval : byte
}.

Record RusbInterfaceDescriptor := {
  ri_length : byte;
  ri_descriptor_type : byte;
  ri_interface_number : byte;
  ri_setting_number : byte;
  ri_num_endpoints : byte;
  ri_class_code : byte;
  ri_sub_class_code : byte;
  ri_protocol_code : byte;
  ri_description_string_index : option byte;
  ri_extra : list byte;
  ri_endpoint_descriptors : list RusbEndpointDescriptor
}.

Record RusbConfigDescriptor := {
  rc_length : byte;
  rc_descriptor_type : byte;
  rc_total_length : Z;
  rc_num_interfaces : byte;
  rc_number : byte;
  rc_description_string_index : option byte;
  rc_self_powered : bool;
  rc_remote_wakeup : bool;
  rc_max_power : Z;
  rc_interfaces : list (list RusbInterfaceDescriptor)
}.

(** The operations on the buses.  A read gives the number of bytes transferred
    and the buffer of the requested size afterwards. *)
Class Rusb : Type := {
  Bus : Type;
  Device : Type;
  Handle : Type;
  ctx_devices : Bus -> result RusbError (list Device);
  bus_number : Device -> byte;
  address : Device -> byte;
  device_speed : Device -> Z;
  device_descriptor : Device -> Bus -> result RusbError RusbDeviceDescriptor;
  config_descriptor : Device -> nat -> Bus -> result RusbError RusbConfigDescriptor;
  active_config_descriptor : Device -> Bus -> result RusbError RusbConfigDescriptor;
  device_open : Device -> Bus -> result RusbError Handle * Bus;
  handle_device : Handle -> Device;
  detach_kernel_driver : Handle -> byte -> Bus -> result RusbError unit * Bus;
  attach_kernel_driver : Handle -> byte -> Bus -> result RusbError unit * Bus;
  claim_interface : Handle -> byte -> Bus -> result RusbError unit * Bus;
  release_interface : Handle -> byte -> Bus -> result RusbError unit * Bus;
  read_control : Handle -> byte -> byte -> Z -> Z -> nat -> Bus -> result RusbError (nat * list byte) * Bus;
  write_control : Handle -> byte -> byte -> Z -> Z -> list byte -> Bus -> result RusbError nat * Bus;
  read_bulk : Handle -> byte -> nat -> Bus -> result RusbError (nat * list byte) * Bus;
  write_bulk : Handle -> byte -> list byte -> Bus -> result RusbError nat * Bus;
  (* a speed is a u32, the ids of a device are u16 *)
  device_speed_range : forall d, is_u32 (device_speed d);
  device_descriptor_ids : forall d b desc, device_descriptor d b = Ok desc ->
    is_u16 (rd_vendor_id desc) /\ is_u16 (rd_product_id desc);
  (* a transfer moves at most as many bytes as its buffer has *)
  read_control_len : forall h t r v i n b len buf b',
    read_control h t r v i n b = (Ok (len, buf), b') -> (len <= n)%nat /\ length buf = n;
  write_control_len : forall h t r v i data b len b',
    write_control h t r v i data b = (Ok len, b') -> (len <= length data)%nat;
  read_bulk_len : forall h e n b len buf b',
    read_bulk h e n b = (Ok (len, buf), b') -> (len <= n)%nat /\ length buf = n;
  write_bulk_len : forall h e data b len b',
    write_bulk h e data b = (Ok len, b') -> (len <= length data)%nat;
  (* reading from an endpoint address without the direction bit is an error *)
  read_bulk_in_only : forall h e n b,
    Z.land (u8 e) 0x80 = 0 -> read_bulk h e n b = (Err RusbInvalidParam, b)
}.

(** ** The libusb backend *)

Section Libusb.
Context `{!Rusb}.

Record LibusbBackend := {
  lb_bus : Bus;
  lb_handles : gmap string (Handle * bool)
}.

(** [LibusbBackend::new], from what libusb's context creation returns. *)
Definition libusb_new (context : result RusbError Bus) : UsbIpResult LibusbBackend :=
  match map_err map_usb_err context with
  | Ok b => Ok {| lb_bus := b; lb_handles := ∅ |}
  | Err k => Err k
  end.

Definition set_bus (b : Bus) (s : LibusbBackend) : LibusbBackend :=
  {| lb_bus := b; lb_handles := lb_handles s |}.

(** A call to rusb whose error is mapped, one that only looks, and one whose
    error is dropped. *)
Definition on_bus {A} (m : Bus -> result RusbError A * Bus) : io LibusbBackend A :=
  fun s => let '(r, b) := m (lb_bus s) in (map_err map_usb_err r, set_bus b s).

Definition look {A} (f : Bus -> result RusbError A) : io LibusbBackend A :=
  fun s => (map_err map_usb_err (f (lb_bus s)), s).

Definition try_on_bus {A} (m : Bus -> result RusbError A * Bus) : io LibusbBackend unit :=
  fun s => (Ok tt, set_bus (snd (m (lb_bus s))) s).

Definition is_device (busnum devnum : Z) (d : Device) : bool :=
  (u8 (bus_number d) =? busnum) && (u8 (address d) =? devnum).

Definition find_device (busnum devnum : Z) : io LibusbBackend Device :=
  devices <-- look ctx_devices;;
  match List.find (is_device busnum devnum) devices with
  | Some d => io_ret d
  | None => io_err (DeviceNotFound ("bus " +:+ pretty busnum +:+ " dev " +:+ pretty devnum))
  end.

(** The entry of one device in [list_devices]. *)
Definition libusb_entry (d : Device) (desc : RusbDeviceDescriptor)
    (config : result RusbError RusbConfigDescriptor) : UsbIpDeviceEntry :=
  let busnum := u8 (bus_number d) in
  let devnum := u8 (address d) in
  let name := format_busid busnum devnum in
  {| path := copy_padded 256 (as_bytes ("/sys/bus/usb/devices/" +:+ name));
     busid := copy_padded 32 (as_bytes name);
     busnum := busnum;
     devnum := devnum;
     speed := device_speed d;
     id_vendor := rd_vendor_id desc;
     id_product := rd_product_id desc;
     bcd_device := u8 (rd_device_version desc).1.1;
     b_device_class := rd_class_code desc;
     b_device_sub_class := rd_sub_class_code desc;
     b_device_protocol := rd_protocol_code desc;
     b_configuration_value := match config with Ok c => rc_number c | Err _ => x00 end;
     b_num_configurations := rd_num_configurations desc;
     b_num_interfaces := match config with Ok c => rc_num_interfaces c | Err _ => x00 end |}.

Definition libusb_entries (b : Bus) (dev_list : list Device) : list UsbIpDeviceEntry :=
  omap (fun d => match device_descriptor d b with
                 | Ok desc => Some (libusb_entry d desc (config_descriptor d 0 b))
                 | Err _ => None
                 end) dev_list.

Definition libusb_list_devices (s : LibusbBackend) : list UsbIpDeviceEntry :=
  match ctx_devices (lb_bus s) with
  | Ok dev_list => libusb_entries (lb_bus s) dev_list
  | Err _ => []
  end.

Definition matches_numbers (bus dev : Z) (d : UsbIpDeviceEntry) : bool :=
  (busnum d =? bus) && (devnum d =? dev).

Definition libusb_get_device_entry (id : string) (s : LibusbBackend) : option UsbIpDeviceEntry :=
  match parse_busid id with
  | Ok (bus, dev) => List.find (matches_numbers bus dev) (libusb_list_devices s)
  | Err _ => None
  end.

(** The loop of [claim_device] over the interfaces. *)
Fixpoint claim_interfaces (handle : Handle) (config : RusbConfigDescriptor) (indices : list nat)
    : io LibusbBackend unit :=
  match indices with
  | [] => io_ret tt
  | i :: indices =>
      match rc_interfaces config !! i ≫= head with
      | Some d =>
          try_on_bus (detach_kernel_driver handle (ri_interface_number d)) ;;;
          on_bus (claim_interface handle (ri_interface_number d)) ;;;
          claim_interfaces handle config indices
      | None => claim_interfaces handle config indices
      end
  end.

Definition insert_handle (id : string) (h : Handle) : io LibusbBackend unit :=
  fun s => (Ok tt, {| lb_bus := lb_bus s; lb_handles := <[id := (h, true)]> (lb_handles s) |}).

Definition libusb_claim_device (id : string) : io LibusbBackend unit :=
  match parse_busid id with
  | Err k => io_err k
  | Ok (bus, dev) =>
      device <-- find_device bus dev;;
      handle <-- on_bus (device_open device);;
      config <-- look (config_descriptor device 0);;
      claim_interfaces handle config (seq 0 (Z.to_nat (u8 (rc_num_interfaces config)))) ;;;
      insert_handle id handle
  end.

(** *** Descriptors *)

Definition device_to_core (d : RusbDeviceDescriptor) : DeviceDescriptor :=
  let usb_ver := rd_usb_version d in
  {| dd_b_length := rd_length d;
     dd_b_descriptor_type := rd_descriptor_type d;
     dd_bcd_usb := Z.lor (Z.shiftl (u8 usb_ver.1.1) 8) (u8 usb_ver.1.2);
     dd_b_device_class := rd_class_code d;
     dd_b_device_sub_class := rd_sub_class_code d;
     dd_b_device_protocol := rd_protocol_code d;
     dd_b_max_packet_size0 := rd_max_packet_size d;
     dd_id_vendor := rd_vendor_id d;
     dd_id_product := rd_product_id d;
     dd_bcd_device := u8 (rd_device_version d).1.1;
     dd_i_manufacturer := default x00 (rd_manufacturer_string_index d);
     dd_i_product := default x00 (rd_product_string_index d);
     dd_i_serial_number := default x00 (rd_serial_number_string_index d);
     dd_b_num_configurations := rd_num_configurations d |}.

Definition config_to_core (c : RusbConfigDescriptor) : ConfigDescriptor :=
  {| cd_b_length := rc_length c;
     cd_b_descriptor_type := rc_descriptor_type c;
     cd_w_total_length := rc_total_length c;
     cd_b_num_interfaces := rc_num_interfaces c;
     cd_b_configuration_value := rc_number c;
     cd_i_configuration := default x00 (rc_description_string_index c);
     cd_bm_attributes := to_u8 (Z.lor (if rc_self_powered c then 0x40 else 0)
                                      (if rc_remote_wakeup c then 0x20 else 0));
     cd_b_max_power := to_u8 (rc_max_power c) |}.

Definition interface_to_core (i : RusbInterfaceDescriptor) : InterfaceDescriptor :=
  {| id_b_length := ri_length i;
     id_b_descriptor_type := ri_descriptor_type i;
     id_b_interface_number := ri_interface_number i;
     id_b_alternate_setting := ri_setting_number i;
     id_b_num_endpoints := ri_num_endpoints i;
     id_b_interface_class := ri_class_code i;
     id_b_interface_sub_class := ri_sub_class_code i;
     id_b_interface_protocol := ri_protocol_code i;
     id_i_interface := default x00 (ri_description_string_index i) |}.

Definition endpoint_to_core (e : RusbEndpointDescriptor) : EndpointDescriptor :=
  {| ed_b_length := re_length e;
     ed_b_descriptor_type := re_descriptor_type e;
     ed_b_endpoint_address := re_address e;
     ed_bm_attributes := re_transfer_type e;
     ed_w_max_packet_size := re_max_packet_size e;
     ed_b_interval := re_interval e |}.

Definition interface_tree (i : RusbInterfaceDescriptor) : list byte :=
  InterfaceDescriptor_to_bytes (interface_to_core i)
  ++ (if decide (ri_class_code i = x03) then ri_extra i else [])
  ++ concat (map (fun e => EndpointDescriptor_to_bytes (endpoint_to_core e)) (ri_endpoint_descriptors i)).

Definition config_tree (c : RusbConfigDescriptor) : list byte :=
  ConfigDescriptor_to_bytes (config_to_core c)
  ++ concat (map (fun settings => concat (map interface_tree settings)) (rc_interfaces c)).

Fixpoint config_trees (device : Device) (indices : list nat) (tree : list byte)
    : io LibusbBackend (list byte) :=
  match indices with
  | [] => io_ret tree
  | i :: indices =>
      config <-- look (config_descriptor device i);;
      config_trees device indices (tree ++ config_tree config)
  end.

Definition libusb_get_descriptor_tree (id : string) : io LibusbBackend (list byte) :=
  match parse_busid id with
  | Err k => io_err k
  | Ok (bus, dev) =>
      device <-- find_device bus dev;;
      desc <-- look (device_descriptor device);;
      config_trees device (seq 0 (Z.to_nat (u8 (rd_num_configurations desc))))
        (DeviceDescriptor_to_bytes (device_to_core desc))
  end.

(** *** Transfers *)

Definition setup_byte (cmd : UsbIpCmdSubmit) (i : nat) : byte := nth i (cs_setup cmd) x00.
Definition setup_u16 (cmd : UsbIpCmdSubmit) (i : nat) : Z :=
  le_val [setup_byte cmd i; setup_byte cmd (S i)].

(** The result of a read of [len] bytes into [buf]: [buf.truncate(len)]. *)
Definition read_result (r : nat * list byte) : UrbTransferResult :=
  {| ut_status := 0; ut_actual_length := wrap 32 (Z.of_nat r.1); ut_data := take r.1 r.2 |}.

Definition write_result (len : nat) : UrbTransferResult :=
  {| ut_status := 0; ut_actual_length := wrap 32 (Z.of_nat len); ut_data := [] |}.

Definition libusb_execute_urb (id : string) (cmd : UsbIpCmdSubmit) (out_data : list byte)
    : io LibusbBackend UrbTransferResult :=
  fun s =>
    match lb_handles s !! id with
    | None => (Err (DeviceNotFound id), s)
    | Some (handle, _) =>
        let ep_addr := to_u8 (cs_ep cmd) in
        (if cs_is_control cmd then
           let bm_request_type := setup_byte cmd 0 in
           let b_request := setup_byte cmd 1 in
           let w_value := setup_u16 cmd 2 in
           let w_index := setup_u16 cmd 4 in
           let w_length := setup_u16 cmd 6 in
           if cs_is_in cmd then
             r <-- on_bus (read_control handle bm_request_type b_request w_value w_index (Z.to_nat w_length));;
             io_ret (read_result r)
           else
             len <-- on_bus (write_control handle bm_request_type b_request w_value w_index out_data);;
             io_ret (write_result len)
         else if cs_is_in cmd then
           let max_size := Z.to_nat (Z.max (cs_data_len cmd) 512) in
           r <-- on_bus (read_bulk handle ep_addr max_size);;
           io_ret (read_result r)
         else
           len <-- on_bus (write_bulk handle ep_addr out_data);;
           io_ret (write_result len)) s
    end.

(** The loop of [release_device] over the interfaces of the active configuration. *)
Fixpoint release_interfaces (handle : Handle) (ifaces : list RusbInterfaceDescriptor)
    : io LibusbBackend unit :=
  match ifaces with
  | [] => io_ret tt
  | d :: ifaces =>
      try_on_bus (release_interface handle (ri_interface_number d)) ;;;
      try_on_bus (attach_kernel_driver handle (ri_interface_number d)) ;;;
      release_interfaces handle ifaces
  end.

Definition libusb_release_device (id : string) : io LibusbBackend unit :=
  fun s =>
    match lb_handles s !! id with
    | Some (handle, _) =>
        let s := {| lb_bus := lb_bus s; lb_handles := delete id (lb_handles s) |} in
        match active_config_descriptor (handle_device handle) (lb_bus s) with
        | Ok config => release_interfaces handle (concat (rc_interfaces config)) s
        | Err _ => (Ok tt, s)
        end
    | None => (Ok tt, s)
    end.

#[export] Instance libusb_backend : UsbBackend LibusbBackend := {
  be_list_devices := libusb_list_devices;
  be_get_device_entry := libusb_get_device_entry;
  be_claim_device := libusb_claim_device;
  be_get_descriptor_tree := libusb_get_descriptor_tree;
  be_execute_urb := libusb_execute_urb;
  be_release_device := libusb_release_device
}.

(** *** The backend keeps the promises of the trait *)

Lemma release_interfaces_ok handle ifaces s : exists s', release_interfaces handle ifaces s = (Ok tt, s').
Proof.
  revert s. induction ifaces as [|d ifaces IH]; intros s; simpl; [by eexists|]. unfold io_bind; simpl. apply IH.
Qed.


Lemma libusb_entry_wf d desc config b :
  device_descriptor d b = Ok desc -> entry_wf (libusb_entry d desc config).
Proof.
  intros Hd. apply device_descriptor_ids in Hd as [Hv Hp]. pose proof (device_speed_range d).
  pose proof (u8_range (bus_number d)). pose proof (u8_range (address d)).
  pose proof (u8_range (rd_device_version desc).1.1).
  unfold entry_wf, libusb_entry, is_u32, is_u16. cbn [path busid busnum devnum speed id_vendor id_product bcd_device].
  rewrite !length_copy_padded by lia. repeat split; try lia; apply Hv || apply Hp || apply H0.
Qed.

Lemma libusb_entries_spec b dev_list e :
  In e (libusb_entries b dev_list) ->
  exists d desc, In d dev_list /\ device_descriptor d b = Ok desc
                 /\ e = libusb_entry d desc (config_descriptor d 0 b).
Proof.
  unfold libusb_entries. rewrite <- list_elem_of_In, list_elem_of_omap. intros (d & Hd & He).
  destruct (device_descriptor d b) as [desc|] eqn:E; [|done]. injection He as <-. exists d, desc. by rewrite <- list_elem_of_In.
Qed.

Lemma read_result_answers cmd r n :
  cs_is_in cmd = true -> (r.1 <= n)%nat -> length r.2 = n -> Z.of_nat n < 2 ^ 32 ->
  transfer_answers cmd (read_result r).
Proof.
  intros Hin Hr Hl Hn. unfold transfer_answers, read_result. rewrite Hin. simpl.
  rewrite wrap_small by lia. unfold is_u32, zlen. rewrite length_take. lia.
Qed.

Lemma write_result_answers cmd len :
  cs_is_in cmd = false -> transfer_answers cmd (write_result len).
Proof.
  intros Hin. unfold transfer_answers, write_result. rewrite Hin. simpl.
  split; [done|]. split; [|done]. apply wrap_range. lia.
Qed.

Lemma setup_u16_range cmd i : 0 <= setup_u16 cmd i < 2 ^ 16.
Proof. apply (le_val_range [setup_byte cmd i; setup_byte cmd (S i)]). Qed.

(** What a successful call on the bus says of rusb's answer. *)
Lemma on_bus_Ok {A B} (m : Bus -> result RusbError A * Bus) (f : A -> B) s r s' :
  (x <-- on_bus m;; io_ret (f x)) s = (Ok r, s') ->
  exists a b, m (lb_bus s) = (Ok a, b) /\ r = f a.
Proof.
  unfold io_bind, on_bus. destruct (m (lb_bus s)) as [[a|e] b]; simpl; [|done].
  intros [= <- <-]. by eexists _, _.
Qed.

Lemma libusb_transfer_answers id cmd data s r s' :
  cmd_wf cmd -> libusb_execute_urb id cmd data s = (Ok r, s') -> transfer_answers cmd r.
Proof.
  intros Hc. unfold libusb_execute_urb. destruct (lb_handles s !! id) as [[h cl]|]; [|done].
  assert (Hlen : 0 <= cs_data_len cmd < 2 ^ 32) by (unfold cs_data_len; destruct Hc as (?&?&?&?&?&?&_); done).
  destruct (cs_is_control cmd), (cs_is_in cmd) eqn:Hin; intros He; apply on_bus_Ok in He as (a & b & Hm & ->).
  - destruct a as [len buf]. apply read_control_len in Hm as [? ?]. pose proof (setup_u16_range cmd 6).
    eapply read_result_answers; eauto. lia.
  - by apply write_result_answers.
  - destruct a as [len buf]. apply read_bulk_len in Hm as [? ?].
    eapply read_result_answers; eauto. lia.
  - by apply write_result_answers.
Qed.

#[export] Instance libusb_laws : UsbBackendLaws LibusbBackend.
Proof.
  split.
  - intros id s. simpl. unfold libusb_release_device.
    destruct (lb_handles s !! id) as [[h c]|]; [|by eexists].
    destruct (active_config_descriptor _ _); [apply release_interfaces_ok|by eexists].
  - intros. by eapply libusb_transfer_answers.
Qed.

(** What is listed fits the wire format. *)
Lemma libusb_entries_wf (s : LibusbBackend) : Forall entry_wf (be_list_devices s).
Proof.
  simpl. unfold libusb_list_devices. destruct (ctx_devices _); [|done].
  apply List.Forall_forall. intros e (d & desc & _ & Hd & ->)%libusb_entries_spec.
  by eapply libusb_entry_wf.
Qed.

(** *** The descriptor tree as the core library sees it *)

Definition iface_info (i : RusbInterfaceDescriptor) : InterfaceInfo :=
  {| ii_interface := interface_to_core i;
     ii_endpoints := map endpoint_to_core (ri_endpoint_descriptors i);
     ii_hid := if decide (ri_class_code i = x03) then HidDescriptor_parse (ri_extra i) else None |}.

Definition config_info (c : RusbConfigDescriptor) : ConfigInfo :=
  {| ci_config := config_to_core c; ci_interfaces := map iface_info (concat (rc_interfaces c)) |}.

(** A HID interface whose class-specific bytes are one HID descriptor, or none. *)
Definition extra_ok (i : RusbInterfaceDescriptor) : Prop :=
  ri_class_code i = x03 ->
  ri_extra i = [] \/ exists h, hid_wf h /\ ri_extra i = HidDescriptor_to_bytes h.

Lemma interface_tree_info i : extra_ok i -> interface_tree i = interface_bytes (iface_info i).
Proof.
  intros Hx. unfold interface_tree, interface_bytes, iface_info. simpl. rewrite map_map. f_equal.
  case_decide as Hc; [|done]. f_equal. destruct (Hx Hc) as [->|(h & Hh & ->)]; [done|].
  rewrite <- (app_nil_r (HidDescriptor_to_bytes h)), HidDescriptor_parse_bytes by done. done.
Qed.

Lemma config_tree_info c :
  Forall extra_ok (concat (rc_interfaces c)) -> config_tree c = config_bytes (config_info c).
Proof.
  intros Hx. unfold config_tree, config_bytes, config_info. simpl. f_equal. rewrite map_map.
  revert Hx. induction (rc_interfaces c) as [|l ls IH]; intros Hx; simpl in *; [done|].
  rewrite Forall_app in Hx. destruct Hx as [Hl Hx]. rewrite map_app, concat_app, <- IH by done. f_equal.
  clear -Hl. induction Hl as [|i l Hi Hl IH]; [done|]. simpl. by rewrite IH, interface_tree_info.
Qed.

Lemma device_to_core_wf d b desc : device_descriptor d b = Ok desc -> device_wf (device_to_core desc).
Proof.
  intros [Hv Hp]%device_descriptor_ids.
  pose proof (u8_range (rd_device_version desc).1.1).
  pose proof (u8_range (rd_usb_version desc).1.1) as Ha. pose proof (u8_range (rd_usb_version desc).1.2) as Hb.
  split_and!; [|apply Hv|apply Hp|unfold is_u16; simpl; lia].
  unfold is_u16, device_to_core; simpl. revert Ha Hb.
  generalize (u8 (rd_usb_version desc).1.1) (u8 (rd_usb_version desc).1.2). intros x y Hx Hy.
  assert (0 <= Z.shiftl x 8 < 2 ^ 16) by (rewrite Z.shiftl_mul_pow2; lia).
  assert (Hn : 0 <= Z.lor (Z.shiftl x 8) y) by (apply Z.lor_nonneg; lia).
  split; [done|]. apply Z.lt_nge. intros Hge.
  assert (Hlog : 16 <= Z.log2 (Z.lor (Z.shiftl x 8) y)) by (apply Z.log2_le_pow2; lia).
  rewrite Z.log2_lor in Hlog by lia.
  assert (Z.log2 (Z.shiftl x 8) <= Z.log2 (2 ^ 16 - 1)) by (apply Z.log2_le_mono; lia).
  assert (Z.log2 y <= Z.log2 255) by (apply Z.log2_le_mono; lia).
  change (Z.log2 (2 ^ 16 - 1)) with 15 in *. change (Z.log2 255) with 7 in *. lia.
Qed.

(** What [get_descriptor_tree] returns. *)
Lemma config_trees_Ok device indices tree s t s' :
  config_trees device indices tree s = (Ok t, s') ->
  s' = s /\ exists cs, Forall2 (fun i c => config_descriptor device i (lb_bus s) = Ok c) indices cs
                      /\ t = tree ++ concat (map config_tree cs).
Proof.
  revert tree. induction indices as [|i indices IH]; intros tree.
  - intros [= <- <-]. split; [done|]. exists []. by rewrite app_nil_r.
  - simpl. unfold io_bind at 1, look. destruct (config_descriptor device i (lb_bus s)) as [c|] eqn:E; [|done].
    simpl. intros (-> & cs & Hcs & ->)%IH. split; [done|]. exists (c :: cs).
    split; [by constructor|]. by rewrite <- app_assoc.
Qed.

Lemma libusb_tree_Ok id s t s' :
  libusb_get_descriptor_tree id s = (Ok t, s') ->
  exists bus dev devices device desc cs,
    parse_busid id = Ok (bus, dev) /\ ctx_devices (lb_bus s) = Ok devices
    /\ List.find (is_device bus dev) devices = Some device
    /\ device_descriptor device (lb_bus s) = Ok desc
    /\ Forall2 (fun i c => config_descriptor device i (lb_bus s) = Ok c)
         (seq 0 (Z.to_nat (u8 (rd_num_configurations desc)))) cs
    /\ t = DeviceDescriptor_to_bytes (device_to_core desc) ++ concat (map config_tree cs).
Proof.
  unfold libusb_get_descriptor_tree. destruct (parse_busid id) as [[bus dev]|] eqn:Ep; [|done].
  unfold find_device, io_bind at 1 2, look at 1. destruct (ctx_devices (lb_bus s)) as [devices|] eqn:Ed; [|done].
  simpl. destruct (List.find (is_device bus dev) devices) as [device|] eqn:Ef; [|done]. simpl.
  unfold io_bind at 1, look at 1. destruct (device_descriptor device (lb_bus s)) as [desc|] eqn:Edd; [|done]. simpl.
  intros (_ & cs & Hcs & ->)%config_trees_Ok. exists bus, dev, devices, device, desc, cs. done.
Qed.

Lemma libusb_entry_busid d desc config :
  busid_str (libusb_entry d desc config) = format_busid (u8 (bus_number d)) (u8 (address d)).
Proof.
  destruct (format_busid_text (bus_number d) (address d)) as (Hl & Hn & Hu).
  apply busid_str_padded; try done. lia.
Qed.

(** *** Theorems *)

(** Every device the libusb backend lists can be asked for by the bus id it
    was listed with: looking that id up finds a listed entry with the same bus
    number, device number and bus id. *)
Theorem libusb_listed_found s e :
  In e (be_list_devices s) ->
  exists e', be_get_device_entry (busid_str e) s = Some e' /\ In e' (be_list_devices s)
             /\ busnum e' = busnum e /\ devnum e' = devnum e /\ busid_str e' = busid_str e.
Proof.
  simpl. unfold libusb_get_device_entry, libusb_list_devices.
  destruct (ctx_devices (lb_bus s)) as [devs|]; [|done]. intros Hin.
  pose proof (libusb_entries_spec _ _ _ Hin) as (d & desc & _ & _ & He).
  assert (Hid : busid_str e = format_busid (u8 (bus_number d)) (u8 (address d)))
    by (rewrite He; apply libusb_entry_busid).
  rewrite Hid, parse_format_busid.
  destruct (List.find _ _) as [e'|] eqn:Ef.
  - apply List.find_some in Ef as [Hin' Hm]. unfold matches_numbers in Hm.
    apply andb_true_iff in Hm as [Hb Hd]. apply Z.eqb_eq in Hb, Hd.
    exists e'. rewrite Hb, Hd. split_and!; try done; [by rewrite He|by rewrite He|].
    pose proof (libusb_entries_spec _ _ _ Hin') as (d' & desc' & _ & _ & ->). simpl in Hb, Hd.
    by rewrite libusb_entry_busid, Hb, Hd.
  - exfalso. apply (List.find_none _ _ Ef) in Hin. unfold matches_numbers in Hin.
    rewrite He in Hin. simpl in Hin. by rewrite !Z.eqb_refl in Hin.
Qed.

(** What the libusb backend returns for a URB answers the command it was
    submitted with: status 0, data only for a transfer to the host, and exactly
    as many bytes of it as the reported length. *)
Theorem libusb_urb_answers id cmd data s r s' :
  cmd_wf cmd -> be_execute_urb id cmd data s = (Ok r, s') ->
  ut_status r = 0 /\ is_u32 (ut_actual_length r)
  /\ (if cs_is_in cmd then zlen (ut_data r) = ut_actual_length r else ut_data r = []).
Proof. apply libusb_transfer_answers. Qed.

(** What the importing side is told of a descriptor of rusb, field by field. *)
Record tells_device (d : RusbDeviceDescriptor) (x : DeviceDescriptor) : Prop := {
  td_length : dd_b_length x = rd_length d;
  td_type : dd_b_descriptor_type x = rd_descriptor_type d;
  td_usb : dd_bcd_usb x = Z.lor (u8 (rd_usb_version d).1.1 * 256) (u8 (rd_usb_version d).1.2);
  td_class : dd_b_device_class x = rd_class_code d;
  td_sub_class : dd_b_device_sub_class x = rd_sub_class_code d;
  td_protocol : dd_b_device_protocol x = rd_protocol_code d;
  td_packet : dd_b_max_packet_size0 x = rd_max_packet_size d;
  td_vendor : dd_id_vendor x = rd_vendor_id d;
  td_product : dd_id_product x = rd_product_id d;
  td_version : dd_bcd_device x = u8 (rd_device_version d).1.1;
  td_strings : [dd_i_manufacturer x; dd_i_product x; dd_i_serial_number x]
               = [default x00 (rd_manufacturer_string_index d); default x00 (rd_product_string_index d);
                  default x00 (rd_serial_number_string_index d)];
  td_configs : dd_b_num_configurations x = rd_num_configurations d
}.

Record tells_endpoint (e : RusbEndpointDescriptor) (x : EndpointDescriptor) : Prop := {
  te_length : ed_b_length x = re_length e;
  te_type : ed_b_descriptor_type x = re_descriptor_type e;
  te_address : ed_b_endpoint_address x = re_address e;
  te_transfer : ed_bm_attributes x = re_transfer_type e;
  te_packet : ed_w_max_packet_size x = re_max_packet_size e;
  te_interval : ed_b_interval x = re_interval e
}.

Record tells_interface (i : RusbInterfaceDescriptor) (x : InterfaceInfo) : Prop := {
  ti_length : id_b_length (ii_interface x) = ri_length i;
  ti_type : id_b_descriptor_type (ii_interface x) = ri_descriptor_type i;
  ti_number : id_b_interface_number (ii_interface x) = ri_interface_number i;
  ti_setting : id_b_alternate_setting (ii_interface x) = ri_setting_number i;
  ti_count : id_b_num_endpoints (ii_interface x) = ri_num_endpoints i;
  ti_class : id_b_interface_class (ii_interface x) = ri_class_code i;
  ti_sub_class : id_b_interface_sub_class (ii_interface x) = ri_sub_class_code i;
  ti_protocol : id_b_interface_protocol (ii_interface x) = ri_protocol_code i;
  ti_string : id_i_interface (ii_interface x) = default x00 (ri_description_string_index i);
  ti_endpoints : Forall2 tells_endpoint (ri_endpoint_descriptors i) (ii_endpoints x);
  ti_hid : forall h, ri_class_code i = x03 -> ri_extra i = HidDescriptor_to_bytes h -> hid_wf h -> ii_hid x = Some h;
  ti_no_hid : ri_class_code i <> x03 \/ ri_extra i = [] -> ii_hid x = None
}.

Record tells_config (c : RusbConfigDescriptor) (x : ConfigInfo) : Prop := {
  tc_length : cd_b_length (ci_config x) = rc_length c;
  tc_type : cd_b_descriptor_type (ci_config x) = rc_descriptor_type c;
  tc_total : cd_w_total_length (ci_config x) = rc_total_length c;
  tc_count : cd_b_num_interfaces (ci_config x) = rc_num_interfaces c;
  tc_number : cd_b_configuration_value (ci_config x) = rc_number c;
  tc_string : cd_i_configuration (ci_config x) = default x00 (rc_description_string_index c);
  tc_self_powered : Z.testbit (u8 (cd_bm_attributes (ci_config x))) 6 = rc_self_powered c;
  tc_remote_wakeup : Z.testbit (u8 (cd_bm_attributes (ci_config x))) 5 = rc_remote_wakeup c;
  tc_power : u8 (cd_b_max_power (ci_config x)) = wrap 8 (rc_max_power c);
  tc_interfaces : Forall2 tells_interface (concat (rc_interfaces c)) (ci_interfaces x)
}.

Lemma Forall2_map_self {A C} (R : A -> C -> Prop) (g : A -> C) l : (forall a, a ∈ l -> R a (g a)) -> Forall2 R l (map g l).
Proof.
  intros HR. induction l as [|a l IH]; constructor; [apply HR, list_elem_of_here|].
  apply IH. intros b Hb. by apply HR, list_elem_of_further.
Qed.

Lemma device_told d : tells_device d (device_to_core d).
Proof. split; try done. simpl. by rewrite Z.shiftl_mul_pow2. Qed.

Lemma interface_told i : tells_interface i (iface_info i).
Proof.
  split; try done.
  - apply Forall2_map_self. intros e _. by split.
  - intros h Hc Hx Hw. simpl. rewrite decide_True, Hx by done.
    rewrite <- (app_nil_r (HidDescriptor_to_bytes h)). by rewrite HidDescriptor_parse_bytes.
  - intros [Hc|Hx]; simpl; [by rewrite decide_False|]. rewrite Hx. by case_decide.
Qed.

Lemma config_told c : tells_config c (config_info c).
Proof.
  split; try done.
  - simpl. rewrite u8_to_u8. by destruct (rc_self_powered c), (rc_remote_wakeup c).
  - simpl. rewrite u8_to_u8. by destruct (rc_self_powered c), (rc_remote_wakeup c).
  - simpl. by rewrite u8_to_u8.
  - apply Forall2_map_self. intros i _. apply interface_told.
Qed.

(** C28: The importing side is told what rusb says of the device.  When rusb's
    descriptors carry the right types, HID interfaces carry one HID descriptor or
    none, and each configuration's total length counts exactly the descriptors sent,
    the tree the libusb backend sends at import is parsed into the device that rusb
    found for the bus id, with all its configurations in order, each with all its
    interfaces (alternate settings included) and their endpoints, and every field
    has the value rusb gave; of the versions only the leading digits are sent, and
    the power modulo 256. *)
Theorem libusb_tree_parses id s t s' fuel checks :
  be_get_descriptor_tree id s = (Ok t, s') -> (256 <= fuel)%nat ->
  (forall device i c, config_descriptor device i (lb_bus s) = Ok c ->
     Forall extra_ok (concat (rc_interfaces c)) /\ config_info_wf (config_info c)) ->
  exists bus dev devices device desc cs info,
    parse_busid id = Ok (bus, dev) /\ ctx_devices (lb_bus s) = Ok devices
    /\ List.find (is_device bus dev) devices = Some device
    /\ device_descriptor device (lb_bus s) = Ok desc
    /\ Forall2 (fun i c => config_descriptor device i (lb_bus s) = Ok c)
         (seq 0 (Z.to_nat (u8 (rd_num_configurations desc)))) cs
    /\ parse_descriptor_tree fuel checks t = Returns (Some info)
    /\ tells_device desc (ud_device info) /\ Forall2 tells_config cs (ud_configs info)
    /\ serialize_descriptor_tree info = t.
Proof.
  intros (bus & dev & devs & device & desc & cs & Hid & Hdevs & Hfind & Hd & Hcs & Ht)%libusb_tree_Ok Hf Hok.
  set (info := {| ud_device := device_to_core desc; ud_configs := map config_info cs |}).
  assert (Hcs' : Forall (fun c => Forall extra_ok (concat (rc_interfaces c)) /\ config_info_wf (config_info c)) cs).
  { clear -Hcs Hok. induction Hcs; constructor; eauto. }
  assert (Hser : serialize_descriptor_tree info = t).
  { subst t. unfold serialize_descriptor_tree. simpl. f_equal. rewrite map_map. f_equal.
    apply map_ext_Forall. eapply Forall_impl; [exact Hcs'|]. intros c [Hc _]. by rewrite config_tree_info. }
  exists bus, dev, devs, device, desc, cs, info. split_and!; try done.
  - rewrite <- Hser. apply parse_serialized_tree.
    + split; [by eapply device_to_core_wf|]. simpl. apply Forall_map.
      eapply Forall_impl; [exact Hcs'|]. by intros c [_ Hc].
    + simpl. rewrite length_map, <- (Forall2_length _ _ _ Hcs), length_seq.
      pose proof (u8_range (rd_num_configurations desc)). lia.
  - apply device_told.
  - apply Forall2_map_self. intros c _. apply config_told.
Qed.

(** The endpoint number of a command is passed to libusb as the endpoint's
    address: a bulk or interrupt read from endpoint 0 to 15, as a stock client
    numbers them, is refused by rusb, and no data is read. *)
Theorem libusb_bulk_in_refused id cmd data s h c :
  lb_handles s !! id = Some (h, c) -> cs_is_control cmd = false -> cs_is_in cmd = true ->
  0 <= cs_ep cmd <= 15 ->
  be_execute_urb id cmd data s = (Err (Usb UsbInvalidParam), s).
Proof.
  intros Hh Hctl Hin Hep. simpl. unfold libusb_execute_urb. rewrite Hh, Hctl, Hin.
  unfold io_bind, on_bus. rewrite read_bulk_in_only; [by destruct s|].
  rewrite u8_to_u8, wrap_small by lia.
  assert (Hcase : cs_ep cmd ∈ seqZ 0 16) by (apply elem_of_seqZ; lia).
  revert Hcase. generalize (cs_ep cmd). apply Forall_forall. repeat constructor.
Qed.
End Libusb.

(** ** [FakeBackend] *)

Record FakeBackend := { fb_devices : list UsbIpDeviceEntry }.

Definition fake_new (devices : list UsbIpDeviceEntry) : FakeBackend := {| fb_devices := devices |}.

Definition fake_has (id : string) (b : FakeBackend) : bool :=
  existsb (fun d => bool_decide (busid_str d = id)) (fb_devices b).

#[export] Instance fake_backend : UsbBackend FakeBackend := {
  be_list_devices := fb_devices;
  be_get_device_entry id b := List.find (fun d => bool_decide (busid_str d = id)) (fb_devices b);
  be_claim_device id b := if fake_has id b then (Ok tt, b) else (Err (DeviceNotFound id), b);
  be_get_descriptor_tree id b :=
    if fake_has id b then (Ok [x12; x01; x00; x02], b) else (Err (DeviceNotFound id), b);
  be_execute_urb _ _ _ b := (Ok {| ut_status := 0; ut_actual_length := 0; ut_data := [] |}, b);
  be_release_device _ b := (Ok tt, b)
}.

#[export] Instance fake_laws : UsbBackendLaws FakeBackend.
Proof.
  split; [by eexists|]. intros id cmd data b r b' _ _ [= <- <-].
  split; [done|]. split; [done|]. by destruct (cs_is_in cmd).
Qed.

Definition make_test_entry (id : string) (vid pid : Z) : UsbIpDeviceEntry :=
  {| path := copy_padded 256 (as_bytes ("/sys/bus/usb/devices/" +:+ id));
     busid := copy_padded 32 (as_bytes id);
     busnum := 1;
     devnum := 1;
     speed := 3;
     id_vendor := vid;
     id_product := pid;
     bcd_device := 0x0100;
     b_device_class := x00;
     b_device_sub_class := x00;
     b_device_protocol := x00;
     b_configuration_value := x01;
     b_num_configurations := x01;
     b_num_interfaces := x01 |}.

Lemma make_test_entry_wf id vid pid : is_u16 vid -> is_u16 pid -> entry_wf (make_test_entry id vid pid).
Proof.
  intros Hv Hp. unfold entry_wf, make_test_entry; cbn [path busid busnum devnum speed id_vendor id_product bcd_device].
  rewrite !length_copy_padded by lia. repeat split; try lia; apply Hv || apply Hp.
Qed.

(** ** A toy instance of [Rusb] *)

(** One device, 3-2, whose IN endpoint always delivers four bytes. *)
Definition toy_device_descriptor : RusbDeviceDescriptor :=
  {| rd_length := x12; rd_descriptor_type := x01; rd_usb_version := (x02, x00, x00);
     rd_class_code := x00; rd_sub_class_code := x00; rd_protocol_code := x00; rd_max_packet_size := x40;
     rd_vendor_id := 0x046d; rd_product_id := 0xc261; rd_device_version := (x01, x02, x03);
     rd_manufacturer_string_index := Some x01; rd_product_string_index := None;
     rd_serial_number_string_index := None; rd_num_configurations := x01 |}.

Definition toy_interface (class : byte) (extra : list byte) : RusbInterfaceDescriptor :=
  {| ri_length := x09; ri_descriptor_type := x04; ri_interface_number := x00; ri_setting_number := x00;
     ri_num_endpoints := x01; ri_class_code := class; ri_sub_class_code := x00; ri_protocol_code := x00;
     ri_description_string_index := None; ri_extra := extra;
     ri_endpoint_descriptors :=
       [{| re_length := x07; re_descriptor_type := x05; re_address := x81; re_transfer_type := x03;
           re_max_packet_size := 64; re_interval := x01 |}] |}.

Definition toy_config (total : Z) (i : RusbInterfaceDescriptor) : RusbConfigDescriptor :=
  {| rc_length := x09; rc_descriptor_type := x02; rc_total_length := total; rc_num_interfaces := x01;
     rc_number := x01; rc_description_string_index := None; rc_self_powered := true;
     rc_remote_wakeup := false; rc_max_power := 100; rc_interfaces := [[i]] |}.

Definition toy_read_control (h : unit) (t r : byte) (v i : Z) (n : nat) (b : unit)
    : result RusbError (nat * list byte) * unit := (Ok (n, replicate n x07), b).
Definition toy_write_control (h : unit) (t r : byte) (v i : Z) (data : list byte) (b : unit)
    : result RusbError nat * unit := (Ok (length data), b).
Definition toy_read_bulk (h : unit) (e : byte) (n : nat) (b : unit)
    : result RusbError (nat * list byte) * unit :=
  if Z.land (u8 e) 0x80 =? 0 then (Err RusbInvalidParam, b) else (Ok (Nat.min 4 n, replicate n x07), b).
Definition toy_write_bulk (h : unit) (e : byte) (data : list byte) (b : unit)
    : result RusbError nat * unit := (Ok (length data), b).

Lemma toy_speed (d : unit) : is_u32 3.
Proof. done. Qed.
Lemma toy_ids (d b : unit) desc : @Ok RusbError _ toy_device_descriptor = Ok desc ->
  is_u16 (rd_vendor_id desc) /\ is_u16 (rd_product_id desc).
Proof. by intros [= <-]. Qed.
Lemma toy_read_control_len h t r v i n b len buf b' :
  toy_read_control h t r v i n b = (Ok (len, buf), b') -> (len <= n)%nat /\ length buf = n.
Proof. intros [= <- <- <-]. by rewrite length_replicate. Qed.
Lemma toy_write_control_len h t r v i data b len b' :
  toy_write_control h t r v i data b = (Ok len, b') -> (len <= length data)%nat.
Proof. by intros [= <- <-]. Qed.
Lemma toy_read_bulk_len h e n b len buf b' :
  toy_read_bulk h e n b = (Ok (len, buf), b') -> (len <= n)%nat /\ length buf = n.
Proof.
  unfold toy_read_bulk. destruct (_ =? 0); [done|]. intros Heq. injection Heq as <- <- <-.
  split; [apply (Nat.le_min_r 4)|apply length_replicate].
Qed.
Lemma toy_write_bulk_len h e data b len b' :
  toy_write_bulk h e data b = (Ok len, b') -> (len <= length data)%nat.
Proof. by intros [= <- <-]. Qed.
Lemma toy_read_bulk_in_only h e n b :
  Z.land (u8 e) 0x80 = 0 -> toy_read_bulk h e n b = (Err RusbInvalidParam, b).
Proof. unfold toy_read_bulk. by intros ->. Qed.

(** The configuration is a parameter, to look at devices of several kinds. *)
Definition toy_rusb (config : RusbConfigDescriptor) : Rusb :=
  {| Bus := unit; Device := unit; Handle := unit;
     ctx_devices _ := Ok [tt]; bus_number _ := x03; address _ := x02; device_speed _ := 3;
     device_descriptor _ _ := Ok toy_device_descriptor;
     config_descriptor _ _ _ := Ok config; active_config_descriptor _ _ := Ok config;
     device_open _ b := (Ok tt, b); handle_device _ := tt;
     detach_kernel_driver _ _ b := (Err RusbNotSupported, b); attach_kernel_driver _ _ b := (Ok tt, b);
     claim_interface _ _ b := (Ok tt, b); release_interface _ _ b := (Ok tt, b);
     read_control := toy_read_control; write_control := toy_write_control;
     read_bulk := toy_read_bulk; write_bulk := toy_write_bulk;
     device_speed_range := toy_speed; device_descriptor_ids := toy_ids;
     read_control_len := toy_read_control_len; write_control_len := toy_write_control_len;
     read_bulk_len := toy_read_bulk_len; write_bulk_len := toy_write_bulk_len;
     read_bulk_in_only := toy_read_bulk_in_only |}.

Definition hid_config : RusbConfigDescriptor :=
  toy_config 34 (toy_interface x03 (HidDescriptor_to_bytes sample_hid)).

Definition toy_libusb (config : RusbConfigDescriptor) (claimed : gmap string (unit * bool))
    : LibusbBackend (H := toy_rusb config) :=
  @Build_LibusbBackend (toy_rusb config) tt claimed.

Lemma libusb_listed_found_witness :
  exists e, In e (libusb_list_devices (toy_libusb hid_config ∅)) /\ busid_str e = "3-2"
  /\ exists e', libusb_get_device_entry "3-2" (toy_libusb hid_config ∅) = Some e' /\ busnum e' = 3.
Proof.
  destruct (libusb_list_devices (toy_libusb hid_config ∅)) as [|e l] eqn:El; [discriminate El|].
  assert (Hin : In e (libusb_list_devices (toy_libusb hid_config ∅))) by (rewrite El; left; reflexivity).
  destruct (libusb_listed_found (H := toy_rusb hid_config) (toy_libusb hid_config ∅) e Hin)
    as (e' & Hf & _ & Hb & _).
  assert (He : e = libusb_entry (H := toy_rusb hid_config) tt toy_device_descriptor (Ok hid_config))
    by (vm_compute in El |- *; congruence).
  assert (Hid : busid_str e = "3-2") by (rewrite He; vm_compute; reflexivity).
  exists e. split; [left; reflexivity|]. split; [exact Hid|].
  exists e'. rewrite Hid in Hf. split; [exact Hf|]. rewrite Hb, He. reflexivity.
Defined.

Definition cmd_in (ep flags : Z) (setup : list byte) : UsbIpCmdSubmit :=
  {| cs_seqnum := 1; cs_devid := 0x00030002; cs_direction := 1; cs_ep := ep; cs_transfer_flags := flags;
     cs_transfer_buffer_length := 64; cs_start_frame := 0; cs_number_of_packets := 0; cs_interval := 0;
     cs_setup := setup |}.

Definition claimed_libusb : LibusbBackend (H := toy_rusb hid_config) :=
  toy_libusb hid_config {["3-2" := (tt, true)]}.

Lemma claimed_lookup : lb_handles claimed_libusb !! "3-2" = Some (tt, true).
Proof. vm_compute. reflexivity. Qed.

Lemma claimed_bulk_in :
  be_execute_urb "3-2" (cmd_in 0x81 0x200 (zeros 8)) [] claimed_libusb
  = (Ok (read_result (4%nat, replicate 512 x07)), claimed_libusb).
Proof. vm_compute. reflexivity. Qed.

Lemma libusb_urb_answers_witness :
  be_execute_urb "3-2" (cmd_in 0x81 0x200 (zeros 8)) [] claimed_libusb
  = (Ok (read_result (4%nat, replicate 512 x07)), claimed_libusb)
  /\ ut_status (read_result (4%nat, replicate 512 x07)) = 0
  /\ zlen (ut_data (read_result (4%nat, replicate 512 x07))) = 4.
Proof.
  split; [exact claimed_bulk_in|].
  destruct (libusb_urb_answers (H := toy_rusb hid_config) "3-2" (cmd_in 0x81 0x200 (zeros 8)) []
              claimed_libusb _ _ ltac:(repeat split; vm_compute; congruence) claimed_bulk_in) as (H0 & _ & Hz).
  split; [exact H0|exact Hz].
Defined.

Lemma libusb_bulk_in_refused_witness :
  be_execute_urb "3-2" (cmd_in 1 0x200 (zeros 8)) [] claimed_libusb
  = (Err (Usb UsbInvalidParam), claimed_libusb).
Proof.
  apply (libusb_bulk_in_refused (H := toy_rusb hid_config) _ _ _ _ tt true);
    [exact claimed_lookup|reflexivity|reflexivity|vm_compute; split; congruence].
Defined.

Lemma libusb_tree_parses_witness :
  exists t s', libusb_get_descriptor_tree "3-2" (toy_libusb hid_config ∅) = (Ok t, s')
  /\ exists desc info, parse_descriptor_tree 256 true t = Returns (Some info) /\ tells_device desc (ud_device info)
     /\ serialize_descriptor_tree info = t.
Proof.
  destruct (libusb_get_descriptor_tree "3-2" (toy_libusb hid_config ∅)) as [[t|k] s'] eqn:E;
    [|exfalso; vm_compute in E; discriminate E].
  exists t, s'. split; [reflexivity|].
  destruct (libusb_tree_parses (H := toy_rusb hid_config) "3-2" (toy_libusb hid_config ∅) t s' 256 true E)
    as (bus & dev & devs & device & desc & cs & info & _ & _ & _ & _ & _ & Hp & Hd & _ & Hs);
    [lia| |exists desc, info; split; [exact Hp|]; split; [exact Hd|exact Hs]].
  intros device i c [= <-]. split.
  - apply Forall_singleton. intros _. right. exists sample_hid. repeat split; vm_compute; congruence.
  - assert (Hh : HidDescriptor_parse (HidDescriptor_to_bytes sample_hid) = Some sample_hid) by (vm_compute; reflexivity).
    split; [repeat split; vm_compute; congruence|]. split; [|vm_compute; reflexivity].
    apply Forall_singleton. split_and!; [reflexivity| | |vm_compute; congruence|vm_compute; congruence].
    + repeat constructor; vm_compute; congruence.
    + intros h Heq. simpl in Heq. rewrite Hh in Heq. injection Heq as <-. repeat split; vm_compute; congruence.
Defined.

(** rusb gives the version 2.10 of a USB 2.1 device as its digits 2, 1 and 0; it is
    sent as 2.01, and all digits but the first of the device's own version are
    dropped.  rusb gives the power in milliamperes, the descriptor has units of two:
    500 mA are sent as 244, which is 488 mA; and the bit of the attributes that USB
    wants set is not. *)
Lemma libusb_fields_garbled d c :
  rd_usb_version d = (x02, x01, x00) -> rd_device_version d = (x01, x02, x03) -> rc_max_power c = 500 ->
  dd_bcd_usb (device_to_core d) = 0x0201 /\ dd_bcd_device (device_to_core d) = 0x0001
  /\ u8 (cd_b_max_power (config_to_core c)) = 244 /\ Z.testbit (u8 (cd_bm_attributes (config_to_core c))) 7 = false.
Proof.
  intros Hu Hd Hc. unfold device_to_core, config_to_core. simpl. rewrite Hu, Hd, Hc, !u8_to_u8.
  split_and!; try reflexivity. by destruct (rc_self_powered c), (rc_remote_wakeup c).
Qed.

(** An interface of another class keeps its class-specific descriptors to itself
    while the configuration still counts them: the tree sent announces more than
    it has, and the parser of the importing side panics. *)
Definition audio_config : RusbConfigDescriptor := toy_config 46 (toy_interface x01 (replicate 21 x24)).

Lemma libusb_tree_misannounced :
  exists t s', libusb_get_descriptor_tree "3-2" (toy_libusb audio_config ∅) = (Ok t, s')
  /\ length t = 43%nat /\ parse_descriptor_tree 256 false t = Panics.
Proof. eexists _, _. split; [vm_compute; reflexivity|]. vm_compute. done. Qed.
