(* ===== verification/UsbManager.v ===== *)
(** * The device manager (server/usbip-server/src/usb.rs)

    [UsbDeviceManager] over any backend.  The two mutexes serialize the
    operations, so an operation is a function on the state; a transfer blocks
    the others until it returns. *)

From S2P Require Import Prelude RustStd Errors Proto Urb Stream Wire UsbBackend.

Record UrbResult := { ur_status : Z; ur_actual_length : Z; ur_data : list byte }.

Section Manager.
Context {B : Type} `{!UsbBackend B}.

Record UsbDeviceManager := { mgr_backend : B; mgr_handles : gmap string bool }.

Definition with_backend (b : B) : UsbDeviceManager := {| mgr_backend := b; mgr_handles := ∅ |}.

Definition set_backend (b : B) (m : UsbDeviceManager) : UsbDeviceManager :=
  {| mgr_backend := b; mgr_handles := mgr_handles m |}.

Definition list_devices (m : UsbDeviceManager) : list UsbIpDeviceEntry :=
  be_list_devices (mgr_backend m).

Definition allowed_device (allowed : list (Z * Z)) (d : UsbIpDeviceEntry) : bool :=
  existsb (fun vp => (vid d =? fst vp) && (pid d =? snd vp)) allowed.

Definition list_exportable_devices (allowed : list (Z * Z)) (m : UsbDeviceManager)
    : list UsbIpDeviceEntry :=
  let all := list_devices m in
  match allowed with
  | [] => all
  | _ => List.filter (allowed_device allowed) all
  end.

Definition get_device_entry (id : string) (m : UsbDeviceManager) : option UsbIpDeviceEntry :=
  match parse_busid id with
  | Ok (bus, dev) => List.find (matches_numbers bus dev) (list_devices m)
  | Err _ => None
  end.

Definition claim_device (id : string) : io UsbDeviceManager unit :=
  io_zoom mgr_backend set_backend (be_claim_device id) ;;;
  fun m => (Ok tt, {| mgr_backend := mgr_backend m; mgr_handles := <[id := true]> (mgr_handles m) |}).

Definition get_descriptor_tree (id : string) : io UsbDeviceManager (list byte) :=
  io_zoom mgr_backend set_backend (be_get_descriptor_tree id).

Definition execute_urb (id : string) (cmd : UsbIpCmdSubmit) (out_data : list byte)
    : io UsbDeviceManager UrbTransferResult :=
  fun m =>
    match mgr_handles m !! id with
    | None => (Err (DeviceNotFound id), m)
    | Some _ => io_zoom mgr_backend set_backend (be_execute_urb id cmd out_data) m
    end.

(** The status of a failed transfer. *)
Definition error_status (k : ErrorKind) : Z :=
  match k with
  | Usb code => usb_error_to_urb_status code
  | DeviceNotFound _ => -19
  | Timeout => -62
  | _ => -5
  end.

Definition submit_urb (id : string) (cmd : UsbIpCmdSubmit) (out_data : list byte)
    (m : UsbDeviceManager) : UrbResult * UsbDeviceManager :=
  match execute_urb id cmd out_data m with
  | (Ok t, m') =>
      ({| ur_status := ut_status t; ur_actual_length := ut_actual_length t; ur_data := ut_data t |}, m')
  | (Err k, m') => ({| ur_status := error_status k; ur_actual_length := 0; ur_data := [] |}, m')
  end.

Definition release_device (id : string) : io UsbDeviceManager unit :=
  fun m =>
    io_zoom mgr_backend set_backend (be_release_device id)
      {| mgr_backend := mgr_backend m; mgr_handles := delete id (mgr_handles m) |}.

(** ** Lemmas *)

Lemma error_status_negative k : -95 <= error_status k <= -1.
Proof. destruct k; simpl; try lia. apply usb_status_negative. Qed.

Lemma submit_urb_unclaimed id cmd data m :
  mgr_handles m !! id = None ->
  submit_urb id cmd data m = ({| ur_status := -19; ur_actual_length := 0; ur_data := [] |}, m).
Proof. intros Hm. unfold submit_urb, execute_urb. by rewrite Hm. Qed.

Lemma submit_urb_handles id cmd data m : mgr_handles (snd (submit_urb id cmd data m)) = mgr_handles m.
Proof.
  unfold submit_urb, execute_urb, io_zoom. destruct (mgr_handles m !! id); [|done].
  by destruct (be_execute_urb _ _ _ _) as [[?|?] ?].
Qed.

Section With_laws.
Context `{!UsbBackendLaws B}.

(** A result that can be framed as the reply to [cmd]. *)
Definition result_ok_for (cmd : UsbIpCmdSubmit) (r : UrbResult) : Prop :=
  is_u32 (ur_actual_length r) /\ is_i32 (ur_status r)
  /\ (if (ur_status r =? 0) && cs_is_in cmd then zlen (ur_data r) = ur_actual_length r
      else ur_data r = []).

Lemma submit_urb_result id cmd data m :
  cmd_wf cmd -> zlen data < 2 ^ 32 -> result_ok_for cmd (fst (submit_urb id cmd data m)).
Proof.
  intros Hc Hd. unfold submit_urb.
  destruct (execute_urb id cmd data m) as [[t|k] m'] eqn:E; simpl.
  - assert (Ht : transfer_answers cmd t).
    { unfold execute_urb in E. destruct (mgr_handles m !! id); [|done]. unfold io_zoom in E.
      destruct (be_execute_urb _ _ _ _) as [r bk] eqn:Eb. injection E as -> _.
      by eapply be_transfer_answers. }
    destruct Ht as (Hs & Hl & Ht). unfold result_ok_for. simpl. by rewrite Hs.
  - pose proof (error_status_negative k). unfold result_ok_for. simpl.
    split; [done|]. split; [unfold is_i32; lia|].
    destruct (Z.eqb_spec (error_status k) 0); [lia|done].
Qed.

(** A command whose flags and direction field agree gets a reply whose data
    section is as long as its header announces. *)
Lemma reply_data_size cmd r :
  cmd_wf cmd -> cs_is_in cmd = negb (cs_direction cmd =? 0) -> result_ok_for cmd r ->
  zlen (ur_data r) = ret_data_size (reply_ret cmd (ur_status r) (ur_actual_length r)).
Proof.
  intros Hc Hdir (Hl & Hst & Hd).
  unfold ret_data_size, rs_has_data, rs_is_success, reply_ret. simpl. rewrite <- Hdir.
  assert (Hw : (wrap 32 (ur_status r) =? 0) = (ur_status r =? 0)).
  { destruct (Z.eqb_spec (ur_status r) 0) as [->|Hne]; [done|].
    apply Z.eqb_neq. intros Hz. apply Hne. rewrite <- (to_i32_wrap (ur_status r)), Hz by done. done. }
  rewrite Hw. destruct (ur_status r =? 0), (cs_is_in cmd); simpl in *; try by rewrite Hd.
  case_bool; [done|]. unfold is_u32 in Hl. pose proof (zlen_nonneg (ur_data r)). lia.
Qed.

(** ** Theorems *)

(** C26: every URB is answered with a reply the client can frame. Whatever the
    device is, claimed or not, and whatever the transfer does, the reply to a
    command whose flags and direction field agree is read by the client as one
    message, with the command's sequence number, and the bytes after it are left
    alone. *)
Theorem urb_reply_framed id cmd data m s rest :
  cmd_wf cmd -> cs_is_in cmd = negb (cs_direction cmd =? 0) -> zlen data < 2 ^ 32 ->
  let r := fst (submit_urb id cmd data m) in
  let reply := serialize_reply cmd (ur_status r) (ur_actual_length r) (ur_data r) in
  read_message (set_rx (reply ++ rest) s) = (Ok reply, set_rx rest s)
  /\ rs_seqnum (reply_ret cmd (ur_status r) (ur_actual_length r)) = cs_seqnum cmd.
Proof.
  intros Hc Hdir Hd. cbv zeta. pose proof (submit_urb_result id cmd data m Hc Hd) as Hr.
  split; [|done]. rewrite serialize_reply_eq.
  apply (read_message_frame (FRet _ _ _)). split_and!; try done.
  - apply reply_ret_wf; [done|]. apply Hr.
  - by apply reply_data_size.
Qed.
End With_laws.

(** A device can be used exactly while it is claimed. Before a claim, and
    after a release, every URB is answered with -ENODEV without reaching the
    backend; after a successful claim URBs go to the backend; claiming or
    releasing one device does not affect another. *)
Theorem claim_release_access id id' cmd data m m1 m2 :
  claim_device id m = (Ok tt, m1) -> release_device id m1 = (Ok tt, m2) ->
  submit_urb id cmd data m2 = ({| ur_status := -19; ur_actual_length := 0; ur_data := [] |}, m2)
  /\ execute_urb id cmd data m1
     = io_zoom mgr_backend set_backend (be_execute_urb id cmd data) m1
  /\ (id' <> id -> mgr_handles m2 !! id' = mgr_handles m !! id').
Proof.
  unfold claim_device, release_device, io_bind, io_zoom.
  destruct (be_claim_device id (mgr_backend m)) as [[[]|k] b1]; [|done]. intros [= <-]. simpl.
  destruct (be_release_device id b1) as [r b2]. intros [= -> <-]. split_and!.
  - apply submit_urb_unclaimed. simpl. apply lookup_delete_eq.
  - unfold execute_urb. simpl. by rewrite lookup_insert_eq.
  - intros Hne. simpl. by rewrite lookup_delete_ne, lookup_insert_ne.
Qed.

(** The allowlist. With an empty list every device is exportable; otherwise
    exactly the devices whose vendor and product id are listed are, in the order
    of enumeration. *)
Theorem exportable_devices allowed m d :
  In d (list_exportable_devices allowed m) <->
  In d (list_devices m) /\ (allowed = [] \/ In (vid d, pid d) allowed).
Proof.
  unfold list_exportable_devices. destruct allowed as [|a allowed]; [tauto|].
  rewrite filter_In. unfold allowed_device. rewrite existsb_exists. split.
  - intros [Hd ([v p] & Hin & Hm)]. split; [done|]. right. simpl in Hm.
    apply andb_true_iff in Hm as [Hv Hp]. apply Z.eqb_eq in Hv, Hp. by subst.
  - intros [Hd [?|Hin]]; [done|]. split; [done|]. exists (vid d, pid d). split; [done|].
    simpl. by rewrite !Z.eqb_refl.
Qed.
End Manager.

(** ** The manager over libusb *)

Section Libusb_manager.
Context `{!Rusb}.

(** [UsbDeviceManager::new]. *)
Definition manager_new (context : result RusbError Bus) : UsbIpResult (UsbDeviceManager (B := LibusbBackend)) :=
  match libusb_new context with
  | Ok backend => Ok {| mgr_backend := backend; mgr_handles := ∅ |}
  | Err k => Err k
  end.

(** A new manager exists exactly when libusb has a context.  No device is claimed in
    it: every URB is answered with -ENODEV and the bus is not touched, and the release
    of any device succeeds and leaves the manager as it is. *)
Lemma manager_new_unclaimed (context : result RusbError Bus) :
  match context, manager_new context with
  | Ok b, Ok m =>
      lb_bus (mgr_backend m) = b
      /\ (forall id cmd data, submit_urb id cmd data m = ({| ur_status := -19; ur_actual_length := 0; ur_data := [] |}, m))
      /\ (forall id, release_device id m = (Ok tt, m))
  | Err e, Err k => k = map_usb_err e
  | _, _ => False
  end.
Proof.
  destruct context as [b|e]; simpl; [|done]. split; [done|]. split; [done|].
  intros id. unfold release_device, io_bind, io_zoom. simpl. unfold libusb_release_device. simpl.
  by rewrite ?lookup_empty, ?delete_empty; simpl; rewrite ?delete_empty.
Qed.
End Libusb_manager.

(** ** The theorems at a fake backend *)

Definition sample_manager : UsbDeviceManager (B := FakeBackend) :=
  with_backend {| fb_devices := [make_test_entry "1-1" 0x046d 0xc261] |}.

Lemma urb_reply_framed_witness :
  read_message (peer_sends (serialize_reply (cmd_in 0x81 0x200 (zeros 8)) (-19) 0 [] ++ [x01]))
  = (Ok (serialize_reply (cmd_in 0x81 0x200 (zeros 8)) (-19) 0 []), peer_sends [x01]).
Proof.
  apply (urb_reply_framed "1-1" (cmd_in 0x81 0x200 (zeros 8)) [] sample_manager (peer_sends []) [x01]);
    [repeat split; vm_compute; congruence|reflexivity|vm_compute; reflexivity].
Defined.

Lemma claim_release_access_witness :
  exists m1 m2, claim_device "1-1" sample_manager = (Ok tt, m1) /\ release_device "1-1" m1 = (Ok tt, m2)
  /\ submit_urb "1-1" (cmd_in 0x81 0x200 (zeros 8)) [] m2
     = ({| ur_status := -19; ur_actual_length := 0; ur_data := [] |}, m2).
Proof.
  set (m1 := {| mgr_backend := mgr_backend sample_manager; mgr_handles := <["1-1" := true]> ∅ |}).
  set (m2 := {| mgr_backend := mgr_backend sample_manager; mgr_handles := delete "1-1" (<["1-1" := true]> ∅) |}).
  assert (H1 : claim_device "1-1" sample_manager = (Ok tt, m1)).
  { unfold claim_device, io_bind, io_zoom. cbn [be_claim_device fake_backend].
    replace (fake_has "1-1" (mgr_backend sample_manager)) with true by (vm_compute; reflexivity). reflexivity. }
  assert (H2 : release_device "1-1" m1 = (Ok tt, m2)) by reflexivity.
  exists m1, m2. split; [exact H1|]. split; [exact H2|].
  exact (proj1 (claim_release_access "1-1" "1-2" (cmd_in 0x81 0x200 (zeros 8)) [] _ _ _ H1 H2)).
Defined.

(** A fake device is entered with bus number and device number 1, whatever its
    bus id: the manager, which looks devices up by their numbers, does not find
    it under its own id, while the backend does. *)
Lemma fake_entry_not_found :
  let m := with_backend {| fb_devices := [make_test_entry "3-2" 0x046d 0xc261] |} in
  get_device_entry "3-2" m = None /\ is_Some (be_get_device_entry "3-2" (mgr_backend m))
  /\ is_Some (get_device_entry "1-1" m).
Proof. vm_compute. split_and!; eauto. Qed.
