(* ===== verification/Iokit.v ===== *)
(** * The macOS backend (server/usbip-server/src/iokit_backend.rs)

    The backend reads the registry of I/O Kit through the C interface.  Its calls
    hand out references that the caller must release; the class [IOKit] has the
    calls, a ghost multiset of the references that are held, and the documented
    effect of each call on it.  An object is a number, 0 is null. *)

From Stdlib Require Import Ascii.
From stdpp Require Import gmultiset.
From S2P Require Import Prelude RustStd Errors Text Proto Urb Stream Descriptor UsbBackend UsbManager.

(** ** I/O Kit and CoreFoundation *)

Inductive CFType := CFNumber | CFString | CFOther.

Definition KERN_SUCCESS : Z := 0.

Class IOKit (K : Type) : Type := {
  CFStringCreate : string -> K -> Z * K;
  IOServiceMatching : Z -> K -> Z * K;
  IOServiceGetMatchingServices : Z -> K -> Z * Z * K;
  IOIteratorNext : Z -> K -> Z * K;
  IOObjectRelease : Z -> K -> K;
  IORegistryEntryCreateCFProperty : Z -> Z -> K -> Z * K;
  CFRelease : Z -> K -> K;
  CFGetTypeID : Z -> K -> CFType;
  (** The number an object stands for. *)
  CFNumberValue : Z -> K -> Z;
  CFStringGetLength : Z -> K -> Z;
  (** The bytes written to a zeroed buffer of this size. *)
  CFStringGetCString : Z -> Z -> K -> option (list byte);
  (** The references that are held, and how many objects an iterator still has. *)
  held_refs : K -> gmultiset Z;
  remaining : Z -> K -> nat
}.

(** A call that returns an object hands out a reference to it. *)
Definition gives `{!IOKit K} (r : Z) (k k' : K) : Prop :=
  held_refs k' = if r =? 0 then held_refs k else {[+ r +]} ⊎ held_refs k.

Class IOKitLaws (K : Type) `{!IOKit K} : Prop := {
  string_create_gives : forall s k r k', CFStringCreate s k = (r, k') ->
    gives r k k' /\ forall i, remaining i k' = remaining i k;
  matching_gives : forall n k r k', IOServiceMatching n k = (r, k') ->
    gives r k k' /\ forall i, remaining i k' = remaining i k;
  (** A reference to the dictionary is always consumed. *)
  get_matching_refs : forall d k kr it k', IOServiceGetMatchingServices d k = (kr, it, k') ->
    if (kr =? KERN_SUCCESS) && negb (it =? 0) then held_refs k' = {[+ it +]} ⊎ held_refs k ∖ {[+ d +]}
    else held_refs k' = held_refs k ∖ {[+ d +]};
  iterator_next_gives : forall it k r k', IOIteratorNext it k = (r, k') ->
    gives r k k' /\ (r <> 0 -> r <> it /\ (remaining it k' < remaining it k)%nat);
  property_gives : forall s key k r k', IORegistryEntryCreateCFProperty s key k = (r, k') ->
    gives r k k' /\ forall i, remaining i k' = remaining i k;
  release_object_refs : forall r k,
    held_refs (IOObjectRelease r k) = held_refs k ∖ {[+ r +]}
    /\ forall i, i <> r -> remaining i (IOObjectRelease r k) = remaining i k;
  release_cf_refs : forall r k,
    held_refs (CFRelease r k) = held_refs k ∖ {[+ r +]} /\ forall i, remaining i (CFRelease r k) = remaining i k
}.

(** ** The helpers *)

Section Backend.
Context {K : Type} `{!IOKit K}.

(** [CFNumberGetValue] for a signed type of [w] bits: it fails when the conversion
    is lossy; the value is what the unsigned variable then holds. *)
Definition CFNumberGetValue (w : Z) (number : Z) (k : K) : option Z :=
  let v := CFNumberValue number k in
  if (- 2 ^ (w - 1) <=? v) && (v <? 2 ^ (w - 1)) then Some (v mod 2 ^ w) else None.

(** [cfstring_to_string]. *)
Definition cfstring_to_string (cf : Z) (k : K) : option string :=
  let len := CFStringGetLength cf k in
  if len <=? 0 then None
  else
    let max_size := len * 4 + 1 in
    match CFStringGetCString cf max_size k with
    | None => None
    | Some written =>
        let buf := take (Z.to_nat max_size) (written ++ zeros (Z.to_nat max_size)) in
        let e := default (length buf) (position_zero buf) in
        Some (from_utf8_lossy (take e buf))
    end.

(** [str::trim_start_matches] of "0x". *)
Fixpoint trim_start_0x (s : string) : string :=
  match s with
  | String a (String b rest) =>
      if bool_decide (a = "0"%char /\ b = "x"%char) then trim_start_0x rest else s
  | _ => s
  end.

(** The frame of the three readers: key, property and their release. *)
Definition get_property {A} (service : Z) (key : string) (read : Z -> K -> option A) (k : K) : option A * K :=
  let '(cf_key, k) := CFStringCreate key k in
  if cf_key =? 0 then (None, k)
  else
    let '(value, k) := IORegistryEntryCreateCFProperty service cf_key k in
    let k := CFRelease cf_key k in
    if value =? 0 then (None, k)
    else
      let result := read value k in
      (result, CFRelease value k).

Definition get_iokit_u16 (service : Z) (key : string) : K -> option Z * K :=
  get_property service key (fun value k =>
    match CFGetTypeID value k with
    | CFNumber => CFNumberGetValue 16 value k
    | CFString =>
        match cfstring_to_string value k with
        | Some s => from_str_radix 16 65535 (trim_start_0x s)
        | None => None
        end
    | CFOther => None
    end).

Definition get_iokit_u8 (service : Z) (key : string) : K -> option Z * K :=
  get_property service key (fun value k =>
    match CFGetTypeID value k with CFNumber => CFNumberGetValue 8 value k | _ => None end).

Definition get_iokit_u32 (service : Z) (key : string) : K -> option Z * K :=
  get_property service key (fun value k =>
    match CFGetTypeID value k with CFNumber => CFNumberGetValue 32 value k | _ => None end).

(** ** Enumeration *)

Definition iokit_speed (v : Z) : Z :=
  if v =? 0 then 1 else if v =? 1 then 2 else if v =? 2 then 3 else if v =? 3 then 5 else if v =? 4 then 6 else 3.

Definition enumerate_one_device (service index : Z) (k : K) : option UsbIpDeviceEntry * K :=
  let '(vendor_id, k) := get_iokit_u16 service "idVendor" k in
  match vendor_id with
  | None => (None, k)
  | Some vendor_id =>
  let '(product_id, k) := get_iokit_u16 service "idProduct" k in
  match product_id with
  | None => (None, k)
  | Some product_id =>
  let '(device_release, k) := get_iokit_u16 service "bcdDevice" k in
  let '(class_code, k) := get_iokit_u8 service "bDeviceClass" k in
  let '(sub_class, k) := get_iokit_u8 service "bDeviceSubClass" k in
  let '(protocol, k) := get_iokit_u8 service "bDeviceProtocol" k in
  let '(num_configs, k) := get_iokit_u8 service "bNumConfigurations" k in
  let '(num_ifaces, k) := get_iokit_u8 service "bNumInterfaces" k in
  let '(location, k) := get_iokit_u32 service "locationID" k in
  let location_id := default index location in
  let busnum := Z.land (Z.shiftr location_id 16) 0xFF in
  let devnum := Z.land location_id 0xFF in
  let name := pretty busnum +:+ "-" +:+ pretty devnum in
  let '(speed_val, k) := get_iokit_u8 service "speed" k in
  (Some {| path := copy_padded 256 (as_bytes ("/sys/bus/usb/devices/" +:+ name));
           busid := copy_padded 32 (as_bytes name);
           busnum := busnum; devnum := devnum; speed := iokit_speed (default 0 speed_val);
           id_vendor := vendor_id; id_product := product_id; bcd_device := default 0 device_release;
           b_device_class := to_u8 (default 0 class_code); b_device_sub_class := to_u8 (default 0 sub_class);
           b_device_protocol := to_u8 (default 0 protocol); b_configuration_value := x01;
           b_num_configurations := to_u8 (default 1 num_configs);
           b_num_interfaces := to_u8 (default 0 num_ifaces) |}, k)
  end end.

(** The loop over the iterator.  The index wraps as in a release build; a debug build
    panics at the 2^32nd service. *)
Fixpoint iterate_devices (fuel : nat) (iterator index : Z) (devices : list UsbIpDeviceEntry) (k : K)
    : outcome (list UsbIpDeviceEntry * K) :=
  match fuel with
  | O => OutOfFuel
  | S fuel =>
      let '(service, k) := IOIteratorNext iterator k in
      if service =? 0 then Returns (devices, k)
      else
        let '(entry, k) := enumerate_one_device service index k in
        let devices := match entry with Some e => devices ++ [e] | None => devices end in
        iterate_devices fuel iterator (wrap 32 (index + 1)) devices (IOObjectRelease service k)
  end.

Definition iokit_list (fuel : nat) (k : K) : outcome (list UsbIpDeviceEntry * K) :=
  let '(matching_name, k) := CFStringCreate "IOUSBDevice" k in
  if matching_name =? 0 then Returns ([], k)
  else
    let '(matching_dict, k) := IOServiceMatching matching_name k in
    let k := CFRelease matching_name k in
    if matching_dict =? 0 then Returns ([], k)
    else
      let '(kr, iterator, k) := IOServiceGetMatchingServices matching_dict k in
      if negb (kr =? KERN_SUCCESS) || (iterator =? 0) then Returns ([], k)
      else
        let! (devices, k) := iterate_devices fuel iterator 0 [] k in
        Returns (devices, IOObjectRelease iterator k).

(** ** The backend *)

Record IokitBackend := { ik_kit : K; ik_fuel : nat; ik_claimed : gmap string Z }.

Definition iokit_new (kit : K) (fuel : nat) : UsbIpResult IokitBackend :=
  Ok {| ik_kit := kit; ik_fuel := fuel; ik_claimed := ∅ |}.

Definition set_claimed (c : gmap string Z) (b : IokitBackend) : IokitBackend :=
  {| ik_kit := ik_kit b; ik_fuel := ik_fuel b; ik_claimed := c |}.

Definition iokit_list_devices (b : IokitBackend) : list UsbIpDeviceEntry :=
  match iokit_list (ik_fuel b) (ik_kit b) with Returns (l, _) => l | _ => [] end.

Definition iokit_get_device_entry (id : string) (b : IokitBackend) : option UsbIpDeviceEntry :=
  if (length (split_on "-" id) <? 2)%nat then None
  else List.find (fun d => bool_decide (busid_str d = id)) (iokit_list_devices b).

Definition find_service (id : string) : UsbIpResult Z :=
  if contains_char "-" id then Ok 0 else Err (DeviceNotFound id).

Definition iokit_claim_device (id : string) : io IokitBackend unit := fun b =>
  match find_service id with
  | Err e => (Err e, b)
  | Ok service => (Ok tt, set_claimed (<[id := service]> (ik_claimed b)) b)
  end.

Definition iokit_release_device (id : string) : io IokitBackend unit := fun b =>
  (Ok tt, set_claimed (delete id (ik_claimed b)) b).

Definition placeholder : DeviceDescriptor :=
  {| dd_b_length := x12; dd_b_descriptor_type := x01; dd_bcd_usb := 0x0200; dd_b_device_class := x00;
     dd_b_device_sub_class := x00; dd_b_device_protocol := x00; dd_b_max_packet_size0 := x40;
     dd_id_vendor := 0; dd_id_product := 0; dd_bcd_device := 0x0100; dd_i_manufacturer := x00;
     dd_i_product := x00; dd_i_serial_number := x00; dd_b_num_configurations := x01 |}.

Definition get_descriptor_tree_from_iokit (id : string) : UsbIpResult (list byte) :=
  if (length (split_on "-" id) <? 2)%nat then Err (DeviceNotFound id)
  else Ok (DeviceDescriptor_to_bytes placeholder).

Definition iokit_get_descriptor_tree (id : string) : io IokitBackend (list byte) := fun b =>
  match find_service id with
  | Err e => (Err e, b)
  | Ok _ => (get_descriptor_tree_from_iokit id, b)
  end.

Definition urb_not_implemented : string :=
  "IOKit URB execution not yet implemented — use rusb backend on macOS".

Definition iokit_execute_urb (id : string) (cmd : UsbIpCmdSubmit) (out_data : list byte)
    : io IokitBackend UrbTransferResult := fun b => (Err (NotSupported urb_not_implemented), b).

#[export] Instance iokit_backend : UsbBackend IokitBackend := {
  be_list_devices := iokit_list_devices;
  be_get_device_entry := iokit_get_device_entry;
  be_claim_device := iokit_claim_device;
  be_get_descriptor_tree := iokit_get_descriptor_tree;
  be_execute_urb := iokit_execute_urb;
  be_release_device := iokit_release_device
}.

#[export] Instance iokit_laws : UsbBackendLaws IokitBackend.
Proof. split; [by eexists|]. done. Qed.

(** ** Theorems *)

Section With_laws.
Context `{!IOKitLaws K}.

(** A stretch of code that gives back what it took. *)
Definition neutral (k k' : K) : Prop :=
  held_refs k' = held_refs k /\ forall i, remaining i k' = remaining i k.

#[local] Instance neutral_po : PreOrder neutral.
Proof. split; [by split|]. intros x y z [H1 H2] [H3 H4]. split; [congruence|]. intros i. by rewrite H4, H2. Qed.

Lemma add_then_remove (x : Z) (X : gmultiset Z) : ({[+ x +]} ⊎ X) ∖ {[+ x +]} = X.
Proof. multiset_solver. Qed.

Lemma get_property_neutral {A} service key (read : Z -> K -> option A) k :
  neutral k (get_property service key read k).2.
Proof.
  unfold get_property, neutral. destruct (CFStringCreate key k) as [ck k1] eqn:E1.
  apply string_create_gives in E1 as [G1 R1]. unfold gives in G1.
  destruct (Z.eqb_spec ck 0) as [->|Hck]; [done|].
  destruct (IORegistryEntryCreateCFProperty service ck k1) as [v k2] eqn:E2.
  apply property_gives in E2 as [G2 R2]. unfold gives in G2.
  destruct (release_cf_refs ck k2) as [G3 R3]. destruct (Z.eqb_spec v 0) as [->|Hv]; simpl in *.
  - split; [rewrite G3, G2, G1; multiset_solver|]. intros i. by rewrite R3, R2, R1.
  - destruct (release_cf_refs v (CFRelease ck k2)) as [G4 R4].
    split; [rewrite G4, G3, G2, G1; multiset_solver|]. intros i. by rewrite R4, R3, R2, R1.
Qed.

Lemma number_range w r k v : 0 < w -> CFNumberGetValue w r k = Some v -> 0 <= v < 2 ^ w.
Proof.
  intros Hw. unfold CFNumberGetValue. destruct (_ && _); [|done]. intros [= <-].
  apply Z.mod_pos_bound. lia.
Qed.

Lemma get_iokit_u16_range service key k v : (get_iokit_u16 service key k).1 = Some v -> is_u16 v.
Proof.
  unfold get_iokit_u16, get_property. destruct (CFStringCreate key k) as [ck k1].
  destruct (ck =? 0); [done|]. destruct (IORegistryEntryCreateCFProperty service ck k1) as [x k2].
  destruct (x =? 0); [done|]. simpl. destruct (CFGetTypeID _ _); [apply number_range; lia| |done].
  destruct (cfstring_to_string _ _) as [s|]; [|done]. intros Hs. apply from_str_radix_range in Hs; [|lia]. unfold is_u16. lia.
Qed.

(** The readers of the number fields, in turn. *)
Ltac read_field :=
  match goal with
  | |- context [get_iokit_u16 ?s ?key ?k] =>
      let H := fresh "Hn" in let R := fresh "Hr" in
      pose proof (get_property_neutral s key (fun value k => match CFGetTypeID value k with
        | CFNumber => CFNumberGetValue 16 value k
        | CFString => match cfstring_to_string value k with Some s => from_str_radix 16 65535 (trim_start_0x s) | None => None end
        | CFOther => None end) k) as H;
      change (get_property s key _ k) with (get_iokit_u16 s key k) in H;
      pose proof (fun v => get_iokit_u16_range s key k v) as R;
      destruct (get_iokit_u16 s key k) as [? ?]; cbn [fst snd] in H, R
  | |- context [get_iokit_u8 ?s ?key ?k] =>
      let H := fresh "Hn" in
      pose proof (get_property_neutral s key (fun value k => match CFGetTypeID value k with
        | CFNumber => CFNumberGetValue 8 value k | _ => None end) k) as H;
      change (get_property s key _ k) with (get_iokit_u8 s key k) in H;
      destruct (get_iokit_u8 s key k) as [? ?]; cbn [fst snd] in H
  | |- context [get_iokit_u32 ?s ?key ?k] =>
      let H := fresh "Hn" in
      pose proof (get_property_neutral s key (fun value k => match CFGetTypeID value k with
        | CFNumber => CFNumberGetValue 32 value k | _ => None end) k) as H;
      change (get_property s key _ k) with (get_iokit_u32 s key k) in H;
      destruct (get_iokit_u32 s key k) as [? ?]; cbn [fst snd] in H
  end.

Lemma low_byte z : 0 <= Z.land z 0xFF < 256.
Proof. change 0xFF with (Z.ones 8). rewrite Z.land_ones by lia. apply Z.mod_pos_bound. lia. Qed.

Lemma iokit_speed_range v : 1 <= iokit_speed v <= 6.
Proof. unfold iokit_speed. repeat destruct (_ =? _); lia. Qed.

(** What is enumerated is a well-formed entry with the bus id of its numbers. *)
Definition iokit_entry_ok (e : UsbIpDeviceEntry) : Prop :=
  entry_wf e /\ 0 <= busnum e < 256 /\ 0 <= devnum e < 256
  /\ busid e = copy_padded 32 (as_bytes (format_busid (busnum e) (devnum e))).

Lemma enumerate_spec service index k :
  neutral k (enumerate_one_device service index k).2
  /\ forall e, (enumerate_one_device service index k).1 = Some e -> iokit_entry_ok e.
Proof.
  unfold enumerate_one_device. read_field. destruct o as [v|]; [|by split].
  read_field. destruct o as [p|]; [|split; [by etrans|done]].
  do 8 read_field. cbn [fst snd]. split; [repeat (etrans; [eassumption|]); done|].
  intros e [= <-]. specialize (Hr v eq_refl). specialize (Hr0 p eq_refl).
  unfold iokit_entry_ok, entry_wf, is_u32, format_busid.
  cbn [path busid busnum devnum speed id_vendor id_product bcd_device].
  pose proof (low_byte (Z.shiftr (default index o5) 16)). pose proof (low_byte (default index o5)).
  pose proof (iokit_speed_range (default 0 o6)).
  assert (is_u16 (default 0 o)) by (destruct o as [x|]; [by apply Hr1|unfold is_u16; simpl; lia]).
  rewrite !length_copy_padded by lia. change (2 ^ 32) with 4294967296.
  split_and!; first [assumption|reflexivity|lia].
Qed.

(** The loop ends, gives back every service it was given, and lists entries that
    are well formed. *)
Lemma iterate_spec n iterator index devices k :
  (remaining iterator k < n)%nat -> Forall iokit_entry_ok devices ->
  exists l k', (forall fuel, (n <= fuel)%nat -> iterate_devices fuel iterator index devices k = Returns (l, k'))
    /\ held_refs k' = held_refs k /\ Forall iokit_entry_ok l.
Proof.
  revert index devices k. induction n as [|n IH]; intros index devices k Hn Hd; [lia|].
  destruct (IOIteratorNext iterator k) as [service k1] eqn:E1. pose proof E1 as E1'.
  apply iterator_next_gives in E1' as (G1 & Hnext). unfold gives in G1.
  destruct (Z.eqb_spec service 0) as [->|Hs].
  - exists devices, k1. split_and!; [|done|done]. intros [|fuel] Hf; [lia|]. simpl. by rewrite E1.
  - destruct (enumerate_spec service index k1) as [[G2 R2] He].
    destruct (enumerate_one_device service index k1) as [entry k2] eqn:E2. simpl in G2, R2, He.
    destruct (release_object_refs service k2) as [G3 R3].
    destruct (IH (wrap 32 (index + 1)) (match entry with Some e => devices ++ [e] | None => devices end)
                (IOObjectRelease service k2)) as (l & k' & Hl & Hh & Hok).
    { destruct (Hnext Hs) as [Hne Hrem]. rewrite R3, R2 by congruence. lia. }
    { destruct entry as [e|]; [|done]. apply Forall_app. split; [done|]. apply Forall_singleton. by apply He. }
    exists l, k'. split_and!; [|rewrite Hh, G3, G2, G1; multiset_solver|done].
    intros [|fuel] Hf; [lia|]. simpl. rewrite E1, (proj2 (Z.eqb_neq service 0)) by done. rewrite E2. apply Hl. lia.
Qed.

Lemma iokit_list_spec k :
  exists n l k', (forall fuel, (n <= fuel)%nat -> iokit_list fuel k = Returns (l, k'))
    /\ held_refs k' = held_refs k /\ Forall iokit_entry_ok l.
Proof.
  unfold iokit_list. destruct (CFStringCreate "IOUSBDevice" k) as [name k1] eqn:E1.
  apply string_create_gives in E1 as [G1 _]. unfold gives in G1.
  destruct (Z.eqb_spec name 0) as [->|Hname]; [by exists O, [], k1|].
  destruct (IOServiceMatching name k1) as [dict k2] eqn:E2. apply matching_gives in E2 as [G2 _]. unfold gives in G2.
  destruct (release_cf_refs name k2) as [G3 _]. destruct (Z.eqb_spec dict 0) as [->|Hdict].
  { exists O, [], (CFRelease name k2). split_and!; [done| |done]. rewrite G3, G2, G1. multiset_solver. }
  assert (G : held_refs (CFRelease name k2) = {[+ dict +]} ⊎ held_refs k) by (rewrite G3, G2, G1; multiset_solver).
  clear G1 G2 G3.
  destruct (IOServiceGetMatchingServices dict (CFRelease name k2)) as [[kr it] k3] eqn:E3.
  apply get_matching_refs in E3. rewrite G, add_then_remove in E3.
  destruct (Z.eqb_spec kr KERN_SUCCESS) as [->|Hkr], (Z.eqb_spec it 0) as [->|Hit]; simpl in E3 |- *;
    try (exists O, [], k3; split_and!; [done|exact E3|done]).
  destruct (iterate_spec (S (remaining it k3)) it 0 [] k3) as (l & k' & Hl & Hh & Hok); [lia|constructor|].
  exists (S (remaining it k3)), l, (IOObjectRelease it k'). destruct (release_object_refs it k') as [G4 _].
  split_and!; [|by rewrite G4, Hh, E3, add_then_remove|done].
  intros fuel Hf. by rewrite Hl.
Qed.

(** C27: Listing the devices ends, releases every reference it was handed on
    every path, failures of I/O Kit included, and yields well-formed entries. *)
Theorem iokit_list_balanced k :
  exists n l k', (forall fuel, (n <= fuel)%nat -> iokit_list fuel k = Returns (l, k'))
    /\ held_refs k' = held_refs k /\ Forall iokit_entry_ok l.
Proof. apply iokit_list_spec. Qed.

(** More fuel changes nothing. *)
Lemma iterate_more_fuel fuel fuel' it ix ds (k : K) r :
  iterate_devices fuel it ix ds k = Returns r -> (fuel <= fuel')%nat -> iterate_devices fuel' it ix ds k = Returns r.
Proof.
  revert fuel' ix ds k. induction fuel as [|fuel IH]; intros [|fuel'] ix ds k; simpl; try done; [lia|].
  destruct (IOIteratorNext it k) as [sv k1]. destruct (sv =? 0); [done|].
  destruct (enumerate_one_device sv ix k1) as [en k2]. intros H Hle. eapply IH; [exact H|lia].
Qed.

Lemma iokit_list_more_fuel fuel fuel' (k : K) r :
  iokit_list fuel k = Returns r -> (fuel <= fuel')%nat -> iokit_list fuel' k = Returns r.
Proof.
  unfold iokit_list. intros E Hle. destruct (CFStringCreate _ _) as [name k1]. destruct (name =? 0); [done|].
  destruct (IOServiceMatching _ _) as [dict k2]. destruct (dict =? 0); [done|].
  destruct (IOServiceGetMatchingServices _ _) as [[kr it] k3]. destruct (_ || _); [done|].
  destruct (iterate_devices fuel it 0 [] k3) as [[l1 k4]| |] eqn:Ei; try done.
  by rewrite (iterate_more_fuel _ _ _ _ _ _ _ Ei Hle).
Qed.

Lemma iokit_listed_ok (b : IokitBackend) : Forall iokit_entry_ok (iokit_list_devices b).
Proof.
  unfold iokit_list_devices. destruct (iokit_list (ik_fuel b) (ik_kit b)) as [[l k']| |] eqn:E; [|constructor..].
  destruct (iokit_list_spec (ik_kit b)) as (n & l0 & k0 & Hl & _ & Hok).
  apply (iokit_list_more_fuel _ (Nat.max n (ik_fuel b))) in E; [|lia]. rewrite Hl in E by lia. by injection E as -> ->.
Qed.

Lemma iokit_entry_busid e : iokit_entry_ok e -> busid_str e = format_busid (busnum e) (devnum e).
Proof.
  intros (_ & Hb & Hd & He). pose proof (format_busid_text (to_u8 (busnum e)) (to_u8 (devnum e))) as Ht.
  rewrite !u8_to_u8, !wrap_small in Ht by lia. destruct Ht as (Hl & Hn & Hu).
  apply busid_str_padded; [exact He|done|done|lia].
Qed.

(** Every device the backend lists can be imported by the bus id it is
    listed with: the manager finds an entry with that bus id. *)
Theorem iokit_listed_found (m : UsbDeviceManager (B := IokitBackend)) e :
  e ∈ list_devices m ->
  exists e', get_device_entry (busid_str e) m = Some e' /\ busid_str e' = busid_str e /\ entry_wf e'.
Proof.
  intros Hin. pose proof (iokit_listed_ok (mgr_backend m)) as Hok. rewrite Forall_forall in Hok.
  pose proof (Hok e Hin) as He. rewrite (iokit_entry_busid e He). destruct He as (_ & Hb & Hd & _).
  unfold get_device_entry. pose proof (parse_format_busid (to_u8 (busnum e)) (to_u8 (devnum e))) as Hp.
  rewrite !u8_to_u8, !wrap_small in Hp by lia. rewrite Hp.
  destruct (List.find (matches_numbers (busnum e) (devnum e)) (list_devices m)) as [e'|] eqn:Ef.
  - apply List.find_some in Ef as [Hin' Hm]. apply list_elem_of_In in Hin'. specialize (Hok e' Hin').
    unfold matches_numbers in Hm. rewrite andb_true_iff, !Z.eqb_eq in Hm. destruct Hm as [H1 H2].
    exists e'. split; [done|]. split; [|apply Hok]. by rewrite (iokit_entry_busid e' Hok), H1, H2.
  - apply list_elem_of_In in Hin. apply (List.find_none _ _ Ef) in Hin.
    unfold matches_numbers in Hin. by rewrite !Z.eqb_refl in Hin.
Qed.
End With_laws.

(** A claimed device on macOS answers no URB: every command is refused with
    the status of an I/O error and no data, and the claim stays as it was. *)
Theorem iokit_urbs_refused id (m : UsbDeviceManager (B := IokitBackend)) :
  contains_char "-" id = true ->
  exists m', claim_device id m = (Ok tt, m')
    /\ forall cmd data, submit_urb id cmd data m'
         = ({| ur_status := -5; ur_actual_length := 0; ur_data := [] |}, m').
Proof.
  intros Hid. eexists. split.
  - unfold claim_device, io_bind, io_zoom. simpl. unfold iokit_claim_device, find_service. by rewrite Hid.
  - intros cmd data. unfold submit_urb, execute_urb. simpl. rewrite lookup_insert_eq. by destruct m.
Qed.

(** A vendor id of 0x8000 or more does not fit the signed type it is read as, and
    the device is left out of the list. *)
Lemma high_vendor_skipped service index k key k1 value k2 :
  CFStringCreate "idVendor" k = (key, k1) -> key <> 0 ->
  IORegistryEntryCreateCFProperty service key k1 = (value, k2) -> value <> 0 ->
  CFGetTypeID value (CFRelease key k2) = CFNumber ->
  0x8000 <= CFNumberValue value (CFRelease key k2) < 0x10000 ->
  (enumerate_one_device service index k).1 = None.
Proof.
  intros H1 Hk H2 Hv Ht Hn. unfold enumerate_one_device, get_iokit_u16 at 1, get_property.
  rewrite H1, (proj2 (Z.eqb_neq key 0)) by done. rewrite H2, (proj2 (Z.eqb_neq value 0)) by done.
  rewrite Ht. unfold CFNumberGetValue. rewrite (proj2 (Z.ltb_ge _ _)) by (simpl; lia). by rewrite andb_false_r.
Qed.
End Backend.

(** ** A toy registry and witnesses *)

(** A registry with one device per remaining count; strings, values and services
    are told apart by the range of their numbers. *)
Record ToyKit := { tk_refs : gmultiset Z; tk_left : nat }.

Definition tk_take (r : Z) (k : ToyKit) : ToyKit := {| tk_refs := {[+ r +]} ⊎ tk_refs k; tk_left := tk_left k |}.
Definition tk_drop (r : Z) (k : ToyKit) : ToyKit := {| tk_refs := tk_refs k ∖ {[+ r +]}; tk_left := tk_left k |}.

Definition toy_keys : list string := ["idVendor"; "idProduct"; "locationID"; "speed"].
Definition toy_key (s : string) : Z :=
  match list_find (fun t => t = s) toy_keys with Some (i, _) => 1000 + Z.of_nat i | None => 999 end.

Definition toy_property (service key : Z) : Z :=
  if key =? 1000 then 100000 + 0x046d
  else if key =? 1001 then 100000 + 0x4261
  else if key =? 1002 then 100000 + 0x14020000 + service - 600
  else if key =? 1003 then 100002 else 0.

#[export] Instance toy_kit : IOKit ToyKit := {|
  CFStringCreate s k := (toy_key s, tk_take (toy_key s) k);
  IOServiceMatching n k := (400, tk_take 400 k);
  IOServiceGetMatchingServices d k := (KERN_SUCCESS, 500, tk_take 500 (tk_drop d k));
  IOIteratorNext it k :=
    match it =? 500, tk_left k with
    | true, S n => (600 + Z.of_nat n, tk_take (600 + Z.of_nat n) {| tk_refs := tk_refs k; tk_left := n |})
    | _, _ => (0, k)
    end;
  IOObjectRelease := tk_drop;
  IORegistryEntryCreateCFProperty s key k :=
    let v := toy_property s key in (v, if v =? 0 then k else tk_take v k);
  CFRelease := tk_drop;
  CFGetTypeID _ _ := CFNumber;
  CFNumberValue r _ := r - 100000;
  CFStringGetLength _ _ := 0;
  CFStringGetCString _ _ _ := None;
  held_refs := tk_refs;
  remaining it k := if it =? 500 then tk_left k else O
|}.

Lemma toy_key_nonzero s : (toy_key s =? 0) = false.
Proof. unfold toy_key. apply Z.eqb_neq. destruct (list_find _ _) as [[i t]|]; lia. Qed.

#[export] Instance toy_kit_laws : IOKitLaws ToyKit.
Proof.
  split; unfold gives; simpl.
  - intros s k r k' [= <- <-]. by rewrite toy_key_nonzero.
  - by intros n k r k' [= <- <-].
  - by intros d k kr it k' [= <- <- <-].
  - intros it k r k'. destruct (Z.eqb_spec it 500) as [->|]; [|by intros [= <- <-]].
    destruct k as [refs [|n]]; simpl; intros [= <- <-]; [done|].
    rewrite (proj2 (Z.eqb_neq _ 0)) by lia. simpl. split; [done|]. intros _. split; lia.
  - intros s key k r k' [= <- <-]. by destruct (toy_property s key =? 0).
  - done.
  - done.
Qed.

Definition toy_registry (n : nat) : ToyKit := {| tk_refs := ∅; tk_left := n |}.

Definition toy_mac (n : nat) : UsbDeviceManager (B := IokitBackend (K := ToyKit)) :=
  with_backend {| ik_kit := toy_registry n; ik_fuel := S n; ik_claimed := ∅ |}.

Lemma iokit_list_balanced_witness :
  exists n l k', (forall fuel, (n <= fuel)%nat -> iokit_list fuel (toy_registry 2) = Returns (l, k'))
    /\ held_refs k' = ∅ /\ Forall iokit_entry_ok l.
Proof. exact (iokit_list_balanced (toy_registry 2)). Defined.

Lemma iokit_listed_found_witness :
  map busid_str (list_devices (toy_mac 2)) = ["2-1"; "2-0"]
  /\ exists e', get_device_entry "2-1" (toy_mac 2) = Some e' /\ busid_str e' = "2-1" /\ entry_wf e'.
Proof.
  assert (Hm : map busid_str (list_devices (toy_mac 2)) = ["2-1"; "2-0"]) by (vm_compute; reflexivity).
  split; [exact Hm|]. assert (Hin : "2-1" ∈ map busid_str (list_devices (toy_mac 2))) by (rewrite Hm; apply elem_of_cons; auto).
  apply list_elem_of_fmap_1 in Hin as (e & He & Hin). rewrite He. exact (iokit_listed_found (toy_mac 2) e Hin).
Defined.

Lemma iokit_urbs_refused_witness :
  exists m', claim_device "2-1" (toy_mac 2) = (Ok tt, m')
    /\ forall cmd data, submit_urb "2-1" cmd data m'
         = ({| ur_status := -5; ur_actual_length := 0; ur_data := [] |}, m').
Proof. apply (iokit_urbs_refused "2-1" (toy_mac 2)). reflexivity. Defined.

(** Two ports of one hub get the same bus id. *)
Lemma hub_ports_collide :
  let name loc := format_busid (Z.land (Z.shiftr loc 16) 0xFF) (Z.land loc 0xFF) in
  name 0x14211000 = name 0x14212000.
Proof. reflexivity. Qed.
