(* ===== verification/Batcher.v ===== *)
(** * The reply batcher (server/usbip-server/src/batcher.rs)

    The clock readings of [push] are arguments in nanoseconds: [now] for the
    elapsed time of the batch, [later] for the start of a new batch.  The
    abstract state of a batcher is the list of the replies it holds. *)

From S2P Require Import Prelude RustStd Errors Proto Urb Stream Wire UsbBackend UsbManager.

Definition DEFAULT_BATCH_SIZE : nat := 8.
Definition DEFAULT_BATCH_TIMEOUT : Z := 200000.
Definition MAX_BATCH_CAPACITY : Z := 64 * 1024.

Record UrbBatcher := {
  buffer : list byte;
  max_batch : nat;
  timeout : Z;
  batch_start : option Z;
  last_seqnum : option Z;
  count : nat
}.

Definition with_config (max_batch : nat) (timeout : Z) : UrbBatcher :=
  {| buffer := []; max_batch := max_batch; timeout := timeout; batch_start := None;
     last_seqnum := None; count := 0 |}.

Definition batcher_new : UrbBatcher := with_config DEFAULT_BATCH_SIZE DEFAULT_BATCH_TIMEOUT.

Definition is_nonempty (b : UrbBatcher) : bool := negb (bool_decide (buffer b = [])).

(** [start.elapsed()] at [now]. *)
Definition elapsed (start now : Z) : Z := Z.max 0 (now - start).

Definition reply_of (cmd : UsbIpCmdSubmit) (r : UrbResult) : list byte :=
  serialize_reply cmd (ur_status r) (ur_actual_length r) (ur_data r).

(** The three conditions that make [push] ask for a flush before it inserts. *)
Definition non_sequential (b : UrbBatcher) (seqnum : Z) : bool :=
  match last_seqnum b with
  | Some last => negb (seqnum =? wrap 32 (last + 1)) && is_nonempty b
  | None => false
  end.

Definition batch_full (b : UrbBatcher) : bool := (max_batch b <=? count b)%nat && is_nonempty b.

Definition timer_expired (b : UrbBatcher) (now : Z) : bool :=
  match batch_start b with
  | Some start => (timeout b <=? elapsed start now) && is_nonempty b
  | None => false
  end.

(** [UrbBatcher::push]. *)
Definition push (now later : Z) (cmd : UsbIpCmdSubmit) (r : UrbResult) (b : UrbBatcher)
    : bool * UrbBatcher :=
  let seqnum := cs_seqnum cmd in
  if non_sequential b seqnum then (true, b)
  else if batch_full b then (true, b)
  else if timer_expired b now then (true, b)
  else
    let reply := reply_of cmd r in
    if MAX_BATCH_CAPACITY <? zlen (buffer b) + zlen reply then (true, b)
    else
      let count' := S (count b) in
      ((max_batch b <=? count')%nat,
       {| buffer := buffer b ++ reply; max_batch := max_batch b; timeout := timeout b;
          batch_start := match batch_start b with None => Some later | s => s end;
          last_seqnum := Some seqnum; count := count' |}).

Definition should_timeout (now : Z) (b : UrbBatcher) : bool :=
  match batch_start b with
  | Some start => timeout b <=? elapsed start now
  | None => false
  end && is_nonempty b.

(** [UrbBatcher::flush]. *)
Definition flush (b : UrbBatcher) : list byte * UrbBatcher :=
  (buffer b,
   {| buffer := []; max_batch := max_batch b; timeout := timeout b; batch_start := None;
      last_seqnum := last_seqnum b; count := 0 |}).

Definition batcher_len (b : UrbBatcher) : nat := count b.
Definition batcher_is_empty (b : UrbBatcher) : bool := (count b =? 0)%nat.

(** ** The abstract batcher *)

(** [b] holds exactly [replies], and its counters agree with them. *)
Record batch_holds (b : UrbBatcher) (replies : list (list byte)) : Prop := {
  holds_buffer : buffer b = concat replies;
  holds_count : count b = length replies;
  holds_replies : Forall (fun r => (52 <= length r)%nat) replies;
  holds_start : is_Some (batch_start b) <-> replies <> [];
  holds_capacity : zlen (buffer b) <= MAX_BATCH_CAPACITY;
  holds_max : (count b <= Nat.max 1 (max_batch b))%nat
}.

(** When [push] takes the reply in. *)
Definition accepts (now : Z) (cmd : UsbIpCmdSubmit) (r : UrbResult) (b : UrbBatcher) : bool :=
  negb (non_sequential b (cs_seqnum cmd)) && negb (batch_full b) && negb (timer_expired b now)
  && (zlen (buffer b) + zlen (reply_of cmd r) <=? MAX_BATCH_CAPACITY).

(** ** Lemmas *)

Lemma reply_of_length cmd r : cmd_wf cmd -> (52 <= length (reply_of cmd r))%nat.
Proof.
  intros Hc. unfold reply_of. rewrite serialize_reply_eq, !length_app, length_header, length_ret; [lia|].
  apply Hc.
Qed.

Lemma holds_new max t : batch_holds (with_config max t) [].
Proof. split; simpl; try done; lia. Qed.

Lemma holds_nonempty b replies : batch_holds b replies -> is_nonempty b = true <-> replies <> [].
Proof.
  intros [Hb _ Hr _ _ _]. unfold is_nonempty. rewrite negb_true_iff, bool_decide_eq_false, Hb.
  destruct Hr as [|r rs Hl Hr]; simpl; [done|]. split; [done|]. intros _ Hn.
  apply (f_equal length) in Hn. rewrite length_app in Hn. simpl in Hn. lia.
Qed.

Lemma push_accepts now later cmd r b :
  push now later cmd r b
  = if accepts now cmd r b
    then ((max_batch b <=? S (count b))%nat,
          {| buffer := buffer b ++ reply_of cmd r; max_batch := max_batch b; timeout := timeout b;
             batch_start := match batch_start b with None => Some later | s => s end;
             last_seqnum := Some (cs_seqnum cmd); count := S (count b) |})
    else (true, b).
Proof.
  unfold push, accepts. destruct (non_sequential _ _), (batch_full _), (timer_expired _ _); try done. simpl.
  rewrite Z.ltb_antisym. by destruct (_ <=? MAX_BATCH_CAPACITY).
Qed.

Lemma push_holds now later cmd r b replies :
  batch_holds b replies -> cmd_wf cmd -> accepts now cmd r b = true ->
  batch_holds (snd (push now later cmd r b)) (replies ++ [reply_of cmd r]).
Proof.
  intros Hh Hc Ha. pose proof (holds_nonempty _ _ Hh) as Hne. destruct Hh as [Hb Hcnt Hr Hs Hcap Hmax].
  rewrite push_accepts, Ha. unfold accepts in Ha. rewrite !andb_true_iff, !negb_true_iff in Ha.
  destruct Ha as (((_ & Hfull) & _) & Hz). apply Z.leb_le in Hz.
  split; simpl.
  - rewrite concat_app, Hb. simpl. by rewrite app_nil_r.
  - rewrite length_app, Hcnt. simpl. lia.
  - apply Forall_app. split; [done|]. apply Forall_singleton. by apply reply_of_length.
  - split; [intros _; by destruct replies|]. intros _. destruct (batch_start b); by eexists.
  - rewrite zlen_app. lia.
  - unfold batch_full in Hfull. apply andb_false_iff in Hfull as [Hfull|Hfull].
    + apply Nat.leb_gt in Hfull. lia.
    + destruct replies; [simpl in *; lia|]. rewrite (proj2 Hne) in Hfull by done. done.
Qed.

Lemma flush_holds b replies :
  batch_holds b replies -> fst (flush b) = concat replies /\ batch_holds (snd (flush b)) [].
Proof.
  intros [Hb _ _ _ _ _]. split; [done|]. split; simpl; try done; lia.
Qed.

(** ** A run of the batcher *)

(** A URB that was executed: the two clock readings of its [push], the command
    and the result. *)
Record urb_done := { ud_now : Z; ud_later : Z; ud_cmd : UsbIpCmdSubmit; ud_result : UrbResult }.

Definition done_reply (u : urb_done) : list byte := reply_of (ud_cmd u) (ud_result u).

(** What the URB loop does with a batcher for each URB in turn: push, and flush
    when asked to.  Gives the bytes written, the replies that were taken in, and
    the batcher afterwards. *)
Definition push_flush (u : urb_done) (b : UrbBatcher) : list byte * UrbBatcher :=
  let '(full, b1) := push (ud_now u) (ud_later u) (ud_cmd u) (ud_result u) b in
  if full then flush b1 else ([], b1).

Fixpoint batch_run (us : list urb_done) (b : UrbBatcher) : list byte * list (list byte) * UrbBatcher :=
  match us with
  | [] => ([], [], b)
  | u :: us =>
      let taken := if accepts (ud_now u) (ud_cmd u) (ud_result u) b then [done_reply u] else [] in
      let '(batch, b') := push_flush u b in
      let '(written, ts, b'') := batch_run us b' in
      (batch ++ written, taken ++ ts, b'')
  end.

Lemma push_flush_holds u b replies :
  batch_holds b replies -> cmd_wf (ud_cmd u) ->
  exists rest, batch_holds (snd (push_flush u b)) rest
    /\ fst (push_flush u b) ++ concat rest
       = concat (replies ++ if accepts (ud_now u) (ud_cmd u) (ud_result u) b then [done_reply u] else []).
Proof.
  intros Hh Hc. unfold push_flush.
  destruct (accepts (ud_now u) (ud_cmd u) (ud_result u) b) eqn:Ea.
  - pose proof (push_holds (ud_now u) (ud_later u) _ _ _ _ Hh Hc Ea) as Hp.
    destruct (push _ _ _ _ _) as [full b1]. simpl in Hp. destruct full; simpl.
    + exists []. destruct (flush_holds _ _ Hp) as [Hf Hh']. split; [done|].
      rewrite app_nil_r. apply (holds_buffer _ _ Hp).
    + by exists (replies ++ [done_reply u]).
  - rewrite push_accepts, Ea. exists []. destruct (flush_holds _ _ Hh) as [Hf Hh']. split; [done|].
    rewrite !app_nil_r. apply Hf.
Qed.

Lemma batch_run_holds us b replies :
  batch_holds b replies -> Forall (fun u => cmd_wf (ud_cmd u)) us ->
  let '(written, ts, b') := batch_run us b in
  exists rest, batch_holds b' rest /\ written ++ concat rest = concat (replies ++ ts).
Proof.
  intros Hh Hus. revert b replies Hh. induction Hus as [|u us Hc Hus IH]; intros b replies Hh; simpl.
  - exists replies. by rewrite app_nil_r.
  - destruct (push_flush_holds u b replies Hh Hc) as (rest & Hrest & Heq).
    destruct (push_flush u b) as [batch b']. simpl in *. specialize (IH b' rest Hrest).
    destruct (batch_run us b') as [[written ts] b'']. destruct IH as (rest' & Hr' & Heq').
    exists rest'. split; [done|]. rewrite <- app_assoc, Heq', concat_app, app_assoc, Heq.
    by rewrite <- concat_app, app_assoc.
Qed.

(** ** When nothing is lost *)

(** Consecutive sequence numbers from [n] on. *)
Fixpoint sequential (n : Z) (us : list urb_done) : Prop :=
  match us with
  | [] => True
  | u :: us => cs_seqnum (ud_cmd u) = n /\ sequential (wrap 32 (n + 1)) us
  end.

(** Every clock reading in one window shorter than the timeout, and replies of
    at most an eighth of the capacity. *)
Definition prompt (t0 timeout : Z) (u : urb_done) : Prop :=
  t0 <= ud_now u < t0 + timeout /\ t0 <= ud_later u < t0 + timeout
  /\ zlen (done_reply u) <= 8192 /\ cmd_wf (ud_cmd u).

(** What makes the next prompt URB acceptable. *)
Record ready (t0 n : Z) (b : UrbBatcher) : Prop := {
  ready_seq : forall last, last_seqnum b = Some last -> wrap 32 (last + 1) = n;
  ready_start : forall st, batch_start b = Some st -> t0 <= st;
  ready_timeout : timeout b = DEFAULT_BATCH_TIMEOUT;
  ready_max : max_batch b = DEFAULT_BATCH_SIZE;
  ready_count : (count b < DEFAULT_BATCH_SIZE)%nat;
  ready_room : zlen (buffer b) <= 8192 * Z.of_nat (count b)
}.

Lemma ready_accepts t0 n b u :
  ready t0 n b -> cs_seqnum (ud_cmd u) = n -> prompt t0 DEFAULT_BATCH_TIMEOUT u ->
  accepts (ud_now u) (ud_cmd u) (ud_result u) b = true.
Proof.
  intros [Hs Hst Ht Hm Hc Hr] Hn ((Hn1 & Hn2) & (Hl1 & Hl2) & Hz & Hw). unfold accepts.
  rewrite !andb_true_iff, !negb_true_iff. split_and!.
  - unfold non_sequential. destruct (last_seqnum b) as [last|]; [|done]. rewrite (Hs last eq_refl), Hn.
    by rewrite Z.eqb_refl.
  - unfold batch_full. rewrite Hm. destruct (Nat.leb_spec DEFAULT_BATCH_SIZE (count b)); [lia|done].
  - unfold timer_expired. destruct (batch_start b) as [st|]; [|done]. specialize (Hst st eq_refl).
    rewrite Ht. unfold elapsed. destruct (Z.leb_spec DEFAULT_BATCH_TIMEOUT (Z.max 0 (ud_now u - st))); [|done].
    unfold DEFAULT_BATCH_TIMEOUT in *. lia.
  - apply Z.leb_le. unfold MAX_BATCH_CAPACITY, DEFAULT_BATCH_SIZE, done_reply in *. lia.
Qed.

Lemma ready_step t0 n b u :
  ready t0 n b -> cs_seqnum (ud_cmd u) = n -> prompt t0 DEFAULT_BATCH_TIMEOUT u ->
  ready t0 (wrap 32 (n + 1)) (snd (push_flush u b)).
Proof.
  intros Hr Hn Hp. pose proof (ready_accepts _ _ _ _ Hr Hn Hp) as Ha. unfold push_flush.
  rewrite push_accepts, Ha. destruct Hr as [Hs Hst Ht Hm Hc Hz], Hp as ((Hn1 & Hn2) & (Hl1 & Hl2) & Hl & Hw).
  rewrite Hm. destruct (Nat.leb_spec DEFAULT_BATCH_SIZE (S (count b))) as [Hfull|Hfull]; split; simpl; try done.
  - intros last [= <-]. by rewrite Hn.
  - unfold DEFAULT_BATCH_SIZE. lia.
  - intros last [= <-]. by rewrite Hn.
  - intros st. destruct (batch_start b) as [st'|]; intros [= <-]; [by apply Hst|done].
  - rewrite zlen_app. unfold done_reply in Hl. lia.
Qed.

Lemma batch_run_all t0 n us b :
  ready t0 n b -> sequential n us -> Forall (prompt t0 DEFAULT_BATCH_TIMEOUT) us ->
  snd (fst (batch_run us b)) = map done_reply us.
Proof.
  intros Hr Hs Hus. revert n b Hr Hs. induction Hus as [|u us Hp Hus IH]; intros n b Hr Hs; [done|].
  destruct Hs as [Hn Hs]. simpl. rewrite (ready_accepts _ _ _ _ Hr Hn Hp).
  pose proof (ready_step _ _ _ _ Hr Hn Hp) as Hr'. destruct (push_flush u b) as [batch b'].
  simpl in Hr'. specialize (IH _ _ Hr' Hs). destruct (batch_run us b') as [[w ts] b'']. simpl in *. by rewrite IH.
Qed.

(** ** Theorems *)

(** C13: the batcher neither reorders, duplicates nor changes replies. Over any
    run of pushes with the flushes they ask for, the bytes written followed by
    those still buffered are exactly the concatenation, in order, of the replies
    that were taken in; the buffer stays within 64 KiB and the batch within its
    maximum. *)
Theorem batch_run_exact us max t :
  Forall (fun u => cmd_wf (ud_cmd u)) us ->
  let '(written, ts, b') := batch_run us (with_config max t) in
  written ++ buffer b' = concat ts
  /\ zlen (buffer b') <= MAX_BATCH_CAPACITY /\ (count b' <= Nat.max 1 (max_batch b'))%nat.
Proof.
  intros Hus. pose proof (batch_run_holds us _ [] (holds_new max t) Hus) as Hr.
  destruct (batch_run us (with_config max t)) as [[w ts] b']. destruct Hr as (rest & Hh & Heq).
  destruct Hh as [Hb _ _ _ Hcap Hmax]. split_and!; [by rewrite Hb|done|done].
Qed.

(** Nothing is lost on an orderly burst. When the sequence numbers are
    consecutive, every reply takes at most 8 KiB and all of it happens within
    one timeout, the bytes written followed by those still buffered are the
    replies to all the URBs, in order. *)
Theorem batch_run_complete us t0 n :
  sequential n us -> Forall (prompt t0 DEFAULT_BATCH_TIMEOUT) us ->
  let '(written, _, b') := batch_run us batcher_new in
  written ++ buffer b' = concat (map done_reply us).
Proof.
  intros Hs Hus.
  assert (Hr : ready t0 n batcher_new) by (split; simpl; try done; unfold DEFAULT_BATCH_SIZE; lia).
  pose proof (batch_run_all _ _ _ _ Hr Hs Hus) as Hall.
  assert (Hcw : Forall (fun u => cmd_wf (ud_cmd u)) us)
    by (eapply Forall_impl; [exact Hus|]; by intros u (_ & _ & _ & ?)).
  pose proof (batch_run_holds us _ [] (holds_new DEFAULT_BATCH_SIZE DEFAULT_BATCH_TIMEOUT) Hcw) as Hh.
  change (with_config DEFAULT_BATCH_SIZE DEFAULT_BATCH_TIMEOUT) with batcher_new in Hh.
  destruct (batch_run us batcher_new) as [[w ts] b']. simpl in Hall. subst ts.
  destruct Hh as (rest & Hh & Heq). by rewrite (holds_buffer _ _ Hh).
Qed.

(** A reply is lost whenever [push] asks for a flush before inserting. When
    the batch is not empty and the sequence number is not the next one, or the
    timer has expired, or when the reply does not fit, pushing and flushing
    writes the old batch only and leaves no trace of the new reply. *)
Theorem push_flush_loses u b :
  accepts (ud_now u) (ud_cmd u) (ud_result u) b = false ->
  push_flush u b = flush b
  /\ fst (push_flush u b) ++ buffer (snd (push_flush u b)) = buffer b.
Proof.
  intros Ha. unfold push_flush. rewrite push_accepts, Ha. split; [done|]. simpl. apply app_nil_r.
Qed.

(** *** Witnesses *)

Definition sample_done (seq now : Z) : urb_done :=
  {| ud_now := now; ud_later := now;
     ud_cmd := {| cs_seqnum := seq; cs_devid := 1; cs_direction := 1; cs_ep := 0x81;
                  cs_transfer_flags := 0x200; cs_transfer_buffer_length := 8; cs_start_frame := 0;
                  cs_number_of_packets := 0; cs_interval := 0; cs_setup := zeros 8 |};
     ud_result := {| ur_status := 0; ur_actual_length := 1; ur_data := [x07] |} |}.

Lemma batch_run_exact_witness :
  let '(written, ts, b') := batch_run [sample_done 1 0; sample_done 2 1; sample_done 9 2] batcher_new in
  written ++ buffer b' = concat ts /\ length ts = 2%nat.
Proof.
  pose proof (batch_run_exact [sample_done 1 0; sample_done 2 1; sample_done 9 2] DEFAULT_BATCH_SIZE
                DEFAULT_BATCH_TIMEOUT) as Hr.
  assert (Hl : length (snd (fst (batch_run [sample_done 1 0; sample_done 2 1; sample_done 9 2] batcher_new))) = 2%nat)
    by (vm_compute; reflexivity).
  unfold batcher_new in *. destruct (batch_run _ _) as [[w ts] b']. split; [|exact Hl].
  apply Hr. repeat constructor; vm_compute; congruence.
Defined.

Lemma batch_run_complete_witness :
  let '(written, _, b') := batch_run (map (fun n => sample_done n n) (seqZ 1 10)) batcher_new in
  written ++ buffer b' = concat (map done_reply (map (fun n => sample_done n n) (seqZ 1 10))).
Proof.
  apply (batch_run_complete (map (fun n => sample_done n n) (seqZ 1 10)) 0 1).
  - vm_compute. repeat split.
  - repeat constructor; vm_compute; congruence.
Defined.

Lemma push_flush_loses_witness :
  push_flush (sample_done 2 300000) (snd (push_flush (sample_done 1 0) batcher_new))
  = flush (snd (push_flush (sample_done 1 0) batcher_new)).
Proof. apply push_flush_loses. vm_compute. reflexivity. Defined.
