(* ===== verification/Benchmark.v ===== *)
(** * The benchmark program (server/usbip-server/src/bin/benchmark.rs)

    The program times the buffer pool and the batcher and prints statistics, which
    the build reads: it fails when the 99th percentile of a benchmark reaches 5 ms.
    Instants are readings of a clock, in nanoseconds; how numbers are printed is
    left to the formatter. *)

From Stdlib Require Import Floats.SpecFloat.
From stdpp Require Import sorting.
From S2P Require Import Prelude RustStd RustFloat FloatFacts Errors Proto Urb Stream Wire Pool UsbBackend UsbManager Batcher.

Record BenchmarkResult := {
  br_name : string;
  br_iterations : Z;
  br_avg_us : f64;
  br_p50_us : f64;
  br_p95_us : f64;
  br_p99_us : f64;
  br_max_us : f64;
  br_total_time_s : f64
}.

(** ** [compute_stats] *)

(** [sort_by] with [partial_cmp]: a stable sort. *)
Fixpoint insert_sample (x : f64) (l : list f64) : list f64 :=
  match l with
  | [] => [x]
  | y :: l' => if f64_le x y then x :: l else y :: insert_sample x l'
  end.

Definition sort_samples (l : list f64) : list f64 := foldr insert_sample [] l.

(** The unwrapped comparison panics on a NaN, which every sort of two or more
    elements compares with something. *)
Definition sort_by_partial_cmp (l : list f64) : outcome (list f64) :=
  if (2 <=? length l)%nat && existsb f64_is_nan l then Panics else Returns (sort_samples l).

(** [samples[i]]. *)
Definition sample_at (l : list f64) (i : Z) : outcome f64 :=
  match l !! Z.to_nat i with Some x => Returns x | None => Panics end.

(** [Iterator::sum] of numbers starts from -0.0, which changes no sum. *)
Definition f64_sum (l : list f64) : f64 := fold_left f64_add l (S754_zero true).

Definition percent_index (n percent : Z) : Z :=
  f64_as_unsigned USIZE_MAX (f64_mul (f64_of_Z n) (f64_ratio percent 100)).

Definition compute_stats (samples : list f64) (name : string) (iterations total_time : Z) : outcome BenchmarkResult :=
  let! samples := sort_by_partial_cmp samples in
  let n := zlen samples in
  let sum := f64_sum samples in
  let avg := f64_div sum (f64_of_Z n) in
  let! p50 := sample_at samples (percent_index n 50) in
  let! p95 := sample_at samples (percent_index n 95) in
  let! p99 := sample_at samples (percent_index n 99) in
  if n =? 0 then Panics else
  let! max := sample_at samples (n - 1) in
  Returns {| br_name := name; br_iterations := iterations; br_avg_us := avg; br_p50_us := p50; br_p95_us := p95;
             br_p99_us := p99; br_max_us := max; br_total_time_s := as_secs_f64 total_time |}.

(** ** The benchmarks *)

(** What the clock shows: at the start, in each iteration, at the end. *)
Record Readings := {
  rd_start : Z;
  rd_iter : nat -> nat -> Z;
  rd_end : Z
}.

Definition sample_us (t0 t1 : Z) : f64 := f64_mul (as_secs_f64 (elapsed t0 t1)) (f64_of_Z 1000000).

Section Benchmark.
Context {Q : Type} `{!BoundedQueue Q UrbBuffer}.

(** The loop body acquires a buffer, which goes back to the pool at its end. *)
Fixpoint pool_iterations (n i : nat) (clock : nat -> nat -> Z) (pool : UrbBufferPool) : list f64 * UrbBufferPool :=
  match n with
  | O => ([], pool)
  | S n =>
      let '(buf, pool) := acquire pool in
      let sample := sample_us (clock i 0%nat) (clock i 1%nat) in
      let pool := pooled_drop buf pool in
      let '(samples, pool) := pool_iterations n (S i) clock pool in
      (sample :: samples, pool)
  end.

Definition bench_pool_acquire_release (rd : Readings) (iterations : Z) (capacity : nat) : outcome BenchmarkResult :=
  let pool := pool_new capacity 1024 in
  let '(samples, _) := pool_iterations (Z.to_nat iterations) 0 (rd_iter rd) pool in
  compute_stats samples ("pool_acquire_" +:+ pretty capacity +:+ "_byte") iterations (elapsed (rd_start rd) (rd_end rd)).

Definition bench_cmd : UsbIpCmdSubmit :=
  {| cs_seqnum := 1; cs_devid := 1; cs_direction := 1; cs_ep := 0x81; cs_transfer_flags := URB_DIR_IN;
     cs_transfer_buffer_length := 64; cs_start_frame := 0; cs_number_of_packets := 0; cs_interval := 0;
     cs_setup := zeros 8 |}.

Definition bench_result : UrbResult :=
  {| ur_status := 0; ur_actual_length := 64; ur_data := replicate 64 xab |}.

(** The loop; the second result is what the flushes return, which the program drops. *)
Fixpoint batcher_iterations (n i : nat) (clock : nat -> nat -> Z) (b : UrbBatcher) : list f64 * list (list byte) :=
  match n with
  | O => ([], [])
  | S n =>
      let b := snd (push (clock i 1%nat) (clock i 2%nat) bench_cmd bench_result b) in
      let '(flushed, b) := if (i mod 8 =? 7)%nat then let '(batch, b) := flush b in ([batch], b) else ([], b) in
      let sample := sample_us (clock i 0%nat) (clock i 3%nat) in
      let '(samples, batches) := batcher_iterations n (S i) clock b in
      (sample :: samples, flushed ++ batches)
  end.

Definition bench_batcher_push_flush (rd : Readings) (iterations : Z) : outcome BenchmarkResult :=
  let '(samples, _) := batcher_iterations (Z.to_nat iterations) 0 (rd_iter rd) batcher_new in
  compute_stats samples "batcher_push_flush" iterations (elapsed (rd_start rd) (rd_end rd)).

(** ** [main] *)

Inductive BenchOutput :=
| JsonOutput (benchmarks : list BenchmarkResult) (p99_pass : bool)
| TextOutput (lines : list BenchmarkResult).

Definition p99_pass (results : list BenchmarkResult) : bool :=
  forallb (fun r => f64_lt (br_p99_us r) (f64_of_Z 5000)) results.

Definition bench_main (rd1 rd2 rd3 : Readings) (iterations : Z) (format : string) : outcome BenchOutput :=
  let! r1 := bench_pool_acquire_release rd1 iterations 64 in
  let! r2 := bench_pool_acquire_release rd2 iterations (16 * 1024) in
  let! r3 := bench_batcher_push_flush rd3 iterations in
  let results := [r1; r2; r3] in
  Returns (if bool_decide (format = "json") then JsonOutput results (p99_pass results) else TextOutput results).
End Benchmark.

(** ** Sorting *)

Definition sample_le (x y : f64) : Prop := f64_le x y = true.

Lemma insert_sample_perm x l : insert_sample x l ≡ₚ x :: l.
Proof. induction l as [|y l IH]; simpl; [done|]. case_match; [done|]. rewrite IH. constructor. Qed.

Lemma sort_samples_perm l : sort_samples l ≡ₚ l.
Proof. induction l as [|x l IH]; simpl; [done|]. by rewrite insert_sample_perm, IH. Qed.

Lemma le_all_trans x y l : f64_nonneg x -> f64_nonneg y -> Forall f64_nonneg l ->
  sample_le x y -> Forall (sample_le y) l -> Forall (sample_le x) l.
Proof. rewrite !Forall_forall. intros Hx Hy Hl Hxy Hyl z Hz. apply (f64_le_trans x y z); auto. by apply Hyl. Qed.

Lemma insert_sample_sorted x l : f64_nonneg x -> Forall f64_nonneg l ->
  StronglySorted sample_le l -> StronglySorted sample_le (insert_sample x l).
Proof.
  intros Hx Hl Hs. induction Hs as [|y l Hs IH Hy]; simpl; [by repeat constructor|]. decompose_Forall_hyps.
  destruct (f64_le x y) eqn:E; constructor; [by constructor|constructor; [done|by eapply le_all_trans]|by apply IH|].
  rewrite insert_sample_perm. constructor; [|done].
  destruct (f64_le_total x y) as [H2|H2]; [by apply nonneg_not_nan..|congruence|by apply f64_lt_le].
Qed.

Lemma sort_samples_sorted l : Forall f64_nonneg l -> StronglySorted sample_le (sort_samples l).
Proof.
  induction 1 as [|x l Hx Hl IH]; simpl; [constructor|]. apply insert_sample_sorted; [done| |done].
  by rewrite sort_samples_perm.
Qed.

(** How many samples are under a bound. *)
Definition count_under (c : f64) (l : list f64) : nat := length (filter (fun x => f64_lt x c = true) l).

#[export] Instance count_under_proper c : Proper ((≡ₚ) ==> eq) (count_under c).
Proof. intros l1 l2 H. unfold count_under. by rewrite H. Qed.

(** In a sorted list the samples under a bound come first. *)
Lemma sorted_rank c l k x : f64_nonneg c -> Forall f64_nonneg l -> StronglySorted sample_le l -> l !! k = Some x ->
  f64_lt x c = true <-> (k < count_under c l)%nat.
Proof.
  intros Hc Hl Hs. revert k. induction Hs as [|y l Hs IH Hy]; intros k Hk; [done|]. decompose_Forall_hyps.
  unfold count_under in *. rewrite filter_cons. case_decide as Hd.
  - destruct k as [|k]; simplify_eq/=; [split; [lia|done]|]. rewrite IH by done. lia.
  - assert (Hcy : sample_le c y) by (by destruct (f64_le_total c y) as [|]; [apply nonneg_not_nan..| |]).
    assert (Hall : Forall (fun z => f64_lt z c <> true) l).
    { eapply Forall_impl; [by apply (le_all_trans c y l)|]. intros z Hz Hlt. apply f64_lt_not_le in Hlt.
      unfold sample_le in Hz. congruence. }
    rewrite (filter_none _ l Hall). simpl.
    split; [|lia]. destruct k as [|k]; simplify_eq/=; [done|]. intros Hlt. eapply Forall_lookup_1 in Hall; [|done]. done.
Qed.

(** ** The statistics *)

Lemma percent_index_exact n percent : 0 < n < 2 ^ 40 -> percent ∈ [50; 95; 99] -> percent_index n percent = percent * n / 100.
Proof. rewrite !elem_of_cons. intros Hn [->|[->|[->|H]]]; [by apply half_of|by apply percent_95_of|by apply percent_99_of|by inversion H]. Qed.

(** The sorted sample at a percentage. *)
Definition percentile (percent : Z) (l : list f64) : option f64 := sort_samples l !! Z.to_nat (percent * zlen l / 100).

Lemma sample_at_percent l percent : 0 < zlen l < 2 ^ 40 -> percent ∈ [50; 95; 99] ->
  exists x, sample_at (sort_samples l) (percent_index (zlen l) percent) = Returns x /\ percentile percent l = Some x.
Proof.
  intros Hn Hp. unfold sample_at. rewrite percent_index_exact by done. unfold percentile.
  destruct (lookup_lt_is_Some_2 (sort_samples l) (Z.to_nat (percent * zlen l / 100))) as [x Hx].
  { rewrite sort_samples_perm. assert (0 <= percent < 100) by (rewrite !elem_of_cons in Hp; destruct Hp as [->|[->|[->|H]]]; [lia..|by inversion H]).
    assert (0 <= percent * zlen l / 100 < zlen l); [|unfold zlen in *; lia].
    split; [apply Z.div_pos; lia|apply Z.div_lt_upper_bound; nia]. }
  rewrite Hx. by eexists.
Qed.

Lemma sort_ok l : Forall f64_nonneg l -> sort_by_partial_cmp l = Returns (sort_samples l).
Proof.
  intros Hl. unfold sort_by_partial_cmp. replace (existsb f64_is_nan l) with false; [by rewrite andb_false_r|].
  induction Hl as [|x l Hx Hl IH]; simpl; [done|]. by rewrite (nonneg_not_nan x), <- IH.
Qed.

Lemma zlen_sort l : zlen (sort_samples l) = zlen l.
Proof. unfold zlen. by rewrite sort_samples_perm. Qed.

Lemma compute_stats_returns l name it total : Forall f64_nonneg l -> 0 < zlen l < 2 ^ 40 ->
  exists st, compute_stats l name it total = Returns st
  /\ percentile 50 l = Some (br_p50_us st) /\ percentile 95 l = Some (br_p95_us st) /\ percentile 99 l = Some (br_p99_us st)
  /\ sort_samples l !! pred (length l) = Some (br_max_us st).
Proof.
  intros Hl Hn. unfold compute_stats. rewrite sort_ok by done. rewrite zlen_sort.
  destruct (sample_at_percent l 50) as (x50 & -> & H50); [done|by repeat constructor|].
  destruct (sample_at_percent l 95) as (x95 & -> & H95); [done|by repeat constructor|].
  destruct (sample_at_percent l 99) as (x99 & -> & H99); [done|by repeat constructor|].
  replace (zlen l =? 0) with false by lia. unfold sample_at.
  replace (Z.to_nat (zlen l - 1)) with (pred (length l)) by (unfold zlen in *; lia).
  destruct (lookup_lt_is_Some_2 (sort_samples l) (pred (length l))) as [m Hm].
  { rewrite sort_samples_perm. unfold zlen in *. lia. }
  rewrite Hm. by eexists.
Qed.

Lemma sample_us_nonneg t0 t1 : f64_nonneg (sample_us t0 t1).
Proof. apply f64_mul_nonneg; [|done]. apply as_secs_f64_nonneg. unfold elapsed. lia. Qed.

(** The samples of the two loops: one for each iteration, of the same readings
    whatever pool and batcher do. *)
Definition pool_samples (clock : nat -> nat -> Z) (n : nat) : list f64 :=
  map (fun i => sample_us (clock i 0%nat) (clock i 1%nat)) (seq 0 n).

Definition batcher_samples (clock : nat -> nat -> Z) (n : nat) : list f64 :=
  map (fun i => sample_us (clock i 0%nat) (clock i 3%nat)) (seq 0 n).

Lemma map_samples_nonneg (f g : nat -> Z) l : Forall f64_nonneg (map (fun i => sample_us (f i) (g i)) l).
Proof. induction l; constructor; [apply sample_us_nonneg|done]. Qed.

Section Loops.
Context {Q : Type} `{!BoundedQueue Q UrbBuffer}.

Lemma pool_iterations_samples n i clock (pool : UrbBufferPool (Q := Q)) :
  fst (pool_iterations n i clock pool) = map (fun i => sample_us (clock i 0%nat) (clock i 1%nat)) (seq i n).
Proof.
  revert i pool. induction n as [|n IH]; intros i pool; simpl; [done|]. destruct (acquire pool) as [buf p].
  specialize (IH (S i) (pooled_drop buf p)). destruct (pool_iterations n (S i) clock _). simpl in *. by rewrite IH.
Qed.

Lemma batcher_iterations_samples n i clock b :
  fst (batcher_iterations n i clock b) = map (fun i => sample_us (clock i 0%nat) (clock i 3%nat)) (seq i n).
Proof.
  revert i b. induction n as [|n IH]; intros i b; simpl; [done|].
  destruct (if (i mod 8 =? 7)%nat then _ else _) as [fl b'].
  specialize (IH (S i) b'). destruct (batcher_iterations n (S i) clock b'). simpl in *. by rewrite IH.
Qed.

(** *** The pool *)

(** Taking a buffer from a filled pool and giving it back changes nothing. *)
Lemma acquire_drop (pool : UrbBufferPool (Q := Q)) b l :
  q_contents (queue pool) = b :: l -> UrbBuffer_reset b = b -> (length (b :: l) <= q_capacity (queue pool))%nat ->
  exists buf pool', acquire pool = (buf, pool') /\ pb_inner buf = Some b
    /\ q_contents (queue (pooled_drop buf pool')) = l ++ [b]
    /\ q_capacity (queue (pooled_drop buf pool')) = q_capacity (queue pool).
Proof.
  intros Hq Hb Hcap. destruct (q_pop_spec b l (queue pool) Hq) as (q' & Hpop & Hc & Hk).
  unfold acquire. rewrite Hpop. eexists _, _. split; [done|]. split; [done|]. unfold pooled_drop. cbn [pb_inner pb_pool queue set_queue].
  rewrite Hb. destruct (q_push_spec b q') as (q'' & -> & Hc' & Hk'); [rewrite Hc, Hk; simpl in Hcap; lia|].
  simpl. rewrite Hc', Hc, Hk', Hk. done.
Qed.

Lemma pool_iterations_full n i clock (pool : UrbBufferPool (Q := Q)) cap size :
  q_contents (queue pool) = replicate (S size) (UrbBuffer_new cap) -> (S size <= q_capacity (queue pool))%nat ->
  q_contents (queue (snd (pool_iterations n i clock pool))) = replicate (S size) (UrbBuffer_new cap).
Proof.
  revert i pool. induction n as [|n IH]; intros i pool Hq Hcap; simpl; [done|].
  destruct (acquire_drop pool (UrbBuffer_new cap) (replicate size (UrbBuffer_new cap))) as (buf & p & -> & _ & Hc & Hk).
  - done.
  - apply (reset_is_new cap), buffer_shape_new.
  - simpl. rewrite length_replicate. done.
  - specialize (IH (S i) (pooled_drop buf p)). destruct (pool_iterations n (S i) clock _). simpl in IH. apply IH.
    + rewrite Hc. symmetry. apply replicate_S_end.
    + by rewrite Hk.
Qed.

(** *** The batcher *)

(** The batcher between two flushes of the benchmark: empty, or with one reply. *)
Definition bench_empty (b : UrbBatcher) : Prop :=
  buffer b = [] /\ count b = 0%nat /\ max_batch b = 8%nat /\ batch_start b = None.

Definition bench_one (b : UrbBatcher) : Prop :=
  buffer b = reply_of bench_cmd bench_result /\ count b = 1%nat /\ max_batch b = 8%nat /\ last_seqnum b = Some 1.

Lemma bench_push_empty now later b : bench_empty b -> bench_one (snd (push now later bench_cmd bench_result b)).
Proof.
  intros (Hb & Hc & Hm & Hs). rewrite push_accepts. unfold accepts, non_sequential, batch_full, timer_expired, is_nonempty.
  rewrite Hs, Hb, Hc, Hm. rewrite bool_decide_eq_true_2 by done. cbn [negb].
  replace (match last_seqnum b with Some last => _ | None => false end) with false
    by (destruct (last_seqnum b); [by rewrite andb_false_r|done]).
  replace (_ && _ && _ && _) with true by (vm_compute; reflexivity). by repeat split.
Qed.

Lemma bench_push_one now later b : bench_one b -> push now later bench_cmd bench_result b = (true, b).
Proof.
  intros (Hb & Hc & Hm & Hs). unfold push, non_sequential, is_nonempty. rewrite Hs, Hb.
  by replace (negb (bool_decide (reply_of bench_cmd bench_result = []))) with true by (vm_compute; reflexivity).
Qed.

Lemma bench_flush_one b : bench_one b -> flush b = (reply_of bench_cmd bench_result, snd (flush b)) /\ bench_empty (snd (flush b)).
Proof. intros (Hb & Hc & Hm & Hs). unfold flush. rewrite Hb. by repeat split. Qed.

Lemma next_mod_8 i : (S i mod 8 =? 0)%nat = (i mod 8 =? 7)%nat /\ (S i / 8 = if (i mod 8 =? 7)%nat then S (i / 8) else i / 8)%nat.
Proof.
  pose proof (Nat.div_mod_eq i 8). pose proof (Nat.mod_upper_bound i 8 ltac:(lia)).
  pose proof (Nat.div_mod_eq (S i) 8). pose proof (Nat.mod_upper_bound (S i) 8 ltac:(lia)).
  split; [apply eq_true_iff_eq; rewrite !Nat.eqb_eq|destruct (Nat.eqb_spec (i mod 8) 7)]; lia.
Qed.

(** After iteration [i] the batcher holds one reply, unless [i] was flushed. *)
Lemma batcher_iterations_one n i clock b :
  (if (i mod 8 =? 0)%nat then bench_empty b else bench_one b) ->
  Forall (eq (reply_of bench_cmd bench_result)) (snd (batcher_iterations n i clock b))
  /\ length (snd (batcher_iterations n i clock b)) = ((i + n) / 8 - i / 8)%nat.
Proof.
  revert i b. induction n as [|n IH]; intros i b Hb; cbn [batcher_iterations snd].
  { split; [constructor|]. rewrite Nat.add_0_r. simpl. lia. }
  assert (Hone : bench_one (snd (push (clock i 1%nat) (clock i 2%nat) bench_cmd bench_result b))).
  { destruct (i mod 8 =? 0)%nat; [by apply bench_push_empty|by rewrite bench_push_one]. }
  set (b1 := snd (push _ _ _ _ b)) in *. destruct (next_mod_8 i) as [Hmod Hdiv].
  pose proof (Nat.Div0.div_le_mono (S i) (S i + n) 8 ltac:(lia)). rewrite <- Nat.add_succ_comm.
  destruct (i mod 8 =? 7)%nat.
  - destruct (bench_flush_one b1 Hone) as [-> He]. specialize (IH (S i) (snd (flush b1))).
    rewrite Hmod in IH. specialize (IH He).
    destruct (batcher_iterations n (S i) clock _) as [samples batches]. simpl in *. destruct IH as [IH1 IH2].
    split; [by constructor|]. rewrite IH2. lia.
  - specialize (IH (S i) b1). rewrite Hmod in IH. specialize (IH Hone).
    destruct (batcher_iterations n (S i) clock b1) as [samples batches]. simpl in *. destruct IH as [IH1 IH2].
    split; [done|]. rewrite IH2. lia.
Qed.
End Loops.

(** ** Theorems *)

Section Theorems.
Context {Q : Type} `{!BoundedQueue Q UrbBuffer}.

(** The samples below 5 ms are more than 99 percent of all, rounded down. *)
Definition under_5ms (l : list f64) : Prop := (Z.to_nat (99 * zlen l / 100) < count_under (f64_of_Z 5000) l)%nat.

Lemma stats_gate l name it total : Forall f64_nonneg l -> 0 < zlen l < 2 ^ 40 -> exists st,
  compute_stats l name it total = Returns st /\ (f64_lt (br_p99_us st) (f64_of_Z 5000) = true <-> under_5ms l).
Proof.
  intros Hl Hn. destruct (compute_stats_returns l name it total Hl Hn) as (st & Hst & _ & _ & H99 & _).
  exists st. split; [done|]. unfold under_5ms, percentile in *. rewrite <- (sort_samples_perm l) at 2.
  apply sorted_rank; [done|by rewrite sort_samples_perm|by apply sort_samples_sorted|done].
Qed.

Lemma pool_bench_gate (rd : Readings) it cap : 0 < it < 2 ^ 32 -> exists st,
  bench_pool_acquire_release (Q := Q) rd it cap = Returns st
  /\ (f64_lt (br_p99_us st) (f64_of_Z 5000) = true <-> under_5ms (pool_samples (rd_iter rd) (Z.to_nat it))).
Proof.
  intros Hit. unfold bench_pool_acquire_release.
  pose proof (pool_iterations_samples (Z.to_nat it) 0 (rd_iter rd) (pool_new (Q := Q) cap 1024)) as Hs.
  destruct (pool_iterations _ _ _ _) as [samples p]. cbn [fst] in Hs. subst samples.
  apply stats_gate; [apply map_samples_nonneg|]. unfold pool_samples, batcher_samples, zlen. rewrite length_map, length_seq. lia.
Qed.

Lemma batcher_bench_gate (rd : Readings) it : 0 < it < 2 ^ 32 -> exists st,
  bench_batcher_push_flush rd it = Returns st
  /\ (f64_lt (br_p99_us st) (f64_of_Z 5000) = true <-> under_5ms (batcher_samples (rd_iter rd) (Z.to_nat it))).
Proof.
  intros Hit. unfold bench_batcher_push_flush.
  pose proof (batcher_iterations_samples (Z.to_nat it) 0 (rd_iter rd) batcher_new) as Hs.
  destruct (batcher_iterations _ _ _ _) as [samples bs]. cbn [fst] in Hs. subst samples.
  apply stats_gate; [apply map_samples_nonneg|]. unfold pool_samples, batcher_samples, zlen. rewrite length_map, length_seq. lia.
Qed.

(** C36: The performance gate is exact: with any number of iterations but 0 (a u32) and
    whatever the clock shows, the program prints a JSON report of three benchmarks, and
    [p99_pass] is true exactly if in each of them the iterations that took less than
    5 ms are more than 99 percent of all, rounded down: the percentile, whose index is
    computed with floating-point numbers, is the one computed with integers. *)
Theorem perf_gate_exact rd1 rd2 rd3 it : 0 < it < 2 ^ 32 -> exists results pass,
  bench_main (Q := Q) rd1 rd2 rd3 it "json" = Returns (JsonOutput results pass) /\ length results = 3%nat
  /\ (pass = true <-> under_5ms (pool_samples (rd_iter rd1) (Z.to_nat it))
                      /\ under_5ms (pool_samples (rd_iter rd2) (Z.to_nat it))
                      /\ under_5ms (batcher_samples (rd_iter rd3) (Z.to_nat it))).
Proof.
  intros Hit. destruct (pool_bench_gate rd1 it 64 Hit) as (r1 & Hr1 & H1).
  destruct (pool_bench_gate rd2 it (16 * 1024) Hit) as (r2 & Hr2 & H2).
  destruct (batcher_bench_gate rd3 it Hit) as (r3 & Hr3 & H3).
  exists [r1; r2; r3], (p99_pass [r1; r2; r3]). unfold bench_main. rewrite Hr1, Hr2, Hr3.
  split; [done|]. split; [done|]. unfold p99_pass. cbn [forallb]. rewrite !andb_true_iff, H1, H2, H3. tauto.
Qed.

(** With [--iterations 0] the program panics on the empty list of samples. *)
Theorem zero_iterations_panic rd1 rd2 rd3 format : bench_main (Q := Q) rd1 rd2 rd3 0 format = Panics.
Proof. reflexivity. Qed.

(** What the two benchmarks exercise: the pool benchmark never allocates, its pool
    is full after any number of iterations; but the batcher benchmark submits the
    same sequence number over and over, so of eight pushes only the first puts a
    reply into the batch, and each flush returns a batch of one. *)
Theorem benchmarks_exercise clock n cap :
  q_contents (queue (snd (pool_iterations (Q := Q) n 0 clock (pool_new cap 1024)))) = replicate 1024 (UrbBuffer_new cap)
  /\ (let batches := snd (batcher_iterations n 0 clock batcher_new) in
      Forall (eq (reply_of bench_cmd bench_result)) batches /\ length batches = (n / 8)%nat).
Proof.
  split.
  - destruct (push_buffers_spec false 1024 cap (q_new 4096)) as [Hc Hk];
      destruct (q_new_spec (Q := Q) (A := UrbBuffer) 4096) as [Hn Hk4]; [lia|rewrite Hn, Hk4; simpl; lia|lia|].
    change 1024%nat with (S 1023). apply pool_iterations_full.
    + unfold pool_new. cbn [queue]. change (Nat.max (S 1023 * 4) 4096) with 4096%nat. change (S 1023) with 1024%nat. rewrite Hc, Hn. done.
    + unfold pool_new. cbn [queue]. change (Nat.max (S 1023 * 4) 4096) with 4096%nat. change (S 1023) with 1024%nat. rewrite Hk, Hk4. lia.
  - destruct (batcher_iterations_one n 0 clock batcher_new) as [H1 H2]; [done|]. split; [done|].
    rewrite H2. simpl. lia.
Qed.
End Theorems.

(** A clock that advances by 2 microseconds at each reading: every sample is 2 us. *)
Definition steady : Readings := {| rd_start := 0; rd_iter := fun i j => 2000 * Z.of_nat (4 * i + j); rd_end := 80000 |}.

Lemma perf_gate_exact_witness : exists results pass,
  bench_main (Q := nat * list UrbBuffer) steady steady steady 3 "json" = Returns (JsonOutput results pass) /\ pass = true.
Proof.
  destruct (perf_gate_exact (Q := nat * list UrbBuffer) steady steady steady 3) as (rs & pass & Hm & _ & Hp); [lia|].
  exists rs, pass. split; [exact Hm|]. apply Hp. split; [vm_compute; lia|]. split; vm_compute; lia.
Defined.
