(* ===== verification/Server.v ===== *)
(** * The server's connection handler (server/usbip-server/src/server.rs)

    [handle_client] and the three handlers it dispatches to, for one connection:
    the connection's stream, the device manager and the export table it shares
    with the other connections.  The URB loop takes fuel; one step per byte still
    to be received is enough ([urb_loop_fuel]).  What the environment delivers is
    in the record [Env]: whether TCP_NODELAY could be set, the key pair and the
    nonces of an encrypted connection, and the clock readings of each URB. *)

From S2P Require Import Prelude RustStd Errors Proto Urb Stream Wire Crypto CryptoStream.
From S2P Require Import Bandwidth UsbBackend UsbManager Batcher.

Record ServerConfig := {
  sc_bind_address : string;
  sc_port : Z;
  sc_allowed_vid_pid : list (Z * Z);
  sc_require_confirmation : bool;
  sc_encryption_enabled : bool;
  sc_tcp_nodelay : bool;
  sc_max_bandwidth : BandwidthLimit;
  sc_per_client_bandwidth : option BandwidthLimit
}.

Definition default_config : ServerConfig :=
  {| sc_bind_address := "0.0.0.0"; sc_port := 3240; sc_allowed_vid_pid := [];
     sc_require_confirmation := true; sc_encryption_enabled := false; sc_tcp_nodelay := true;
     sc_max_bandwidth := unlimited; sc_per_client_bandwidth := None |}.

(** The export table: bus id to peer address and device. *)
Definition Exports : Type := gmap string (string * UsbIpDeviceEntry).

Section Server.
Context `{!Ring} {B : Type} `{!UsbBackend B}.

Record Env := {
  env_nodelay : UsbIpResult unit;
  env_keypair : option PrivateKey;
  env_rng : nat -> option (list byte);
  env_clock : nat -> Z * Z
}.

(** A connection and what it shares. *)
Record Conn := {
  cn_stream : Stream;
  cn_usb : UsbDeviceManager (B := B);
  cn_exports : Exports
}.

Definition set_stream (s : Stream) (c : Conn) : Conn :=
  {| cn_stream := s; cn_usb := cn_usb c; cn_exports := cn_exports c |}.
Definition set_usb (m : UsbDeviceManager) (c : Conn) : Conn :=
  {| cn_stream := cn_stream c; cn_usb := m; cn_exports := cn_exports c |}.
Definition set_exports (e : Exports) (c : Conn) : Conn :=
  {| cn_stream := cn_stream c; cn_usb := cn_usb c; cn_exports := e |}.

Definition on_stream {A} (m : io Stream A) : io Conn A := io_zoom cn_stream set_stream m.
Definition on_usb {A} (m : io UsbDeviceManager A) : io Conn A := io_zoom cn_usb set_usb m.

(** ** OP_REQ_DEVLIST *)

Definition devlist_reply (devices : list UsbIpDeviceEntry) : list byte :=
  let ndev := wrap 32 (zlen devices) in
  header_as_bytes (header_new OP_REP_DEVLIST) ++ be_bytes 4 ndev ++ concat (map entry_as_bytes devices).

Definition handle_devlist : io Conn unit :=
  fun c => on_stream (write_all (devlist_reply (list_devices (cn_usb c))) ;;; Stream.flush ;;; io_ret tt) c.

(** ** The URB loop *)

Record Loop := { lp_wire : Wire; lp_batcher : UrbBatcher; lp_usb : UsbDeviceManager (B := B) }.

(** How one iteration ends. *)
Inductive iteration :=
| Continue (l : Loop)
| Break (l : Loop)
| Return (k : ErrorKind) (l : Loop).

(** The data of an OUT command in its frame; [None]: the frame is too short. *)
Definition urb_data (cmd : UsbIpCmdSubmit) (header_payload : list byte) : option (list byte) :=
  let data_len := Z.to_nat (cs_data_len cmd) in
  if negb (cs_is_in cmd) && (0 <? data_len)%nat then
    if (length header_payload <? cmd_HEADER_SIZE + data_len)%nat then None
    else Some (take data_len (drop cmd_HEADER_SIZE header_payload))
  else Some [].

Definition urb_iteration (id : string) (clock : Z * Z) (l : Loop) : iteration :=
  match wire_read_message (lp_wire l) with
  | (Err _, w) => Break {| lp_wire := w; lp_batcher := lp_batcher l; lp_usb := lp_usb l |}
  | (Ok frame, w) =>
      let l := {| lp_wire := w; lp_batcher := lp_batcher l; lp_usb := lp_usb l |} in
      if (length frame <? header_SIZE)%nat then Break l
      else match header_read_from_prefix (take header_SIZE frame) with
      | None => Break l
      | Some (header, _) =>
          if command header =? USBIP_CMD_SUBMIT then
            let header_payload := drop header_SIZE frame in
            if (length header_payload <? cmd_HEADER_SIZE)%nat then Break l
            else match cmd_read_from_prefix (take cmd_HEADER_SIZE header_payload) with
            | None => Break l
            | Some (cmd, _) =>
                match urb_data cmd header_payload with
                | None => Break l
                | Some data =>
                    let '(result, usb) := submit_urb id cmd data (lp_usb l) in
                    let '(full, b) := push (fst clock) (snd clock) cmd result (lp_batcher l) in
                    if full then
                      let '(batch, b) := Batcher.flush b in
                      match wire_write_message batch (lp_wire l) with
                      | (Ok _, w) => Continue {| lp_wire := w; lp_batcher := b; lp_usb := usb |}
                      | (Err k, w) => Return k {| lp_wire := w; lp_batcher := b; lp_usb := usb |}
                      end
                    else Continue {| lp_wire := lp_wire l; lp_batcher := b; lp_usb := usb |}
                end
            end
          else Continue l
      end
  end.

Fixpoint urb_loop (fuel : nat) (id : string) (clock : nat -> Z * Z) (l : Loop)
    : outcome (UsbIpResult unit * Loop) :=
  match fuel with
  | O => OutOfFuel
  | S fuel =>
      match urb_iteration id (clock O) l with
      | Continue l' => urb_loop fuel id (fun i => clock (S i)) l'
      | Break l' => Returns (Ok tt, l')
      | Return k l' => Returns (Err k, l')
      end
  end.

(** What the code does after the loop was left by [break]. *)
Definition urb_loop_end (id : string) (l : Loop) (exports : Exports) : UsbIpResult unit * Conn :=
  let '(batch, b) := Batcher.flush (lp_batcher l) in
  let w := if batcher_is_empty (lp_batcher l) then lp_wire l
           else snd (wire_write_message batch (lp_wire l)) in
  match release_device id (lp_usb l) with
  | (Ok _, usb) =>
      (Ok tt, {| cn_stream := wire_inner w; cn_usb := usb; cn_exports := delete id exports |})
  | (Err k, usb) => (Err k, {| cn_stream := wire_inner w; cn_usb := usb; cn_exports := exports |})
  end.

Definition handle_urb_loop (fuel : nat) (env : Env) (id : string) (w : Wire)
    (usb : UsbDeviceManager) (exports : Exports) : outcome (UsbIpResult unit * Conn) :=
  let! (r, l) := urb_loop fuel id (env_clock env)
                   {| lp_wire := w; lp_batcher := batcher_new; lp_usb := usb |} in
  match r with
  | Ok _ => Returns (urb_loop_end id l exports)
  | Err k => Returns (Err k, {| cn_stream := wire_inner (lp_wire l); cn_usb := lp_usb l;
                                cn_exports := exports |})
  end.

(** ** OP_REQ_IMPORT *)

Definition request_busid (busid_buf : list byte) : string :=
  from_utf8_lossy (take (default 32%nat (position_zero busid_buf)) busid_buf).

Definition import_reply (e : UsbIpDeviceEntry) (descriptors : list byte) : list byte :=
  header_as_bytes (header_new OP_REP_IMPORT) ++ entry_as_bytes e ++ descriptors.

Definition import_refusal (status : Z) : list byte :=
  header_as_bytes (header_with_status OP_REP_IMPORT status).

(** How the handshake of an import ends: refused with a reply, or accepted, with
    the bus id, ready for the URB phase. *)
Inductive handshake := Refused | Accepted (id : string).

Definition import_handshake (peer_addr : string) : io Conn handshake :=
  busid_buf <-- on_stream (read_exact 32);;
  let id := request_busid busid_buf in
  fun c =>
    match get_device_entry id (cn_usb c) with
    | None =>
        (on_stream (write_all (import_refusal STATUS_ST_NODEV) ;;; Stream.flush) ;;; io_ret Refused) c
    | Some device_entry =>
        match cn_exports c !! id with
        | Some _ => (on_stream (write_all (import_refusal STATUS_ST_DEV_BUSY)) ;;; io_ret Refused) c
        | None =>
            (on_usb (claim_device id) ;;;
             descriptors <-- on_usb (get_descriptor_tree id);;
             on_stream (write_all (import_reply device_entry descriptors) ;;; Stream.flush) ;;;
             io_ret (Accepted id))
              (set_exports (<[id := (peer_addr, device_entry)]> (cn_exports c)) c)
        end
    end.

Definition handle_import (fuel : nat) (env : Env) (encryption_enabled : bool) (peer_addr : string)
    (c : Conn) : outcome (UsbIpResult unit * Conn) :=
  match import_handshake peer_addr c with
  | (Err k, c) => Returns (Err k, c)
  | (Ok Refused, c) => Returns (Ok tt, c)
  | (Ok (Accepted id), c) =>
      if encryption_enabled then
        match wire_encrypted (env_keypair env) peer_addr (env_rng env) (cn_stream c) with
        | (Ok w, _) => handle_urb_loop fuel env id w (cn_usb c) (cn_exports c)
        | (Err k, s) => Returns (Err k, set_stream s c)
        end
      else handle_urb_loop fuel env id (wire_plain (cn_stream c) peer_addr) (cn_usb c) (cn_exports c)
  end.

(** ** [handle_client] *)

Definition handle_client (fuel : nat) (env : Env) (config : ServerConfig) (peer_addr : string)
    (c : Conn) : outcome (UsbIpResult unit * Conn) :=
  match (if sc_tcp_nodelay config then env_nodelay env else Ok tt) with
  | Err k => Returns (Err k, c)
  | Ok _ =>
      match on_stream (read_exact header_SIZE) c with
      | (Err k, c) => Returns (Err k, c)
      | (Ok header_buf, c) =>
          match header_read_from_prefix header_buf with
          | None => Returns (Err (Protocol "invalid header"), c)
          | Some (header, _) =>
              if command header =? OP_REQ_DEVLIST then Returns (handle_devlist c)
              else if command header =? OP_REQ_IMPORT then
                handle_import fuel env (sc_encryption_enabled config) peer_addr c
              else Returns (Ok tt, c)
          end
      end
  end.

(** ** Termination *)

Lemma wire_read_shrinks w f w' :
  wire_read_message w = (Ok f, w') -> (length (rx (wire_inner w')) < length (rx (wire_inner w)))%nat.
Proof.
  destruct w as [s peer|t]; simpl.
  - destruct (read_message s) as [r s'] eqn:E. intros [= -> <-]. simpl.
    apply read_message_cases in E as (fr & Hw & -> & -> & _).
    apply frame_bytes_length in Hw. rewrite length_app. lia.
  - destruct (tunnel_read_message t) as [r t'] eqn:E. intros [= -> <-]. simpl.
    apply tunnel_read_Ok in E as (ct & l & _ & _ & Hrx & ->). rewrite Hrx. unfold tunnel_frame. simpl. len_solve.
Qed.

Lemma io_write_rx data (s : Stream) :
  rx (snd ((write_all data ;;; Stream.flush ;;; io_ret tt) s)) = rx s.
Proof.
  unfold io_bind. destruct (write_all data s) as [[[]|k] s'] eqn:E;
    apply write_all_extends in E as (Hrx & _); exact Hrx.
Qed.

Lemma wire_write_rx data w r w' :
  wire_write_message data w = (r, w') -> rx (wire_inner w') = rx (wire_inner w).
Proof.
  destruct w as [s peer|t]; simpl.
  - pose proof (io_write_rx data s) as Hrx. unfold write_message.
    destruct ((write_all data ;;; Stream.flush ;;; io_ret tt) s) as [q s'].
    intros [= <- <-]. exact Hrx.
  - unfold tunnel_write_message, io_zoom. rewrite io_bind_result. simpl.
    destruct (encryption_error _) as [ct|k]; [|by intros [= <- <-]].
    pose proof (io_write_rx (be_bytes 4 (wrap 32 (zlen ct)) ++ ct) (tun_stream t)) as Hrx.
    destruct ((write_all _ ;;; Stream.flush ;;; io_ret tt) _) as [q s']. intros [= <- <-]. exact Hrx.
Qed.

Lemma urb_iteration_shrinks id clock l l' :
  urb_iteration id clock l = Continue l' ->
  (length (rx (wire_inner (lp_wire l'))) < length (rx (wire_inner (lp_wire l))))%nat.
Proof.
  unfold urb_iteration. destruct (wire_read_message (lp_wire l)) as [[f|k] w] eqn:Er; [|done].
  apply wire_read_shrinks in Er. case_bool; [done|].
  destruct (header_read_from_prefix _) as [[h q]|]; [|done].
  case_bool; [|by intros [= <-]]. case_bool; [done|].
  destruct (cmd_read_from_prefix _) as [[cmd q']|]; [|done].
  destruct (urb_data _ _) as [data|]; [|done]. simpl.
  destruct (submit_urb _ _ _ _) as [res usb]. destruct (push _ _ _ _ _) as [[] b']; [|by intros [= <-]].
  destruct (wire_write_message _ w) as [[[]|k] w'] eqn:Ew; [|done]. intros [= <-]. simpl.
  apply wire_write_rx in Ew. by rewrite Ew.
Qed.

Lemma urb_loop_fuel fuel id clock l :
  (length (rx (wire_inner (lp_wire l))) < fuel)%nat -> exists r, urb_loop fuel id clock l = Returns r.
Proof.
  revert clock l. induction fuel as [|fuel IH]; intros clock l Hf; [lia|]. simpl.
  destruct (urb_iteration id (clock O) l) as [l'|l'|k l'] eqn:Ei; [|by eexists|by eexists].
  apply urb_iteration_shrinks in Ei. apply IH. lia.
Qed.

Lemma handle_urb_loop_fuel fuel env id w usb exports :
  (length (rx (wire_inner w)) < fuel)%nat ->
  exists r, handle_urb_loop fuel env id w usb exports = Returns r.
Proof.
  intros Hf. unfold handle_urb_loop.
  destruct (urb_loop_fuel fuel id (env_clock env) {| lp_wire := w; lp_batcher := batcher_new; lp_usb := usb |} Hf)
    as [[[[]|k] l] ->]; by eexists.
Qed.

Lemma result_non_growing {S A} (len : S -> nat) (r : UsbIpResult A) : non_growing len (io_result r).
Proof. intros s. done. Qed.
#[local] Hint Resolve result_non_growing : non_growing.

Lemma server_handshake_non_growing gen : non_growing rx_length (server_handshake gen).
Proof.
  unfold server_handshake. apply non_growing_bind; [auto with non_growing|]. intros [pub priv].
  repeat (apply non_growing_bind; [solve [auto with non_growing]|intros]).
  case_bool; simpl; [|auto with non_growing].
  repeat (apply non_growing_bind; [solve [auto with non_growing]|intros]). auto with non_growing.
Qed.

Lemma wire_encrypted_shrinks gen peer rng s w s' :
  wire_encrypted gen peer rng s = (Ok w, s') -> (length (rx (wire_inner w)) <= length (rx s))%nat.
Proof.
  unfold wire_encrypted, server_side. pose proof (server_handshake_non_growing gen s) as Hs.
  destruct (server_handshake gen s) as [[key|k] s1]; simpl; [|done]. intros [= <- <-]. exact Hs.
Qed.

Definition conn_rx (c : Conn) : nat := rx_length (cn_stream c).

Lemma on_stream_non_growing {A} (m : io Stream A) :
  non_growing rx_length m -> non_growing conn_rx (on_stream m).
Proof. intros Hm. by apply (non_growing_zoom cn_stream set_stream rx_length). Qed.

Lemma on_usb_non_growing {A} (m : io UsbDeviceManager A) : non_growing conn_rx (on_usb m).
Proof. intros c. unfold on_usb, io_zoom. by destruct (m (cn_usb c)). Qed.
#[local] Hint Resolve on_stream_non_growing on_usb_non_growing : non_growing.

Lemma import_handshake_non_growing peer : non_growing conn_rx (import_handshake peer).
Proof.
  unfold import_handshake. apply non_growing_bind; [auto with non_growing|]. intros buf c.
  destruct (get_device_entry _ _) as [e|].
  - destruct (cn_exports c !! _).
    + apply non_growing_bind; auto with non_growing.
    + etransitivity; [apply (non_growing_bind conn_rx); [auto with non_growing|]|].
      * intros _. apply non_growing_bind; [auto with non_growing|]. intros d.
        apply non_growing_bind; [auto with non_growing|]. auto with non_growing.
      * done.
  - apply non_growing_bind; auto with non_growing.
Qed.

Lemma handle_import_total fuel env enc peer c :
  (conn_rx c < fuel)%nat -> exists r, handle_import fuel env enc peer c = Returns r.
Proof.
  intros Hf. unfold handle_import. pose proof (import_handshake_non_growing peer c) as Hn.
  destruct (import_handshake peer c) as [[[|id]|k] c1]; simpl in Hn; [by eexists| |by eexists].
  unfold conn_rx, rx_length in *. destruct enc.
  - destruct (wire_encrypted _ _ _ _) as [[w|k] s'] eqn:E; [|by eexists].
    apply wire_encrypted_shrinks in E. apply handle_urb_loop_fuel. lia.
  - apply handle_urb_loop_fuel. simpl. lia.
Qed.

(** ** The URB session, abstractly *)

(** What the messages of a client make the server do: each CMD_SUBMIT is
    executed, in order, and its reply pushed; every other message is ignored. *)
Fixpoint session (id : string) (clock : nat -> Z * Z) (frs : list frame) (usb : UsbDeviceManager (B := B))
    : list urb_done * UsbDeviceManager (B := B) :=
  match frs with
  | [] => ([], usb)
  | FCmd _ cmd _ data :: frs =>
      let '(r, usb') := submit_urb id cmd data usb in
      let '(us, usb'') := session id (fun i => clock (S i)) frs usb' in
      ({| ud_now := fst (clock O); ud_later := snd (clock O); ud_cmd := cmd; ud_result := r |} :: us, usb'')
  | _ :: frs => session id (fun i => clock (S i)) frs usb
  end.

Lemma urb_data_frame cmd pad data :
  cmd_wf cmd -> length pad = 4%nat -> zlen data = cmd_data_size cmd ->
  urb_data cmd (cmd_as_bytes cmd ++ pad ++ data) = Some data.
Proof.
  intros Hc Hp Hd. assert (Hs : length (cs_setup cmd) = 8%nat) by apply Hc.
  assert (Hl : length (cmd_as_bytes cmd ++ pad) = 48%nat) by (rewrite length_app, length_cmd, Hp; done).
  unfold urb_data. rewrite app_assoc.
  assert (Hg : negb (cs_is_in cmd) && (0 <? Z.to_nat (cs_data_len cmd))%nat
               = negb (cs_is_in cmd) && (0 <? cs_data_len cmd)).
  { destruct (Nat.ltb_spec 0 (Z.to_nat (cs_data_len cmd))), (Z.ltb_spec 0 (cs_data_len cmd)); try done; lia. }
  rewrite Hg. destruct (cmd_data_case cmd data Hc Hd) as [[-> Hlen]|[-> ->]]; [|done].
  rewrite length_app, Hl, Hlen. unfold cmd_HEADER_SIZE. case_bool; [lia|].
  rewrite drop_app_length' by done. by rewrite <- Hlen, take_ge.
Qed.

(** One message, on any connection that delivers it. *)
Lemma urb_iteration_cmd_wire id clock h cmd pad data w w' b usb :
  frame_wf (FCmd h cmd pad data) -> wire_read_message w = (Ok (frame_bytes (FCmd h cmd pad data)), w') ->
  let '(r, usb') := submit_urb id cmd data usb in
  let '(full, b') := push (fst clock) (snd clock) cmd r b in
  urb_iteration id clock {| lp_wire := w; lp_batcher := b; lp_usb := usb |}
  = if full then
      match wire_write_message (fst (Batcher.flush b')) w' with
      | (Ok _, w2) => Continue {| lp_wire := w2; lp_batcher := snd (Batcher.flush b'); lp_usb := usb' |}
      | (Err k, w2) => Return k {| lp_wire := w2; lp_batcher := snd (Batcher.flush b'); lp_usb := usb' |}
      end
    else Continue {| lp_wire := w'; lp_batcher := b'; lp_usb := usb' |}.
Proof.
  intros Hw Hread. pose proof Hw as (Hh & Hc & Hcmd & Hp & Hd).
  destruct (submit_urb id cmd data usb) as [r usb'] eqn:Es.
  destruct (push (fst clock) (snd clock) cmd r b) as [full b'] eqn:Ep.
  unfold urb_iteration. cbn [lp_wire]. rewrite Hread.
  cbn [lp_wire lp_batcher lp_usb frame_bytes].
  rewrite !length_app, length_header. unfold header_SIZE at 1. case_bool; [lia|].
  rewrite take_app_length' by (by rewrite length_header).
  rewrite header_decode_nil, Hc by done. simpl (USBIP_CMD_SUBMIT =? USBIP_CMD_SUBMIT). cbn iota.
  rewrite drop_app_length' by (by rewrite length_header).
  assert (Hs : length (cs_setup cmd) = 8%nat) by apply Hcmd.
  rewrite !length_app, length_cmd, Hp by done. unfold cmd_HEADER_SIZE at 1. case_bool; [lia|].
  rewrite (app_assoc (cmd_as_bytes cmd)), take_app_length', <- app_assoc
    by (rewrite length_app, length_cmd, Hp; done).
  rewrite cmd_codec_decode, urb_data_frame, Es, Ep by done.
  destruct full; [|done]. cbn [Batcher.flush fst snd]. by destruct (wire_write_message _ _) as [[[]|k] w2].
Qed.

Lemma urb_iteration_other_wire id clock fr w w' b usb :
  frame_wf fr -> (forall h cmd pad data, fr <> FCmd h cmd pad data) ->
  wire_read_message w = (Ok (frame_bytes fr), w') ->
  urb_iteration id clock {| lp_wire := w; lp_batcher := b; lp_usb := usb |}
  = Continue {| lp_wire := w'; lp_batcher := b; lp_usb := usb |}.
Proof.
  intros Hw Hne Hread. assert (Hhd : exists h l, frame_bytes fr = header_as_bytes h ++ l /\ header_wf h
                                          /\ command h <> USBIP_CMD_SUBMIT).
  { destruct fr as [h cmd pad data|h ret data|h u|h]; [by destruct (Hne h cmd pad data)|..]; simpl in *.
    - eexists h, _. split; [done|]. destruct Hw as (? & -> & _). done.
    - eexists h, _. split; [done|]. destruct Hw as (? & -> & _). done.
    - exists h, []. rewrite app_nil_r. split; [done|]. split; apply Hw. }
  destruct Hhd as (h & l & Hfb & Hh & Hc).
  unfold urb_iteration. cbn [lp_wire]. rewrite Hread.
  cbn [lp_wire lp_batcher lp_usb]. rewrite Hfb, length_app, length_header. unfold header_SIZE at 1.
  case_bool; [lia|]. rewrite take_app_length' by (by rewrite length_header).
  rewrite header_decode_nil by done. apply Z.eqb_neq in Hc. by rewrite Hc.
Qed.

(** On a plain connection. *)
Lemma wire_read_plain fr rest s peer : frame_wf fr ->
  wire_read_message (WirePlain (set_rx (frame_bytes fr ++ rest) s) peer)
  = (Ok (frame_bytes fr), WirePlain (set_rx rest s) peer).
Proof. intros Hw. cbn [wire_read_message]. by rewrite (read_message_frame _ rest s Hw). Qed.

Lemma urb_iteration_cmd id clock h cmd pad data rest s peer b usb :
  frame_wf (FCmd h cmd pad data) ->
  let s1 := set_rx rest s in
  let '(r, usb') := submit_urb id cmd data usb in
  let '(full, b') := push (fst clock) (snd clock) cmd r b in
  urb_iteration id clock
    {| lp_wire := WirePlain (set_rx (frame_bytes (FCmd h cmd pad data) ++ rest) s) peer;
       lp_batcher := b; lp_usb := usb |}
  = if full then
      match write_message (fst (Batcher.flush b')) s1 with
      | (Ok _, s2) => Continue {| lp_wire := WirePlain s2 peer; lp_batcher := snd (Batcher.flush b'); lp_usb := usb' |}
      | (Err k, s2) => Return k {| lp_wire := WirePlain s2 peer; lp_batcher := snd (Batcher.flush b'); lp_usb := usb' |}
      end
    else Continue {| lp_wire := WirePlain s1 peer; lp_batcher := b'; lp_usb := usb' |}.
Proof.
  intros Hw. cbv zeta.
  pose proof (urb_iteration_cmd_wire id clock h cmd pad data _ _ b usb Hw (wire_read_plain _ rest s peer Hw)) as Hi.
  destruct (submit_urb id cmd data usb) as [r usb']. destruct (push (fst clock) (snd clock) cmd r b) as [full b'].
  rewrite Hi. destruct full; [|done]. cbn [wire_write_message]. by destruct (write_message _ _) as [[[]|k] s2].
Qed.

Lemma urb_iteration_other id clock fr rest s peer b usb :
  frame_wf fr -> (forall h cmd pad data, fr <> FCmd h cmd pad data) ->
  urb_iteration id clock
    {| lp_wire := WirePlain (set_rx (frame_bytes fr ++ rest) s) peer; lp_batcher := b; lp_usb := usb |}
  = Continue {| lp_wire := WirePlain (set_rx rest s) peer; lp_batcher := b; lp_usb := usb |}.
Proof. intros Hw Hne. by apply (urb_iteration_other_wire id clock fr); [..|apply wire_read_plain]. Qed.

Lemma urb_iteration_eof id clock s peer b usb :
  urb_iteration id clock {| lp_wire := WirePlain (set_rx [] s) peer; lp_batcher := b; lp_usb := usb |}
  = Break {| lp_wire := WirePlain (set_rx [] s) peer; lp_batcher := b; lp_usb := usb |}.
Proof.
  unfold urb_iteration. cbn [lp_wire wire_read_message].
  destruct (read_message (set_rx [] s)) as [[f|k] s'] eqn:E.
  - exfalso. pose proof (read_message_cases _ _ _ E) as (fr & Hw & -> & Hrx & _). simpl in Hrx.
    apply frame_bytes_length in Hw. destruct (frame_bytes fr); simpl in *; [lia|done].
  - by apply read_message_cases in E as [_ ->].
Qed.

Lemma write_message_sent l s : tx_room s = None -> write_message l s = (Ok tt, sent l s).
Proof.
  intros Hr. unfold write_message. rewrite (io_bind_ok _ _ _ _ _ (write_all_ok l s Hr)).
  unfold sent. by rewrite Hr.
Qed.

(** The URB loop of a plain connection refines the abstract session and the run
    of the batcher. *)
Lemma urb_loop_session frs fuel id clock s peer b usb :
  Forall frame_wf frs -> (length frs < fuel)%nat -> tx_room s = None ->
  let '(us, usb') := session id clock frs usb in
  let '(written, _, b') := batch_run us b in
  urb_loop fuel id clock
    {| lp_wire := WirePlain (set_rx (concat (map frame_bytes frs)) s) peer; lp_batcher := b; lp_usb := usb |}
  = Returns (Ok tt, {| lp_wire := WirePlain (set_rx [] (sent written s)) peer; lp_batcher := b'; lp_usb := usb' |}).
Proof.
  intros Hw. revert fuel clock s b usb. induction Hw as [|fr frs Hf Hw IH]; intros fuel clock s b usb Hfuel Hroom;
    (destruct fuel as [|fuel]; [simpl in Hfuel; lia|]); simpl in Hfuel.
  - simpl. rewrite urb_iteration_eof, sent_nil. done.
  - assert (Hcase : (exists h cmd pad data, fr = FCmd h cmd pad data)
                    \/ forall h cmd pad data, fr <> FCmd h cmd pad data)
      by (destruct fr; [left; by eauto 6|right; done..]).
    destruct Hcase as [(h & cmd & pad & data & ->)|Hne].
    + pose proof (urb_iteration_cmd id (clock O) h cmd pad data (concat (map frame_bytes frs)) s peer b usb Hf) as Hi.
      cbv zeta in Hi. cbn [session].
      destruct (submit_urb id cmd data usb) as [r usb'].
      destruct (push (fst (clock O)) (snd (clock O)) cmd r b) as [full b1] eqn:Ep.
      rewrite (write_message_sent _ (set_rx (concat (map frame_bytes frs)) s) Hroom) in Hi.
      set (s1 := if full then sent (fst (Batcher.flush b1)) s else s).
      set (b2 := if full then snd (Batcher.flush b1) else b1).
      specialize (IH fuel (fun i => clock (S i)) s1 b2 usb' ltac:(lia) ltac:(by destruct full)).
      destruct (session id _ frs usb') as [us usb'']. cbn [batch_run]. unfold push_flush.
      cbn [ud_now ud_later ud_cmd ud_result]. rewrite Ep.
      replace (if full then Batcher.flush b1 else ([], b1))
        with (if full then fst (Batcher.flush b1) else [], b2) by (subst b2; by destruct full).
      destruct (batch_run us b2) as [[written ts] b'].
      cbn [urb_loop map concat]. rewrite Hi. subst s1 b2. destruct full.
      * rewrite sent_sent in IH. exact IH.
      * exact IH.
    + assert (Hs : session id clock (fr :: frs) usb = session id (fun i => clock (S i)) frs usb)
        by (destruct fr as [h cmd pad data|h ret data|h u|h]; [by destruct (Hne h cmd pad data)|done..]).
      rewrite Hs. specialize (IH fuel (fun i => clock (S i)) s b usb ltac:(lia) Hroom).
      destruct (session id _ frs usb) as [us usb']. destruct (batch_run us b) as [[written ts] b'].
      cbn [urb_loop map concat]. rewrite urb_iteration_other by done. exact IH.
Qed.

(** ** Theorems *)

(** C10: a connection always ends. However the peer behaves, plain or encrypted,
    one step of the URB loop per byte the peer will still send is enough for
    [handle_client] to return. *)
Theorem handle_client_total fuel env config peer c :
  (length (rx (cn_stream c)) < fuel)%nat ->
  exists r c', handle_client fuel env config peer c = Returns (r, c').
Proof.
  intros Hf. unfold handle_client. destruct (if sc_tcp_nodelay config then _ else _); [|by eexists _, _].
  pose proof (on_stream_non_growing _ (read_exact_non_growing header_SIZE) c) as Hn.
  destruct (on_stream _ c) as [[buf|k] c1]; simpl in Hn; [|by eexists _, _].
  destruct (header_read_from_prefix buf) as [[h q]|]; [|by eexists _, _].
  case_bool; [destruct (handle_devlist c1); by eexists _, _|]. case_bool; [|by eexists _, _].
  destruct (handle_import_total fuel env (sc_encryption_enabled config) peer c1) as [[r c'] ->]; [|by eexists _, _].
  unfold conn_rx, rx_length in *. lia.
Qed.

(** A connection whose peer sends [l]. *)
Definition receives (l : list byte) (c : Conn) : Conn := set_stream (set_rx l (cn_stream c)) c.

Lemma read_request {A} n bs l c (f : list byte -> io Conn A) :
  length bs = n -> io_bind (on_stream (read_exact n)) f (receives (bs ++ l) c) = f bs (receives l c).
Proof.
  intros Hl. apply io_bind_ok. unfold on_stream, io_zoom, receives. cbn [cn_stream set_stream].
  by rewrite read_exact_app.
Qed.

Lemma read_request_header h l c :
  on_stream (read_exact header_SIZE) (receives (header_as_bytes h ++ l) c)
  = (Ok (header_as_bytes h), receives l c).
Proof.
  unfold on_stream, io_zoom, receives. cbn [cn_stream set_stream].
  by rewrite read_exact_app by apply length_header.
Qed.

(** [handle_client] after the request header was read. *)
Lemma handle_client_dispatch fuel env config peer h l c :
  env_nodelay env = Ok tt -> header_wf h ->
  handle_client fuel env config peer (receives (header_as_bytes h ++ l) c)
  = if command h =? OP_REQ_DEVLIST then Returns (handle_devlist (receives l c))
    else if command h =? OP_REQ_IMPORT then
      handle_import fuel env (sc_encryption_enabled config) peer (receives l c)
    else Returns (Ok tt, receives l c).
Proof.
  intros He Hh. unfold handle_client. rewrite He.
  replace (if sc_tcp_nodelay config then Ok tt else Ok tt) with (@Ok ErrorKind unit tt) by by destruct sc_tcp_nodelay.
  by rewrite read_request_header, header_decode_nil.
Qed.

(** A device list request is answered with the complete list: the reply is
    the header, the number of devices and every device's entry in the order of
    enumeration; no device is claimed and the exports are not touched. *)
Theorem devlist_answered fuel env config peer h l c :
  env_nodelay env = Ok tt -> header_wf h -> command h = OP_REQ_DEVLIST -> tx_room (cn_stream c) = None ->
  handle_client fuel env config peer (receives (header_as_bytes h ++ l) c)
  = Returns (Ok tt, {| cn_stream := set_rx l (sent (devlist_reply (list_devices (cn_usb c))) (cn_stream c));
                       cn_usb := cn_usb c; cn_exports := cn_exports c |}).
Proof.
  intros He Hh Hc Hroom. rewrite handle_client_dispatch, Hc by done. simpl.
  unfold handle_devlist, on_stream, io_zoom, receives. cbn [cn_stream set_stream cn_usb].
  pose proof (write_message_sent (devlist_reply (list_devices (cn_usb c))) (set_rx l (cn_stream c)) Hroom) as Hw.
  unfold write_message in Hw. rewrite Hw. done.
Qed.

(** C17: an import that cannot be served is refused with a reply and changes
    nothing: an unknown device with ST_NODEV, a device that is exported already
    with ST_DEV_BUSY; the device manager and the export table stay as they were,
    so the session that holds the device is not disturbed. *)
Theorem import_refused fuel env config peer h buf l c :
  env_nodelay env = Ok tt -> header_wf h -> command h = OP_REQ_IMPORT -> length buf = 32%nat ->
  tx_room (cn_stream c) = None ->
  let refused status :=
    handle_client fuel env config peer (receives (header_as_bytes h ++ buf ++ l) c)
    = Returns (Ok tt, {| cn_stream := set_rx l (sent (import_refusal status) (cn_stream c));
                         cn_usb := cn_usb c; cn_exports := cn_exports c |}) in
  (get_device_entry (request_busid buf) (cn_usb c) = None -> refused STATUS_ST_NODEV)
  /\ (is_Some (get_device_entry (request_busid buf) (cn_usb c)) ->
      is_Some (cn_exports c !! request_busid buf) -> refused STATUS_ST_DEV_BUSY).
Proof.
  intros He Hh Hc Hl Hroom. cbv zeta. rewrite handle_client_dispatch, Hc by done. simpl.
  unfold handle_import, import_handshake. rewrite read_request by done. cbn [receives cn_usb set_stream cn_exports].
  assert (Hw : forall st, write_all (import_refusal st) (set_rx l (cn_stream c))
               = (Ok tt, set_rx l (sent (import_refusal st) (cn_stream c)))).
  { intros st. rewrite write_all_ok by done. unfold set_rx, sent. simpl. by rewrite Hroom. }
  split.
  - intros ->. unfold io_bind at 1, on_stream, io_zoom. cbn [cn_stream set_stream].
    unfold io_bind at 1. rewrite Hw. done.
  - intros [e ->] [x ->]. unfold io_bind at 1, on_stream, io_zoom. cbn [cn_stream set_stream].
    rewrite Hw. done.
Qed.

Lemma bind_on_usb {A C} (m : io UsbDeviceManager A) (f : A -> io Conn C) c a u :
  m (cn_usb c) = (Ok a, u) -> io_bind (on_usb m) f c = f a (set_usb u c).
Proof. intros Hm. apply io_bind_ok. unfold on_usb, io_zoom. by rewrite Hm. Qed.

Lemma bind_on_usb_err {A C} (m : io UsbDeviceManager A) (f : A -> io Conn C) c k u :
  m (cn_usb c) = (Err k, u) -> io_bind (on_usb m) f c = (Err k, set_usb u c).
Proof. intros Hm. apply io_bind_err. unfold on_usb, io_zoom. by rewrite Hm. Qed.

Lemma bind_on_stream {A C} (m : io Stream A) (f : A -> io Conn C) c a s :
  m (cn_stream c) = (Ok a, s) -> io_bind (on_stream m) f c = f a (set_stream s c).
Proof. intros Hm. apply io_bind_ok. unfold on_stream, io_zoom. by rewrite Hm. Qed.

Lemma import_accepted peer buf l c e usb1 descriptors usb2 :
  length buf = 32%nat -> tx_room (cn_stream c) = None ->
  get_device_entry (request_busid buf) (cn_usb c) = Some e -> cn_exports c !! request_busid buf = None ->
  claim_device (request_busid buf) (cn_usb c) = (Ok tt, usb1) ->
  get_descriptor_tree (request_busid buf) usb1 = (Ok descriptors, usb2) ->
  import_handshake peer (receives (buf ++ l) c)
  = (Ok (Accepted (request_busid buf)),
     {| cn_stream := set_rx l (sent (import_reply e descriptors) (cn_stream c)); cn_usb := usb2;
        cn_exports := <[request_busid buf := (peer, e)]> (cn_exports c) |}).
Proof.
  intros Hl Hroom He Hx Hclaim Hd. unfold import_handshake. rewrite read_request by done.
  cbn [receives cn_usb set_stream cn_exports]. rewrite He, Hx.
  assert (Hw : write_all (import_reply e descriptors) (set_rx l (cn_stream c))
               = (Ok tt, set_rx l (sent (import_reply e descriptors) (cn_stream c)))).
  { rewrite write_all_ok by done. unfold set_rx, sent. simpl. by rewrite Hroom. }
  erewrite bind_on_usb by exact Hclaim. erewrite bind_on_usb by exact Hd.
  erewrite bind_on_stream by exact (io_bind_ok _ _ _ _ _ Hw). done.
Qed.

Lemma session_cmds id clock frs usb :
  Forall frame_wf frs -> Forall (fun u => cmd_wf (ud_cmd u)) (fst (session id clock frs usb)).
Proof.
  intros Hw. revert clock usb. induction Hw as [|fr frs Hf Hw IH]; intros clock usb; [constructor|].
  destruct fr as [h cmd pad data|h ret data|h u|h]; try apply IH. simpl.
  destruct (submit_urb id cmd data usb) as [r usb']. specialize (IH (fun i => clock (S i)) usb').
  destruct (session id _ frs usb') as [us usb'']. constructor; [apply Hf|exact IH].
Qed.

(** The end of a plain session on a connection that still accepts writes. *)
Lemma urb_loop_end_plain id s peer b usb exports replies usb' :
  batch_holds b replies -> tx_room s = None -> release_device id usb = (Ok tt, usb') ->
  urb_loop_end id {| lp_wire := WirePlain s peer; lp_batcher := b; lp_usb := usb |} exports
  = (Ok tt, {| cn_stream := sent (buffer b) s; cn_usb := usb'; cn_exports := delete id exports |}).
Proof.
  intros Hh Hroom Hrel. unfold urb_loop_end. cbn [lp_batcher lp_wire lp_usb Batcher.flush].
  rewrite Hrel. unfold batcher_is_empty. destruct (Nat.eqb_spec (count b) 0) as [Hz|Hz].
  - destruct Hh as [Hb Hc _ _ _ _]. rewrite Hc in Hz. destruct replies; [|done].
    by rewrite Hb, sent_nil.
  - cbn [wire_write_message]. by rewrite write_message_sent.
Qed.

Section With_laws.
Context `{!UsbBackendLaws B}.

Lemma release_device_ok id (usb : UsbDeviceManager (B := B)) :
  exists usb', release_device id usb = (Ok tt, usb') /\ mgr_handles usb' = delete id (mgr_handles usb).
Proof.
  unfold release_device, io_zoom. simpl. destruct (be_release_ok id (mgr_backend usb)) as [b' ->]. by eexists.
Qed.

(** C1: a whole plain session does what the protocol promises. A client that
    imports a free device and then sends any sequence of well-formed messages
    gets the import reply; then its URBs are executed on the device one by one,
    in the order sent, and the replies the batcher takes in are sent in that
    order (all of them, when they arrive promptly with consecutive sequence
    numbers and are of ordinary size); at the end the device is released and no
    longer exported, and other exports are untouched. *)
Theorem import_session fuel env config peer h buf frs c e usb1 descriptors usb2 :
  let id := request_busid buf in
  env_nodelay env = Ok tt -> sc_encryption_enabled config = false ->
  header_wf h -> command h = OP_REQ_IMPORT -> length buf = 32%nat -> Forall frame_wf frs ->
  (length frs < fuel)%nat -> tx_room (cn_stream c) = None ->
  get_device_entry id (cn_usb c) = Some e -> cn_exports c !! id = None ->
  claim_device id (cn_usb c) = (Ok tt, usb1) -> get_descriptor_tree id usb1 = (Ok descriptors, usb2) ->
  exists c',
    handle_client fuel env config peer
      (receives (header_as_bytes h ++ buf ++ concat (map frame_bytes frs)) c) = Returns (Ok tt, c')
    /\ (let us := fst (session id (env_clock env) frs usb2) in
        let '(written, taken, b') := batch_run us batcher_new in
        tx (cn_stream c') = tx (cn_stream c) ++ import_reply e descriptors ++ concat taken
        /\ (forall t0 n, sequential n us -> Forall (prompt t0 DEFAULT_BATCH_TIMEOUT) us ->
              taken = map done_reply us))
    /\ cn_exports c' = cn_exports c /\ mgr_handles (cn_usb c') !! id = None.
Proof.
  intros id He Henc Hh Hc Hl Hw Hf Hroom Hdev Hx Hclaim Hd.
  rewrite handle_client_dispatch, Hc by done. simpl. unfold handle_import.
  rewrite (import_accepted peer buf _ c e usb1 descriptors usb2) by done. fold id. rewrite Henc.
  unfold handle_urb_loop, wire_plain. cbn [cn_stream cn_usb cn_exports].
  pose proof (urb_loop_session frs fuel id (env_clock env) (sent (import_reply e descriptors) (cn_stream c))
                peer batcher_new usb2 Hw Hf Hroom) as Hs.
  pose proof (session_cmds id (env_clock env) frs usb2 Hw) as Hcmds.
  destruct (session id (env_clock env) frs usb2) as [us usb3]. cbn [fst] in *.
  pose proof (batch_run_holds us _ [] (holds_new DEFAULT_BATCH_SIZE DEFAULT_BATCH_TIMEOUT) Hcmds) as Hb.
  change (with_config DEFAULT_BATCH_SIZE DEFAULT_BATCH_TIMEOUT) with batcher_new in Hb.
  assert (Hall : forall t0 n, sequential n us -> Forall (prompt t0 DEFAULT_BATCH_TIMEOUT) us ->
                   snd (fst (batch_run us batcher_new)) = map done_reply us).
  { intros t0 n Hsq Hp. apply (batch_run_all t0 n); [|done|done].
    split; simpl; try done; unfold DEFAULT_BATCH_SIZE; lia. }
  destruct (batch_run us batcher_new) as [[written taken] b']. destruct Hb as (rest & Hh' & Heq).
  rewrite Hs. destruct (release_device_ok id usb3) as (usb4 & Hrel & Hdel).
  rewrite (urb_loop_end_plain _ _ _ _ _ _ rest usb4) by done.
  eexists. split; [reflexivity|]. split; [|split].
  - cbn [cn_stream sent set_rx tx]. split; [|exact Hall].
    rewrite <- !app_assoc, (holds_buffer _ _ Hh'), Heq. done.
  - cbn [cn_exports]. by apply delete_insert_id.
  - cbn [cn_usb]. rewrite Hdel. apply lookup_delete_eq.
Qed.
End With_laws.

(** A failed claim leaves the device exported. When the device cannot be
    claimed, the connection ends with the error but the entry made in the export
    table stays, so that every later import of the device is refused as busy. *)
Theorem failed_claim_leaks fuel env config peer h buf l c e k usb1 :
  let id := request_busid buf in
  env_nodelay env = Ok tt -> header_wf h -> command h = OP_REQ_IMPORT -> length buf = 32%nat ->
  get_device_entry id (cn_usb c) = Some e -> cn_exports c !! id = None ->
  claim_device id (cn_usb c) = (Err k, usb1) ->
  exists c', handle_client fuel env config peer (receives (header_as_bytes h ++ buf ++ l) c) = Returns (Err k, c')
             /\ cn_exports c' !! id = Some (peer, e) /\ tx (cn_stream c') = tx (cn_stream c).
Proof.
  intros id He Hh Hc Hl Hdev Hx Hclaim. rewrite handle_client_dispatch, Hc by done. simpl.
  unfold handle_import, import_handshake. rewrite read_request by done. fold id.
  cbn [receives cn_usb set_stream cn_exports]. rewrite Hdev, Hx.
  erewrite bind_on_usb_err by exact Hclaim.
  eexists. split; [reflexivity|]. split; [|done]. cbn [cn_exports set_usb set_exports]. apply lookup_insert_eq.
Qed.
End Server.

(** ** The theorems at a fake backend *)

Definition sample_env : Env (H := toy_ring) :=
  {| env_nodelay := Ok tt; env_keypair := None; env_rng := fun _ => None;
     env_clock := fun i => (Z.of_nat i, Z.of_nat i) |}.

Definition sample_conn (exports : Exports) : Conn (B := FakeBackend) :=
  {| cn_stream := peer_sends []; cn_usb := sample_manager; cn_exports := exports |}.

Definition import_header : UsbIpHeader := header_new OP_REQ_IMPORT.
Definition import_request (id : string) : list byte := copy_padded 32 (as_bytes id).

(** Two IN commands, with consecutive sequence numbers. *)
Definition session_frames : list frame :=
  [FCmd (header_new USBIP_CMD_SUBMIT) (ud_cmd (sample_done 1 0)) (zeros 4) [];
   FCmd (header_new USBIP_CMD_SUBMIT) (ud_cmd (sample_done 2 0)) (zeros 4) []].

Lemma sample_entry_1_1_wf : entry_wf (make_test_entry "1-1" 0x046d 0xc261).
Proof. apply make_test_entry_wf; split; vm_compute; congruence. Qed.

Lemma handle_client_total_witness :
  exists r c', handle_client (H := toy_ring) 100 sample_env default_config "10.0.0.2:40000"
                 (receives (header_as_bytes import_header ++ import_request "1-1") (sample_conn ∅)) = Returns (r, c').
Proof. apply handle_client_total. vm_compute. lia. Defined.

Lemma devlist_answered_witness :
  exists c', handle_client (H := toy_ring) 1 sample_env default_config "10.0.0.2:40000"
               (receives (header_as_bytes (header_new OP_REQ_DEVLIST) ++ []) (sample_conn ∅)) = Returns (Ok tt, c')
             /\ length (tx (cn_stream c')) = 324%nat.
Proof.
  eexists. split.
  - apply devlist_answered; [reflexivity|repeat split; vm_compute; congruence|reflexivity|reflexivity].
  - vm_compute. reflexivity.
Defined.

Definition busy_exports : Exports := {["1-1" := ("10.0.0.9:1", make_test_entry "1-1" 0x046d 0xc261)]}.

Lemma import_refused_witness :
  (exists c', handle_client (H := toy_ring) 1 sample_env default_config "10.0.0.2:40000"
                (receives (header_as_bytes import_header ++ import_request "7-7" ++ []) (sample_conn ∅)) = Returns (Ok tt, c')
              /\ tx (cn_stream c') = import_refusal 4)
  /\ (exists c', handle_client (H := toy_ring) 1 sample_env default_config "10.0.0.2:40000"
                (receives (header_as_bytes import_header ++ import_request "1-1" ++ []) (sample_conn busy_exports)) = Returns (Ok tt, c')
              /\ tx (cn_stream c') = import_refusal 2).
Proof.
  assert (Hh : header_wf import_header) by (repeat split; vm_compute; congruence).
  pose proof (import_refused (H := toy_ring) 1 sample_env default_config "10.0.0.2:40000" import_header
                (import_request "7-7") [] (sample_conn ∅) eq_refl Hh eq_refl eq_refl eq_refl) as [Hnodev _].
  pose proof (import_refused (H := toy_ring) 1 sample_env default_config "10.0.0.2:40000" import_header
                (import_request "1-1") [] (sample_conn busy_exports) eq_refl Hh eq_refl eq_refl eq_refl) as [_ Hbusy].
  split; eexists.
  - split; [apply Hnodev; vm_compute; reflexivity|reflexivity].
  - split; [apply Hbusy; eexists; vm_compute; reflexivity|reflexivity].
Defined.

Definition claimed_manager : UsbDeviceManager (B := FakeBackend) :=
  {| mgr_backend := mgr_backend sample_manager; mgr_handles := <["1-1" := true]> ∅ |}.

Lemma sample_claim : claim_device "1-1" sample_manager = (Ok tt, claimed_manager).
Proof.
  unfold claim_device, io_bind, io_zoom. cbn [be_claim_device fake_backend].
  replace (fake_has "1-1" (mgr_backend sample_manager)) with true by (vm_compute; reflexivity). reflexivity.
Qed.

Lemma sample_descriptors : get_descriptor_tree "1-1" claimed_manager = (Ok [x12; x01; x00; x02], claimed_manager).
Proof.
  unfold get_descriptor_tree, io_zoom. cbn [be_get_descriptor_tree fake_backend].
  replace (fake_has "1-1" (mgr_backend claimed_manager)) with true by (vm_compute; reflexivity). reflexivity.
Qed.

Lemma sample_request : request_busid (import_request "1-1") = "1-1".
Proof. vm_compute. reflexivity. Qed.

Lemma import_session_witness :
  exists c', handle_client (H := toy_ring) 3 sample_env default_config "10.0.0.2:40000"
    (receives (header_as_bytes import_header ++ import_request "1-1" ++ concat (map frame_bytes session_frames))
       (sample_conn ∅)) = Returns (Ok tt, c')
  /\ cn_exports c' = ∅ /\ mgr_handles (cn_usb c') !! "1-1" = None.
Proof.
  pose proof (import_session (H := toy_ring) (B := FakeBackend) 3 sample_env default_config "10.0.0.2:40000"
    import_header (import_request "1-1") session_frames (sample_conn ∅)
    (make_test_entry "1-1" 0x046d 0xc261) claimed_manager [x12; x01; x00; x02] claimed_manager) as Hs.
  rewrite sample_request in Hs. destruct Hs as (c' & Hc & _ & Hx & Hm);
    [reflexivity|reflexivity|repeat split; vm_compute; congruence|reflexivity|reflexivity
    | |simpl; lia|reflexivity|vm_compute; reflexivity|reflexivity|exact sample_claim|exact sample_descriptors|].
  - repeat constructor; vm_compute; congruence.
  - exists c'. split; [exact Hc|]. split; [exact Hx|exact Hm].
Defined.

(** A device that is found by its numbers but cannot be claimed under them. *)
Definition odd_manager : UsbDeviceManager (B := FakeBackend) :=
  with_backend {| fb_devices := [make_test_entry "3-2" 0x046d 0xc261] |}.

Lemma failed_claim_leaks_witness :
  exists c', handle_client (H := toy_ring) 1 sample_env default_config "10.0.0.2:40000"
    (receives (header_as_bytes import_header ++ import_request "1-1" ++ [])
       {| cn_stream := peer_sends []; cn_usb := odd_manager; cn_exports := ∅ |})
    = Returns (Err (DeviceNotFound "1-1"), c')
  /\ is_Some (cn_exports c' !! "1-1").
Proof.
  pose proof (failed_claim_leaks (H := toy_ring) 1 sample_env default_config "10.0.0.2:40000" import_header
    (import_request "1-1") [] {| cn_stream := peer_sends []; cn_usb := odd_manager; cn_exports := ∅ |}
    (make_test_entry "3-2" 0x046d 0xc261) (DeviceNotFound "1-1") odd_manager) as Hl.
  rewrite sample_request in Hl. destruct Hl as (c' & Hc & Hx & _);
    [reflexivity|repeat split; vm_compute; congruence|reflexivity|reflexivity|vm_compute; reflexivity|reflexivity| |].
  - unfold claim_device, io_bind, io_zoom. cbn [be_claim_device fake_backend cn_usb].
    replace (fake_has "1-1" (mgr_backend odd_manager)) with false by (vm_compute; reflexivity). reflexivity.
  - exists c'. split; [exact Hc|]. eexists; exact Hx.
Defined.
