(* ===== verification/Encrypted.v ===== *)
(** * Encrypted sessions

    The connection handler of the server with encryption enabled, against a peer
    that does the key exchange and then sends its messages through the tunnel, one
    in each frame.  Encryption is transparent: the session is that of a plain
    connection, and what the peer decrypts is what it would have read. *)

From S2P Require Import Prelude RustStd Errors Proto Urb Stream Wire Crypto CryptoStream Bandwidth UsbBackend UsbManager Batcher Server.

Section Encrypted.
Context `{!Ring} {B : Type} `{!UsbBackend B}.

(** The bytes on the connection carry these messages, one per tunnel frame. *)
Inductive carries (key : Key) : list (list byte) -> list byte -> Prop :=
| carries_nil : carries key [] []
| carries_cons p nonce ct ps l :
    length nonce = 12%nat -> encrypt_with_nonce key p nonce = Ok ct -> carries key ps l ->
    carries key (p :: ps) (tunnel_frame ct ++ l).

Lemma carries_app key ps1 l1 ps2 l2 : carries key ps1 l1 -> carries key ps2 l2 -> carries key (ps1 ++ ps2) (l1 ++ l2).
Proof.
  intros H1 H2. induction H1 as [|p nonce ct ps l Hn He Hc IH]; [done|]. rewrite <- app_assoc. simpl. by econstructor.
Qed.

Definition fits (p : list byte) : Prop := zlen p <= MAX_MESSAGE_SIZE - 8.

(** Whoever has the key reads the messages back. *)
Lemma read_carried t p nonce ct l :
  length nonce = 12%nat -> encrypt_with_nonce (tun_key t) p nonce = Ok ct -> fits p ->
  rx (tun_stream t) = tunnel_frame ct ++ l ->
  tunnel_read_message t = (Ok p, set_tun_stream (set_rx l (tun_stream t)) t).
Proof.
  intros Hn He Hf Hrx. pose proof (encrypt_with_nonce_length _ _ _ _ Hn He). pose proof (zlen_nonneg p).
  assert (ENCRYPTED_MAX = MAX_MESSAGE_SIZE + 24) by done. unfold fits in Hf.
  rewrite (tunnel_read_frame t ct l) by (done || lia). by rewrite (decrypt_encrypt _ _ _ _ Hn He).
Qed.

Lemma read_carried_end t : rx (tun_stream t) = [] -> exists k s,
  tunnel_read_message t = (Err k, set_tun_stream s t) /\ tx s = tx (tun_stream t) /\ tx_room s = tx_room (tun_stream t).
Proof.
  intros Hrx. unfold tunnel_read_message, io_zoom, io_bind at 1.
  destruct (read_exact 4 (tun_stream t)) as [[bs|k] s'] eqn:E.
  - apply read_exact_Ok in E as (l & _ & Hl & Hn). rewrite Hrx in Hl. destruct bs; [simpl in Hn; lia|done].
  - apply read_exact_Err in E as (_ & _ & ->). by eexists _, _.
Qed.

(** The generator works and sealing does not fail. *)
Definition sound_rng (rng : nat -> option (list byte)) : Prop := forall i, exists n, rng i = Some n /\ length n = 12%nat.
Definition key_seals (key : Key) : Prop := forall p n, length n = 12%nat -> is_Some (seal_in_place key n p).

(** A tunnel that can be written to. *)
Record open_tunnel (key : Key) (t : CryptoStream) : Prop := {
  ot_key : tun_key t = key;
  ot_room : tx_room (tun_stream t) = None;
  ot_rng : sound_rng (tun_rng t)
}.

Lemma write_carried key t p : key_seals key -> open_tunnel key t -> exists t' out,
  tunnel_write_message p t = (Ok tt, t') /\ open_tunnel key t' /\ carries key [p] out
  /\ tx (tun_stream t') = tx (tun_stream t) ++ out /\ rx (tun_stream t') = rx (tun_stream t).
Proof.
  intros Hk [H1 H2 H3]. destruct (H3 O) as (n & Hr & Hn). destruct (Hk p n Hn) as [c Hc].
  assert (He : encrypt_with_nonce key p n = Ok (be_bytes 4 12 ++ n ++ c)) by (unfold encrypt_with_nonce; by rewrite Hc).
  rewrite <- H1 in He. destruct (tunnel_write_ok t n p _ H2 Hr He) as (t' & Hw & Htx & Hkey & Hrx & Hrng).
  exists t', (tunnel_frame (be_bytes 4 12 ++ n ++ c)). split; [done|]. split; [split|].
  - congruence.
  - revert Hw. unfold tunnel_write_message, io_zoom. rewrite Hr. simpl. rewrite io_bind_result. unfold encrypt_message. simpl.
    rewrite He. simpl. unfold io_bind at 1. rewrite write_all_ok by done. by intros [= <-].
  - intros i. rewrite Hrng. apply H3.
  - split; [|done]. rewrite <- (app_nil_r (tunnel_frame _)). rewrite H1 in He. econstructor; [done|done|constructor].
Qed.

(** One command: what is written, if anything, is one frame with the batch. *)
Lemma encrypted_cmd_step key id clock h cmd pad data t t1 b usb r usb' full b1 :
  key_seals key -> open_tunnel key t1 -> frame_wf (FCmd h cmd pad data) ->
  wire_read_message (WireEncrypted t) = (Ok (frame_bytes (FCmd h cmd pad data)), WireEncrypted t1) ->
  submit_urb id cmd data usb = (r, usb') -> push (fst clock) (snd clock) cmd r b = (full, b1) ->
  exists t2 ps out, urb_iteration id clock {| lp_wire := WireEncrypted t; lp_batcher := b; lp_usb := usb |}
    = Continue {| lp_wire := WireEncrypted t2; lp_batcher := if full then snd (Batcher.flush b1) else b1; lp_usb := usb' |}
    /\ open_tunnel key t2 /\ carries key ps out /\ concat ps = (if full then fst (Batcher.flush b1) else [])
    /\ tx (tun_stream t2) = tx (tun_stream t1) ++ out /\ rx (tun_stream t2) = rx (tun_stream t1).
Proof.
  intros Hk Ho1 Hf Hread Hsub Ep. pose proof (urb_iteration_cmd_wire id clock h cmd pad data _ _ b usb Hf Hread) as Hi.
  rewrite Hsub, Ep in Hi. rewrite Hi. destruct full.
  - destruct (write_carried key t1 (fst (Batcher.flush b1)) Hk Ho1) as (t2 & out & Hwr & Ho2 & Hca & Htx & Hrx2).
    exists t2, [fst (Batcher.flush b1)], out. cbn [wire_write_message]. rewrite Hwr.
    split_and!; [reflexivity|exact Ho2|exact Hca|apply app_nil_r|exact Htx|exact Hrx2].
  - exists t1, [], []. split_and!; [reflexivity|exact Ho1|constructor|reflexivity|by rewrite app_nil_r|reflexivity].
Qed.

(** The loop over a tunnel refines the abstract session and the run of the batcher,
    like the loop over a plain connection. *)
Lemma urb_loop_encrypted key frs l : key_seals key -> Forall frame_wf frs -> Forall fits (map frame_bytes frs) ->
  carries key (map frame_bytes frs) l -> forall fuel id clock t b usb,
  (length frs < fuel)%nat -> open_tunnel key t -> rx (tun_stream t) = l ->
  let '(us, usb') := session id clock frs usb in
  let '(written, _, b') := batch_run us b in
  exists t' batches out,
    urb_loop fuel id clock {| lp_wire := WireEncrypted t; lp_batcher := b; lp_usb := usb |}
    = Returns (Ok tt, {| lp_wire := WireEncrypted t'; lp_batcher := b'; lp_usb := usb' |})
    /\ open_tunnel key t' /\ carries key batches out /\ concat batches = written
    /\ tx (tun_stream t') = tx (tun_stream t) ++ out.
Proof.
  intros Hk Hw. revert l. induction Hw as [|fr frs Hf Hw IH]; intros l Hfit Hc fuel id clock t b usb Hfuel Ho Hrx;
    (destruct fuel as [|fuel]; [simpl in Hfuel; lia|]); simpl in Hfuel.
  - simpl. inversion Hc as [Hl|]. subst l. destruct (read_carried_end t) as (k & s & Hread & Htx & Hroom); [congruence|].
    unfold urb_iteration. cbn [lp_wire wire_read_message]. rewrite Hread. simpl.
    eexists _, [], []. split; [reflexivity|]. split.
    { destruct Ho as [Hk1 Hk2 Hk3]. split; simpl; [done|congruence|done]. }
    split; [constructor|]. split; [done|]. simpl. by rewrite Htx, app_nil_r.
  - simpl in Hfit. apply Forall_cons in Hfit as [Hfit1 Hfit]. inversion Hc as [|p nonce ct ps l' Hn He Hc' Hp Hl]; subst.
    assert (Hread : wire_read_message (WireEncrypted t)
              = (Ok (frame_bytes fr), WireEncrypted (set_tun_stream (set_rx l' (tun_stream t)) t))).
    { cbn [wire_read_message]. rewrite <- (ot_key _ _ Ho) in He.
      by rewrite (read_carried t (frame_bytes fr) nonce ct l' Hn He Hfit1 (eq_sym Hl)). }
    set (t1 := set_tun_stream (set_rx l' (tun_stream t)) t) in *.
    assert (Ho1 : open_tunnel key t1) by (destruct Ho; by split).
    specialize (IH l' Hfit Hc' fuel id (fun i => clock (S i))).
    assert (Hcase : (exists h cmd pad data, fr = FCmd h cmd pad data)
                    \/ forall h cmd pad data, fr <> FCmd h cmd pad data)
      by (destruct fr; [left; by eauto 6|right; done..]).
    destruct Hcase as [(h & cmd & pad & data & ->)|Hne].
    + cbn [session]. destruct (submit_urb id cmd data usb) as [r usb'] eqn:Hsub.
      destruct (push (fst (clock O)) (snd (clock O)) cmd r b) as [full b1] eqn:Ep.
      destruct (encrypted_cmd_step key id (clock O) h cmd pad data t t1 b usb r usb' full b1 Hk Ho1 Hf Hread Hsub Ep)
        as (t2 & ps1 & out1 & Hs & Ho2 & Hca1 & Hps1 & Htx1 & Hrx2).
      set (b2 := if full then snd (Batcher.flush b1) else b1) in *.
      specialize (IH t2 b2 usb' ltac:(lia) Ho2 Hrx2).
      destruct (session id _ frs usb') as [us usb'']. cbn [batch_run]. unfold push_flush.
      cbn [ud_now ud_later ud_cmd ud_result]. rewrite Ep.
      replace (if full then Batcher.flush b1 else ([], b1))
        with (if full then fst (Batcher.flush b1) else [], b2) by (subst b2; by destruct full).
      destruct (batch_run us b2) as [[written ts] b'].
      destruct IH as (t' & ps2 & out2 & Hloop & Ho3 & Hca2 & Hps2 & Htx2).
      exists t', (ps1 ++ ps2), (out1 ++ out2). cbn [urb_loop]. rewrite Hs, Hloop.
      split_and!; [reflexivity|done|by apply carries_app|by rewrite concat_app, Hps1, Hps2|by rewrite Htx2, Htx1, app_assoc].
    + assert (Hs : session id clock (fr :: frs) usb = session id (fun i => clock (S i)) frs usb)
        by (destruct fr as [h cmd pad data|h ret data|h u|h]; [by destruct (Hne h cmd pad data)|done..]).
      rewrite Hs. specialize (IH t1 b usb ltac:(lia) Ho1 eq_refl).
      destruct (session id _ frs usb) as [us usb']. destruct (batch_run us b) as [[written ts] b'].
      cbn [urb_loop]. by rewrite (urb_iteration_other_wire id (clock O) fr _ _ b usb Hf Hne Hread).
Qed.

(** The end of the session: the rest of the batch is one more frame. *)
Lemma urb_loop_end_encrypted key id t b usb exports replies usb' :
  key_seals key -> open_tunnel key t -> batch_holds b replies -> release_device id usb = (Ok tt, usb') ->
  exists s ps out,
    urb_loop_end id {| lp_wire := WireEncrypted t; lp_batcher := b; lp_usb := usb |} exports
    = (Ok tt, {| cn_stream := s; cn_usb := usb'; cn_exports := delete id exports |})
    /\ tx s = tx (tun_stream t) ++ out /\ carries key ps out /\ concat ps = buffer b.
Proof.
  intros Hk Ho Hh Hrel. unfold urb_loop_end. cbn [lp_batcher lp_wire lp_usb Batcher.flush].
  rewrite Hrel. unfold batcher_is_empty. destruct (Nat.eqb_spec (count b) 0) as [Hz|Hz].
  - destruct Hh as [Hb Hc _ _ _ _]. rewrite Hc in Hz. destruct replies; [|done].
    exists (tun_stream t), [], []. split_and!; [done|by rewrite app_nil_r|constructor|by rewrite Hb].
  - destruct (write_carried key t (buffer b) Hk Ho) as (t2 & out & Hwr & _ & Hca & Htx & _).
    exists (tun_stream t2), [buffer b], out. cbn [wire_write_message]. rewrite Hwr.
    split_and!; [done|done|done|apply app_nil_r].
Qed.

Context `{!UsbBackendLaws B}.

(** C2: Encryption is transparent: a client that imports a free device of a server
    with encryption, does the key exchange and sends well-formed messages in tunnel
    frames gets the import reply, the server's public key, and then tunnel frames
    under the session key; what they decrypt to is, put together, byte for byte what
    a plain session would have sent (all replies, when they arrive promptly with
    consecutive sequence numbers and are of ordinary size), and at the end the device
    is released and no longer exported. *)
Theorem encrypted_session fuel env config peer h buf frs l c e usb1 descriptors usb2 a pa pb secret key :
  let id := request_busid buf in
  env_nodelay env = Ok tt -> sc_encryption_enabled config = true ->
  env_keypair env = Some a -> public_key a = Some pa -> length pb = 32%nat -> agree_ephemeral a pb = Some secret ->
  derive_session_key secret = Ok key -> key_seals key -> sound_rng (env_rng env) ->
  header_wf h -> command h = OP_REQ_IMPORT -> length buf = 32%nat ->
  Forall frame_wf frs -> Forall fits (map frame_bytes frs) -> carries key (map frame_bytes frs) l ->
  (length frs < fuel)%nat -> tx_room (cn_stream c) = None ->
  get_device_entry id (cn_usb c) = Some e -> cn_exports c !! id = None ->
  claim_device id (cn_usb c) = (Ok tt, usb1) -> get_descriptor_tree id usb1 = (Ok descriptors, usb2) ->
  exists c' batches out,
    handle_client fuel env config peer (receives (header_as_bytes h ++ buf ++ pubkey_bytes pb ++ l) c) = Returns (Ok tt, c')
    /\ tx (cn_stream c') = tx (cn_stream c) ++ import_reply e descriptors ++ pubkey_bytes pa ++ out
    /\ carries key batches out
    /\ (let us := fst (session id (env_clock env) frs usb2) in
        let '(_, taken, _) := batch_run us batcher_new in
        concat batches = concat taken
        /\ (forall t0 n, sequential n us -> Forall (prompt t0 DEFAULT_BATCH_TIMEOUT) us -> taken = map done_reply us))
    /\ cn_exports c' = cn_exports c /\ mgr_handles (cn_usb c') !! id = None.
Proof.
  intros id He Henc Hkp Ha Hlb Hag Hkey Hseal Hrng Hh Hc Hl Hw Hfit Hca Hf Hroom Hdev Hx Hclaim Hd.
  rewrite handle_client_dispatch, Hc by done. simpl. unfold handle_import.
  rewrite (import_accepted peer buf _ c e usb1 descriptors usb2) by done. fold id. rewrite Henc.
  unfold wire_encrypted, server_side. cbn [cn_stream cn_usb cn_exports]. rewrite Hkp.
  rewrite (server_handshake_ok a pa pb secret key) by done. cbn [tunnel_of].
  set (t := {| tun_stream := _; tun_key := key; tun_peer := peer; tun_rng := env_rng env |}).
  assert (Ho : open_tunnel key t) by (by split).
  pose proof (urb_loop_encrypted key frs l Hseal Hw Hfit Hca fuel id (env_clock env) t batcher_new usb2 Hf Ho eq_refl) as Hs.
  pose proof (session_cmds id (env_clock env) frs usb2 Hw) as Hcmds. unfold handle_urb_loop.
  destruct (session id (env_clock env) frs usb2) as [us usb3]. cbn [fst] in *.
  pose proof (batch_run_holds us _ [] (holds_new DEFAULT_BATCH_SIZE DEFAULT_BATCH_TIMEOUT) Hcmds) as Hb.
  change (with_config DEFAULT_BATCH_SIZE DEFAULT_BATCH_TIMEOUT) with batcher_new in Hb.
  assert (Hall : forall t0 n, sequential n us -> Forall (prompt t0 DEFAULT_BATCH_TIMEOUT) us ->
                   snd (fst (batch_run us batcher_new)) = map done_reply us).
  { intros t0 n Hsq Hp. apply (batch_run_all t0 n); [|done|done]. split; simpl; try done; unfold DEFAULT_BATCH_SIZE; lia. }
  destruct (batch_run us batcher_new) as [[written taken] b']. destruct Hb as (rest & Hh' & Heq).
  destruct Hs as (t' & ps1 & out1 & -> & Ho' & Hca1 & Hps1 & Htx1).
  destruct (release_device_ok id usb3) as (usb4 & Hrel & Hdel).
  destruct (urb_loop_end_encrypted key id t' b' usb3 (<[id := (peer, e)]> (cn_exports c)) rest usb4 Hseal Ho' Hh' Hrel)
    as (s & ps2 & out2 & -> & Htx2 & Hca2 & Hps2).
  eexists _, (ps1 ++ ps2), (out1 ++ out2). split; [reflexivity|]. cbn [cn_stream cn_exports cn_usb]. split_and!.
  - rewrite Htx2, Htx1. subst t. cbn [tun_stream tx sent]. by rewrite <- !app_assoc.
  - by apply carries_app.
  - rewrite concat_app, Hps1, Hps2, (holds_buffer _ _ Hh'), Heq. done.
  - exact Hall.
  - by apply delete_insert_id.
  - rewrite Hdel. apply lookup_delete_eq.
Qed.
End Encrypted.

(** ** The theorem at a fake backend and the toy cipher *)

Definition session_secret : list byte := be_bytes 32 12.
Definition session_key : Key (Ring := toy_ring) :=
  match derive_session_key (H := toy_ring) session_secret with Ok k => k | Err _ => sample_key end.

Lemma session_key_derived : derive_session_key (H := toy_ring) session_secret = Ok session_key.
Proof.
  unfold session_key. destruct (derive_session_key session_secret) as [k|e] eqn:E; [reflexivity|].
  exfalso. vm_compute in E. discriminate E.
Qed.

Definition encrypted_env : Env (H := toy_ring) :=
  {| env_nodelay := Ok tt; env_keypair := Some 5; env_rng := fun _ => Some (zeros 12);
     env_clock := fun i => (Z.of_nat i, Z.of_nat i) |}.

Definition encrypted_config : ServerConfig :=
  {| sc_bind_address := "0.0.0.0"; sc_port := 3240; sc_allowed_vid_pid := [];
     sc_require_confirmation := true; sc_encryption_enabled := true; sc_tcp_nodelay := true;
     sc_max_bandwidth := unlimited; sc_per_client_bandwidth := None |}.

(** A message in its tunnel frame. *)
Definition toy_frame (p : list byte) : list byte :=
  tunnel_frame (be_bytes 4 12 ++ zeros 12 ++ p ++ take 16 (`session_key)).

Lemma toy_carries ps : carries (H := toy_ring) session_key ps (concat (map toy_frame ps)).
Proof.
  induction ps as [|p ps IH]; simpl; [constructor|]. apply (carries_cons session_key p (zeros 12)); [reflexivity|reflexivity|exact IH].
Qed.

Lemma encrypted_session_witness :
  exists c' batches out, handle_client (H := toy_ring) 3 encrypted_env encrypted_config "10.0.0.2:40000"
    (receives (header_as_bytes import_header ++ import_request "1-1" ++ pubkey_bytes (be_bytes 32 7)
               ++ concat (map toy_frame (map frame_bytes session_frames))) (sample_conn ∅)) = Returns (Ok tt, c')
  /\ tx (cn_stream c') = import_reply (make_test_entry "1-1" 0x046d 0xc261) [x12; x01; x00; x02]
                         ++ pubkey_bytes (be_bytes 32 5) ++ out
  /\ carries (H := toy_ring) session_key batches out
  /\ cn_exports c' = ∅ /\ mgr_handles (cn_usb c') !! "1-1" = None.
Proof.
  pose proof (encrypted_session (H := toy_ring) (B := FakeBackend) 3 encrypted_env encrypted_config "10.0.0.2:40000"
    import_header (import_request "1-1") session_frames (concat (map toy_frame (map frame_bytes session_frames)))
    (sample_conn ∅) (make_test_entry "1-1" 0x046d 0xc261) claimed_manager [x12; x01; x00; x02] claimed_manager
    5 (be_bytes 32 5) (be_bytes 32 7) session_secret session_key) as Hs.
  rewrite sample_request in Hs. destruct Hs as (c' & batches & out & Hc & Htx & Hca & _ & Hx & Hm);
    [reflexivity|reflexivity|reflexivity|reflexivity|reflexivity|vm_compute; reflexivity|exact session_key_derived
    |intros p n _; eexists; reflexivity|intros i; exists (zeros 12); split; reflexivity
    |repeat split; vm_compute; congruence|reflexivity|reflexivity
    |repeat constructor; vm_compute; congruence|repeat constructor; vm_compute; congruence|apply toy_carries
    |simpl; lia|reflexivity|vm_compute; reflexivity|reflexivity|exact sample_claim|exact sample_descriptors|].
  exists c', batches, out. split; [exact Hc|]. split; [exact Htx|]. split; [exact Hca|]. split; [exact Hx|exact Hm].
Defined.
