(* ===== verification/Api.v ===== *)
(** * The HTTP interface of the server (server/usbip-server/src/api.rs)

    The shared state of the handlers, one definition per handler, the persisted
    configuration, the dispatch of a request to its handler, and the loop of the
    event socket.  A handler takes the decoded request and returns the status code
    and the typed body; the encoding of bodies as JSON is left to the crates that
    do it.  The device lister, the mDNS browser and the remote importer are the
    traits of the source, as classes.  What the environment delivers is an
    argument: the clock, the correlation id an error draws, the environment
    variables, and the crate that writes TOML.

    A handler runs between two awaits without interruption.  [put_config] awaits
    the lock of the configuration twice, so it is made of two parts
    ([put_config_prepare], [put_config_commit]) that other requests can separate. *)

From Stdlib Require Import Ascii.
From S2P Require Import Prelude RustStd RustFloat Errors Text NetAddr Proto Server.
From S2P Require Import UsbBackend.

(** ** Data *)

Record LatencySample := { ls_latency_us : Z; ls_device : string; ls_seqnum : Z }.

Definition LATENCY_CHANNEL_CAPACITY : Z := 1024.

Record DiscoveredServer := { ds_host : string; ds_port : Z; ds_txt : gmap string string }.

Record ApiConfig := {
  ap_bind_address : string;
  ap_port : Z;
  ap_api_port : Z;
  ap_encryption_enabled : bool;
  ap_server_id : string;
  ap_server_name : string
}.

#[export] Instance ApiConfig_eq_dec : EqDecision ApiConfig.
Proof. solve_decision. Defined.

(** [ApiConfig::default], with the id and the host name that are drawn. *)
Definition api_default (server_id server_name : string) : ApiConfig :=
  {| ap_bind_address := "0.0.0.0"; ap_port := 3240; ap_api_port := 3241; ap_encryption_enabled := false;
     ap_server_id := server_id; ap_server_name := server_name |}.

(** A JSON value, as far as the handlers look into it. *)
Inductive Number := PosInt (n : Z) | NegInt (n : Z) | Float (x : f64).

Inductive Value :=
| JNull
| JBool (b : bool)
| JNumber (n : Number)
| JString (s : string)
| JArray (l : list Value)
| JObject (fields : list (string * Value)).

(** [Value::as_u64]. *)
Definition as_u64 (v : Value) : option Z :=
  match v with JNumber (PosInt n) => Some n | _ => None end.

(** *** Requests and responses *)

Record ConnectRequest := { cr_host : string; cr_port : Z; cr_busid : string }.
Record DisconnectRequest := { dr_busid : string }.
Record ScanRequest := { sr_timeout_secs : option Z }.

Record ConfigUpdateRequest := {
  cu_bind_address : option string;
  cu_port : option Value;
  cu_api_port : option Value;
  cu_encryption_enabled : option bool
}.

Record StatusResponse := {
  sp_status : string;
  sp_version : string;
  sp_uptime_seconds : f64;
  sp_uptime_secs : Z;
  sp_active_connections : Z;
  sp_devices_count : Z;
  sp_urb_throughput : Z;
  sp_error_count : Z;
  sp_server_id : string;
  sp_server_name : string;
  sp_port : Z
}.

Record DeviceResponse := {
  dp_busid : string;
  dp_vid : Z;
  dp_pid : Z;
  dp_speed : Z;
  dp_status : string;
  dp_connected_client : option string;
  dp_path : string
}.

Record ConnectResponse := { cp_busid : string; cp_vid : Z; cp_pid : Z; cp_status : string }.
Record ApiErrorResponse := { ae_correlation_id : string; ae_category : string; ae_message : string }.

Inductive Body :=
| StatusBody (r : StatusResponse)
| DevicesBody (l : list DeviceResponse)
| ConfigBody (c : ApiConfig)
| ServersBody (l : list DiscoveredServer)
| ConnectBody (r : ConnectResponse)
| DisconnectBody (busid status : string)
| ErrorBody (e : ApiErrorResponse)
| TextBody (content_type text : string).

Record Response := { rs_code : Z; rs_body : Body }.

Definition OK : Z := 200.
Definition BAD_REQUEST : Z := 400.
Definition NOT_FOUND : Z := 404.
Definition INTERNAL_SERVER_ERROR : Z := 500.

(** [error_response] of an error created with the correlation id [uuid]. *)
Definition to_api_error (e : UsbIpError) : ApiErrorResponse :=
  {| ae_correlation_id := err_correlation_id e; ae_category := category_to_string (err_category e);
     ae_message := kind_to_string (err_kind e) |}.

Definition error_response (code : Z) (e : UsbIpError) : Response :=
  {| rs_code := code; rs_body := ErrorBody (to_api_error e) |}.

Definition json (b : Body) : Response := {| rs_code := OK; rs_body := b |}.

(** ** The collaborators *)

Class DeviceLister (L : Type) : Type := { lister_devices : L -> list UsbIpDeviceEntry }.

(** [MdnsBrowser]: a browse changes the state of the browser. *)
Class MdnsBrowser (M : Type) : Type := { browse : Z -> M -> outcome (list DiscoveredServer * M) }.

(** [RemoteImporter]: an import can panic. *)
Class RemoteImporter (I : Type) : Type := {
  import : string -> Z -> string -> I -> outcome (UsbIpResult UsbIpDeviceEntry * I);
  abort : string -> I -> I
}.

(** The file system as [persist_config] and [load_config] use it:
    [fs_create_parent] is [create_dir_all] of the parent directory of a path. *)
Class HostFs (F : Type) : Type := {
  fs_create_parent : string -> F -> result IoError unit * F;
  fs_write : string -> string -> F -> result IoError unit * F;
  fs_read_to_string : string -> F -> option string
}.

Class HostFsLaws (F : Type) `{!HostFs F} : Prop := {
  create_parent_reads : forall p q f r f',
    fs_create_parent p f = (r, f') -> fs_read_to_string q f' = fs_read_to_string q f;
  write_reads : forall p t f f', fs_write p t f = (Ok tt, f') -> fs_read_to_string p f' = Some t
}.

(** The [toml] crate on this structure; the two fields with a serde default are
    filled in from the arguments when the text has none. *)
Class Toml : Type := {
  toml_to_string : ApiConfig -> result string string;
  toml_from_str : string -> string -> string -> option ApiConfig
}.

Class TomlLaws `{!Toml} : Prop := {
  toml_roundtrip : forall c t id name, toml_to_string c = Ok t -> toml_from_str id name t = Some c
}.

(** ** The configuration *)

Definition validate_port (value : Value) (field : string) : UsbIpResult Z :=
  match as_u64 value with
  | None => Err (Protocol (field +:+ " must be an integer"))
  | Some port =>
      if (port =? 0) || (65535 <? port) then Err (Protocol (field +:+ " must be in 1..=65535"))
      else Ok port
  end.

Definition set_port (p : Z) (c : ApiConfig) : ApiConfig :=
  {| ap_bind_address := ap_bind_address c; ap_port := p; ap_api_port := ap_api_port c;
     ap_encryption_enabled := ap_encryption_enabled c; ap_server_id := ap_server_id c; ap_server_name := ap_server_name c |}.
Definition set_api_port (p : Z) (c : ApiConfig) : ApiConfig :=
  {| ap_bind_address := ap_bind_address c; ap_port := ap_port c; ap_api_port := p;
     ap_encryption_enabled := ap_encryption_enabled c; ap_server_id := ap_server_id c; ap_server_name := ap_server_name c |}.
Definition set_bind_address (b : string) (c : ApiConfig) : ApiConfig :=
  {| ap_bind_address := b; ap_port := ap_port c; ap_api_port := ap_api_port c;
     ap_encryption_enabled := ap_encryption_enabled c; ap_server_id := ap_server_id c; ap_server_name := ap_server_name c |}.
Definition set_encryption_enabled (e : bool) (c : ApiConfig) : ApiConfig :=
  {| ap_bind_address := ap_bind_address c; ap_port := ap_port c; ap_api_port := ap_api_port c;
     ap_encryption_enabled := e; ap_server_id := ap_server_id c; ap_server_name := ap_server_name c |}.

(** The new configuration of a [PUT /api/config], or the error it is refused with. *)
Definition updated_config (req : ConfigUpdateRequest) (c : ApiConfig) : UsbIpResult ApiConfig :=
  let? c := match cu_port req with
            | Some v => let? p := validate_port v "port" in Ok (set_port p c)
            | None => Ok c
            end in
  let? c := match cu_api_port req with
            | Some v => let? p := validate_port v "api_port" in Ok (set_api_port p c)
            | None => Ok c
            end in
  let c := match cu_bind_address req with Some b => set_bind_address b c | None => c end in
  let c := match cu_encryption_enabled req with Some e => set_encryption_enabled e c | None => c end in
  Ok c.

(** [PathBuf::push] of a relative name (Unix). *)
Definition ends_with_slash (s : string) : bool :=
  match reverse (as_bytes s) with b :: _ => bool_decide (b = x2f) | [] => true end.

Definition path_push (base name : string) : string :=
  if ends_with_slash base then base +:+ name else base +:+ "/" +:+ name.

(** [config_path] (Unix), from the environment variables. *)
Definition config_path (var_os : string -> option string) : string :=
  match var_os "ANYPLUG_CONFIG_PATH" with
  | Some p => p
  | None =>
      let base :=
        match var_os "XDG_CONFIG_HOME" with
        | Some p => p
        | None => match var_os "HOME" with Some h => path_push h ".config" | None => "." end
        end in
      path_push (path_push base "anyplug") "server.toml"
  end.

Section Config.
Context {F : Type} `{!HostFs F} `{!Toml} (var_os : string -> option string).

Definition on_disk {A} (m : F -> result IoError A * F) : Stream.io F A := fun f =>
  match m f with (r, f) => (map_err Io r, f) end.

Definition persist_config (config : ApiConfig) : Stream.io F unit := fun f =>
  let path := config_path var_os in
  match on_disk (fs_create_parent path) f with
  | (Err k, f) => (Err k, f)
  | (Ok _, f) =>
      match toml_to_string config with
      | Err e => (Err (Protocol ("serialise config: " +:+ e)), f)
      | Ok toml => on_disk (fs_write path toml) f
      end
  end.

(** [load_config], with the id and the host name that are drawn. *)
Definition load_config (server_id server_name : string) (f : F) : ApiConfig :=
  match fs_read_to_string (config_path var_os) f with
  | None => api_default server_id server_name
  | Some text =>
      match toml_from_str server_id server_name text with
      | Some c => c
      | None => api_default server_id server_name
      end
  end.
End Config.

(** ** The handlers *)

Definition CARGO_PKG_VERSION : string := "0.5.0".

Section Handlers.
Context {L M I F : Type} `{!DeviceLister L} `{!MdnsBrowser M} `{!RemoteImporter I} `{!HostFs F} `{!Toml}.
Context (var_os : string -> option string).

Record AppState := {
  st_start_time : Z;
  st_exports : Exports;
  st_device_lister : L;
  st_mdns_browser : M;
  st_remote_importer : I;
  st_config : ApiConfig;
  st_disk : F
}.

Definition with_exports (x : Exports) (st : AppState) : AppState :=
  {| st_start_time := st_start_time st; st_exports := x; st_device_lister := st_device_lister st;
     st_mdns_browser := st_mdns_browser st; st_remote_importer := st_remote_importer st;
     st_config := st_config st; st_disk := st_disk st |}.
Definition with_browser (m : M) (st : AppState) : AppState :=
  {| st_start_time := st_start_time st; st_exports := st_exports st; st_device_lister := st_device_lister st;
     st_mdns_browser := m; st_remote_importer := st_remote_importer st;
     st_config := st_config st; st_disk := st_disk st |}.
Definition with_importer (i : I) (st : AppState) : AppState :=
  {| st_start_time := st_start_time st; st_exports := st_exports st; st_device_lister := st_device_lister st;
     st_mdns_browser := st_mdns_browser st; st_remote_importer := i;
     st_config := st_config st; st_disk := st_disk st |}.
Definition with_api_config (c : ApiConfig) (st : AppState) : AppState :=
  {| st_start_time := st_start_time st; st_exports := st_exports st; st_device_lister := st_device_lister st;
     st_mdns_browser := st_mdns_browser st; st_remote_importer := st_remote_importer st;
     st_config := c; st_disk := st_disk st |}.
Definition with_disk (f : F) (st : AppState) : AppState :=
  {| st_start_time := st_start_time st; st_exports := st_exports st; st_device_lister := st_device_lister st;
     st_mdns_browser := st_mdns_browser st; st_remote_importer := st_remote_importer st;
     st_config := st_config st; st_disk := f |}.

Definition get_status (now : Z) (st : AppState) : Response :=
  let uptime := as_secs_f64 (now - st_start_time st) in
  json (StatusBody
    {| sp_status := "running"; sp_version := CARGO_PKG_VERSION; sp_uptime_seconds := uptime;
       sp_uptime_secs := f64_as_unsigned (2 ^ 64 - 1) uptime;
       sp_active_connections := Z.of_nat (size (st_exports st));
       sp_devices_count := zlen (lister_devices (st_device_lister st));
       sp_urb_throughput := 0; sp_error_count := 0;
       sp_server_id := ap_server_id (st_config st); sp_server_name := ap_server_name (st_config st);
       sp_port := ap_port (st_config st) |}).

Definition device_response (exports : Exports) (dev : UsbIpDeviceEntry) : DeviceResponse :=
  let busid := busid_str dev in
  {| dp_status := if bool_decide (is_Some (exports !! busid)) then "exported" else "available";
     dp_connected_client := option_map fst (exports !! busid);
     dp_busid := busid; dp_vid := vid dev; dp_pid := pid dev; dp_speed := speed_val dev;
     dp_path := path_str dev |}.

Definition get_devices (st : AppState) : Response :=
  json (DevicesBody (map (device_response (st_exports st)) (lister_devices (st_device_lister st)))).

Definition get_config (st : AppState) : Response := json (ConfigBody (st_config st)).

(** [put_config] up to the second await: the response of an error, or the
    configuration to be stored. *)
Definition put_config_prepare (uuid : string) (req : ConfigUpdateRequest) (st : AppState)
    : (Response + ApiConfig) * AppState :=
  match updated_config req (st_config st) with
  | Err k => (inl (error_response BAD_REQUEST (from_kind uuid k)), st)
  | Ok new_config =>
      match persist_config var_os new_config (st_disk st) with
      | (Err k, f) => (inl (error_response INTERNAL_SERVER_ERROR (from_kind uuid k)), with_disk f st)
      | (Ok _, f) => (inr new_config, with_disk f st)
      end
  end.

Definition put_config_commit (new_config : ApiConfig) (st : AppState) : Response * AppState :=
  (json (ConfigBody new_config), with_api_config new_config st).

Definition put_config (uuid : string) (req : ConfigUpdateRequest) (st : AppState) : Response * AppState :=
  match put_config_prepare uuid req st with
  | (inl r, st) => (r, st)
  | (inr c, st) => put_config_commit c st
  end.

(** [Option::unwrap_or(5).clamp(1, 30)]. *)
Definition scan_timeout (body : option ScanRequest) : Z :=
  let t := match body with Some r => default 5 (sr_timeout_secs r) | None => 5 end in
  Z.max 1 (Z.min 30 t).

Definition post_scan (body : option ScanRequest) (st : AppState) : outcome (Response * AppState) :=
  let! (servers, m) := browse (scan_timeout body) (st_mdns_browser st) in
  Returns (json (ServersBody servers), with_browser m st).

(** The address a connection is recorded under. *)
Definition connect_peer (host : string) (port : Z) : SocketAddr :=
  default unspecified (parse_socket_addr (host +:+ ":" +:+ pretty port)).

Definition post_connect (uuid : string) (req : ConnectRequest) (st : AppState) : outcome (Response * AppState) :=
  let! (r, i) := import (cr_host req) (cr_port req) (cr_busid req) (st_remote_importer st) in
  let st := with_importer i st in
  match r with
  | Ok entry =>
      let busid := busid_str entry in
      let peer := connect_peer (cr_host req) (cr_port req) in
      Returns (json (ConnectBody {| cp_busid := busid; cp_vid := vid entry; cp_pid := pid entry; cp_status := "imported" |}),
               with_exports (<[busid := (addr_to_string peer, entry)]> (st_exports st)) st)
  | Err k => Returns (error_response INTERNAL_SERVER_ERROR (from_kind uuid k), st)
  end.

Definition post_disconnect (uuid : string) (req : DisconnectRequest) (st : AppState) : Response * AppState :=
  let st := with_importer (abort (dr_busid req) (st_remote_importer st)) st in
  match st_exports st !! dr_busid req with
  | Some _ => (json (DisconnectBody (dr_busid req) "disconnected"),
               with_exports (delete (dr_busid req) (st_exports st)) st)
  | None => (error_response NOT_FOUND (from_kind uuid (DeviceNotFound (dr_busid req))), st)
  end.

(** ** The router *)

Inductive Method := GET | PUT | POST.

#[global] Instance Method_eq_dec : EqDecision Method.
Proof. solve_decision. Defined.

Inductive Endpoint :=
| GetStatus | GetDevices | GetConfig | PutConfig | PostScan | PostConnect | PostDisconnect | WsEvents | GetOpenapi.

#[global] Instance Endpoint_eq_dec : EqDecision Endpoint.
Proof. solve_decision. Defined.

(** The routes of [build_router]. *)
Definition build_router : list (string * Method * Endpoint) :=
  [ ("/api/status", GET, GetStatus); ("/api/devices", GET, GetDevices); ("/api/config", GET, GetConfig);
    ("/api/config", PUT, PutConfig); ("/api/scan", POST, PostScan); ("/api/connect", POST, PostConnect);
    ("/api/disconnect", POST, PostDisconnect); ("/api/events", GET, WsEvents);
    ("/api/openapi.json", GET, GetOpenapi) ].

(** A routed request with its decoded body. *)
Inductive Request :=
| GetStatusR (now : Z)
| GetDevicesR
| GetConfigR
| PutConfigR (req : ConfigUpdateRequest)
| PostScanR (body : option ScanRequest)
| PostConnectR (req : ConnectRequest)
| PostDisconnectR (req : DisconnectRequest)
| GetOpenapiR.

Definition endpoint (r : Request) : Endpoint :=
  match r with
  | GetStatusR _ => GetStatus
  | GetDevicesR => GetDevices
  | GetConfigR => GetConfig
  | PutConfigR _ => PutConfig
  | PostScanR _ => PostScan
  | PostConnectR _ => PostConnect
  | PostDisconnectR _ => PostDisconnect
  | GetOpenapiR => GetOpenapi
  end.

(** [get_openapi]; [spec] is the file that is included. *)
Definition get_openapi (spec : string) : Response := json (TextBody "application/json" spec).

(** The handler of a request, run to its end. *)
Definition serve (spec uuid : string) (r : Request) (st : AppState) : outcome (Response * AppState) :=
  match r with
  | GetStatusR now => Returns (get_status now st, st)
  | GetDevicesR => Returns (get_devices st, st)
  | GetConfigR => Returns (get_config st, st)
  | PutConfigR req => Returns (put_config uuid req st)
  | PostScanR body => post_scan body st
  | PostConnectR req => post_connect uuid req st
  | PostDisconnectR req => Returns (post_disconnect uuid req st)
  | GetOpenapiR => Returns (get_openapi spec, st)
  end.

End Handlers.

(** ** The event socket *)

Inductive Message :=
| MText (s : string)
| MBinary (b : list byte)
| MPing (payload : list byte)
| MPong (payload : list byte)
| MClose.

(** What [broadcast::Receiver::recv] delivers. *)
Inductive RecvResult := Received (s : LatencySample) | Lagged (n : Z) | Closed.

(** The branch of the [select!] that is taken: a message, an error or the end of
    the socket, or a result of the latency channel. *)
Inductive WsEvent :=
| WsMsg (m : option (result string Message))
| Latency (r : RecvResult).

Section Events.
(** The JSON text of a sample, and whether the n-th send succeeds. *)
Context (latency_frame : LatencySample -> string) (send_ok : nat -> bool).

Record Socket := { so_sends : nat; so_sent : list Message }.

Definition send (m : Message) (s : Socket) : bool * Socket :=
  let ok := send_ok (so_sends s) in
  (ok, {| so_sends := S (so_sends s); so_sent := if ok then so_sent s ++ [m] else so_sent s |}).

(** The loop of [handle_ws]: whether it ended, the events it did not get to, and
    the socket. *)
Fixpoint ws_loop (events : list WsEvent) (s : Socket) : bool * list WsEvent * Socket :=
  match events with
  | [] => (false, [], s)
  | WsMsg (Some (Ok (MPing payload))) :: events => ws_loop events (send (MPong payload) s).2
  | WsMsg (Some (Ok MClose)) :: events => (true, events, s)
  | WsMsg None :: events => (true, events, s)
  | WsMsg (Some (Err _)) :: events => (true, events, s)
  | WsMsg (Some (Ok _)) :: events => ws_loop events s
  | Latency (Received x) :: events =>
      let '(ok, s) := send (MText (latency_frame x)) s in
      if ok then ws_loop events s else (true, events, s)
  | Latency (Lagged _) :: events => ws_loop events s
  | Latency Closed :: events => (true, events, s)
  end.

Definition heartbeat : Message := MText (of_bytes
  (* {"event":"connected","data":{}} *)
  [x7b;x22;x65;x76;x65;x6e;x74;x22;x3a;x22;x63;x6f;x6e;x6e;x65;x63;x74;x65;x64;x22;x2c;
   x22;x64;x61;x74;x61;x22;x3a;x7b;x7d;x7d]).

Definition handle_ws (events : list WsEvent) : bool * list WsEvent * Socket :=
  ws_loop events (send heartbeat {| so_sends := O; so_sent := [] |}).2.
End Events.

(** ** Theorems *)

(** *** The configuration *)

Definition config_wf (c : ApiConfig) : Prop := 1 <= ap_port c <= 65535 /\ 1 <= ap_api_port c <= 65535.

Definition same_identity (c c' : ApiConfig) : Prop :=
  ap_server_id c' = ap_server_id c /\ ap_server_name c' = ap_server_name c.

#[export] Instance same_identity_po : PreOrder same_identity.
Proof. split; [by split|]. intros x y z [] []. split; congruence. Qed.

Lemma validate_port_Ok v field p : (forall n, as_u64 v = Some n -> 0 <= n) ->
  validate_port v field = Ok p -> as_u64 v = Some p /\ 1 <= p <= 65535.
Proof.
  intros Hv. unfold validate_port. destruct (as_u64 v) as [n|]; [|done].
  specialize (Hv n eq_refl). destruct (Z.eqb_spec n 0); [done|]. simpl.
  destruct (Z.ltb_spec 65535 n); [done|]. intros [= <-]. split; [done|lia].
Qed.

(** A decoded JSON number is a u64 when it is not negative. *)
Definition value_wf (v : Value) : Prop := forall n, as_u64 v = Some n -> 0 <= n < 2 ^ 64.

Definition update_wf (req : ConfigUpdateRequest) : Prop :=
  (forall v, cu_port req = Some v -> value_wf v) /\ (forall v, cu_api_port req = Some v -> value_wf v).

(** The accepted updates: every field that is given and valid replaces the old
    one, and the identity stays. *)
Lemma updated_config_Ok req c c' : update_wf req -> updated_config req c = Ok c' ->
  same_identity c c'
  /\ ap_bind_address c' = default (ap_bind_address c) (cu_bind_address req)
  /\ ap_encryption_enabled c' = default (ap_encryption_enabled c) (cu_encryption_enabled req)
  /\ (match cu_port req with
      | Some v => as_u64 v = Some (ap_port c') /\ 1 <= ap_port c' <= 65535
      | None => ap_port c' = ap_port c
      end)
  /\ (match cu_api_port req with
      | Some v => as_u64 v = Some (ap_api_port c') /\ 1 <= ap_api_port c' <= 65535
      | None => ap_api_port c' = ap_api_port c
      end).
Proof.
  destruct req as [b p q e]. intros [Hp Hq]. unfold updated_config; simpl in *.
  destruct p as [vp|]; [destruct (validate_port vp "port") as [p|] eqn:Ep; [|done];
    apply validate_port_Ok in Ep as [Ep Hpr]; [|intros n Hn; by destruct (Hp vp eq_refl n Hn)]|];
  (destruct q as [vq|]; simpl; [destruct (validate_port vq "api_port") as [q|] eqn:Eq; [|done];
    apply validate_port_Ok in Eq as [Eq Hqr]; [|intros n Hn; by destruct (Hq vq eq_refl n Hn)]|]);
  destruct b, e; intros [= <-]; simpl; done.
Qed.

Lemma updated_config_wf req c c' : update_wf req -> config_wf c -> updated_config req c = Ok c' -> config_wf c'.
Proof.
  intros Hr [Hp Hq] Hu. apply updated_config_Ok in Hu as (_ & _ & _ & H1 & H2); [|done].
  unfold config_wf. destruct (cu_port req), (cu_api_port req); split; (lia || (rewrite ?H1, ?H2; done)).
Qed.

Section Disk.
Context {F : Type} `{!HostFs F} `{!HostFsLaws F} `{!Toml} `{!TomlLaws} (var_os : string -> option string).

(** What was persisted is loaded back. *)
Lemma persist_load c f f' id name :
  persist_config var_os c f = (Ok tt, f') -> load_config var_os id name f' = c.
Proof.
  unfold persist_config, load_config, on_disk. intros Hp.
  destruct (fs_create_parent _ f) as [[[]|?] f1] eqn:E1; [|done]. simpl in Hp.
  destruct (toml_to_string c) as [t|] eqn:Et; [|done].
  destruct (fs_write _ t f1) as [[[]|?] f2] eqn:E2; [|done]. injection Hp as <-.
  rewrite (write_reads _ _ _ _ E2). by rewrite (toml_roundtrip _ _ _ _ Et).
Qed.
End Disk.

Section Handler_facts.
Context {L M I F : Type} `{!DeviceLister L} `{!MdnsBrowser M} `{!RemoteImporter I} `{!HostFs F} `{!HostFsLaws F}.
Context `{!Toml} `{!TomlLaws} (var_os : string -> option string) (spec : string).
Abbreviation State := (AppState (L := L) (M := M) (I := I) (F := F)).
Abbreviation serve := (serve (L := L) (M := M) (I := I) (F := F) var_os spec).
Abbreviation prepare := (put_config_prepare (L := L) (M := M) (I := I) (F := F) var_os).

(** Everything but the configuration and the disk. *)
Definition same_rest (st st' : State) : Prop :=
  st_start_time st' = st_start_time st /\ st_exports st' = st_exports st
  /\ st_device_lister st' = st_device_lister st /\ st_mdns_browser st' = st_mdns_browser st
  /\ st_remote_importer st' = st_remote_importer st.

Lemma prepare_spec uuid req st o st' : prepare uuid req st = (o, st') ->
  same_rest st st' /\ st_config st' = st_config st
  /\ match o with
     | inr c => updated_config req (st_config st) = Ok c
                /\ forall id name, load_config var_os id name (st_disk st') = c
     | inl r => exists k, rs_body r = ErrorBody (to_api_error (from_kind uuid k))
                /\ ((rs_code r = BAD_REQUEST /\ st' = st /\ updated_config req (st_config st) = Err k)
                    \/ (rs_code r = INTERNAL_SERVER_ERROR /\ exists c, updated_config req (st_config st) = Ok c
                        /\ persist_config var_os c (st_disk st) = (Err k, st_disk st')))
     end.
Proof.
  unfold put_config_prepare. destruct (updated_config req (st_config st)) as [c|k] eqn:Eu.
  - destruct (persist_config var_os c (st_disk st)) as [[[]|k] f] eqn:Ep; intros [= <- <-].
    + split_and!; try done. intros id name. exact (persist_load var_os c _ _ id name Ep).
    + split_and!; try done. exists k. split; [done|]. right. eauto.
  - intros [= <- <-]. split_and!; try done. exists k. split; [done|]. by left.
Qed.

(** The configuration and identity of a state and of the updates under way. *)
Record ApiWorld := { aw_state : State; aw_pending : list ApiConfig }.

(** One step of the server's handlers: a request served to its end, the first or
    the second half of an update; a handler that panics changes nothing. *)
Definition served (uuid : string) (r : Request) (st : State) : State :=
  match serve uuid r st with Returns (_, st') => st' | _ => st end.

Inductive api_step : ApiWorld -> ApiWorld -> Prop :=
| step_serve uuid r st p :
    (forall req, r = PutConfigR req -> update_wf req) ->
    api_step {| aw_state := st; aw_pending := p |} {| aw_state := served uuid r st; aw_pending := p |}
| step_prepare uuid req st p o st' :
    update_wf req -> prepare uuid req st = (o, st') ->
    api_step {| aw_state := st; aw_pending := p |}
             {| aw_state := st'; aw_pending := match o with inr c => c :: p | inl _ => p end |}
| step_commit st p1 c p2 :
    api_step {| aw_state := st; aw_pending := p1 ++ c :: p2 |}
             {| aw_state := (put_config_commit c st).2; aw_pending := p1 ++ p2 |}.

(** What the updates make of the port [p0] the server was started with. *)
Definition port_kept (p0 p : Z) : Prop := p = p0 \/ 1 <= p <= 65535.

Definition good_from (c0 c : ApiConfig) : Prop :=
  same_identity c0 c /\ port_kept (ap_port c0) (ap_port c) /\ port_kept (ap_api_port c0) (ap_api_port c).

Lemma good_refl c : good_from c c.
Proof. split; [done|]. split; by left. Qed.

Lemma good_update c0 c c' req :
  good_from c0 c -> update_wf req -> updated_config req c = Ok c' -> good_from c0 c'.
Proof.
  intros (Hi & Hp & Hq) Hr Hu. apply updated_config_Ok in Hu as (Hs & _ & _ & H1 & H2); [|done].
  split; [by etrans|]. split; [destruct (cu_port req)|destruct (cu_api_port req)]; unfold port_kept in *; intuition congruence.
Qed.

Lemma good_wf c0 c : good_from c0 c -> config_wf c0 -> config_wf c.
Proof. unfold good_from, port_kept, config_wf. intuition lia. Qed.

Lemma served_config uuid r st c0 :
  (forall req, r = PutConfigR req -> update_wf req) ->
  good_from c0 (st_config st) -> good_from c0 (st_config (served uuid r st)).
Proof.
  intros Hr Hg. unfold served. destruct r as [now| | |req|body|req|req|]; simpl; try done.
  - unfold put_config. destruct (prepare uuid req st) as [o st'] eqn:E.
    apply prepare_spec in E as (_ & Hc & Ho). destruct o as [r|c]; simpl.
    + by rewrite Hc.
    + destruct Ho as [Hu _]. eapply good_update; eauto.
  - unfold post_scan. by destruct (browse _ _) as [[l m]| |].
  - unfold post_connect. destruct (import _ _ _ _) as [[[e|k] i]| |]; done.
  - unfold post_disconnect. by destruct (_ !! _).
Qed.

Lemma api_step_good c0 w w' :
  api_step w w' ->
  Forall (good_from c0) (st_config (aw_state w) :: aw_pending w) ->
  Forall (good_from c0) (st_config (aw_state w') :: aw_pending w').
Proof.
  intros Hs. rewrite !Forall_cons. destruct Hs as [uuid r st p Hr|uuid req st p o st' Hr Hp|st p1 c p2]; simpl;
    intros [Hc Hpend].
  - split; [by apply served_config|done].
  - apply prepare_spec in Hp as (_ & Hc' & Ho). rewrite Hc'. split; [done|].
    destruct o as [r|c]; [done|]. apply Forall_cons. split; [|done]. destruct Ho as [Hu _].
    eapply good_update; eauto.
  - rewrite Forall_app, Forall_cons in Hpend. destruct Hpend as (H1 & H2 & H3).
    split; [done|]. by apply Forall_app.
Qed.

(** C12: No request makes the configuration invalid.  Whatever requests arrive and
    however the two halves of concurrent updates interleave, the configuration in
    memory and those about to be stored keep the identity of the server, and each of
    their two ports is the one the server was started with or one in 1..=65535.  So
    when the ports of the start are in that range (the command line also accepts 0),
    all later ones are. *)
Theorem api_config_typed st w' :
  rtc api_step {| aw_state := st; aw_pending := [] |} w' ->
  Forall (fun c => same_identity (st_config st) c
                   /\ (ap_port c = ap_port (st_config st) \/ 1 <= ap_port c <= 65535)
                   /\ (ap_api_port c = ap_api_port (st_config st) \/ 1 <= ap_api_port c <= 65535))
         (st_config (aw_state w') :: aw_pending w')
  /\ (config_wf (st_config st) -> Forall config_wf (st_config (aw_state w') :: aw_pending w')).
Proof.
  intros Hs. assert (Hg : Forall (good_from (st_config st)) (st_config (aw_state w') :: aw_pending w')).
  { remember {| aw_state := st; aw_pending := [] |} as w eqn:Ew.
    assert (Hi : Forall (good_from (st_config st)) (st_config (aw_state w) :: aw_pending w)).
    { subst w. by apply Forall_singleton, good_refl. }
    clear Ew. induction Hs as [|x y z Hxy _ IH]; [done|]. apply IH. by eapply api_step_good. }
  split; [exact Hg|]. intros Hw. eapply Forall_impl; [exact Hg|]. intros c Hc. by eapply good_wf.
Qed.

(** C23: A configuration update is all or nothing: it is refused with 400 and
    changes nothing, or fails with 500 and leaves the configuration in memory as
    it was, or answers 200 with the new configuration, which is then the one in
    memory and the one a restarted server loads. *)
Theorem put_config_exact uuid req (st : State) r st' :
  put_config var_os uuid req st = (r, st') ->
  same_rest st st' /\
  match updated_config req (st_config st) with
  | Err k => rs_code r = BAD_REQUEST /\ rs_body r = ErrorBody (to_api_error (from_kind uuid k)) /\ st' = st
  | Ok c =>
      match (persist_config var_os c (st_disk st)).1 with
      | Err k => rs_code r = INTERNAL_SERVER_ERROR /\ rs_body r = ErrorBody (to_api_error (from_kind uuid k))
                 /\ st_config st' = st_config st
      | Ok _ => rs_code r = OK /\ rs_body r = ConfigBody c /\ st_config st' = c
                /\ forall id name, load_config var_os id name (st_disk st') = c
      end
  end.
Proof.
  unfold put_config. destruct (prepare uuid req st) as [o st1] eqn:E. intros Hput.
  pose proof E as E'. apply prepare_spec in E' as (Hrest & Hc & Ho). unfold put_config_prepare in E.
  destruct (updated_config req (st_config st)) as [c|k] eqn:Eu.
  - destruct (persist_config var_os c (st_disk st)) as [[[]|k] f] eqn:Ep; injection E as <- <-.
    + injection Hput as <- <-. destruct Ho as [_ Hl]. simpl in *. done.
    + injection Hput as <- <-. simpl in *. done.
  - injection E as <- <-. injection Hput as <- <-. done.
Qed.

(** *** Connecting and disconnecting *)

(** A device that was connected through the interface is in the export
    table under its bus id, listed as exported; a disconnect removes exactly that
    entry, and a second one answers 404 without changing the table. *)
Theorem connect_disconnect uuid req (st st' : State) r entry :
  post_connect uuid req st = Returns (r, st') ->
  result_ok (match import (cr_host req) (cr_port req) (cr_busid req) (st_remote_importer st) with
             | Returns (x, _) => x
             | _ => Err Timeout
             end) = Some entry ->
  let id := busid_str entry in
  rs_code r = OK
  /\ st_exports st' !! id = Some (addr_to_string (connect_peer (cr_host req) (cr_port req)), entry)
  /\ dp_status (device_response (st_exports st') entry) = "exported"
  /\ (forall id', id' <> id -> st_exports st' !! id' = st_exports st !! id')
  /\ forall r1 st1 r2 st2,
       post_disconnect uuid {| dr_busid := id |} st' = (r1, st1) ->
       post_disconnect uuid {| dr_busid := id |} st1 = (r2, st2) ->
       rs_code r1 = OK /\ st_exports st1 = delete id (st_exports st)
       /\ rs_code r2 = NOT_FOUND /\ st_exports st2 = st_exports st1
       /\ rs_body r2 = ErrorBody {| ae_correlation_id := uuid; ae_category := "permanent";
                                    ae_message := "Device not found: " +:+ id |}.
Proof.
  unfold post_connect. destruct (import _ _ _ _) as [[[e|k] i]| |]; try done.
  cbn [result_ok]. intros [= <- <-] [= ->]. cbv zeta. simpl. unfold Exports. split_and!.
  - done.
  - by rewrite lookup_insert_eq.
  - rewrite lookup_insert_eq. by rewrite bool_decide_eq_true_2.
  - intros id' Hne. by rewrite lookup_insert_ne.
  - intros r1 st1 r2 st2. unfold post_disconnect, Exports. simpl. rewrite lookup_insert_eq. intros [= <- <-]. simpl.
    rewrite lookup_delete_eq. intros [= <- <-]. simpl. split_and!; try done. apply delete_insert_eq.
Qed.

(** *** Types of the responses *)

Definition error_wf (e : ApiErrorResponse) : Prop :=
  ae_category e = "transient" \/ ae_category e = "permanent" \/ ae_category e = "fatal".

Definition device_response_wf (d : DeviceResponse) : Prop :=
  is_u16 (dp_vid d) /\ is_u16 (dp_pid d) /\ is_u32 (dp_speed d)
  /\ ((dp_status d = "exported" /\ is_Some (dp_connected_client d))
      \/ (dp_status d = "available" /\ dp_connected_client d = None)).

(** The body that goes with a status code. *)
Definition response_wf (st : State) (r : Response) : Prop :=
  match rs_body r with
  | ErrorBody e => (rs_code r = BAD_REQUEST \/ rs_code r = NOT_FOUND \/ rs_code r = INTERNAL_SERVER_ERROR) /\ error_wf e
  | StatusBody s => rs_code r = OK /\ is_u16 (sp_port s) /\ 0 <= sp_uptime_secs s < 2 ^ 64
  | DevicesBody l => rs_code r = OK /\ length l = length (lister_devices (st_device_lister st)) /\ Forall device_response_wf l
  | ConfigBody c => rs_code r = OK /\ config_wf c
  | ConnectBody c => rs_code r = OK /\ is_u16 (cp_vid c) /\ is_u16 (cp_pid c)
  | _ => rs_code r = OK
  end.

(** What the handlers ask of their collaborators: listed and imported entries
    have fields of their width. *)
Class TypedCollaborators : Prop := {
  lister_wf : forall l : L, Forall entry_wf (lister_devices l);
  import_wf : forall h p b (i i' : I) e, import h p b i = Returns (Ok e, i') -> entry_wf e
}.

Lemma error_response_wf st code e :
  code = BAD_REQUEST \/ code = NOT_FOUND \/ code = INTERNAL_SERVER_ERROR ->
  response_wf st (error_response code e).
Proof. intros. split; [done|]. unfold error_wf; simpl. destruct (err_category e); simpl; auto. Qed.

Lemma entry_numbers d : entry_wf d -> is_u16 (vid d) /\ is_u16 (pid d) /\ is_u32 (speed_val d).
Proof. unfold entry_wf, vid, pid, speed_val. tauto. Qed.

Lemma device_response_typed x d : entry_wf d -> device_response_wf (device_response x d).
Proof.
  intros Hd. apply entry_numbers in Hd as (Hv & Hp & Hs). unfold device_response_wf, device_response; simpl.
  split_and!; [done..|]. destruct (x !! busid_str d) as [[peer e]|]; simpl; [left|right]; eauto.
Qed.

(** Every request is answered with the body that belongs to its status
    code, and every number of the body fits the type of its field. *)
Theorem serve_typed `{!TypedCollaborators} uuid r st resp st' :
  config_wf (st_config st) -> (forall req, r = PutConfigR req -> update_wf req) ->
  serve uuid r st = Returns (resp, st') -> response_wf st resp.
Proof.
  intros Hw Hr. destruct r as [now| | |req|body|req|req|]; simpl; try (intros [= <- <-]).
  - simpl. split; [done|]. split; [unfold is_u16, config_wf in *; simpl; lia|].
    simpl. pose proof (f64_as_unsigned_range (2 ^ 64 - 1) (as_secs_f64 (now - st_start_time st)) ltac:(lia)). lia.
  - simpl. split; [done|]. split; [apply length_map|]. apply Forall_fmap.
    eapply Forall_impl; [apply lister_wf|]. intros d. apply device_response_typed.
  - by split.
  - unfold put_config. destruct (prepare uuid req st) as [o st1] eqn:E.
    apply prepare_spec in E as (_ & _ & Ho). destruct o as [r|c]; intros [= <- <-].
    + destruct Ho as (k & Hb & Hc). unfold response_wf. rewrite Hb. split; [tauto|].
      apply (error_response_wf st BAD_REQUEST). by left.
    + split; [done|]. eapply updated_config_wf; [by apply Hr|exact Hw|]. apply Ho.
  - unfold post_scan. destruct (browse _ _) as [[l m]| |]; [|done..]. by intros [= <- <-].
  - unfold post_connect. destruct (import _ _ _ _) as [[[e|k] i]| |] eqn:E; try done; intros [= <- <-].
    + apply import_wf, entry_numbers in E as (Hv & Hp & _). by split.
    + apply error_response_wf. tauto.
  - unfold post_disconnect. destruct (_ !! _); intros [= <- <-]; [done|]. apply error_response_wf. tauto.
  - done.
Qed.
End Handler_facts.

(** *** The event socket *)

Section Event_facts.
Context (latency_frame : LatencySample -> string) (send_ok : nat -> bool).

Definition ws_ends (e : WsEvent) : bool :=
  match e with
  | WsMsg (Some (Ok MClose)) | WsMsg None | WsMsg (Some (Err _)) | Latency Closed => true
  | _ => false
  end.

(** What the client is sent for an event. *)
Definition ws_answer (e : WsEvent) : list Message :=
  match e with
  | WsMsg (Some (Ok (MPing payload))) => [MPong payload]
  | Latency (Received x) => [MText (latency_frame x)]
  | _ => []
  end.

Context (Hok : forall n, send_ok n = true).

Lemma send_sent m s : (send send_ok m s).1 = true /\ so_sent (send send_ok m s).2 = so_sent s ++ [m].
Proof using Hok. unfold send; simpl. by rewrite Hok. Qed.

Lemma ws_loop_app pre rest s :
  Forall (fun e => ws_ends e = false) pre ->
  exists s', ws_loop latency_frame send_ok (pre ++ rest) s = ws_loop latency_frame send_ok rest s'
    /\ so_sent s' = so_sent s ++ flat_map ws_answer pre.
Proof using Hok.
  intros Hpre. revert s. induction Hpre as [|e pre He _ IH]; intros s.
  { exists s. simpl. by rewrite app_nil_r. }
  assert (Hstep : exists s1, ws_loop latency_frame send_ok ((e :: pre) ++ rest) s
                             = ws_loop latency_frame send_ok (pre ++ rest) s1
                             /\ so_sent s1 = so_sent s ++ ws_answer e).
  { destruct e as [[[m|x]|]|[x|n|]]; try done.
    - destruct m as [t|b|p|p|]; try done; try (exists s; split; [done|]; simpl; by rewrite app_nil_r).
      exists (send send_ok (MPong p) s).2. split; [done|]. apply send_sent.
    - exists (send send_ok (MText (latency_frame x)) s).2. destruct (send_sent (MText (latency_frame x)) s) as [H1 H2].
      split; [|done]. simpl. unfold send; simpl. by rewrite Hok.
    - exists s. split; [done|]. simpl. by rewrite app_nil_r. }
  destruct Hstep as (s1 & -> & H1). destruct (IH s1) as (s' & -> & H2).
  exists s'. split; [done|]. rewrite H2, H1. simpl. by rewrite <- app_assoc.
Qed.

(** While the socket takes what is sent, the client gets the greeting and
    then, in the order of the events, a pong for each ping and a frame for each
    latency sample, up to the first event that ends the loop; lagging behind and
    other messages change nothing. *)
Theorem ws_events_exact pre e post :
  Forall (fun e => ws_ends e = false) pre -> ws_ends e = true ->
  exists s, handle_ws latency_frame send_ok (pre ++ e :: post) = (true, post, s)
    /\ so_sent s = heartbeat :: flat_map ws_answer pre.
Proof using Hok.
  intros Hpre He. unfold handle_ws.
  destruct (ws_loop_app pre (e :: post) (send send_ok heartbeat {| so_sends := O; so_sent := [] |}).2 Hpre)
    as (s & -> & Hs).
  destruct (send_sent heartbeat {| so_sends := O; so_sent := [] |}) as [_ Hh]. rewrite Hh in Hs.
  exists s. split; [|done]. by destruct e as [[[[]|]|]|[]].
Qed.
End Event_facts.

(** ** Toy collaborators *)

(** A lister of two devices, a browser that finds nothing, an importer that knows
    one device, a disk that refuses the empty path. *)
Definition toy_entries : list UsbIpDeviceEntry :=
  [UsbBackend.make_test_entry "1-1" 0x046d 0xc261; UsbBackend.make_test_entry "1-2" 0x8087 0x0024].

#[export] Instance toy_lister : DeviceLister unit := {| lister_devices _ := toy_entries |}.
#[export] Instance toy_browser : MdnsBrowser unit := {| browse _ m := Returns ([], m) |}.
#[export] Instance toy_importer : RemoteImporter unit := {|
  import _ _ busid i :=
    Returns (if decide (busid = "3-2") then Ok (UsbBackend.make_test_entry "3-2" 0x0403 0x6001)
             else Err (DeviceNotFound busid), i);
  abort _ i := i
|}.

#[export] Instance toy_disk : HostFs (gmap string string) := {|
  fs_create_parent _ f := (Ok tt, f);
  fs_write p t f := if decide (p = "") then (Err {| io_kind := IoNotFound; io_text := "No such file or directory" |}, f)
                    else (Ok tt, <[p := t]> f);
  fs_read_to_string p f := f !! p
|}.

#[export] Instance toy_disk_laws : HostFsLaws (gmap string string).
Proof.
  split; simpl.
  - by intros p q f r f' [= <- <-].
  - intros p t f f'. case_decide; [done|]. intros [= <-]. apply lookup_insert_eq.
Qed.

#[export] Instance toy_collaborators : TypedCollaborators (L := unit) (I := unit).
Proof.
  split; simpl.
  - intros _. unfold toy_entries. rewrite !Forall_cons, Forall_nil.
    split_and!; [apply UsbBackend.make_test_entry_wf; unfold is_u16; lia..|done].
  - intros h p b i i' e. case_decide; [|done]. intros [= <- _].
    apply UsbBackend.make_test_entry_wf; unfold is_u16; lia.
Qed.

(** A configuration as six lines. *)
Definition bool_text (b : bool) : string := if b then "true" else "false".
Definition nl : string := String "010" EmptyString.
Definition one_line (s : string) : bool := negb (contains_char "010" s).

Definition lines_to_string (c : ApiConfig) : result string string :=
  if one_line (ap_bind_address c) && one_line (ap_server_id c) && one_line (ap_server_name c)
     && (0 <=? ap_port c) && (ap_port c <=? 65535) && (0 <=? ap_api_port c) && (ap_api_port c <=? 65535)
  then Ok (ap_bind_address c +:+ nl +:+ pretty (ap_port c) +:+ nl +:+ pretty (ap_api_port c) +:+ nl
           +:+ bool_text (ap_encryption_enabled c) +:+ nl +:+ ap_server_id c +:+ nl +:+ ap_server_name c)
  else Err "unsupported value".

Definition lines_from_str (id name text : string) : option ApiConfig :=
  match split_on "010" text with
  | [bind; port; api_port; enc; id; name] =>
      match from_str_radix 10 65535 port, from_str_radix 10 65535 api_port with
      | Some p, Some q =>
          Some {| ap_bind_address := bind; ap_port := p; ap_api_port := q;
                  ap_encryption_enabled := bool_decide (enc = "true"); ap_server_id := id; ap_server_name := name |}
      | _, _ => None
      end
  | _ => None
  end.

#[export] Instance lines_toml : Toml := {| toml_to_string := lines_to_string; toml_from_str := lines_from_str |}.

#[export] Instance lines_toml_laws : TomlLaws.
Proof.
  split. intros [b p q e i n] t id name. simpl. unfold lines_to_string; simpl.
  destruct (_ && _) eqn:E; [|done]. rewrite !andb_true_iff, !Z.leb_le in E.
  unfold one_line in E. rewrite !negb_true_iff in E. destruct E as [[[[[[Hb Hi] Hn] Hp0] Hp] Hq0] Hq].
  intros [= <-]. unfold lines_from_str, nl. rewrite !string_app_cons, !string_app_nil.
  rewrite (split_on_app _ b) by done.
  rewrite (split_on_app _ (pretty p)) by (apply pretty_no_char; done).
  rewrite (split_on_app _ (pretty q)) by (apply pretty_no_char; done).
  rewrite (split_on_app _ (bool_text e)) by (by destruct e).
  rewrite (split_on_app _ i), split_on_none by done.
  rewrite !parse_pretty by lia. by destruct e.
Qed.

(** *** Witnesses *)

Definition toy_env (v : string) : option string := if decide (v = "HOME") then Some "/home/op" else None.

Definition toy_state (x : Exports) : AppState (L := unit) (M := unit) (I := unit) (F := gmap string string) :=
  {| st_start_time := 0; st_exports := x; st_device_lister := tt; st_mdns_browser := tt;
     st_remote_importer := tt; st_config := api_default "0190" "host"; st_disk := ∅ |}.

Definition port_request (p : Z) : ConfigUpdateRequest :=
  {| cu_bind_address := None; cu_port := Some (JNumber (PosInt p)); cu_api_port := None; cu_encryption_enabled := None |}.

Lemma port_request_wf p : 0 <= p < 2 ^ 64 -> update_wf (port_request p).
Proof. intros Hp. split; [|done]. intros v [= <-] n [= <-]. done. Qed.

Lemma api_config_typed_witness :
  exists w', rtc (api_step toy_env "") {| aw_state := toy_state ∅; aw_pending := [] |} w'
    /\ ap_port (st_config (aw_state w')) = 4000 /\ config_wf (st_config (aw_state w')).
Proof.
  assert (Hs : rtc (api_step toy_env "") {| aw_state := toy_state ∅; aw_pending := [] |}
                 {| aw_state := served toy_env "" "u" (PutConfigR (port_request 4000)) (toy_state ∅); aw_pending := [] |}).
  { apply rtc_once, step_serve. intros req [= <-]. apply port_request_wf. lia. }
  eexists. split; [exact Hs|]. split; [vm_compute; reflexivity|].
  exact (Forall_inv (proj2 (api_config_typed toy_env "" (toy_state ∅) _ Hs) ltac:(vm_compute; repeat split; discriminate))).
Defined.

Lemma put_config_exact_witness :
  exists r st', put_config toy_env "u" (port_request 4000) (toy_state ∅) = (r, st')
    /\ rs_code r = OK /\ config_path toy_env = "/home/op/.config/anyplug/server.toml"
    /\ same_rest (toy_state ∅) st'.
Proof.
  eexists _, _. split; [reflexivity|]. split; [vm_compute; reflexivity|]. split; [vm_compute; reflexivity|].
  eapply (put_config_exact toy_env "u" (port_request 4000) (toy_state ∅)). reflexivity.
Defined.

Lemma connect_disconnect_witness :
  exists r st', post_connect "u" {| cr_host := "10.0.0.7"; cr_port := 3240; cr_busid := "3-2" |} (toy_state ∅) = Returns (r, st')
    /\ st_exports st' !! "3-2" = Some ("10.0.0.7:3240", UsbBackend.make_test_entry "3-2" 0x0403 0x6001).
Proof.
  eexists _, _. split; [reflexivity|].
  pose proof (connect_disconnect "u" {| cr_host := "10.0.0.7"; cr_port := 3240; cr_busid := "3-2" |}
    (toy_state ∅) _ _ (UsbBackend.make_test_entry "3-2" 0x0403 0x6001) eq_refl eq_refl) as (_ & Hx & _).
  vm_compute in Hx |- *. exact Hx.
Defined.

Lemma serve_typed_witness :
  exists resp st', serve toy_env "" "u" GetDevicesR (toy_state ∅) = Returns (resp, st') /\ response_wf (toy_state ∅) resp.
Proof.
  eexists _, _. split; [reflexivity|].
  apply (serve_typed toy_env "" "u" GetDevicesR (toy_state ∅) _ (toy_state ∅)); try done.
Defined.

Lemma ws_events_exact_witness :
  exists s, handle_ws (fun x => ls_device x) (fun _ => true)
      [WsMsg (Some (Ok (MPing [x01]))); Latency (Lagged 3);
       Latency (Received {| ls_latency_us := 250; ls_device := "1-1"; ls_seqnum := 7 |}); WsMsg None; WsMsg None]
    = (true, [WsMsg None], s)
    /\ so_sent s = [heartbeat; MPong [x01]; MText "1-1"].
Proof.
  apply (ws_events_exact (fun x => ls_device x) (fun _ => true) (fun _ => eq_refl)
    [WsMsg (Some (Ok (MPing [x01]))); Latency (Lagged 3);
     Latency (Received {| ls_latency_us := 250; ls_device := "1-1"; ls_seqnum := 7 |})] (WsMsg None) [WsMsg None]);
    [repeat constructor|reflexivity].
Defined.

(** *** Concurrent updates *)

(** Two updates whose halves interleave: the first one answers 200, yet its port
    is lost, and when the commits come in the other order the configuration in
    memory differs from the one on disk. *)
Definition encrypt_request : ConfigUpdateRequest :=
  {| cu_bind_address := None; cu_port := None; cu_api_port := None; cu_encryption_enabled := Some true |}.

Lemma put_config_race :
  match put_config_prepare toy_env "u" (port_request 4000) (toy_state ∅) with
  | (inr c1, st) =>
      match put_config_prepare toy_env "u" encrypt_request st with
      | (inr c2, st) =>
          (ap_port (st_config (put_config_commit c2 (put_config_commit c1 st).2).2),
           bool_decide (st_config (put_config_commit c1 (put_config_commit c2 st).2).2
                        = load_config toy_env "" "" (st_disk st)))
      | _ => (0, true)
      end
  | _ => (0, true)
  end = (3240, false).
Proof. vm_compute. reflexivity. Qed.
