(* ===== verification/Discovery.v ===== *)
(** * mDNS discovery (server/usbip-server/src/discovery.rs,
    client/usbip-client/src/discovery.rs)

    What the server advertises, in particular the [devices] TXT value, the two
    browsers, and the reader of the TXT value in the Android client
    (android/core/.../ServerDiscovery.kt, [parseDevices], the key-value format).
    The [mdns_sd] crate is a class of the calls the sources make; what a receiver
    delivers is a list of clock readings and results. *)

From Stdlib Require Import Ascii.
From S2P Require Import Prelude RustStd Errors Text NetAddr Proto Server Api UsbBackend.

(** ** The crate *)

Record ServiceInfo := {
  si_fullname : string;
  si_addresses : list IpAddr;
  si_port : Z;
  si_properties : list (string * string)
}.

Inductive ServiceEvent :=
| ServiceResolved (info : ServiceInfo)
| SearchStopped (ty : string)
| OtherServiceEvent.

(** A registration: type, instance, host, address, port and properties. *)
Record Registration := {
  rg_type : string;
  rg_instance : string;
  rg_host : string;
  rg_ip : IpAddr;
  rg_port : Z;
  rg_properties : list (string * string)
}.

(** [ServiceDaemon]: the calls return the text of an error or nothing;
    [sd_valid] is whether [ServiceInfo::new] accepts a registration. *)
Class MdnsSd (D : Type) : Type := {
  sd_valid : Registration -> result string unit;
  sd_register : Registration -> D -> result string unit * D;
  sd_unregister : string -> D -> result string unit * D;
  sd_browse : string -> D -> result string unit * D;
  sd_shutdown : D -> result string unit * D
}.

Definition SERVICE_TYPE : string := "_usbip._tcp.local.".

(** ** The advertiser *)

(** The tuple of one device. *)
Definition device_txt (d : UsbIpDeviceEntry) : string :=
  "vid=0x" +:+ hex_pad 4 (vid d) +:+ ",pid=0x" +:+ hex_pad 4 (pid d) +:+ ",bus=" +:+ busid_str d
  +:+ ",n=" +:+ hex_pad 4 (vid d) +:+ ":" +:+ hex_pad 4 (pid d).

Definition encode_devices_txt (devices : list UsbIpDeviceEntry) : string :=
  String.concat "," (map device_txt devices).

Section Advertiser.
Context {D : Type} `{!MdnsSd D}.

Record MdnsAdvertiser := {
  ad_daemon : D;
  ad_service_name : string;
  ad_port : Z;
  ad_devices : list UsbIpDeviceEntry
}.

(** [MdnsAdvertiser::new], with the result of [ServiceDaemon::new] and the host name. *)
Definition advertiser_new (daemon : result string D) (hostname : string) (port : Z)
    (devices : list UsbIpDeviceEntry) : UsbIpResult MdnsAdvertiser :=
  match daemon with
  | Err e => Err (NotSupported ("mDNS init failed: " +:+ e))
  | Ok d => Ok {| ad_daemon := d; ad_service_name := hostname +:+ "." +:+ SERVICE_TYPE;
                  ad_port := port; ad_devices := devices |}
  end.

(** The properties of the service. *)
Definition advertised_properties (platform : string) (devices : list UsbIpDeviceEntry) : list (string * string) :=
  [("version", "1.1.1"); ("platform", platform)]
  ++ match devices with [] => [] | _ => [("devices", encode_devices_txt devices)] end.

(** [start]; [local_ip] is what [get_local_ip] found. *)
Definition advertiser_start (platform : string) (local_ip : option IpAddr) (a : MdnsAdvertiser)
    : UsbIpResult unit * MdnsAdvertiser :=
  let ip := default (IpV4 127 0 0 1) local_ip in
  let service_info :=
    {| rg_type := SERVICE_TYPE; rg_instance := "USB/IP Server"; rg_host := ad_service_name a; rg_ip := ip;
       rg_port := ad_port a; rg_properties := advertised_properties platform (ad_devices a) |} in
  match sd_valid service_info with
  | Err e => (Err (NotSupported ("mDNS service creation failed: " +:+ e)), a)
  | Ok _ =>
      let '(r, d) := sd_register service_info (ad_daemon a) in
      (map_err (fun e => NotSupported ("mDNS register failed: " +:+ e)) r,
       {| ad_daemon := d; ad_service_name := ad_service_name a; ad_port := ad_port a; ad_devices := ad_devices a |})
  end.

(** [Drop]: both results are ignored (the first one is logged). *)
Definition advertiser_drop (a : MdnsAdvertiser) : D :=
  let '(_, d) := sd_unregister (ad_service_name a) (ad_daemon a) in
  let '(_, d) := sd_shutdown d in d.

End Advertiser.

(** [get_local_ip]: the results of binding, connecting and asking the socket. *)
Definition get_local_ip (bind connect : result IoError unit) (local_addr : result IoError SocketAddr) : option IpAddr :=
  match bind, connect, local_addr with
  | Ok _, Ok _, Ok a => Some (sa_ip a)
  | _, _, _ => None
  end.

(** ** The browser of the server *)

(** What a receiver delivers: the clock before each [recv_timeout] and its result. *)
Definition Script : Type := list (Z * option ServiceEvent).

(** [properties.iter().map(...).collect()]. *)
Definition txt_map (props : list (string * string)) : gmap string string :=
  fold_left (fun m p => <[p.1 := p.2]> m) props ∅.

Definition discovered (info : ServiceInfo) : DiscoveredServer :=
  {| ds_host := match si_addresses info with a :: _ => ip_to_string a | [] => "" end;
     ds_port := si_port info; ds_txt := txt_map (si_properties info) |}.

Definition or_insert (k : string) (v : DiscoveredServer) (m : gmap string DiscoveredServer)
    : gmap string DiscoveredServer :=
  match m !! k with Some _ => m | None => <[k := v]> m end.

Fixpoint browse_loop (deadline : Z) (script : Script) (by_name : gmap string DiscoveredServer)
    : outcome (gmap string DiscoveredServer) :=
  match script with
  | [] => OutOfFuel
  | (now, ev) :: script =>
      if deadline <=? now then Returns by_name
      else match ev with
           | Some (ServiceResolved info) =>
               browse_loop deadline script (or_insert (si_fullname info) (discovered info) by_name)
           | Some (SearchStopped _) => Returns by_name
           | None => Returns by_name
           | Some OtherServiceEvent => browse_loop deadline script by_name
           end
  end.

Section Browser.
Context {D : Type} `{!MdnsSd D}.
(** The order in which the hash map is turned into a vector. *)
Context (into_values : gmap string DiscoveredServer -> list DiscoveredServer).

(** [MdnsBrowserImpl::browse] at the time [start]. *)
Definition server_browse (start timeout_secs : Z) (script : Script) (d : D) : outcome (list DiscoveredServer * D) :=
  match sd_browse SERVICE_TYPE d with
  | (Err _, d) => Returns ([], d)
  | (Ok _, d) =>
      let! by_name := browse_loop (start + timeout_secs * 10 ^ 9) script ∅ in
      let '(_, d) := sd_shutdown d in
      Returns (into_values by_name, d)
  end.

(** [MdnsBrowserImpl::new]. *)
Definition browser_new (daemon : result string D) : UsbIpResult D :=
  map_err (fun e => NotSupported ("mDNS init failed: " +:+ e)) daemon.

(** ** The browser of the client *)

Fixpoint add_addresses (addrs : list IpAddr) (port : Z) (servers : list SocketAddr) : list SocketAddr :=
  match addrs with
  | [] => servers
  | a :: addrs =>
      let sock := {| sa_ip := a; sa_scope_id := 0; sa_port := port |} in
      add_addresses addrs port (if bool_decide (sock ∈ servers) then servers else servers ++ [sock])
  end.

Fixpoint client_browse_loop (deadline : Z) (script : Script) (servers : list SocketAddr) : outcome (list SocketAddr) :=
  match script with
  | [] => OutOfFuel
  | (now, ev) :: script =>
      if deadline <=? now then Returns servers
      else match ev with
           | Some (ServiceResolved info) =>
               client_browse_loop deadline script (add_addresses (si_addresses info) (si_port info) servers)
           | Some _ => client_browse_loop deadline script servers
           | None => Returns servers
           end
  end.

Definition client_browse (start : Z) (script : Script) (d : D) : outcome (UsbIpResult (list SocketAddr) * D) :=
  match sd_browse SERVICE_TYPE d with
  | (Err e, d) => Returns (Err (NotSupported ("mDNS browse failed: " +:+ e)), d)
  | (Ok _, d) => let! servers := client_browse_loop (start + 2 * 10 ^ 9) script [] in Returns (Ok servers, d)
  end.
End Browser.

(** ** The reader of the Android client *)

Record RemoteDevice := { rd_name : string; rd_busId : string; rd_vid : Z; rd_pid : Z }.

#[export] Instance RemoteDevice_eq_dec : EqDecision RemoteDevice.
Proof. solve_decision. Defined.

(** [Char.isWhitespace] on ASCII. *)
Definition is_whitespace (a : ascii) : bool :=
  let n := N_of_ascii a in ((9 <=? n)%N && (n <=? 13)%N) || ((28 <=? n)%N && (n <=? 32)%N).

Fixpoint trim_start (s : string) : string :=
  match s with String a s' => if is_whitespace a then trim_start s' else s | EmptyString => EmptyString end.

Fixpoint trim_end (s : string) : string :=
  match s with
  | EmptyString => EmptyString
  | String a s => match trim_end s with
                  | EmptyString => if is_whitespace a then EmptyString else String a EmptyString
                  | s => String a s
                  end
  end.

Definition trim (s : string) : string := trim_end (trim_start s).

(** [split(c, limit = 2)] when it yields two parts. *)
Fixpoint split_once (c : ascii) (s : string) : option (string * string) :=
  match s with
  | EmptyString => None
  | String a s =>
      if decide (a = c) then Some (EmptyString, s)
      else match split_once c s with Some (k, v) => Some (String a k, v) | None => None end
  end.

Definition remove_prefix (p s : string) : string :=
  if String.prefix p s then String.substring (String.length p) (String.length s - String.length p) s else s.

(** [String.toIntOrNull(radix)]: 32 bits, an optional sign. *)
Definition to_int_or_null (radix : Z) (s : string) : option Z :=
  match s with
  | EmptyString => None
  | String a rest =>
      if decide (a = "-"%char) then
        match rest with EmptyString => None | _ => Z.opp <$> parse_digits radix (2 ^ 31) 0 rest end
      else if decide (a = "+"%char) then
        match rest with EmptyString => None | _ => parse_digits radix (2 ^ 31 - 1) 0 rest end
      else parse_digits radix (2 ^ 31 - 1) 0 s
  end.

Definition parse_id (v : string) : option Z :=
  match to_int_or_null 16 (remove_prefix "0x" v) with
  | Some n => Some n
  | None => to_int_or_null 10 v
  end.

Record ParseState := {
  ps_vid : option Z;
  ps_pid : option Z;
  ps_bus : string;
  ps_name : string;
  ps_list : list RemoteDevice
}.

Definition parse_start : ParseState :=
  {| ps_vid := None; ps_pid := None; ps_bus := "1-1"; ps_name := "USB Device"; ps_list := [] |}.

(** [if (currentVid != null && currentPid != null) list.add(...)]. *)
Definition pending_device (st : ParseState) : list RemoteDevice :=
  match ps_vid st, ps_pid st with
  | Some v, Some p => [{| rd_name := ps_name st; rd_busId := ps_bus st; rd_vid := v; rd_pid := p |}]
  | _, _ => []
  end.

Definition parse_token (st : ParseState) (token : string) : ParseState :=
  match split_once "=" (trim token) with
  | None => st
  | Some (k, v) =>
      if decide (k = "vid") then
        match pending_device st with
        | [] => {| ps_vid := parse_id v; ps_pid := ps_pid st; ps_bus := ps_bus st; ps_name := ps_name st; ps_list := ps_list st |}
        | l => {| ps_vid := parse_id v; ps_pid := ps_pid st; ps_bus := "1-1"; ps_name := "USB Device"; ps_list := ps_list st ++ l |}
        end
      else if decide (k = "pid") then
        {| ps_vid := ps_vid st; ps_pid := parse_id v; ps_bus := ps_bus st; ps_name := ps_name st; ps_list := ps_list st |}
      else if decide (k = "bus") then
        {| ps_vid := ps_vid st; ps_pid := ps_pid st; ps_bus := v; ps_name := ps_name st; ps_list := ps_list st |}
      else if decide (k = "n") then
        {| ps_vid := ps_vid st; ps_pid := ps_pid st; ps_bus := ps_bus st; ps_name := v; ps_list := ps_list st |}
      else st
  end.

Fixpoint is_blank (s : string) : bool :=
  match s with EmptyString => true | String a s => is_whitespace a && is_blank s end.

(** The key-value format of [parseDevices]; [None] when the text is not in it. *)
Definition parse_devices_kv (devicesStr : string) : option (list RemoteDevice) :=
  if is_blank devicesStr || negb (contains_str "vid=" devicesStr) then None
  else
    let st := fold_left parse_token (split_on "," devicesStr) parse_start in
    let l := ps_list st ++ pending_device st in
    match l with [] => None | _ => Some l end.

(** ** The TXT value *)

(** The text of a bus id: visible ASCII characters other than the comma. *)
Fixpoint all_chars (f : ascii -> bool) (s : string) : bool :=
  match s with EmptyString => true | String a s => f a && all_chars f s end.

Definition plain_char (a : ascii) : bool := negb (is_whitespace a) && negb (bool_decide (a = ","%char)).

Definition plain (s : string) : bool := all_chars plain_char s.

(** What the client is to show for a device. *)
Definition remote_device (d : UsbIpDeviceEntry) : RemoteDevice :=
  {| rd_name := hex_pad 4 (vid d) +:+ ":" +:+ hex_pad 4 (pid d); rd_busId := busid_str d;
     rd_vid := vid d; rd_pid := pid d |}.

Definition device_tokens (d : UsbIpDeviceEntry) : list string :=
  ["vid=0x" +:+ hex_pad 4 (vid d); "pid=0x" +:+ hex_pad 4 (pid d); "bus=" +:+ busid_str d;
   "n=" +:+ hex_pad 4 (vid d) +:+ ":" +:+ hex_pad 4 (pid d)].

Lemma all_chars_app f s1 s2 : all_chars f (s1 +:+ s2) = all_chars f s1 && all_chars f s2.
Proof. induction s1 as [|a s1 IH]; [done|]. rewrite string_app_cons. simpl. by rewrite IH, andb_assoc. Qed.

Lemma plain_digits ds : are_digits 16 ds -> plain (digit_string ds) = true.
Proof.
  induction 1 as [|d ds Hd _ IH]; [done|]. unfold plain in *. simpl. rewrite IH, andb_true_r.
  destruct (digit_cases d Hd) as [->|Hc]; [done|]. repeat (destruct Hc as [->|Hc]; [done|]). by subst.
Qed.

Lemma plain_hex z : is_u16 z -> plain (hex_pad 4 z) = true.
Proof. intros Hz. destruct (hex_pad_digits 4 z) as (ds & -> & _ & Hds & _); [exact Hz|]. by apply plain_digits. Qed.

Lemma trim_end_plain s : plain s = true -> trim_end s = s.
Proof.
  unfold plain. induction s as [|a s IH]; [done|]. simpl. rewrite andb_true_iff. intros [Ha Hs].
  rewrite IH by done. unfold plain_char in Ha. rewrite andb_true_iff, negb_true_iff in Ha. destruct Ha as [Ha _].
  destruct s; [by rewrite Ha|done].
Qed.

Lemma trim_plain s : plain s = true -> trim s = s.
Proof.
  intros Hs. unfold trim. rewrite <- (trim_end_plain s Hs) at 2. f_equal.
  destruct s as [|a s]; [done|]. unfold plain in Hs. simpl in *. rewrite andb_true_iff in Hs. destruct Hs as [Ha _].
  unfold plain_char in Ha. rewrite andb_true_iff, negb_true_iff in Ha. by rewrite (proj1 Ha).
Qed.

Lemma plain_no_comma s : plain s = true -> contains_char "," s = false.
Proof.
  unfold plain. induction s as [|a s IH]; [done|]. simpl. rewrite andb_true_iff. intros [Ha Hs].
  rewrite IH by done. rewrite orb_false_r. unfold plain_char in Ha.
  rewrite andb_true_iff, !negb_true_iff in Ha. apply Ha.
Qed.

Lemma split_on_app_any c s1 s2 : split_on c (s1 +:+ String c s2) = split_on c s1 ++ split_on c s2.
Proof.
  induction s1 as [|a s1 IH].
  - rewrite string_app_nil. simpl. by rewrite decide_True.
  - rewrite string_app_cons. simpl. rewrite IH. case_decide; [done|].
    pose proof (split_on_nonempty c s1). by destruct (split_on c s1).
Qed.

Lemma substring_all s : String.substring 0 (String.length s) s = s.
Proof. induction s as [|a s IH]; [done|]. simpl. by rewrite IH. Qed.

Lemma remove_prefix_0x s : remove_prefix "0x" (String "0" (String "x" s)) = s.
Proof.
  unfold remove_prefix. replace (String.prefix "0x" (String "0" (String "x" s))) with true by (by destruct s).
  simpl. rewrite Nat.sub_0_r. apply substring_all.
Qed.

Lemma parse_id_hex z : is_u16 z -> parse_id ("0x" +:+ hex_pad 4 z) = Some z.
Proof.
  intros Hz. unfold parse_id. rewrite !string_app_cons, string_app_nil, remove_prefix_0x.
  destruct (hex_pad_digits 4 z) as (ds & -> & Hl & Hds & Hv); [exact Hz|].
  destruct ds as [|d ds]; [done|]. assert (Hd : 0 <= d < 16) by (by inversion Hds).
  unfold to_int_or_null. change (digit_string (d :: ds)) with (String (hex_digit d) (digit_string ds)).
  cbv beta iota.
  rewrite (decide_False (P := hex_digit d = "-"%char)), (decide_False (P := hex_digit d = "+"%char)).
  - change (String (hex_digit d) (digit_string ds)) with (digit_string (d :: ds)).
    rewrite parse_digit_string; [|done|lia|lia|].
    + change (digits_from 16 0 (d :: ds)) with (digits_val 16 (d :: ds)). by rewrite Hv.
    + change (digits_from 16 0 (d :: ds)) with (digits_val 16 (d :: ds)). rewrite Hv. unfold is_u16 in Hz. lia.
  - apply (bool_decide_eq_false_1 (hex_digit d = "+"%char)). by apply hex_digit_not.
  - apply (bool_decide_eq_false_1 (hex_digit d = "-"%char)). by apply hex_digit_not.
Qed.

(** A device whose numbers fit their fields and whose bus id is plain. *)
Definition txt_ok (d : UsbIpDeviceEntry) : Prop := is_u16 (vid d) /\ is_u16 (pid d) /\ plain (busid_str d) = true.

Lemma tokens_plain d : txt_ok d -> Forall (fun t => plain t = true) (device_tokens d).
Proof.
  intros (Hv & Hp & Hb). unfold plain, device_tokens. rewrite !Forall_cons, Forall_nil, !all_chars_app.
  pose proof (plain_hex _ Hv) as Hv'. pose proof (plain_hex _ Hp) as Hp'. unfold plain in *. by rewrite Hv', Hp', Hb.
Qed.

Lemma split_device_txt d : txt_ok d -> split_on "," (device_txt d) = device_tokens d.
Proof.
  intros Hd. apply tokens_plain in Hd. unfold device_tokens in Hd. rewrite !Forall_cons in Hd.
  destruct Hd as (H1 & H2 & H3 & H4 & _). apply plain_no_comma in H1, H2, H3, H4.
  assert (E : device_txt d =
    ("vid=0x" +:+ hex_pad 4 (vid d)) +:+ String "," (("pid=0x" +:+ hex_pad 4 (pid d)) +:+ String ","
      (("bus=" +:+ busid_str d) +:+ String "," ("n=" +:+ hex_pad 4 (vid d) +:+ ":" +:+ hex_pad 4 (pid d))))).
  { unfold device_txt. rewrite !string_app_assoc. done. }
  rewrite E, !split_on_app by done. by rewrite split_on_none.
Qed.

Lemma split_encoded ds :
  ds <> [] -> Forall txt_ok ds -> split_on "," (encode_devices_txt ds) = flat_map device_tokens ds.
Proof.
  intros Hne Hds. unfold encode_devices_txt. induction Hds as [|d ds Hd Hds IH]; [done|].
  cbn [map flat_map]. rewrite <- (split_device_txt d Hd). destruct ds as [|d' ds].
  - cbn [map flat_map]. by rewrite app_nil_r.
  - rewrite <- IH by done. apply split_on_app_any.
Qed.

Lemma parse_token_kv st k v :
  plain (k +:+ String "=" v) = true -> contains_char "=" k = false ->
  parse_token st (k +:+ String "=" v) =
  (if decide (k = "vid") then
     match pending_device st with
     | [] => {| ps_vid := parse_id v; ps_pid := ps_pid st; ps_bus := ps_bus st; ps_name := ps_name st; ps_list := ps_list st |}
     | l => {| ps_vid := parse_id v; ps_pid := ps_pid st; ps_bus := "1-1"; ps_name := "USB Device"; ps_list := ps_list st ++ l |}
     end
   else if decide (k = "pid") then
     {| ps_vid := ps_vid st; ps_pid := parse_id v; ps_bus := ps_bus st; ps_name := ps_name st; ps_list := ps_list st |}
   else if decide (k = "bus") then
     {| ps_vid := ps_vid st; ps_pid := ps_pid st; ps_bus := v; ps_name := ps_name st; ps_list := ps_list st |}
   else if decide (k = "n") then
     {| ps_vid := ps_vid st; ps_pid := ps_pid st; ps_bus := ps_bus st; ps_name := v; ps_list := ps_list st |}
   else st).
Proof.
  intros Hp Hk. unfold parse_token. rewrite trim_plain by done. clear Hp.
  replace (split_once "=" (k +:+ String "=" v)) with (Some (k, v)); [done|]. symmetry.
  induction k as [|a k IH]; [done|]. simpl in Hk. rewrite orb_false_iff, bool_decide_eq_false in Hk.
  destruct Hk as [Ha Hk]. rewrite string_app_cons. simpl. rewrite decide_False by done. by rewrite IH.
Qed.

Lemma token_vid st z t : plain ("vid" +:+ String "=" t) = true -> parse_id t = Some z ->
  exists bus name, parse_token st ("vid" +:+ String "=" t)
  = {| ps_vid := Some z; ps_pid := ps_pid st; ps_bus := bus; ps_name := name; ps_list := ps_list st ++ pending_device st |}.
Proof.
  intros Hp Hz. rewrite parse_token_kv by done. rewrite decide_True by done. rewrite Hz.
  destruct (pending_device st); [rewrite app_nil_r|]; eexists _, _; reflexivity.
Qed.

Lemma token_pid st z t : plain ("pid" +:+ String "=" t) = true -> parse_id t = Some z ->
  parse_token st ("pid" +:+ String "=" t)
  = {| ps_vid := ps_vid st; ps_pid := Some z; ps_bus := ps_bus st; ps_name := ps_name st; ps_list := ps_list st |}.
Proof. intros Hp Hz. rewrite parse_token_kv by done. by rewrite Hz. Qed.

Lemma token_bus st t : plain ("bus" +:+ String "=" t) = true ->
  parse_token st ("bus" +:+ String "=" t)
  = {| ps_vid := ps_vid st; ps_pid := ps_pid st; ps_bus := t; ps_name := ps_name st; ps_list := ps_list st |}.
Proof. intros Hp. by rewrite parse_token_kv. Qed.

Lemma token_name st t : plain ("n" +:+ String "=" t) = true ->
  parse_token st ("n" +:+ String "=" t)
  = {| ps_vid := ps_vid st; ps_pid := ps_pid st; ps_bus := ps_bus st; ps_name := t; ps_list := ps_list st |}.
Proof. intros Hp. by rewrite parse_token_kv. Qed.

Lemma parse_device st d :
  txt_ok d ->
  fold_left parse_token (device_tokens d) st
  = {| ps_vid := Some (vid d); ps_pid := Some (pid d); ps_bus := busid_str d;
       ps_name := hex_pad 4 (vid d) +:+ ":" +:+ hex_pad 4 (pid d); ps_list := ps_list st ++ pending_device st |}.
Proof.
  intros Hd. pose proof (tokens_plain d Hd) as Ht. destruct Hd as (Hv & Hp & _).
  pose proof (parse_id_hex _ Hv) as Iv. pose proof (parse_id_hex _ Hp) as Ip.
  unfold device_tokens in *. rewrite !Forall_cons in Ht. destruct Ht as (H1 & H2 & H3 & H4 & _). cbn [fold_left].
  revert Iv Ip H1 H2 H3 H4. generalize (hex_pad 4 (vid d)), (hex_pad 4 (pid d)). intros hv hp Iv Ip H1 H2 H3 H4.
  destruct (token_vid st (vid d) ("0x" +:+ hv) H1 Iv) as (bus & name & Et).
  change ("vid=0x" +:+ hv) with ("vid" +:+ String "=" ("0x" +:+ hv)). rewrite Et.
  change ("pid=0x" +:+ hp) with ("pid" +:+ String "=" ("0x" +:+ hp)). rewrite (token_pid _ _ _ H2 Ip).
  change ("bus=" +:+ busid_str d) with ("bus" +:+ String "=" (busid_str d)). rewrite (token_bus _ _ H3).
  change ("n=" +:+ hv +:+ ":" +:+ hp) with ("n" +:+ String "=" (hv +:+ ":" +:+ hp)). by rewrite (token_name _ _ H4).
Qed.

Lemma parse_all st ds :
  Forall txt_ok ds ->
  let st' := fold_left parse_token (flat_map device_tokens ds) st in
  ps_list st' ++ pending_device st' = ps_list st ++ pending_device st ++ map remote_device ds.
Proof.
  cbv zeta. intros Hds. revert st. induction Hds as [|d ds Hd _ IH]; intros st.
  - cbn [flat_map fold_left map]. by rewrite app_nil_r.
  - cbn [flat_map]. rewrite fold_left_app, IH, parse_device by done. simpl. by rewrite <- app_assoc.
Qed.

Lemma encoded_head d ds : exists rest, encode_devices_txt (d :: ds) = "vid=0x" +:+ rest.
Proof.
  unfold encode_devices_txt. cbn [map]. destruct (map device_txt ds) as [|t ts]; cbn [String.concat]; unfold device_txt.
  - eexists. reflexivity.
  - rewrite string_app_assoc. eexists. reflexivity.
Qed.

(** The Android client reads the devices TXT value that the server
    advertises back as exactly the advertised devices, in order, with their
    vendor and product numbers and bus ids. *)
Theorem devices_txt_roundtrip ds :
  ds <> [] -> Forall txt_ok ds -> parse_devices_kv (encode_devices_txt ds) = Some (map remote_device ds).
Proof.
  intros Hne Hds. unfold parse_devices_kv. rewrite split_encoded by done. rewrite parse_all by done.
  destruct ds as [|d ds]; [done|]. destruct (encoded_head d ds) as [rest ->]. simpl. done.
Qed.

(** *** The length of the value *)

Lemma length_device_txt d : String.length (device_txt d) = (38 + String.length (busid_str d))%nat.
Proof. unfold device_txt. rewrite !string_length_app, !length_hex_pad. simpl. lia. Qed.

Lemma length_concat sep l :
  String.length (String.concat sep l)
  = (sum_list (map String.length l) + (length l - 1) * String.length sep)%nat.
Proof.
  induction l as [|s l IH]; [done|]. destruct l as [|s' l]; [simpl; lia|].
  change (String.concat sep (s :: s' :: l)) with (s +:+ sep +:+ String.concat sep (s' :: l)).
  rewrite !string_length_app, IH. simpl. lia.
Qed.

(** With bus ids of at least three characters the key and the value of more
    than five devices exceed the 255 bytes of a TXT string, and for bus ids of three
    characters five devices fit. *)
Theorem devices_txt_capacity ds :
  Forall (fun d => 3 <= String.length (busid_str d))%nat ds ->
  ((5 < length ds)%nat -> (255 < String.length ("devices=" +:+ encode_devices_txt ds))%nat)
  /\ ((length ds <= 5)%nat -> Forall (fun d => String.length (busid_str d) = 3)%nat ds ->
      (String.length ("devices=" +:+ encode_devices_txt ds) <= 255)%nat).
Proof.
  intros Hds. rewrite string_length_app. unfold encode_devices_txt. rewrite length_concat, length_map, map_map.
  change (String.length "devices=") with 8%nat. change (String.length ",") with 1%nat.
  assert (Hlo : (41 * length ds <= sum_list (map (fun d => String.length (device_txt d)) ds))%nat).
  { induction Hds as [|d ds Hd _ IH]; [simpl; lia|]. cbn -[device_txt Nat.mul]. rewrite length_device_txt. lia. }
  split; [lia|]. intros Hn H3.
  assert (Heq : (sum_list (map (fun d => String.length (device_txt d)) ds) = 41 * length ds)%nat).
  { clear Hn Hlo Hds. induction H3 as [|d ds Hd _ IH]; [simpl; lia|]. cbn -[device_txt Nat.mul]. rewrite length_device_txt. lia. }
  lia.
Qed.

(** ** The browsers *)

(** The services a loop hears of before it ends; [stops] says whether the end of
    the search ends the loop as well. *)
Fixpoint heard (stops : bool) (deadline : Z) (script : Script) : list ServiceInfo :=
  match script with
  | (now, Some ev) :: script =>
      if deadline <=? now then []
      else match ev with
           | ServiceResolved info => info :: heard stops deadline script
           | SearchStopped _ => if stops then [] else heard stops deadline script
           | OtherServiceEvent => heard stops deadline script
           end
  | _ => []
  end.

(** The clock passes the deadline, or the channel is closed, at some point. *)
Definition comes_to_end (deadline : Z) (script : Script) : Prop :=
  exists now ev, (now, ev) ∈ script /\ (deadline <= now \/ ev = None).

Lemma comes_to_end_tail deadline now ev script :
  comes_to_end deadline ((now, Some ev) :: script) -> now < deadline -> comes_to_end deadline script.
Proof.
  intros (t & e & He & Hend) Hlt. apply elem_of_cons in He as [[= -> ->]|He].
  - destruct Hend; [lia|done].
  - by exists t, e.
Qed.

(** The first service of a name. *)
Definition first_named (name : string) (l : list ServiceInfo) : option ServiceInfo :=
  list_find (fun i => si_fullname i = name) l ≫= fun p => Some p.2.

Lemma first_named_cons name i l :
  first_named name (i :: l) = if decide (si_fullname i = name) then Some i else first_named name l.
Proof.
  unfold first_named. simpl. case_decide; [done|]. by destruct (list_find _ l) as [[]|].
Qed.

Lemma browse_loop_exact deadline script m :
  comes_to_end deadline script ->
  exists m', browse_loop deadline script m = Returns m'
    /\ forall name, m' !! name = match m !! name with
                                 | Some s => Some s
                                 | None => discovered <$> first_named name (heard true deadline script)
                                 end.
Proof.
  revert m. induction script as [|[now ev] script IH]; intros m Hend.
  { destruct Hend as (? & ? & He & _). by apply elem_of_nil in He. }
  simpl. assert (Hstop : forall name, m !! name = match m !! name with
      | Some s => Some s | None => discovered <$> first_named name [] end).
  { intros name. by destruct (m !! name). }
  destruct (Z.leb_spec deadline now) as [Hle|Hlt]; [exists m; split; [done|]; by destruct ev|].
  destruct ev as [[info|ty|]|]; [| | |by exists m].
  - apply comes_to_end_tail in Hend; [|done]. destruct (IH (or_insert (si_fullname info) (discovered info) m) Hend) as (m' & -> & Hm').
    exists m'. split; [done|]. intros name. rewrite Hm', first_named_cons. unfold or_insert.
    destruct (decide (si_fullname info = name)) as [<-|Hne].
    + destruct (m !! si_fullname info) eqn:E; [by rewrite E|]. by rewrite lookup_insert_eq.
    + destruct (m !! si_fullname info) eqn:E; [done|]. by rewrite lookup_insert_ne.
  - by exists m.
  - apply comes_to_end_tail in Hend; [|done]. apply (IH m Hend).
Qed.

Section Browser_facts.
Context {D : Type} `{!MdnsSd D} (into_values : gmap string DiscoveredServer -> list DiscoveredServer).
Hypothesis into_values_perm : forall m, into_values m ≡ₚ (map_to_list m).*2.

(** A scan that can browse ends, and its result has one entry per service
    name it heard of, in some order, made from the first announcement of the name. *)
Theorem scan_exact start timeout script (d d1 : D) :
  sd_browse SERVICE_TYPE d = (Ok tt, d1) -> comes_to_end (start + timeout * 10 ^ 9) script ->
  exists l (m : gmap string DiscoveredServer), server_browse into_values start timeout script d = Returns (l, (sd_shutdown d1).2)
    /\ l ≡ₚ (map_to_list m).*2
    /\ forall name, m !! name = discovered <$> first_named name (heard true (start + timeout * 10 ^ 9) script).
Proof.
  intros Hb Hend. unfold server_browse. rewrite Hb.
  destruct (browse_loop_exact _ _ ∅ Hend) as (m & -> & Hm). simpl. destruct (sd_shutdown d1) as [r d2].
  exists (into_values m), m. split; [done|]. split; [apply into_values_perm|]. intros name. by rewrite Hm, lookup_empty.
Qed.

(** A browser serves one scan: once the daemon is down, every scan is empty. *)
Lemma second_scan_empty start timeout script (d : D) e :
  (sd_browse SERVICE_TYPE d).1 = Err e ->
  server_browse into_values start timeout script d = Returns ([], (sd_browse SERVICE_TYPE d).2).
Proof. unfold server_browse. destruct (sd_browse _ d) as [r d1]. simpl. by intros ->. Qed.

Definition sockets_of (i : ServiceInfo) : list SocketAddr :=
  map (fun a => {| sa_ip := a; sa_scope_id := 0; sa_port := si_port i |}) (si_addresses i).

Lemma add_addresses_spec addrs port servers :
  NoDup servers ->
  NoDup (add_addresses addrs port servers)
  /\ forall s, s ∈ add_addresses addrs port servers
       <-> s ∈ servers \/ s ∈ map (fun a => {| sa_ip := a; sa_scope_id := 0; sa_port := port |}) addrs.
Proof.
  revert servers. induction addrs as [|a addrs IH]; intros servers Hnd; simpl.
  { split; [done|]. intros s. rewrite elem_of_nil. tauto. }
  set (sock := {| sa_ip := a; sa_scope_id := 0; sa_port := port |}).
  destruct (decide (sock ∈ servers)) as [Hin|Hin].
  - rewrite bool_decide_eq_true_2 by done. destruct (IH servers Hnd) as [H1 H2]. split; [done|].
    intros s. rewrite H2, elem_of_cons. naive_solver.
  - rewrite bool_decide_eq_false_2 by done. destruct (IH (servers ++ [sock])) as [H1 H2].
    { apply NoDup_app. split_and!; [done| |apply NoDup_singleton].
      intros s Hs ->%list_elem_of_singleton. done. }
    split; [done|]. intros s. rewrite H2, elem_of_app, list_elem_of_singleton, elem_of_cons. tauto.
Qed.

Lemma client_loop_exact deadline script servers :
  comes_to_end deadline script -> NoDup servers ->
  exists l, client_browse_loop deadline script servers = Returns l /\ NoDup l
    /\ forall s, s ∈ l <-> s ∈ servers \/ exists i, i ∈ heard false deadline script /\ s ∈ sockets_of i.
Proof.
  revert servers. induction script as [|[now ev] script IH]; intros servers Hend Hnd.
  { destruct Hend as (? & ? & He & _). by apply elem_of_nil in He. }
  assert (Hstop : forall s, s ∈ servers <-> s ∈ servers \/ exists i, i ∈ @nil ServiceInfo /\ s ∈ sockets_of i).
  { intros s. split; [by left|]. intros [|(i & Hi & _)]; [done|]. by apply elem_of_nil in Hi. }
  simpl. destruct (Z.leb_spec deadline now) as [Hle|Hlt].
  { exists servers. split_and!; [done|done|]. by destruct ev. }
  destruct ev as [ev|]; [|by exists servers]. apply comes_to_end_tail in Hend; [|done].
  destruct ev as [info|ty|].
  - destruct (add_addresses_spec (si_addresses info) (si_port info) servers Hnd) as [Ha Hm].
    destruct (IH _ Hend Ha) as (l & -> & Hl & Hs). exists l. split_and!; [done|done|].
    intros s. rewrite Hs, Hm. setoid_rewrite elem_of_cons. unfold sockets_of. naive_solver.
  - apply IH; done.
  - apply IH; done.
Qed.

(** The client's browse ends and returns every address of every service it
    heard of within its two seconds, each exactly once. *)
Theorem client_browse_exact start script (d d1 : D) :
  sd_browse SERVICE_TYPE d = (Ok tt, d1) -> comes_to_end (start + 2 * 10 ^ 9) script ->
  exists l, client_browse start script d = Returns (Ok l, d1) /\ NoDup l
    /\ forall s, s ∈ l <-> exists i, i ∈ heard false (start + 2 * 10 ^ 9) script /\ s ∈ sockets_of i.
Proof.
  intros Hb Hend. unfold client_browse. rewrite Hb.
  destruct (client_loop_exact _ _ [] Hend (NoDup_nil_2)) as (l & -> & Hnd & Hs).
  exists l. split_and!; [done|done|]. intros s. rewrite Hs, elem_of_nil. tauto.
Qed.
End Browser_facts.

(** ** A toy daemon and witnesses *)

(** A daemon that is up or down. *)
Definition when_up (up : bool) : result string unit := if up then Ok tt else Err "down".

#[export] Instance toy_mdns : MdnsSd bool := {|
  sd_valid _ := Ok tt;
  sd_register _ up := (when_up up, up);
  sd_unregister _ up := (when_up up, up);
  sd_browse _ up := (when_up up, up);
  sd_shutdown up := (when_up up, false)
|}.

Definition wheel_info (host : Z) (name : string) : ServiceInfo :=
  {| si_fullname := name; si_addresses := [IpV4 10 0 0 host]; si_port := 3240; si_properties := [("version", "1.1.1")] |}.

Definition sample_script : Script :=
  [(0, Some (ServiceResolved (wheel_info 7 "rig"))); (1, Some OtherServiceEvent);
   (2, Some (ServiceResolved (wheel_info 8 "rig"))); (3, Some (ServiceResolved (wheel_info 7 "desk"))); (4, None)].

Lemma sample_script_ends deadline : comes_to_end deadline sample_script.
Proof. exists 4, None. split; [|by right]. unfold sample_script. rewrite !elem_of_cons. auto 10. Qed.

Lemma devices_txt_roundtrip_witness :
  parse_devices_kv (encode_devices_txt toy_entries)
  = Some [{| rd_name := "046d:c261"; rd_busId := "1-1"; rd_vid := 0x046d; rd_pid := 0xc261 |};
          {| rd_name := "8087:0024"; rd_busId := "1-2"; rd_vid := 0x8087; rd_pid := 0x0024 |}].
Proof.
  rewrite devices_txt_roundtrip; [vm_compute; reflexivity|done|].
  unfold toy_entries, txt_ok, is_u16. rewrite !Forall_cons, Forall_nil.
  repeat split; try (vm_compute; reflexivity); vm_compute; discriminate.
Defined.

Lemma devices_txt_capacity_witness :
  (255 < String.length ("devices=" +:+ encode_devices_txt (replicate 6 (make_test_entry "1-1" 0 0))))%nat.
Proof.
  apply devices_txt_capacity.
  - apply Forall_replicate. vm_compute. repeat constructor.
  - rewrite length_replicate. lia.
Defined.

Lemma scan_exact_witness :
  exists l (m : gmap string DiscoveredServer), server_browse (fun m => (map_to_list m).*2) 0 5 sample_script true = Returns (l, false)
    /\ l ≡ₚ (map_to_list m).*2
    /\ forall name, m !! name = discovered <$> first_named name (heard true (0 + 5 * 10 ^ 9) sample_script).
Proof.
  exact (@scan_exact bool toy_mdns (fun m => (map_to_list m).*2) (fun m => reflexivity _) 0 5 sample_script true true
    eq_refl (sample_script_ends _)).
Defined.

Lemma client_browse_exact_witness :
  exists l, client_browse 0 sample_script true = Returns (Ok l, true) /\ NoDup l
    /\ forall s, s ∈ l <-> exists i, i ∈ heard false (0 + 2 * 10 ^ 9) sample_script /\ s ∈ sockets_of i.
Proof. exact (@client_browse_exact bool toy_mdns 0 sample_script true true eq_refl (sample_script_ends _)). Defined.
