(* ===== verification/Hotplug.v ===== *)
(** * The hotplug monitor (server/usbip-server/src/hotplug.rs)

    A background thread polls a source of events and sends what it finds over a
    channel; the owner of the monitor receives.  The thread and the owner are
    interleaved by a schedule, an infinite sequence of actions; a run is the
    sequence of states it leads through.  The channel of the standard library is
    an unbounded queue. *)

From S2P Require Import Prelude.

Inductive HotplugEvent :=
| Attached (busid : string) (vid pid : Z)
| Detached (busid : string) (correlation_id : string).

#[export] Instance HotplugEvent_eq_dec : EqDecision HotplugEvent.
Proof. solve_decision. Defined.

(** [HotplugSource]. *)
Class HotplugSource (S : Type) : Type := { poll : S -> option HotplugEvent * S }.

#[export] Instance noop_source : HotplugSource unit := {| poll s := (None, s) |}.

(** Where the thread is. *)
Inductive thread := Polling | Sleeping | Ended.

Section Monitor.
Context {S : Type} `{!HotplugSource S}.

(** The monitor with its thread; [hm_received] is what the owner has received. *)
Record HotplugMonitor := {
  hm_source : S;
  hm_thread : thread;
  hm_queue : list HotplugEvent;
  hm_receiver : bool;
  hm_received : list HotplugEvent
}.

(** [HotplugMonitor::new]. *)
Definition monitor_new (source : S) : HotplugMonitor :=
  {| hm_source := source; hm_thread := Polling; hm_queue := []; hm_receiver := true; hm_received := [] |}.

(** One turn of the thread. *)
Definition thread_step (m : HotplugMonitor) : HotplugMonitor :=
  match hm_thread m with
  | Polling =>
      let '(ev, source) := poll (hm_source m) in
      match ev with
      | Some event =>
          if hm_receiver m
          then {| hm_source := source; hm_thread := Polling; hm_queue := hm_queue m ++ [event];
                  hm_receiver := true; hm_received := hm_received m |}
          else {| hm_source := source; hm_thread := Ended; hm_queue := hm_queue m;
                  hm_receiver := false; hm_received := hm_received m |}
      | None => {| hm_source := source; hm_thread := Sleeping; hm_queue := hm_queue m;
                   hm_receiver := hm_receiver m; hm_received := hm_received m |}
      end
  | Sleeping => {| hm_source := hm_source m; hm_thread := Polling; hm_queue := hm_queue m;
                   hm_receiver := hm_receiver m; hm_received := hm_received m |}
  | Ended => m
  end.

(** [try_recv]. *)
Definition try_recv (m : HotplugMonitor) : option HotplugEvent * HotplugMonitor :=
  match hm_queue m with
  | [] => (None, m)
  | e :: q => (Some e, {| hm_source := hm_source m; hm_thread := hm_thread m; hm_queue := q;
                          hm_receiver := hm_receiver m; hm_received := hm_received m ++ [e] |})
  end.

(** [recv]: [None] while it blocks; it returns nothing once the thread, which owns
    the sender, has ended. *)
Definition recv (m : HotplugMonitor) : option (option HotplugEvent) * HotplugMonitor :=
  match hm_queue m with
  | [] => (match hm_thread m with Ended => Some None | _ => None end, m)
  | _ => let '(e, m) := try_recv m in (Some e, m)
  end.

(** Dropping the monitor drops its receiver. *)
Definition monitor_drop (m : HotplugMonitor) : HotplugMonitor :=
  {| hm_source := hm_source m; hm_thread := hm_thread m; hm_queue := [];
     hm_receiver := false; hm_received := hm_received m |}.

(** ** Schedules *)

Inductive action := ThreadRuns | Receive | DropMonitor.

Definition act (a : action) (m : HotplugMonitor) : HotplugMonitor :=
  match a with
  | ThreadRuns => thread_step m
  | Receive => if hm_receiver m then (try_recv m).2 else m
  | DropMonitor => monitor_drop m
  end.

(** The state after the first [n] actions. *)
Fixpoint run (sched : nat -> action) (m : HotplugMonitor) (n : nat) : HotplugMonitor :=
  match n with
  | O => m
  | Datatypes.S n => act (sched n) (run sched m n)
  end.

(** The source after [n] polls and the events it yielded. *)
Fixpoint yields (n : nat) (s : S) : list HotplugEvent * S :=
  match n with
  | O => ([], s)
  | Datatypes.S n =>
      let '(l, s) := yields n s in
      let '(e, s) := poll s in
      (l ++ match e with Some e => [e] | None => [] end, s)
  end.

(** ** Theorems *)

(** The monitor after [n] polls: what is received and what is queued is what the
    source has yielded, in order. *)
Definition polled (s0 : S) (n : nat) (m : HotplugMonitor) : Prop :=
  hm_receiver m = true /\ hm_thread m <> Ended /\ yields n s0 = (hm_received m ++ hm_queue m, hm_source m).

(** Progress: every turn of the thread counts. *)
Definition turns (n : nat) (m : HotplugMonitor) : nat := (2 * n + match hm_thread m with Polling => 1 | _ => 0 end)%nat.

Lemma polled_thread s0 n m :
  polled s0 n m -> exists n', polled s0 n' (thread_step m) /\ (turns n m < turns n' (thread_step m))%nat
    /\ hm_received (thread_step m) = hm_received m.
Proof.
  intros (Hr & Ht & Hn). unfold turns, thread_step. destruct (hm_thread m) eqn:Et; [| |done].
  - exists (Datatypes.S n). destruct (poll (hm_source m)) as [[e|] s] eqn:E; rewrite ?Hr;
      (split; [split_and!; [done|done|]; cbn [yields]; rewrite Hn, E|simpl; split; [lia|done]]).
    + simpl. by rewrite app_assoc.
    + simpl. by rewrite app_nil_r.
  - exists n. simpl. split; [by split_and!|]. split; [lia|done].
Qed.

Lemma polled_receive s0 n m :
  polled s0 n m -> polled s0 n (act Receive m) /\ hm_thread (act Receive m) = hm_thread m
    /\ match hm_queue m with
       | [] => hm_received (act Receive m) = hm_received m
       | e :: _ => hm_received (act Receive m) = hm_received m ++ [e]
       end.
Proof.
  intros (Hr & Ht & Hn). unfold polled. simpl. rewrite Hr. unfold try_recv. destruct (hm_queue m) as [|e q] eqn:Eq; simpl.
  - by rewrite Eq.
  - split_and!; [done|done| |done|done]. rewrite Hn. by rewrite <- app_assoc.
Qed.

Lemma polled_new s0 : polled s0 0 (monitor_new s0).
Proof. by split_and!. Qed.

(** [k] turns made, [r] events received. *)
Definition reached (s0 : S) (k r : nat) (m : HotplugMonitor) : Prop :=
  exists n, polled s0 n m /\ (k <= turns n m)%nat /\ (r <= length (hm_received m))%nat.

Lemma reached_act s0 k r a m : a <> DropMonitor -> reached s0 k r m -> reached s0 k r (act a m).
Proof.
  intros Ha (n & Hp & Hk & Hr). destruct a; [| |done].
  - destruct (polled_thread s0 n m Hp) as (n' & Hp' & Ht & He). exists n'. simpl. rewrite He. split_and!; (done || lia).
  - destruct (polled_receive s0 n m Hp) as (Hp' & Ht & He). exists n. split; [done|]. unfold turns in *. rewrite Ht.
    split; [done|]. destruct (hm_queue m); rewrite He; [done|]. rewrite length_app. lia.
Qed.

Lemma reached_run sched s0 k r t u :
  (forall i, sched i <> DropMonitor) -> (t <= u)%nat ->
  reached s0 k r (run sched (monitor_new s0) t) -> reached s0 k r (run sched (monitor_new s0) u).
Proof. intros Hs Htu Ht. induction Htu as [|u _ IH]; [done|]. simpl. by apply reached_act. Qed.

(** The events arrive in the order of the source, without loss or
    duplication: whatever the schedule, what the owner has received is a prefix of
    what the source has yielded, and the rest is still queued. *)
Theorem hotplug_fifo sched s0 n :
  (forall k, sched k <> DropMonitor) ->
  exists k, let m := run sched (monitor_new s0) n in
    hm_received m ++ hm_queue m = (yields k s0).1 /\ hm_source m = (yields k s0).2.
Proof.
  intros Hs. assert (H0 : reached s0 0 0 (run sched (monitor_new s0) 0)).
  { exists O. split; [apply polled_new|]. simpl. lia. }
  destruct (reached_run sched s0 0 0 0 n Hs ltac:(lia) H0) as (k & (_ & _ & Hk) & _).
  exists k. cbv zeta. by rewrite Hk.
Qed.

(** *** Progress *)

Definition infinitely_often (a : action) (sched : nat -> action) : Prop :=
  forall n, exists m, (n <= m)%nat /\ sched m = a.

(** The monitor is kept, and both sides get to run again and again. *)
Definition fair (sched : nat -> action) : Prop :=
  (forall k, sched k <> DropMonitor) /\ infinitely_often ThreadRuns sched /\ infinitely_often Receive sched.

Lemma yields_prefix n k s0 : (n <= k)%nat -> (yields n s0).1 `prefix_of` (yields k s0).1.
Proof.
  induction 1 as [|k _ IH]; [done|]. cbn [yields].
  destruct (yields k s0) as [l s]. destruct (poll s) as [e s']. simpl in *. etrans; [exact IH|]. by eexists.
Qed.

Lemma turns_reached sched s0 k : fair sched -> exists t, reached s0 k 0 (run sched (monitor_new s0) t).
Proof.
  intros (Hs & Hth & _). induction k as [|k [t Ht]].
  - exists O, O. split; [apply polled_new|]. simpl. lia.
  - destruct (Hth t) as (u & Htu & Hu). destruct (reached_run sched s0 k 0 t u Hs Htu Ht) as (n & Hp & Hk & _).
    exists (Datatypes.S u). simpl. rewrite Hu. destruct (polled_thread s0 n _ Hp) as (n' & Hp' & Ht' & _).
    exists n'. simpl. split_and!; (done || lia).
Qed.

Lemma receives sched s0 n r :
  fair sched -> (r <= length (yields n s0).1)%nat ->
  exists t, reached s0 (2 * n) r (run sched (monitor_new s0) t).
Proof.
  intros Hf. pose proof Hf as (Hs & _ & Hrec). induction r as [|r IH]; intros Hr; [by apply turns_reached|].
  destruct IH as [t Ht]; [lia|]. destruct (Hrec t) as (u & Htu & Hu).
  destruct (reached_run sched s0 _ r t u Hs Htu Ht) as (n' & Hp & Hk & Hl).
  exists (Datatypes.S u). simpl. rewrite Hu. destruct (polled_receive s0 n' _ Hp) as (Hp' & Ht' & He).
  exists n'. split; [done|]. unfold turns in *. rewrite Ht'. split; [done|].
  destruct (hm_queue (run sched (monitor_new s0) u)) as [|e q] eqn:Eq; rewrite He.
  - destruct Hp as (_ & Hne & Hy). rewrite Eq, app_nil_r in Hy.
    assert (Hn : (n <= n')%nat) by (destruct (hm_thread _); lia).
    pose proof (prefix_length _ _ (yields_prefix n n' s0 Hn)) as Hlen. rewrite Hy in Hlen. simpl in Hlen. lia.
  - rewrite length_app. simpl. lia.
Qed.

(** C19: Every event is delivered: under a fair schedule that keeps the monitor,
    whatever the source yields in its first [n] polls has, after finitely many steps,
    been received by the owner, in order. *)
Theorem hotplug_delivered sched s0 n :
  fair sched -> exists t, (yields n s0).1 `prefix_of` hm_received (run sched (monitor_new s0) t).
Proof.
  intros Hf. destruct (receives sched s0 n _ Hf (Nat.le_refl _)) as (t & n' & (_ & Hne & Hy) & Hk & Hr).
  exists t. assert (Hn : (n <= n')%nat) by (unfold turns in Hk; destruct (hm_thread _); lia).
  pose proof (yields_prefix n n' s0 Hn) as Hp. rewrite Hy in Hp. simpl in Hp.
  destruct Hp as [l Hl]. exists (drop (length (yields n s0).1) (hm_received (run sched (monitor_new s0) t))).
  assert (Ht : take (length (yields n s0).1) (hm_received (run sched (monitor_new s0) t)) = (yields n s0).1).
  { apply (f_equal (take (length (yields n s0).1))) in Hl. by rewrite take_app_length, take_app_le in Hl. }
  rewrite <- Ht at 1. symmetry. apply take_drop.
Qed.

(** A blocking receive never comes back empty: the sender lives as long as the
    thread, and the thread ends only after the monitor was dropped. *)
Lemma recv_never_disconnected sched s0 n :
  (forall k, sched k <> DropMonitor) -> (recv (run sched (monitor_new s0) n)).1 <> Some None.
Proof.
  intros Hs. assert (H0 : reached s0 0 0 (run sched (monitor_new s0) 0)).
  { exists O. split; [apply polled_new|]. simpl. lia. }
  destruct (reached_run sched s0 0 0 0 n Hs ltac:(lia) H0) as (k & (_ & Hne & _) & _).
  unfold recv, try_recv. destruct (hm_queue _); [|done]. by destruct (hm_thread _).
Qed.

(** The thread ends once the monitor has been dropped and the source yields
    another event; a source that yields nothing keeps it polling. *)
Lemma thread_ends_after_drop m e s :
  poll (hm_source m) = (Some e, s) -> hm_thread m = Polling ->
  hm_thread (thread_step (monitor_drop m)) = Ended.
Proof. intros Hp Ht. unfold thread_step, monitor_drop; simpl. by rewrite Ht, Hp. Qed.
End Monitor.

(** A shut down source does not end the thread. *)
Lemma noop_thread_never_ends n :
  hm_thread (run (fun _ => ThreadRuns) (monitor_drop (monitor_new tt)) n) <> Ended.
Proof.
  assert (H : (hm_source (run (fun _ => ThreadRuns) (monitor_drop (monitor_new tt)) n) = tt)
              /\ hm_thread (run (fun _ => ThreadRuns) (monitor_drop (monitor_new tt)) n) <> Ended); [|apply H].
  induction n as [|n [Hs Ht]]; [done|]. simpl. unfold thread_step. by destruct (hm_thread _).
Qed.

(** ** Witnesses *)

(** A source that replays a script. *)
#[export] Instance scripted_source : HotplugSource (list (option HotplugEvent)) :=
  {| poll l := match l with [] => (None, []) | e :: l => (e, l) end |}.

Definition plug_script : list (option HotplugEvent) :=
  [Some (Attached "3-2" 0x046d 0xc261); None; Some (Detached "3-2" "0190")].

Definition alternate (n : nat) : action := if Nat.even n then ThreadRuns else Receive.

Lemma alternate_fair : fair alternate.
Proof.
  split_and!.
  - intros k. unfold alternate. by destruct (Nat.even k).
  - intros n. exists (2 * n)%nat. split; [lia|]. unfold alternate. by rewrite Nat.even_mul.
  - intros n. exists (1 + 2 * n)%nat. split; [lia|]. unfold alternate. by rewrite Nat.even_add_mul_2.
Qed.

Lemma hotplug_delivered_witness :
  exists t, [Attached "3-2" 0x046d 0xc261; Detached "3-2" "0190"]
    `prefix_of` hm_received (run alternate (monitor_new plug_script) t).
Proof. exact (hotplug_delivered alternate plug_script 3 alternate_fair). Defined.

Lemma hotplug_fifo_witness :
  exists k, hm_received (run alternate (monitor_new plug_script) 8) ++ hm_queue (run alternate (monitor_new plug_script) 8)
    = (yields k plug_script).1
    /\ hm_source (run alternate (monitor_new plug_script) 8) = (yields k plug_script).2.
Proof. exact (hotplug_fifo alternate plug_script 8 (proj1 alternate_fair)). Defined.
