(* ===== verification/Connections.v ===== *)
(** * Several connections over one export table
    (server/usbip-server/src/server.rs, Server::run and handle_import)

    The server runs one task per client; the tasks share the export table and the
    device manager and interleave at every await.  A session is followed from the
    point where its import request has been read; a transition is the code between
    two points where another task can run.  Whether a write (or the key exchange
    of an encrypted connection) succeeds is an input. *)

From S2P Require Import Prelude RustStd Errors Proto Urb Stream Wire Crypto CryptoStream.
From S2P Require Import Bandwidth UsbBackend UsbManager Batcher Server.

(** Where the task of a connection is. *)
Inductive phase :=
| Requested
| Found (e : UsbIpDeviceEntry)
| Reserved (e : UsbIpDeviceEntry)
| Claimed (e : UsbIpDeviceEntry)
| Described (e : UsbIpDeviceEntry) (descriptors : list byte)
| Serving (e : UsbIpDeviceEntry)
| Released (e : UsbIpDeviceEntry)
| Finished
| Aborted (e : UsbIpDeviceEntry).

Record Session := { se_peer : string; se_id : string; se_phase : phase }.

Definition at_phase (p : phase) (s : Session) : Session :=
  {| se_peer := se_peer s; se_id := se_id s; se_phase := p |}.

Inductive session_event :=
| LookUp
| Reserve
| Claim
| Describe
| Wrote (ok : bool)
| Submit (cmd : UsbIpCmdSubmit) (data : list byte)
| BatchWriteFails
| LeaveLoop
| RemoveExport.

Section Connections.
Context {B : Type} `{!UsbBackend B}.

Record World := {
  wo_usb : UsbDeviceManager (B := B);
  wo_exports : Exports;
  wo_sessions : list Session
}.

(** One piece of [handle_import] and [handle_urb_loop]. *)
Definition session_step (ev : session_event) (s : Session) (usb : UsbDeviceManager (B := B)) (exports : Exports)
    : option (Session * UsbDeviceManager (B := B) * Exports) :=
  match se_phase s, ev with
  | Requested, LookUp =>
      Some (match get_device_entry (se_id s) usb with
            | None => at_phase Finished s
            | Some e => at_phase (Found e) s
            end, usb, exports)
  | Found e, Reserve =>
      match exports !! se_id s with
      | Some _ => Some (at_phase Finished s, usb, exports)
      | None => Some (at_phase (Reserved e) s, usb, <[se_id s := (se_peer s, e)]> exports)
      end
  | Reserved e, Claim =>
      let '(r, usb) := claim_device (se_id s) usb in
      Some (at_phase (match r with Ok _ => Claimed e | Err _ => Aborted e end) s, usb, exports)
  | Claimed e, Describe =>
      let '(r, usb) := get_descriptor_tree (se_id s) usb in
      Some (at_phase (match r with Ok d => Described e d | Err _ => Aborted e end) s, usb, exports)
  | Described e _, Wrote ok => Some (at_phase (if ok then Serving e else Aborted e) s, usb, exports)
  | Serving e, Submit cmd data => Some (s, snd (submit_urb (se_id s) cmd data usb), exports)
  | Serving e, BatchWriteFails => Some (at_phase (Aborted e) s, usb, exports)
  | Serving e, LeaveLoop =>
      let '(r, usb) := release_device (se_id s) usb in
      Some (at_phase (match r with Ok _ => Released e | Err _ => Aborted e end) s, usb, exports)
  | Released e, RemoveExport => Some (at_phase Finished s, usb, delete (se_id s) exports)
  | _, _ => None
  end.

(** A client's request is read, or a task goes on.  The requests of the HTTP interface
    that reach the same table are added in Interface.v; the locks that the tasks take
    in a transition, and what they wait for meanwhile, are in Locks.v. *)
Inductive world_event :=
| Accept (peer id : string)
| Runs (i : nat) (ev : session_event).

Definition world_happens (e : world_event) (w : World) : option World :=
  match e with
  | Accept peer id =>
      Some {| wo_usb := wo_usb w; wo_exports := wo_exports w;
              wo_sessions := wo_sessions w ++ [{| se_peer := peer; se_id := id; se_phase := Requested |}] |}
  | Runs i ev =>
      s ← wo_sessions w !! i;
      '(s', usb, exports) ← session_step ev s (wo_usb w) (wo_exports w);
      Some {| wo_usb := usb; wo_exports := exports; wo_sessions := <[i := s']> (wo_sessions w) |}
  end.

Inductive world_step : World -> World -> Prop :=
| world_step_happens e w w' : world_happens e w = Some w' -> world_step w w'.

Definition world_new (usb : UsbDeviceManager (B := B)) : World :=
  {| wo_usb := usb; wo_exports := ∅; wo_sessions := [] |}.

Fixpoint world_run (es : list world_event) (w : World) : option World :=
  match es with
  | [] => Some w
  | e :: es => w' ← world_happens e w; world_run es w'
  end.

(** ** Who holds a device *)

Definition held_entry (s : Session) : option UsbIpDeviceEntry :=
  match se_phase s with
  | Reserved e | Claimed e | Described e _ | Serving e | Released e | Aborted e => Some e
  | Requested | Found _ | Finished => None
  end.

Definition held_item (s : Session) : option (string * (string * UsbIpDeviceEntry)) :=
  (fun e => (se_id s, (se_peer s, e))) <$> held_entry s.

Definition held (ss : list Session) : list (string * (string * UsbIpDeviceEntry)) := omap held_item ss.

(** The phases in which the device is claimed. *)
Definition uses_device (s : Session) : Prop :=
  match se_phase s with Claimed _ | Described _ _ | Serving _ => True | _ => False end.

Record world_inv (w : World) : Prop := {
  wi_exports : wo_exports w = list_to_map (held (wo_sessions w));
  wi_unique : NoDup (held (wo_sessions w)).*1;
  wi_claimed : forall s, s ∈ wo_sessions w -> uses_device s -> mgr_handles (wo_usb w) !! se_id s = Some true
}.

(** What a transition can do to the table, in terms of what its session holds. *)
Definition table_effect (s s' : Session) (x x' : Exports) : Prop :=
  (held_item s' = held_item s /\ x' = x)
  \/ (exists k v, held_item s = None /\ held_item s' = Some (k, v) /\ x !! k = None /\ x' = <[k := v]> x)
  \/ (exists k v, held_item s = Some (k, v) /\ held_item s' = None /\ x' = delete k x).

Lemma session_step_effect ev s usb x s' usb' x' :
  session_step ev s usb x = Some (s', usb', x') -> se_id s' = se_id s /\ table_effect s s' x x'.
Proof.
  unfold session_step, table_effect, held_item, held_entry.
  destruct s as [peer id p]. destruct p, ev; simpl; try done.
  - intros [= <- <- <-]. destruct (get_device_entry id usb); simpl; (split; [done|]); by left.
  - destruct (x !! id) eqn:Ex; intros [= <- <- <-]; simpl; (split; [done|]); [by left|].
    right. left. exists id, (peer, e). done.
  - destruct (claim_device id usb) as [[?|?] u]; intros [= <- <- <-]; (split; [done|]); by left.
  - destruct (get_descriptor_tree id usb) as [[?|?] u]; intros [= <- <- <-]; (split; [done|]); by left.
  - intros [= <- <- <-]. destruct ok; (split; [done|]); by left.
  - intros [= <- <- <-]. split; [done|]. by left.
  - intros [= <- <- <-]. split; [done|]. by left.
  - destruct (release_device id usb) as [[?|?] u]; intros [= <- <- <-]; (split; [done|]); by left.
  - intros [= <- <- <-]. split; [done|]. right. right. by exists id, (peer, e).
Qed.

Lemma split_at ss i s :
  ss !! i = Some s -> exists l1 l2, ss = l1 ++ s :: l2 /\ forall s' : Session, <[i := s']> ss = l1 ++ s' :: l2.
Proof.
  intros Hi. exists (take i ss), (drop (S i) ss). split.
  - symmetry. by apply take_drop_middle.
  - intros s'. apply insert_take_drop. by eapply lookup_lt_Some.
Qed.

Lemma held_middle l1 s l2 :
  held (l1 ++ s :: l2)
  ≡ₚ match held_item s with Some kv => kv :: held (l1 ++ l2) | None => held (l1 ++ l2) end.
Proof.
  unfold held. rewrite !omap_app. simpl. destruct (held_item s) as [kv|]; [|done]. by rewrite Permutation_middle.
Qed.

Lemma table_effect_keeps l1 s s' l2 (x x' : Exports) :
  table_effect s s' x x' -> x = list_to_map (held (l1 ++ s :: l2)) -> NoDup (held (l1 ++ s :: l2)).*1 ->
  x' = list_to_map (held (l1 ++ s' :: l2)) /\ NoDup (held (l1 ++ s' :: l2)).*1.
Proof.
  intros He Hx Hn. pose proof (held_middle l1 s l2) as Hs. pose proof (held_middle l1 s' l2) as Hs'.
  destruct He as [[Hi ->]|[(k & v & Hi & Hi' & Hk & ->)|(k & v & Hi & Hi' & ->)]].
  - rewrite Hi, <- Hs in Hs'. split; [|by rewrite Hs'].
    rewrite Hx. apply list_to_map_proper; [done|by symmetry].
  - rewrite Hi in Hs. rewrite Hi', <- Hs in Hs'. rewrite Hx in Hk. apply not_elem_of_list_to_map in Hk.
    assert (Hn' : NoDup ((k, v) :: held (l1 ++ s :: l2)).*1) by (by apply NoDup_cons).
    split; [|by rewrite Hs']. rewrite Hx. change (<[k:=v]> (list_to_map ?l)) with (list_to_map ((k, v) :: l) : Exports).
    apply list_to_map_proper; [done|by symmetry].
  - rewrite Hi in Hs. rewrite Hi' in Hs'. rewrite Hs in Hn. apply NoDup_cons in Hn as [Hk Hn].
    assert (Hx2 : x = <[k := v]> (list_to_map (held (l1 ++ l2)))).
    { rewrite Hx. change (<[k := v]> (list_to_map ?l)) with (list_to_map ((k, v) :: l) : Exports).
      apply list_to_map_proper; [rewrite Hs; by apply NoDup_cons|done]. }
    split; [|by rewrite Hs']. rewrite Hx2. trans (list_to_map (held (l1 ++ l2)) : Exports).
    + apply delete_insert_id. by apply not_elem_of_list_to_map.
    + apply list_to_map_proper; [done|by symmetry].
Qed.

(** What a transition does to the claimed devices. *)
Lemma session_step_handles ev s usb x s' usb' x' :
  session_step ev s usb x = Some (s', usb', x') ->
  (uses_device s' -> mgr_handles usb !! se_id s = Some true -> mgr_handles usb' !! se_id s = Some true)
  /\ (uses_device s' -> uses_device s \/ mgr_handles usb' !! se_id s = Some true)
  /\ (forall id, id <> se_id s -> mgr_handles usb' !! id = mgr_handles usb !! id)
  /\ (mgr_handles usb' !! se_id s = mgr_handles usb !! se_id s \/ is_Some (held_entry s)).
Proof.
  unfold session_step, uses_device, held_entry. destruct s as [peer id p].
  destruct p, ev; simpl; try done.
  - intros [= <- <- <-]. destruct (get_device_entry id usb); simpl; auto.
  - destruct (x !! id); intros [= <- <- <-]; simpl; auto.
  - unfold claim_device, io_bind, io_zoom.
    destruct (be_claim_device id (mgr_backend usb)) as [[[]|k] b]; intros [= <- <- <-]; simpl.
    + rewrite lookup_insert_eq. split_and!; [by auto|by auto| |by eauto]. intros id' Hne. by rewrite lookup_insert_ne.
    + split_and!; auto.
  - unfold get_descriptor_tree, io_zoom.
    destruct (be_get_descriptor_tree id (mgr_backend usb)) as [[t|k] b]; intros [= <- <- <-]; simpl; auto.
  - intros [= <- <- <-]. destruct ok; simpl; auto.
  - intros [= <- <- <-]. simpl. rewrite submit_urb_handles. auto.
  - intros [= <- <- <-]. simpl. auto.
  - unfold release_device, io_zoom. simpl.
    destruct (be_release_device id (mgr_backend usb)) as [[[]|k] b]; intros [= <- <- <-]; simpl;
      (split_and!; [done|done| |by eauto]); intros id' Hne; by rewrite lookup_delete_ne.
  - intros [= <- <- <-]. simpl. auto.
Qed.

Lemma uses_held s : uses_device s -> is_Some (held_entry s).
Proof. unfold uses_device, held_entry. destruct (se_phase s); naive_solver. Qed.

Lemma held_in s ss e : s ∈ ss -> held_entry s = Some e -> (se_id s, (se_peer s, e)) ∈ held ss.
Proof.
  intros Hs He. unfold held. apply list_elem_of_omap. exists s. split; [done|]. unfold held_item. by rewrite He.
Qed.

(** Two sessions of the list that hold the same id are the same one. *)
Lemma held_twice l1 s l2 s2 :
  NoDup (held (l1 ++ s :: l2)).*1 -> is_Some (held_entry s) -> s2 ∈ l1 ++ l2 -> is_Some (held_entry s2) ->
  se_id s2 <> se_id s.
Proof.
  intros Hn [e He] Hs2 [e2 He2] Heq. pose proof (held_middle l1 s l2) as Hp. unfold held_item in Hp.
  rewrite He in Hp. simpl in Hp. rewrite Hp in Hn. apply NoDup_cons in Hn as [Hnot _]. apply Hnot.
  rewrite <- Heq. exact (list_elem_of_fmap_2 fst _ _ (held_in _ _ _ Hs2 He2)).
Qed.

Lemma elem_other (ss : list Session) i j si sj l1 l2 :
  ss !! i = Some si -> ss !! j = Some sj -> i <> j -> ss = l1 ++ si :: l2 -> length l1 = i -> sj ∈ l1 ++ l2.
Proof.
  intros _ Hj Hne -> <-. apply elem_of_app. destruct (decide (j < length l1)%nat) as [Hlt|Hge].
  - left. rewrite lookup_app_l in Hj by done. by eapply list_elem_of_lookup_2.
  - right. rewrite lookup_app_r in Hj by lia. destruct (j - length l1)%nat as [|n] eqn:E; [lia|].
    simpl in Hj. by eapply list_elem_of_lookup_2.
Qed.

Lemma world_inv_new usb : world_inv (world_new usb).
Proof. split; simpl; [done|constructor|]. intros s Hs. by apply not_elem_of_nil in Hs. Qed.

Lemma world_inv_runs i ev w w' :
  world_inv w -> world_happens (Runs i ev) w = Some w' -> world_inv w'.
Proof.
  intros [Hx Hn Hc]. simpl. destruct (wo_sessions w !! i) as [s|] eqn:Ei; [|done]. simpl.
  destruct (session_step ev s _ _) as [[[s' usb'] x']|] eqn:Es; [|done]. simpl. intros [= <-].
  destruct (split_at _ _ _ Ei) as (l1 & l2 & Hss & Hins). specialize (Hins s').
  destruct (session_step_effect _ _ _ _ _ _ _ Es) as [Hid He].
  destruct (session_step_handles _ _ _ _ _ _ _ Es) as (Hk & Hu & Hother & Hsame).
  rewrite Hss in Hx, Hn, Hc. rewrite Hins. destruct (table_effect_keeps _ _ _ _ _ _ He Hx Hn) as [Hx' Hn'].
  split; simpl; [done|done|]. intros s0. rewrite elem_of_app, elem_of_cons. intros Hs0 Huse.
  assert (Hcase : s0 = s' \/ s0 ∈ l1 ++ l2) by (rewrite elem_of_app; tauto).
  destruct Hcase as [->|Hin].
  - rewrite Hid. destruct (Hu Huse) as [Hus|?]; [|done]. apply Hk; [done|]. apply Hc; [|done].
    rewrite elem_of_app, elem_of_cons. tauto.
  - assert (Hold : mgr_handles (wo_usb w) !! se_id s0 = Some true).
    { apply Hc; [|done]. rewrite elem_of_app, elem_of_cons. rewrite elem_of_app in Hin. tauto. }
    destruct (decide (se_id s0 = se_id s)) as [Heq|Hne]; [|by rewrite Hother].
    destruct Hsame as [Hsame|Hheld]; [by rewrite Heq, Hsame, <- Heq|].
    destruct (held_twice l1 s l2 s0 Hn Hheld Hin (uses_held s0 Huse) Heq).
Qed.

Lemma world_inv_step w w' : world_step w w' -> world_inv w -> world_inv w'.
Proof.
  intros [e w1 w2 He] Hw. destruct e as [peer id|i ev]; [|by eapply world_inv_runs].
  simpl in He. injection He as <-. destruct Hw as [Hx Hn Hc].
  assert (Hh : held (wo_sessions w1 ++ [{| se_peer := peer; se_id := id; se_phase := Requested |}]) = held (wo_sessions w1)).
  { unfold held. by rewrite omap_app, app_nil_r. }
  split; simpl; [by rewrite Hh|by rewrite Hh|]. intros s. rewrite elem_of_app, list_elem_of_singleton.
  intros [Hs| ->] Hu; [by apply Hc|done].
Qed.

Lemma world_inv_reachable usb w : rtc world_step (world_new usb) w -> world_inv w.
Proof.
  intros H. pose proof (world_inv_new usb) as Hw. induction H as [|w1 w2 w3 Hs _ IH]; [done|].
  apply IH. by eapply world_inv_step.
Qed.

(** A bus id is held by one session at a time, and listed for it. *)
Lemma held_once w i j si sj : world_inv w ->
  wo_sessions w !! i = Some si -> wo_sessions w !! j = Some sj ->
  is_Some (held_entry si) -> is_Some (held_entry sj) -> se_id si = se_id sj -> i = j.
Proof.
  intros [_ Hn _] Hi Hj Hhi Hhj Heq. destruct (decide (i = j)) as [|Hne]; [done|exfalso].
  assert (Hlt : (i < length (wo_sessions w))%nat) by (by eapply lookup_lt_Some).
  pose proof (take_drop_middle _ _ _ Hi) as Hss. symmetry in Hss. rewrite Hss in Hn.
  eapply (held_twice _ si _ sj Hn Hhi); [|done|done].
  apply (elem_other _ _ _ _ _ _ _ Hi Hj Hne Hss). rewrite length_take. lia.
Qed.

Lemma exports_held w id peer e : world_inv w ->
  wo_exports w !! id = Some (peer, e) <->
  exists s, s ∈ wo_sessions w /\ se_id s = id /\ se_peer s = peer /\ held_entry s = Some e.
Proof.
  intros [Hx Hn _]. rewrite Hx. etrans; [symmetry; exact (elem_of_list_to_map (M := gmap string) _ _ _ Hn)|].
  unfold held. rewrite list_elem_of_omap. split.
  - intros (s & Hs & Hit). unfold held_item in Hit. destruct (held_entry s) as [e'|] eqn:Ee; [|done].
    simpl in Hit. injection Hit as <- <- <-. by exists s.
  - intros (s & Hs & <- & <- & He). exists s. split; [done|]. unfold held_item. by rewrite He.
Qed.

(** ** Theorems *)

(** C3: a bus id is never imported twice at the same time. Over all interleavings
    of any number of connections, two sessions that have reserved, claimed or
    serve the same bus id are the same session; the export table lists exactly
    the bus ids held, each with its holder's address and device; and as long as a
    session uses its device no other session's end takes the claim away, so its
    URBs reach the device. *)
Theorem import_exclusive usb w :
  rtc world_step (world_new usb) w ->
  (forall i j si sj, wo_sessions w !! i = Some si -> wo_sessions w !! j = Some sj ->
     is_Some (held_entry si) -> is_Some (held_entry sj) -> se_id si = se_id sj -> i = j)
  /\ (forall id peer e, wo_exports w !! id = Some (peer, e) <->
        exists s, s ∈ wo_sessions w /\ se_id s = id /\ se_peer s = peer /\ held_entry s = Some e)
  /\ (forall s cmd data, s ∈ wo_sessions w -> uses_device s ->
        execute_urb (se_id s) cmd data (wo_usb w)
        = io_zoom mgr_backend set_backend (be_execute_urb (se_id s) cmd data) (wo_usb w)).
Proof.
  intros Hr. apply world_inv_reachable in Hr as Hw. split_and!.
  - intros. by eapply held_once.
  - intros. by apply exports_held.
  - intros s cmd data Hs Hu. unfold execute_urb. by rewrite (wi_claimed _ Hw s Hs Hu).
Qed.
End Connections.

(** ** The sequential handshake is a run of these transitions *)

Definition requested (peer id : string) : Session := {| se_peer := peer; se_id := id; se_phase := Requested |}.

Definition handshake_events (i : nat) : list world_event :=
  [Runs i LookUp; Runs i Reserve; Runs i Claim; Runs i Describe; Runs i (Wrote true)].

Lemma bind_refused {B} `{!UsbBackend B} (m : io (Conn (B := B)) unit) c :
  forall id c', (m ;;; io_ret Refused) c <> (Ok (Accepted id), c').
Proof. intros id c'. unfold io_bind. by destruct (m c) as [[[]|k] c1]. Qed.

Lemma run_single {B} `{!UsbBackend B} ev s (usb : UsbDeviceManager (B := B)) x s' usb' x' es :
  session_step ev s usb x = Some (s', usb', x') ->
  world_run (Runs 0 ev :: es) {| wo_usb := usb; wo_exports := x; wo_sessions := [s] |}
  = world_run es {| wo_usb := usb'; wo_exports := x'; wo_sessions := [s'] |}.
Proof. intros H. simpl. by rewrite H. Qed.

(** A handshake of Server.v that accepts is the run of an undisturbed session. *)
Lemma handshake_as_events {B} `{!UsbBackend B} peer buf l (c c' : Conn (B := B)) id :
  length buf = 32%nat -> import_handshake peer (receives (buf ++ l) c) = (Ok (Accepted id), c') ->
  exists e, world_run (handshake_events 0)
              {| wo_usb := cn_usb c; wo_exports := cn_exports c; wo_sessions := [requested peer id] |}
            = Some {| wo_usb := cn_usb c'; wo_exports := cn_exports c';
                      wo_sessions := [at_phase (Serving e) (requested peer id)] |}.
Proof.
  intros Hl. unfold import_handshake. rewrite read_request by done. cbn [receives cn_usb set_stream cn_exports].
  destruct (get_device_entry (request_busid buf) (cn_usb c)) as [e|] eqn:Ed; [|intros H; destruct (bind_refused _ _ _ _ H)].
  destruct (cn_exports c !! request_busid buf) eqn:Ex; [intros H; destruct (bind_refused _ _ _ _ H)|].
  unfold io_bind at 1, on_usb at 1, io_zoom at 1. cbn [cn_usb set_exports receives set_stream].
  destruct (claim_device (request_busid buf) (cn_usb c)) as [[[]|k] usb1] eqn:Ec; [|cbv beta iota zeta; intros H; discriminate H].
  unfold io_bind at 1, on_usb at 1, io_zoom at 1. cbn [cn_usb set_usb].
  destruct (get_descriptor_tree (request_busid buf) usb1) as [[d|k] usb2] eqn:Et; [|cbv beta iota zeta; intros H; discriminate H].
  unfold io_bind at 1, on_stream at 1, io_zoom at 1.
  destruct ((write_all _ ;;; Stream.flush) _) as [[[]|k] s2]; [|cbv beta iota zeta; intros H; discriminate H]. intros [= <- <-]. exists e.
  unfold handshake_events. do 5 (erewrite run_single; [|unfold session_step; simpl; rewrite ?Ed, ?Ex, ?Ec, ?Et; reflexivity]).
  done.
Qed.

(** ** Runs at the fake backend *)

(** Two clients want the same device; the first one is still at work. *)
Definition rivals : list world_event :=
  Accept "10.0.0.2:1" "1-1" :: Accept "10.0.0.3:1" "1-1" :: handshake_events 0
  ++ [Runs 1 LookUp; Runs 1 Reserve].

Lemma world_run_reachable {B} `{!UsbBackend B} es (w w' : World (B := B)) :
  world_run es w = Some w' -> rtc world_step w w'.
Proof.
  revert w. induction es as [|e es IH]; intros w; simpl; [intros [= <-]; constructor|].
  destruct (world_happens e w) as [w1|] eqn:E; [|done]. simpl. intros H.
  eapply rtc_l; [by econstructor|by apply IH].
Qed.

Lemma import_exclusive_witness :
  exists w, world_run rivals (world_new sample_manager) = Some w
            /\ se_phase <$> wo_sessions w = [Serving (make_test_entry "1-1" 0x046d 0xc261); Finished]
            /\ forall i j si sj, wo_sessions w !! i = Some si -> wo_sessions w !! j = Some sj ->
                 is_Some (held_entry si) -> is_Some (held_entry sj) -> se_id si = se_id sj -> i = j.
Proof.
  destruct (world_run rivals (world_new sample_manager)) as [w|] eqn:E; [|vm_compute in E; discriminate E].
  exists w. split; [reflexivity|]. split.
  - vm_compute in E. injection E as <-. vm_compute. reflexivity.
  - exact (proj1 (import_exclusive sample_manager w (world_run_reachable _ _ _ E))).
Defined.

(** Bus ids are compared as text but read as numbers: other spellings of a bus id
    name the same device and another entry of the export table. *)
Lemma bus_ids_alias {B} `{!UsbBackend B} (m : UsbDeviceManager (B := B)) :
  get_device_entry "01-+1-x" m = get_device_entry "1-1" m.
Proof. reflexivity. Qed.
