(* ===== verification/Leases.v ===== *)
(** * What the connections promise: leases of devices
    (server/usbip-server/src/server.rs)

    The promise of the export table, as a machine that knows nothing of tasks,
    devices and phases: a device is lent to a connection when nobody has it, URBs
    are executed for the connection that has it, and only that connection gives it
    back.  Every run of the interleaved connections is a run of this machine, and
    the sequential handler of Server.v is one of the interleavings. *)

From S2P Require Import Prelude RustStd Errors Proto Urb Stream Wire Crypto CryptoStream.
From S2P Require Import Bandwidth UsbBackend UsbManager Batcher Server Connections.

(** ** The specification *)

(** What an observer sees of connection [i]. *)
Inductive lease_event :=
| Lent (i : nat) (id : string)
| Executed (i : nat) (id : string) (cmd : UsbIpCmdSubmit) (data : list byte)
| Returned (i : nat) (id : string).

(** The connection that has the device [id] after the events. *)
Definition lessee (leases : gmap string nat) (e : lease_event) : gmap string nat :=
  match e with
  | Lent i id => <[id := i]> leases
  | Executed _ _ _ _ => leases
  | Returned _ id => delete id leases
  end.

Definition lease_allowed (leases : gmap string nat) (e : lease_event) : Prop :=
  match e with
  | Lent _ id => leases !! id = None
  | Executed i id _ _ | Returned i id => leases !! id = Some i
  end.

(** A run of the machine. *)
Inductive lease_run : gmap string nat -> list lease_event -> gmap string nat -> Prop :=
| lease_done m : lease_run m [] m
| lease_next m e es m' : lease_allowed m e -> lease_run (lessee m e) es m' -> lease_run m (e :: es) m'.

Lemma lease_run_app m es1 es2 m' :
  lease_run m (es1 ++ es2) m' -> lease_run m es1 (foldl lessee m es1) /\ lease_run (foldl lessee m es1) es2 m'.
Proof.
  revert m. induction es1 as [|e es1 IH]; intros m; simpl; [by split; [constructor|]|].
  inversion 1; subst. destruct (IH (lessee m e)) as [H1 H2]; [done|]. split; [by constructor|done].
Qed.

Lemma lease_run_snoc m es e m' : lease_run m es m' -> lease_allowed m' e -> lease_run m (es ++ [e]) (lessee m' e).
Proof. induction 1; simpl; intros He; constructor; [done|constructor|done|by apply IHlease_run]. Qed.

(** ** What is seen of the connections *)

Section Leases.
Context {B : Type} `{!UsbBackend B}.
Abbreviation World := (World (B := B)).

(** The event an observer sees when a task goes on: a reservation that succeeds, a
    URB that is executed, an export that is removed. *)
Definition observe (e : world_event) (w : World) : list lease_event :=
  match e with
  | Accept _ _ => []
  | Runs i ev =>
      match wo_sessions w !! i with
      | None => []
      | Some s =>
          match se_phase s, ev with
          | Found _, Reserve => match wo_exports w !! se_id s with Some _ => [] | None => [Lent i (se_id s)] end
          | Serving _, Submit cmd data => [Executed i (se_id s) cmd data]
          | Released _, RemoveExport => [Returned i (se_id s)]
          | _, _ => []
          end
      end
  end.

Fixpoint observed (es : list world_event) (w : World) : list lease_event :=
  match es with
  | [] => []
  | e :: es => observe e w ++ match world_happens e w with Some w' => observed es w' | None => [] end
  end.

(** ** The simulation *)

(** The leases are the sessions that hold a device. *)
Definition leases_of (w : World) (m : gmap string nat) : Prop := forall id i,
  m !! id = Some i <-> exists s, wo_sessions w !! i = Some s /\ se_id s = id /\ is_Some (held_entry s).

Lemma leases_new usb : leases_of (world_new usb) ∅.
Proof. intros id i. rewrite lookup_empty. split; [done|]. by intros (s & Hs & _). Qed.

Lemma leases_accept peer id w m : leases_of w m ->
  leases_of {| wo_usb := wo_usb w; wo_exports := wo_exports w;
               wo_sessions := wo_sessions w ++ [requested peer id] |} m.
Proof.
  intros Hm k i. rewrite (Hm k i). simpl. split; intros (s & Hs & Hk & Hh).
  - exists s. by rewrite (lookup_app_l_Some _ _ _ _ Hs).
  - apply lookup_app_Some in Hs as [Hs|[_ Hs]]; [by exists s|].
    apply list_lookup_singleton_Some in Hs as [_ <-]. by destruct Hh.
Qed.

(** A transition that neither takes nor gives back a device. *)
Lemma leases_same w m i s s' usb x : leases_of w m -> wo_sessions w !! i = Some s -> se_id s' = se_id s ->
  (is_Some (held_entry s') <-> is_Some (held_entry s)) ->
  leases_of {| wo_usb := usb; wo_exports := x; wo_sessions := <[i := s']> (wo_sessions w) |} m.
Proof.
  intros Hm Hs Hid Hh k j. rewrite (Hm k j). simpl. destruct (decide (i = j)) as [<-|Hne].
  - rewrite list_lookup_insert_eq by (by eapply lookup_lt_Some). rewrite Hs.
    split; intros (s0 & [= <-] & Hk & H0); eexists; (split; [done|]); (split; [congruence|by apply Hh]).
  - by rewrite list_lookup_insert_ne.
Qed.

Lemma leases_lend w m i s s' usb x : world_inv w -> leases_of w m -> wo_sessions w !! i = Some s -> se_id s' = se_id s ->
  held_entry s = None -> is_Some (held_entry s') -> wo_exports w !! se_id s = None ->
  m !! se_id s = None
  /\ leases_of {| wo_usb := usb; wo_exports := x; wo_sessions := <[i := s']> (wo_sessions w) |} (<[se_id s := i]> m).
Proof.
  intros Hw Hm Hs Hid Hn Hh Hx.
  assert (Hfree : forall j sj, wo_sessions w !! j = Some sj -> is_Some (held_entry sj) -> se_id sj <> se_id s).
  { intros j sj Hj [e He] Heq. assert (wo_exports w !! se_id s = Some (se_peer sj, e)); [|congruence].
    apply (exports_held w); [done|]. exists sj. split_and!; [|done..]. by eapply list_elem_of_lookup_2. }
  split.
  - destruct (m !! se_id s) as [j|] eqn:Ej; [|done]. apply Hm in Ej as (sj & Hj & Hk & Hhj). by destruct (Hfree j sj Hj Hhj).
  - intros k j. simpl. destruct (decide (i = j)) as [<-|Hne].
    + rewrite list_lookup_insert_eq by (by eapply lookup_lt_Some). destruct (decide (se_id s = k)) as [<-|Hk].
      * rewrite lookup_insert_eq. split; [|done]. intros _. by exists s'.
      * rewrite lookup_insert_ne by done. rewrite (Hm k i), Hs. split; intros (s0 & [= <-] & Hk0 & H0); [rewrite Hn in H0; by destruct H0|congruence].
    + rewrite list_lookup_insert_ne by done. destruct (decide (se_id s = k)) as [<-|Hk].
      * rewrite lookup_insert_eq. split; [naive_solver|]. intros (sj & Hj & Hk & Hhj). by destruct (Hfree j sj Hj Hhj).
      * rewrite lookup_insert_ne by done. apply Hm.
Qed.

Lemma leases_return w m i s s' usb x : world_inv w -> leases_of w m -> wo_sessions w !! i = Some s ->
  is_Some (held_entry s) -> held_entry s' = None ->
  leases_of {| wo_usb := usb; wo_exports := x; wo_sessions := <[i := s']> (wo_sessions w) |} (delete (se_id s) m).
Proof.
  intros Hw Hm Hs Hh Hn k j. simpl. destruct (decide (se_id s = k)) as [<-|Hk].
  - rewrite lookup_delete_eq. split; [done|]. intros (sj & Hj & Heq & Hhj).
    destruct (decide (i = j)) as [<-|Hne].
    + rewrite list_lookup_insert_eq in Hj by (by eapply lookup_lt_Some). injection Hj as <-. rewrite Hn in Hhj. by destruct Hhj.
    + rewrite list_lookup_insert_ne in Hj by done. destruct Hne. by eapply held_once.
  - rewrite lookup_delete_ne by done. rewrite (Hm k j). destruct (decide (i = j)) as [<-|Hne].
    + rewrite list_lookup_insert_eq by (by eapply lookup_lt_Some). rewrite Hs.
      split; intros (s0 & [= <-] & Hk0 & H0); [done|]. rewrite Hn in H0. by destruct H0.
    + by rewrite list_lookup_insert_ne.
Qed.

(** A session that holds its device has the lease of it. *)
Lemma leases_held w m i s : leases_of w m -> wo_sessions w !! i = Some s -> is_Some (held_entry s) -> m !! se_id s = Some i.
Proof. intros Hm Hs Hh. apply Hm. by exists s. Qed.

Lemma leases_step e w w' m : world_inv w -> leases_of w m -> world_happens e w = Some w' ->
  exists m', lease_run m (observe e w) m' /\ leases_of w' m'.
Proof.
  intros Hw Hm. destruct e as [peer id|i ev]; simpl.
  { intros [= <-]. exists m. split; [constructor|by apply leases_accept]. }
  destruct (wo_sessions w !! i) as [s|] eqn:Es; [|done]. simpl. destruct s as [peer id p] eqn:Eq. rewrite <- Eq in *.
  assert (Hsame : forall s' usb x, se_id s' = se_id s -> (is_Some (held_entry s') <-> is_Some (held_entry s)) ->
    exists m', lease_run m [] m' /\ leases_of {| wo_usb := usb; wo_exports := x; wo_sessions := <[i := s']> (wo_sessions w) |} m').
  { intros. exists m. split; [constructor|by eapply leases_same]. }
  unfold session_step. subst s. cbn [se_phase se_id]. destruct p, ev; try done; simpl.
  - intros [= <-]. apply Hsame; [by case_match|]. by case_match.
  - destruct (wo_exports w !! id) eqn:Ex; intros [= <-]; [by apply Hsame|].
    destruct (leases_lend w m i _ (at_phase (Reserved e) (requested peer id)) (wo_usb w) (<[id:=(peer, e)]> (wo_exports w)) Hw Hm Es)
      as [Hn Hl]; [done|done|by eexists|done|]. eexists. split; [|exact Hl]. constructor; [done|constructor].
  - destruct (claim_device id (wo_usb w)) as [[?|?] u]; intros [= <-]; by apply Hsame.
  - destruct (get_descriptor_tree id (wo_usb w)) as [[?|?] u]; intros [= <-]; by apply Hsame.
  - intros [= <-]. apply Hsame; destruct ok; done.
  - intros [= <-]. exists m. split; [|by eapply leases_same]. constructor; [|constructor]. apply (leases_held w m i _ Hm Es). by eexists.
  - intros [= <-]. by apply Hsame.
  - destruct (release_device id (wo_usb w)) as [[?|?] u]; intros [= <-]; by apply Hsame.
  - intros [= <-]. exists (delete id m). split.
    + constructor; [|constructor]. apply (leases_held w m i _ Hm Es). by eexists.
    + eapply (leases_return w m i {| se_peer := peer; se_id := id; se_phase := Released e |}); [done|done|done|by eexists|done].
Qed.

Lemma leases_runs es w w' m : world_inv w -> leases_of w m -> world_run es w = Some w' ->
  exists m', lease_run m (observed es w) m' /\ leases_of w' m'.
Proof.
  revert w m. induction es as [|e es IH]; intros w m Hw Hm; simpl; [intros [= <-]; exists m; split; [constructor|done]|].
  destruct (world_happens e w) as [w1|] eqn:E; [|done]. simpl. intros Hr.
  destruct (leases_step e w w1 m Hw Hm E) as (m1 & Hl & Hm1).
  destruct (IH w1 m1) as (m2 & Hl2 & Hm2); [by eapply world_inv_step; [econstructor|]|done|done|].
  exists m2. split; [|done]. clear - Hl Hl2. induction Hl; simpl; [done|]. constructor; [done|]. by apply IHHl.
Qed.

(** ** When a connection has ended *)

(** The phases a session has before it. *)
Definition steps_left (s : Session) : nat :=
  match se_phase s with
  | Requested => 7 | Found _ => 6 | Reserved _ => 5 | Claimed _ => 4 | Described _ _ => 3 | Serving _ => 2 | Released _ => 1
  | Finished | Aborted _ => 0
  end.

Definition has_ended (s : Session) : Prop := steps_left s = 0%nat.

(** ** Theorems *)

(** C4: The server's connections implement the lease of devices. Over every run of any
    number of connections that interleave, what is seen of them is a run of the
    lease machine: a device is lent only when nobody has it, every URB that is
    executed on it was sent by the connection that was lent it last and has not
    given it back, and nobody else gives it back; the export table lists exactly
    the devices that are lent at the end. *)
Theorem world_refines_leases usb es w : world_run es (world_new usb) = Some w ->
  exists m, lease_run ∅ (observed es (world_new usb)) m /\ leases_of w m /\ (forall id, is_Some (wo_exports w !! id) <-> is_Some (m !! id))
  /\ forall t1 i id cmd data t2, observed es (world_new usb) = t1 ++ Executed i id cmd data :: t2 ->
       foldl lessee ∅ t1 !! id = Some i.
Proof.
  intros Hr. pose proof (world_inv_new usb) as Hw.
  destruct (leases_runs es _ w ∅ Hw (leases_new usb) Hr) as (m & Hl & Hm). exists m. split_and!; [done|done| |].
  - apply world_run_reachable, world_inv_reachable in Hr. intros id. split.
    + intros [pe He]. destruct pe as [peer e]. apply (exports_held w) in He as (s & Hs & <- & _ & He); [|done].
      apply list_elem_of_lookup_1 in Hs as [i Hs]. exists i. eapply leases_held; [done|done|by eexists].
    + intros [i Hi]. apply Hm in Hi as (s & Hs & <- & [e He]). exists (se_peer s, e). apply (exports_held w); [done|].
      exists s. split_and!; [|done..]. by eapply list_elem_of_lookup_2.
  - intros t1 i id cmd data t2 Ht. rewrite Ht in Hl. apply lease_run_app in Hl as [_ Hl]. by inversion Hl.
Qed.
End Leases.

(** ** The sequential handler is one of the interleavings *)

Section Sequential.
Context {the_ring : Ring} {B : Type} `{!UsbBackend B}.
Abbreviation Manager := (UsbDeviceManager (B := B)).

(** A connection that nobody disturbs. *)
Fixpoint session_run (es : list session_event) (s : Session) (usb : Manager) (x : Exports) : option (Session * Manager * Exports) :=
  match es with
  | [] => Some (s, usb, x)
  | ev :: es => '(s', usb', x') ← session_step ev s usb x; session_run es s' usb' x'
  end.

Lemma session_run_app es1 es2 s usb x s1 usb1 x1 : session_run es1 s usb x = Some (s1, usb1, x1) ->
  session_run (es1 ++ es2) s usb x = session_run es2 s1 usb1 x1.
Proof.
  revert s usb x. induction es1 as [|ev es1 IH]; intros s usb x; simpl; [by intros [= <- <- <-]|].
  destruct (session_step ev s usb x) as [[[s' usb'] x']|]; [|done]. apply IH.
Qed.

Lemma world_run_session i es (w : World (B := B)) s s' usb x : wo_sessions w !! i = Some s ->
  session_run es s (wo_usb w) (wo_exports w) = Some (s', usb, x) ->
  world_run (map (Runs i) es) w = Some {| wo_usb := usb; wo_exports := x; wo_sessions := <[i := s']> (wo_sessions w) |}.
Proof.
  revert w s. induction es as [|ev es IH]; intros w s Hs; simpl.
  - intros [= <- <- <-]. rewrite list_insert_id by done. by destruct w.
  - rewrite Hs. simpl. destruct (session_step ev s (wo_usb w) (wo_exports w)) as [[[s1 usb1] x1]|]; [|done]. simpl. intros Hr.
    erewrite IH; [|simpl; apply list_lookup_insert_eq; by eapply lookup_lt_Some|exact Hr]. simpl. by rewrite list_insert_insert_eq.
Qed.

(** The events that bring a request for [id] from [c] to [c']. *)
Definition brings (peer id : string) (c : Conn (B := B)) (es : list session_event) (s' : Session) (c' : Conn (B := B)) : Prop :=
  session_run es (requested peer id) (cn_usb c) (cn_exports c) = Some (s', cn_usb c', cn_exports c').

(** What a part of the handler that only uses the stream leaves alone. *)
Lemma on_stream_shares {A} (m : io Stream A) (c : Conn (B := B)) r c' : on_stream m c = (r, c') ->
  cn_usb c' = cn_usb c /\ cn_exports c' = cn_exports c.
Proof. unfold on_stream, io_zoom. destruct (m (cn_stream c)) as [r0 s0]. by intros [= <- <-]. Qed.

Lemma refused_shares (m : io Stream unit) (c : Conn (B := B)) r c' : (on_stream m ;;; io_ret Refused) c = (r, c') ->
  cn_usb c' = cn_usb c /\ cn_exports c' = cn_exports c /\ forall id, r <> Ok (Accepted id).
Proof.
  intros H. unfold io_bind in H. destruct (on_stream m c) as [[[]|k] c1] eqn:E; apply on_stream_shares in E as [H1 H2];
    injection H as <- <-; done.
Qed.

(** The handshake, however it ends. *)
(** Runs a session along the equations of the context. *)
Ltac run_steps :=
  repeat progress (cbn [session_run session_step se_phase se_id se_peer at_phase requested mbind option_bind];
                   try match goal with E : ?t = _ |- context [?t] => rewrite E end).

Lemma handshake_brings peer (c : Conn (B := B)) r c' : import_handshake peer c = (r, c') ->
  (exists k, r = Err k /\ cn_usb c' = cn_usb c /\ cn_exports c' = cn_exports c)
  \/ exists id es s', brings peer id c es s' c'
     /\ match r with Ok (Accepted id') => id' = id /\ exists e d, s' = at_phase (Described e d) (requested peer id)
                   | _ => has_ended s' end.
Proof.
  unfold import_handshake. unfold io_bind at 1. destruct (on_stream (read_exact 32) c) as [[buf|k] c1] eqn:Er;
    apply on_stream_shares in Er as [Hu Hx]; [|intros [= <- <-]; left; by exists k].
  cbv zeta. set (id := request_busid buf). unfold brings. rewrite <- Hu, <- Hx. clear Hu Hx c.
  intros H. right. exists id. destruct (get_device_entry id (cn_usb c1)) as [e|] eqn:Ed.
  2:{ apply refused_shares in H as (Hu & Hx & Hr). exists [LookUp], (at_phase Finished (requested peer id)).
      run_steps. split; [done|]. destruct r as [[|id']|]; [done|by destruct (Hr id')|done]. }
  destruct (cn_exports c1 !! id) as [v|] eqn:Ex.
  { apply refused_shares in H as (Hu & Hx & Hr). exists [LookUp; Reserve], (at_phase Finished (requested peer id)).
    run_steps. split; [done|]. destruct r as [[|id']|]; [done|by destruct (Hr id')|done]. }
  revert H. unfold io_bind at 1, on_usb at 1, io_zoom at 1. cbn [cn_usb set_exports].
  destruct (claim_device id (cn_usb c1)) as [[[]|k] usb1] eqn:Ec.
  2:{ intros [= <- <-]. exists [LookUp; Reserve; Claim], (at_phase (Aborted e) (requested peer id)).
      by run_steps. }
  unfold io_bind at 1, on_usb at 1, io_zoom at 1. cbn [cn_usb set_usb].
  destruct (get_descriptor_tree id usb1) as [[d|k] usb2] eqn:Et.
  2:{ intros [= <- <-]. exists [LookUp; Reserve; Claim; Describe], (at_phase (Aborted e) (requested peer id)).
      by run_steps. }
  unfold io_bind at 1, on_stream at 1, io_zoom at 1.
  destruct ((write_all _ ;;; Stream.flush) _) as [[[]|k] s2]; intros [= <- <-].
  - exists [LookUp; Reserve; Claim; Describe], (at_phase (Described e d) (requested peer id)).
    run_steps. split; [done|]. split; [done|]. by exists e, d.
  - exists [LookUp; Reserve; Claim; Describe; Wrote false], (at_phase (Aborted e) (requested peer id)).
    by run_steps.
Qed.

(** An iteration of the URB loop executes one URB or none. *)
Definition iteration_usb (it : iteration (B := B)) : Manager :=
  match it with Continue l | Break l | Return _ l => lp_usb l end.

Lemma iteration_brings id clock (l : Loop (B := B)) e peer x :
  exists es, session_run es (at_phase (Serving e) (requested peer id)) (lp_usb l) x
             = Some (at_phase (Serving e) (requested peer id), iteration_usb (urb_iteration id clock l), x).
Proof.
  assert (Hnone : exists es, session_run es (at_phase (Serving e) (requested peer id)) (lp_usb l) x
            = Some (at_phase (Serving e) (requested peer id), lp_usb l, x)) by (by exists []).
  unfold urb_iteration. destruct (wire_read_message (lp_wire l)) as [[f|k] w]; [|done].
  case_bool; [done|]. destruct (header_read_from_prefix _) as [[h q]|]; [|done]. case_bool; [|done].
  cbv zeta. case_bool; [done|]. destruct (cmd_read_from_prefix _) as [[cmd q']|]; [|done].
  destruct (urb_data cmd _) as [data|]; [|done]. cbn [lp_usb lp_batcher lp_wire].
  exists [Submit cmd data]. destruct (submit_urb id cmd data (lp_usb l)) as [res usb'] eqn:Es. run_steps. cbn [snd].
  destruct (push _ _ _ _ _) as [[] b]; [|done]. destruct (Batcher.flush b) as [batch b'].
  by destruct (wire_write_message batch w) as [[[]|k] w'].
Qed.

Lemma loop_brings fuel id clock (l : Loop (B := B)) e peer x r l' : urb_loop fuel id clock l = Returns (r, l') ->
  exists es, session_run es (at_phase (Serving e) (requested peer id)) (lp_usb l) x
             = Some (at_phase (Serving e) (requested peer id), lp_usb l', x).
Proof.
  revert clock l. induction fuel as [|fuel IH]; intros clock l; [done|]. simpl.
  destruct (iteration_brings id (clock O) l e peer x) as [es1 H1].
  destruct (urb_iteration id (clock O) l) as [l1|l1|k l1]; [|intros [= <- <-]; by exists es1..].
  intros H. destruct (IH _ _ H) as [es2 H2]. exists (es1 ++ es2). by rewrite (session_run_app _ _ _ _ _ _ _ _ H1).
Qed.

Lemma urb_loop_brings fuel env id w usb x e peer r (c' : Conn (B := B)) :
  handle_urb_loop fuel env id w usb x = Returns (r, c') ->
  exists es s', session_run es (at_phase (Serving e) (requested peer id)) usb x = Some (s', cn_usb c', cn_exports c') /\ has_ended s'.
Proof.
  unfold handle_urb_loop. destruct (urb_loop fuel id _ _) as [[r0 l]| |] eqn:El; [|done..].
  destruct (loop_brings _ _ _ _ e peer x _ _ El) as [es Hes]. cbn [lp_usb] in Hes. destruct r0 as [[]|k].
  - unfold urb_loop_end. destruct (release_device id (lp_usb l)) as [[[]|k] usb'] eqn:Erel; intros [= <- <-].
    + exists (es ++ [LeaveLoop; RemoveExport]), (at_phase Finished (requested peer id)).
      rewrite (session_run_app _ _ _ _ _ _ _ _ Hes). by run_steps.
    + exists (es ++ [LeaveLoop]), (at_phase (Aborted e) (requested peer id)).
      rewrite (session_run_app _ _ _ _ _ _ _ _ Hes). by run_steps.
  - intros [= <- <-]. exists (es ++ [BatchWriteFails]), (at_phase (Aborted e) (requested peer id)).
    by rewrite (session_run_app _ _ _ _ _ _ _ _ Hes).
Qed.

Lemma import_brings fuel env enc peer (c : Conn (B := B)) r c' : handle_import fuel env enc peer c = Returns (r, c') ->
  (exists k, r = Err k /\ cn_usb c' = cn_usb c /\ cn_exports c' = cn_exports c)
  \/ exists id es s', brings peer id c es s' c' /\ has_ended s'.
Proof.
  unfold handle_import. destruct (import_handshake peer c) as [rh c1] eqn:Eh.
  destruct (handshake_brings peer c rh c1 Eh) as [(k & -> & Hu & Hx)|(id & es & s1 & Hes & Hend)];
    [intros [= <- <-]; left; by exists k|].
  destruct rh as [[|id']|k]; [intros [= <- <-]; right; by exists id, es, s1| |intros [= <- <-]; right; by exists id, es, s1].
  destruct Hend as (-> & e & d & ->). intros Hloop. right. exists id.
  assert (Hgo : forall w, handle_urb_loop fuel env id w (cn_usb c1) (cn_exports c1) = Returns (r, c') ->
    exists es s', brings peer id c es s' c' /\ has_ended s').
  { intros w Hw. destruct (urb_loop_brings _ _ _ _ _ _ e peer _ _ Hw) as (es2 & s' & Hes2 & Hend).
    exists (es ++ Wrote true :: es2), s'. split; [|done]. unfold brings. rewrite (session_run_app _ _ _ _ _ _ _ _ Hes). by run_steps. }
  destruct enc; [|by eapply Hgo].
  destruct (wire_encrypted _ _ _ _) as [[w|k] s2]; [by eapply Hgo|]. injection Hloop as <- <-.
  exists (es ++ [Wrote false]), (at_phase (Aborted e) (requested peer id)). split; [|done].
  unfold brings. rewrite (session_run_app _ _ _ _ _ _ _ _ Hes). by run_steps.
Qed.

(** C5: The sequential handler is one of the interleavings. Whatever a client sends and
    however its connection ends, with or without encryption, what [handle_import]
    does to the devices and to the export table is what a connection that starts
    beside any other ones and is not disturbed by them does, up to its end; only a
    connection that breaks before the request is read does nothing. *)
Theorem handler_is_interleaving fuel env enc peer (c : Conn (B := B)) r c' (w : World (B := B)) :
  handle_import fuel env enc peer c = Returns (r, c') -> wo_usb w = cn_usb c -> wo_exports w = cn_exports c ->
  (exists k, r = Err k /\ cn_usb c' = cn_usb c /\ cn_exports c' = cn_exports c)
  \/ exists id es s', has_ended s'
     /\ world_run (Accept peer id :: map (Runs (length (wo_sessions w))) es) w
        = Some {| wo_usb := cn_usb c'; wo_exports := cn_exports c'; wo_sessions := wo_sessions w ++ [s'] |}.
Proof.
  intros Himp Hu Hx. destruct (import_brings _ _ _ _ _ _ _ Himp) as [Hk|(id & es & s' & Hes & Hend)]; [by left|].
  right. exists id, es, s'. split; [done|]. cbn [world_run world_happens mbind option_bind].
  rewrite (world_run_session _ _ _ (requested peer id) s' (cn_usb c') (cn_exports c')).
  - cbn [wo_sessions]. rewrite insert_app_r_alt, Nat.sub_diag by lia. done.
  - cbn [wo_sessions]. by rewrite lookup_app_r, Nat.sub_diag by lia.
  - cbn [wo_usb wo_exports]. rewrite Hu, Hx. exact Hes.
Qed.
End Sequential.

(** ** Runs at the fake backend *)

(** The first of two rivals executes a URB and leaves; the second one, which was
    refused, asks again. *)
Definition taking_turns : list world_event :=
  rivals ++ [Runs 0 (Submit sample_cmd []); Runs 0 LeaveLoop; Runs 0 RemoveExport; Accept "10.0.0.3:2" "1-1"]
  ++ handshake_events 2 ++ [Runs 2 (Submit sample_cmd [])].

Definition turns_seen : list lease_event :=
  [Lent 0 "1-1"; Executed 0 "1-1" sample_cmd []; Returned 0 "1-1"; Lent 2 "1-1"; Executed 2 "1-1" sample_cmd []].

Lemma world_refines_leases_witness :
  observed taking_turns (world_new sample_manager) = turns_seen
  /\ exists m, lease_run ∅ turns_seen m /\ m !! "1-1" = Some 2%nat.
Proof.
  assert (Hseen : observed taking_turns (world_new sample_manager) = turns_seen) by (vm_compute; reflexivity).
  split; [exact Hseen|]. destruct (world_run taking_turns (world_new sample_manager)) as [w|] eqn:E; [|vm_compute in E; discriminate E].
  destruct (world_refines_leases sample_manager taking_turns w E) as (m & Hl & Hm & _). rewrite Hseen in Hl.
  exists m. split; [exact Hl|]. apply Hm. vm_compute in E. injection E as <-. by repeat eexists.
Defined.

(** A client that imports the device and leaves at once, beside one that waits. *)
Definition leaving_conn : Conn (B := FakeBackend) := receives (copy_padded 32 (as_bytes "1-1")) (sample_conn ∅).
Definition waiting_world : World (B := FakeBackend) :=
  {| wo_usb := sample_manager; wo_exports := ∅; wo_sessions := [requested "10.0.0.9:1" "1-1"] |}.

Lemma handler_is_interleaving_witness : exists id es s' w',
  has_ended s' /\ world_run (Accept "10.0.0.2:1" id :: map (Runs 1) es) waiting_world = Some w'
  /\ wo_sessions w' = [requested "10.0.0.9:1" "1-1"; s'].
Proof.
  destruct (handle_import (H := toy_ring) 5 sample_env false "10.0.0.2:1" leaving_conn) as [[r c']| |] eqn:E;
    [|vm_compute in E; discriminate E..].
  destruct (handler_is_interleaving (the_ring := toy_ring) 5 sample_env false "10.0.0.2:1" leaving_conn r c' waiting_world E eq_refl eq_refl)
    as [(k & -> & _)|(id & es & s' & Hend & Hrun)]; [vm_compute in E; discriminate E|].
  exists id, es, s'. eexists. split; [exact Hend|]. split; [exact Hrun|]. reflexivity.
Defined.
