(* ===== verification/Locks.v ===== *)
(** * The locks of the connections
    (server/usbip-server/src/server.rs, usb.rs, usb_backend.rs)

    Connections.v lets a task make a transition at once.  In the code a transition
    takes locks: the export table has one (server.rs), which is held while a busy
    client is sent its refusal; the manager's table of handles has one (usb.rs), which
    is held for a whole transfer; and so has the libusb backend's (usb_backend.rs).
    Here the transitions are cut at the points where a task takes or gives back a
    lock, waits for its client's socket or waits for the bus, and tasks interleave at
    all of these points.  The handlers of the API take the export table's lock and no
    other, and wait for nothing under it; they are not among the tasks here. *)

From S2P Require Import Prelude RustStd Errors Proto Urb Stream Wire Bandwidth UsbBackend UsbManager Server Connections Leases.

(** ** What a task does in a transition *)

Inductive lock := ExportsLock | ManagerLock | BackendLock.

#[export] Instance lock_eq_dec : EqDecision lock.
Proof. solve_decision. Defined.

(** [Effect ev] is where the transition has its effect on the shared state. *)
Inductive action :=
| Take (l : lock)
| Give (l : lock)
| OnSocket
| OnBus
| Effect (ev : session_event).

(** The libusb backend (usb_backend.rs): [claim_device] opens the device before it takes
    the lock; [execute_urb] and [release_device] use the device under it. *)
Definition libusb_claim_plan : list action := [OnBus; Take BackendLock; Give BackendLock].
Definition libusb_urb_plan (ev : session_event) : list action := [Take BackendLock; OnBus; Effect ev; Give BackendLock].
Definition libusb_release_plan (ev : session_event) : list action := [Take BackendLock; OnBus; Effect ev; Give BackendLock].

(** The manager (usb.rs).  A claim that fails takes no lock of it; its lock is held
    while the backend executes a URB or releases a device; a URB for a device that is
    not claimed does not get to the backend. *)
Definition claim_plans (ev : session_event) : list (list action) :=
  [[OnBus; Effect ev]; libusb_claim_plan ++ [Take ManagerLock; Effect ev; Give ManagerLock]].
Definition urb_plans (ev : session_event) : list (list action) :=
  [[Take ManagerLock; Effect ev; Give ManagerLock]; Take ManagerLock :: libusb_urb_plan ev ++ [Give ManagerLock]].
Definition release_plan (ev : session_event) : list action :=
  Take ManagerLock :: libusb_release_plan ev ++ [Give ManagerLock].

(** What the code of a transition may do, in order ([handle_import] and
    [handle_urb_loop] of server.rs).  After a URB a batch may be written; the rest of
    the batch is written before the device is released. *)
Definition plans (ev : session_event) : list (list action) :=
  match ev with
  | LookUp | Describe => [[OnBus; Effect ev]]
  | Reserve | RemoveExport => [[Take ExportsLock; Effect ev; Give ExportsLock]]
  | Claim => claim_plans ev
  | Wrote _ | BatchWriteFails => [[OnSocket; Effect ev]]
  | Submit _ _ =>
      map (fun p => OnSocket :: p) (urb_plans ev) ++ map (fun p => OnSocket :: p ++ [OnSocket]) (urb_plans ev)
  | LeaveLoop => [OnSocket :: release_plan ev]
  end.

(** What the effect adds: a client whose device is exported already is answered
    before the table is unlocked. *)
Definition answer (ev : session_event) (s : Session) : list action :=
  match ev, se_phase s with Reserve, Finished => [OnSocket] | _, _ => [] end.

(** A task holds a lock between taking and giving it back: when its rest gives the
    lock back before taking it. *)
Fixpoint holding (l : lock) (p : list action) : bool :=
  match p with
  | [] => false
  | Take l' :: p => if decide (l = l') then false else holding l p
  | Give l' :: p => if decide (l = l') then true else holding l p
  | _ :: p => holding l p
  end.

(** ** Tasks *)

Section Locks.
Context {B : Type} `{!UsbBackend B}.
Abbreviation World := (World (B := B)).

(** The connections, each with what is left of its transition. *)
Record Locked := { lk_world : World; lk_plans : list (list action) }.

Definition free (l : lock) (w : Locked) : Prop := forall j q, lk_plans w !! j = Some q -> holding l q = false.

(** Task [i] goes on. *)
Inductive task_step (i : nat) : Locked -> Locked -> Prop :=
| task_begins w ps s ev p :
    ps !! i = Some [] -> wo_sessions w !! i = Some s -> is_Some (session_step ev s (wo_usb w) (wo_exports w)) ->
    p ∈ plans ev ->
    task_step i {| lk_world := w; lk_plans := ps |} {| lk_world := w; lk_plans := <[i := p]> ps |}
| task_takes w ps l p :
    ps !! i = Some (Take l :: p) -> free l {| lk_world := w; lk_plans := ps |} ->
    task_step i {| lk_world := w; lk_plans := ps |} {| lk_world := w; lk_plans := <[i := p]> ps |}
| task_gives w ps l p :
    ps !! i = Some (Give l :: p) ->
    task_step i {| lk_world := w; lk_plans := ps |} {| lk_world := w; lk_plans := <[i := p]> ps |}
| task_waited w ps a p :
    ps !! i = Some (a :: p) -> a = OnSocket \/ a = OnBus ->
    task_step i {| lk_world := w; lk_plans := ps |} {| lk_world := w; lk_plans := <[i := p]> ps |}
| task_effect w ps s ev p s' usb x :
    ps !! i = Some (Effect ev :: p) -> wo_sessions w !! i = Some s ->
    session_step ev s (wo_usb w) (wo_exports w) = Some (s', usb, x) ->
    task_step i {| lk_world := w; lk_plans := ps |}
      {| lk_world := {| wo_usb := usb; wo_exports := x; wo_sessions := <[i := s']> (wo_sessions w) |};
         lk_plans := <[i := answer ev s' ++ p]> ps |}.

Inductive locked_step : Locked -> Locked -> Prop :=
| locked_accepts w ps peer id :
    locked_step {| lk_world := w; lk_plans := ps |}
      {| lk_world := {| wo_usb := wo_usb w; wo_exports := wo_exports w; wo_sessions := wo_sessions w ++ [requested peer id] |};
         lk_plans := ps ++ [[]] |}
| locked_runs i w w' : task_step i w w' -> locked_step w w'.

Definition locked_new (usb : UsbDeviceManager (B := B)) : Locked := {| lk_world := world_new usb; lk_plans := [] |}.

(** Task [i] waits for a lock that task [j] holds. *)
Definition waits_for (w : Locked) (i j : nat) : Prop :=
  exists l p q, lk_plans w !! i = Some (Take l :: p) /\ lk_plans w !! j = Some q /\ holding l q = true.

(** ** The discipline *)

Definition no_effect (p : list action) : bool := forallb (fun a => match a with Effect _ => false | _ => true end) p.

(** Only the backend's lock is taken under another one, the manager's; nobody waits
    for a socket under a lock; a transition has one effect, and the one that changes the
    export table takes place under its lock. *)
Definition allowed_next (a : action) (p : list action) : bool :=
  match a with
  | Take l => holding l p && negb (holding ExportsLock (a :: p)) && negb (holding BackendLock (a :: p))
              && (negb (holding ManagerLock (a :: p)) || bool_decide (l = BackendLock))
  | Give l => negb (holding l p)
  | OnSocket => forallb (fun l => negb (holding l p)) [ExportsLock; ManagerLock; BackendLock]
  | OnBus => true
  | Effect ev => no_effect p && match ev with Reserve | RemoveExport => match p with [Give ExportsLock] => true | _ => false end | _ => true end
  end.

Fixpoint disciplined (p : list action) : bool :=
  match p with [] => true | a :: p => allowed_next a p && disciplined p end.

Lemma plans_disciplined ev p : p ∈ plans ev -> disciplined p = true /\ (forall l, holding l p = false)
  /\ (forall ev', Effect ev' ∈ p -> ev' = ev).
Proof.
  assert (H : Forall (fun p => disciplined p = true /\ (forall l, holding l p = false) /\ Forall (fun a => forall ev', a = Effect ev' -> ev' = ev) p)
                (plans ev)).
  { destruct ev; simpl; repeat apply Forall_cons_2; try apply Forall_nil_2; (split; [reflexivity|]);
      (split; [by intros []|]); repeat apply Forall_cons_2; try apply Forall_nil_2; by intros ? [= <-]. }
  intros Hp. rewrite Forall_forall in H. apply H in Hp as (H1 & H2 & H3). split_and!; [done|done|].
  intros ev' Hin. rewrite Forall_forall in H3. by apply (H3 _ Hin).
Qed.

(** Whether a transition is open to a session depends on its phase only. *)
Lemma step_open ev s usb x usb' x' :
  is_Some (session_step ev s usb x) -> is_Some (session_step (B := B) ev s usb' x').
Proof.
  unfold session_step. destruct (se_phase s), ev; try done; intros _; try (by eexists).
  - by destruct (x' !! se_id s); eexists.
  - by destruct (claim_device (se_id s) usb'); eexists.
  - by destruct (get_descriptor_tree (se_id s) usb'); eexists.
  - by destruct (release_device (se_id s) usb'); eexists.
Qed.

(** What is left of a transition keeps the discipline and its effect can take place; or
    it is the answer to a client that is refused. *)
Definition task_ok (w : World) (i : nat) (q : list action) : Prop :=
  (disciplined q = true
   /\ forall ev, Effect ev ∈ q -> exists s, wo_sessions w !! i = Some s /\ forall usb x, is_Some (session_step ev s usb x))
  \/ (q = [OnSocket; Give ExportsLock] /\ exists s, wo_sessions w !! i = Some s /\ se_phase s = Finished).

Record locked_inv (w : Locked) : Prop := {
  li_length : length (lk_plans w) = length (wo_sessions (lk_world w));
  li_tasks : forall i q, lk_plans w !! i = Some q -> task_ok (lk_world w) i q;
  li_once : forall l i j qi qj, lk_plans w !! i = Some qi -> lk_plans w !! j = Some qj ->
    holding l qi = true -> holding l qj = true -> i = j
}.

Lemma holding_rest l a p : disciplined (a :: p) = true -> holding l p = true -> a = Take l \/ holding l (a :: p) = true.
Proof.
  cbn [disciplined]. intros [Hn _]%andb_true_iff Hp. destruct a as [l'|l'| | |ev]; simpl in Hn |- *; try (by right).
  - destruct (decide (l = l')) as [->|]; [by left|by right].
  - destruct (decide (l = l')); by right.
Qed.

Lemma task_ok_rest w i a p : task_ok w i (a :: p) -> task_ok w i p.
Proof.
  intros [[Hd He]|[[= -> ->] (s & Hs & Hf)]].
  - left. cbn [disciplined] in Hd. apply andb_true_iff in Hd as [_ Hd]. split; [done|].
    intros ev Hev. apply He. by apply list_elem_of_further.
  - left. split; [done|]. intros ev Hev. by apply list_elem_of_singleton in Hev.
Qed.

Lemma ok_holding_rest w i l a p : task_ok w i (a :: p) -> holding l p = true -> a = Take l \/ holding l (a :: p) = true.
Proof. intros [[Hd _]|[[= -> ->] _]]; [by apply holding_rest|by right]. Qed.

(** A task replaces its plan by one that holds nothing new but a free lock. *)
Lemma inv_replace w i q q' w' : locked_inv w -> lk_plans w !! i = Some q ->
  length (wo_sessions w') = length (wo_sessions (lk_world w)) ->
  (forall j, i <> j -> wo_sessions w' !! j = wo_sessions (lk_world w) !! j) ->
  task_ok w' i q' -> (forall l, holding l q' = true -> holding l q = true \/ free l w) ->
  locked_inv {| lk_world := w'; lk_plans := <[i := q']> (lk_plans w) |}.
Proof.
  intros [Hlen Ht Ho] Hi Hl Hsame Hok Hh. split; simpl.
  - by rewrite length_insert, Hlen.
  - intros j qj Hj. destruct (decide (i = j)) as [<-|Hne].
    + rewrite list_lookup_insert_eq in Hj by (by eapply lookup_lt_Some). by injection Hj as <-.
    + rewrite list_lookup_insert_ne in Hj by done. apply Ht in Hj. unfold task_ok in *. by rewrite Hsame.
  - assert (Hback : forall l j qj, <[i := q']> (lk_plans w) !! j = Some qj -> holding l qj = true ->
      (i = j /\ qj = q') \/ (i <> j /\ lk_plans w !! j = Some qj)).
    { intros l j qj Hj _. destruct (decide (i = j)) as [<-|Hne]; [left|right].
      - rewrite list_lookup_insert_eq in Hj by (by eapply lookup_lt_Some). by injection Hj as <-.
      - by rewrite list_lookup_insert_ne in Hj. }
    assert (Hmine : forall l j qj, holding l q' = true -> i <> j -> lk_plans w !! j = Some qj -> holding l qj = true -> False).
    { intros l j qj H1 Hne Hj H2. destruct (Hh l H1) as [Hq|Hf]; [by destruct Hne; eapply Ho|]. by rewrite (Hf j qj Hj) in H2. }
    intros l j k qj qk Hj Hk H1 H2. destruct (Hback l j qj Hj H1) as [[<- ->]|[Hnj Hj']], (Hback l k qk Hk H2) as [[<- ->]|[Hnk Hk']].
    + done.
    + by destruct (Hmine l k qk H1 Hnk Hk' H2).
    + by destruct (Hmine l j qj H2 Hnj Hj' H1).
    + by eapply Ho.
Qed.

Lemma inv_accept w peer id : locked_inv w ->
  locked_inv {| lk_world := {| wo_usb := wo_usb (lk_world w); wo_exports := wo_exports (lk_world w);
                               wo_sessions := wo_sessions (lk_world w) ++ [requested peer id] |};
                lk_plans := lk_plans w ++ [[]] |}.
Proof.
  intros [Hlen Ht Ho].
  assert (Hback : forall j q, (lk_plans w ++ [[]]) !! j = Some q -> lk_plans w !! j = Some q \/ q = []).
  { intros j q [H|[_ H]]%lookup_app_Some; [by left|]. apply list_lookup_singleton_Some in H as [_ <-]. by right. }
  split; simpl.
  - rewrite !length_app. simpl. lia.
  - intros i q [Hi| ->]%Hback.
    + destruct (Ht i q Hi) as [[Hd He]|[Hq (s & Hs & Hf)]]; [left|right]; (split; [done|]).
      * intros ev Hev. destruct (He ev Hev) as (s & Hs & Hx). exists s. split; [by apply lookup_app_l_Some|done].
      * exists s. split; [by apply lookup_app_l_Some|done].
    + left. split; [done|]. intros ev Hev. by apply not_elem_of_nil in Hev.
  - intros l i j qi qj Hi Hj H1 H2. apply Hback in Hi as [Hi| ->]; [|done]. apply Hback in Hj as [Hj| ->]; [|done]. by eapply Ho.
Qed.

(** The rest after an effect: with the answer for a refused client. *)
Lemma effect_rest w i ev p s s' usb x : task_ok w i (Effect ev :: p) -> wo_sessions w !! i = Some s ->
  session_step ev s (wo_usb w) (wo_exports w) = Some (s', usb, x) ->
  task_ok {| wo_usb := usb; wo_exports := x; wo_sessions := <[i := s']> (wo_sessions w) |} i (answer ev s' ++ p)
  /\ forall l, holding l (answer ev s' ++ p) = holding l p.
Proof.
  intros [[Hd He]|[[=] _]] Hs Hst. split; [|intros l; unfold answer; by destruct ev, (se_phase s')].
  assert (Hs' : <[i := s']> (wo_sessions w) !! i = Some s') by (apply list_lookup_insert_eq; by eapply lookup_lt_Some).
  cbn [disciplined] in Hd. apply andb_true_iff in Hd as [Hn Hd]. simpl in Hn. apply andb_true_iff in Hn as [Hno Hr].
  unfold answer, task_ok. simpl. rewrite Hs'.
  assert (Hplain : disciplined p = true /\ forall ev', Effect ev' ∈ p -> exists s0, Some s' = Some s0 /\ forall usb x, is_Some (session_step (B := B) ev' s0 usb x)).
  { split; [done|]. intros ev' Hev. unfold no_effect in Hno. rewrite forallb_forall in Hno.
    apply list_elem_of_In, Hno in Hev. done. }
  destruct ev; try (by left). destruct (se_phase s') eqn:Ef; try (by left).
  right. destruct p as [|[| [] | | |] []]; try done. split; [done|]. by exists s'.
Qed.

Lemma locked_step_inv w w' : locked_inv w -> locked_step w w' -> locked_inv w'.
Proof.
  intros Hw Hst. destruct Hst as [w0 ps peer id|i w0 w0' Hs]; [exact (inv_accept {| lk_world := w0; lk_plans := ps |} peer id Hw)|].
  pose proof (li_tasks _ Hw) as Ht.
  destruct Hs as [w ps s ev p Hi Hses Hopen Hp|w ps l p Hi Hf|w ps l p Hi|w ps a p Hi Ha|w ps s ev p s' usb x Hi Hses Hst];
    simpl in Ht; specialize (Ht i _ Hi); eapply (inv_replace {| lk_world := w; lk_plans := ps |}); try done.
  - destruct (plans_disciplined ev p Hp) as (Hd & _ & Hev). left. split; [done|]. intros ev' ->%Hev. exists s. split; [done|].
    intros usb x. by eapply step_open.
  - intros l Hl. destruct (plans_disciplined ev p Hp) as (_ & Hno & _). by rewrite Hno in Hl.
  - by eapply task_ok_rest.
  - intros l' Hl. destruct (ok_holding_rest _ _ _ _ _ Ht Hl) as [[= ->]|Hq]; [by right|by left].
  - by eapply task_ok_rest.
  - intros l' Hl. destruct (ok_holding_rest _ _ _ _ _ Ht Hl) as [[=]|Hq]. by left.
  - by eapply task_ok_rest.
  - intros l' Hl. destruct (ok_holding_rest _ _ _ _ _ Ht Hl) as [->|Hq]; [by destruct Ha|by left].
  - simpl. by rewrite length_insert.
  - intros j Hj. simpl. by rewrite list_lookup_insert_ne.
  - by eapply effect_rest.
  - intros l Hl. left. rewrite (proj2 (effect_rest _ _ _ _ _ _ _ _ Ht Hses Hst) l) in Hl. exact Hl.
Qed.

Lemma locked_new_inv usb : locked_inv (locked_new usb).
Proof. split; [done|by intros i q Hi|by intros l i j qi qj Hi]. Qed.

Lemma locked_reachable usb w : rtc locked_step (locked_new usb) w -> locked_inv w /\ rtc world_step (world_new usb) (lk_world w).
Proof.
  revert w. apply rtc_ind_r; [split; [apply locked_new_inv|apply rtc_refl]|]. intros w w' _ Hs [Hi Hr].
  split; [by eapply locked_step_inv|]. destruct Hs as [w0 ps peer id|i w0 w0' Hs]; simpl in *.
  - eapply rtc_r; [exact Hr|]. by apply (world_step_happens (Accept peer id)).
  - destruct Hs; simpl in *; try exact Hr. eapply rtc_r; [exact Hr|]. apply (world_step_happens (Runs i ev)).
    simpl. rewrite H0. simpl. by rewrite H1.
Qed.

(** A schedule, for runs: a task begins the [n]th plan of an event, or goes on. *)
Inductive move := Accepts (peer id : string) | Begins (i : nat) (ev : session_event) (n : nat) | Goes (i : nat).

Definition moves (m : move) (w : Locked) : option Locked :=
  let '{| lk_world := wo; lk_plans := ps |} := w in
  match m with
  | Accepts peer id =>
      Some {| lk_world := {| wo_usb := wo_usb wo; wo_exports := wo_exports wo; wo_sessions := wo_sessions wo ++ [requested peer id] |};
              lk_plans := ps ++ [[]] |}
  | Begins i ev n =>
      s ← wo_sessions wo !! i; _ ← session_step ev s (wo_usb wo) (wo_exports wo); p ← plans ev !! n;
      match ps !! i with Some [] => Some {| lk_world := wo; lk_plans := <[i := p]> ps |} | _ => None end
  | Goes i =>
      match ps !! i with
      | Some (Take l :: p) => if forallb (fun q => negb (holding l q)) ps then Some {| lk_world := wo; lk_plans := <[i := p]> ps |} else None
      | Some (Effect ev :: p) =>
          s ← wo_sessions wo !! i; '(s', usb, x) ← session_step ev s (wo_usb wo) (wo_exports wo);
          Some {| lk_world := {| wo_usb := usb; wo_exports := x; wo_sessions := <[i := s']> (wo_sessions wo) |};
                  lk_plans := <[i := answer ev s' ++ p]> ps |}
      | Some (_ :: p) => Some {| lk_world := wo; lk_plans := <[i := p]> ps |}
      | _ => None
      end
  end.

Lemma moves_steps m w w' : moves m w = Some w' -> locked_step w w'.
Proof.
  destruct w as [w ps], m as [peer id|i ev n|i]; simpl; [intros [= <-]; constructor| |]; intros H; apply (locked_runs i).
  - destruct (wo_sessions w !! i) as [s|] eqn:Es; [|done]. simpl in H.
    destruct (session_step ev s _ _) as [r|] eqn:Er; [|done]. simpl in H. destruct (plans ev !! n) as [p|] eqn:Ep; [|done]. simpl in H.
    destruct (ps !! i) as [[|]|] eqn:Ei; [|done..]. injection H as <-.
    eapply task_begins; [done|exact Es|by rewrite Er|by eapply list_elem_of_lookup_2].
  - destruct (ps !! i) as [[|[l|l| | |ev] p]|] eqn:Ei; [done| | | | | |done].
    + destruct (forallb _ ps) eqn:Ef; [|done]. injection H as <-. eapply task_takes; [done|]. intros j q Hj.
      rewrite forallb_forall in Ef. apply negb_true_iff, Ef. apply list_elem_of_In. by eapply list_elem_of_lookup_2.
    + injection H as <-. by eapply task_gives.
    + injection H as <-. eapply task_waited; [done|by left].
    + injection H as <-. eapply task_waited; [done|by right].
    + destruct (wo_sessions w !! i) as [s|] eqn:Es; [|done]. simpl in H.
      destruct (session_step ev s _ _) as [[[s' usb] x]|] eqn:Er; [|done]. simpl in H. injection H as <-. by eapply task_effect.
Qed.

Fixpoint schedule (ms : list move) (w : Locked) : option Locked :=
  match ms with [] => Some w | m :: ms => moves m w ≫= schedule ms end.

Lemma schedule_reaches ms w w' : schedule ms w = Some w' -> rtc locked_step w w'.
Proof.
  revert w. induction ms as [|m ms IH]; intros w; simpl; [intros [= <-]; apply rtc_refl|].
  destruct (moves m w) as [w1|] eqn:E; [|done]. simpl. intros H. eapply rtc_l; [by eapply moves_steps|by apply IH].
Qed.

(** ** No deadlock *)

(** The tasks that hold a lock and wait for another one. *)
Lemma waits_holding w i l p l' : locked_inv w -> lk_plans w !! i = Some (Take l :: p) -> holding l' (Take l :: p) = true ->
  l' = ManagerLock /\ l = BackendLock.
Proof.
  intros Hw Hi Hh. destruct (li_tasks _ Hw _ _ Hi) as [[Hd _]|[[=] _]].
  cbn [disciplined allowed_next] in Hd. rewrite !andb_true_iff, orb_true_iff, !negb_true_iff, bool_decide_eq_true in Hd.
  destruct Hd as [[[[_ He] Hb] Hm] _]. destruct l'; [congruence| |congruence]. split; [done|]. destruct Hm as [Hm|Hm]; [congruence|done].
Qed.

(** A task that is under way and does not wait for a lock can go on. *)
Lemma unblocked_steps w i a p : locked_inv w -> lk_plans w !! i = Some (a :: p) -> (forall j, ~ waits_for w i j) ->
  exists w', task_step i w w'.
Proof.
  intros Hw Hi Hno. destruct w as [w ps]. simpl in *. pose proof (li_tasks _ Hw _ _ Hi) as Hok. simpl in Hok.
  destruct a as [l|l| | |ev].
  - eexists. eapply task_takes; [exact Hi|]. intros j q Hj. destruct (holding l q) eqn:E; [|done].
    destruct (Hno j). by exists l, p, q.
  - eexists. by eapply task_gives.
  - eexists. eapply task_waited; [exact Hi|by left].
  - eexists. eapply task_waited; [exact Hi|by right].
  - destruct Hok as [[_ He]|[[=] _]]. destruct (He ev (list_elem_of_here _ _)) as (s & Hs & Hx).
    destruct (Hx (wo_usb w) (wo_exports w)) as [[[s' usb] x] Hst]. eexists. by eapply task_effect.
Qed.

(** A task between two transitions begins another one, until its connection has ended. *)
Lemma idle_steps w i s : lk_plans w !! i = Some [] -> wo_sessions (lk_world w) !! i = Some s -> ~ has_ended s ->
  exists w', task_step i w w'.
Proof.
  destruct w as [w ps]. simpl. intros Hi Hs Hn.
  assert (exists ev p, is_Some (session_step ev s (wo_usb w) (wo_exports w)) /\ p ∈ plans ev) as (ev & p & Hopen & Hp);
    [|eexists; by eapply task_begins].
  unfold has_ended, steps_left in Hn. unfold session_step. destruct (se_phase s); try done.
  - exists LookUp. eexists. split; [by eexists|apply list_elem_of_here].
  - exists Reserve. eexists. split; [case_match; by eexists|apply list_elem_of_here].
  - exists Claim. eexists. split; [destruct (claim_device _ _); by eexists|apply list_elem_of_here].
  - exists Describe. eexists. split; [destruct (get_descriptor_tree _ _); by eexists|apply list_elem_of_here].
  - exists (Wrote true). eexists. split; [by eexists|apply list_elem_of_here].
  - exists BatchWriteFails. eexists. split; [by eexists|apply list_elem_of_here].
  - exists RemoveExport. eexists. split; [by eexists|apply list_elem_of_here].
Qed.

Lemma waits_dec w i a p : lk_plans w !! i = Some (a :: p) -> (exists j, waits_for w i j) \/ (forall j, ~ waits_for w i j).
Proof.
  intros Hi. destruct a as [l|l| | |ev]; try (right; by intros j (l' & p' & q & Hi' & _); simplify_eq).
  destruct (decide (Exists (fun q => holding l q = true) (lk_plans w))) as [Hx|Hx].
  - left. apply Exists_exists in Hx as (q & Hq & Hh). apply list_elem_of_lookup_1 in Hq as [j Hj]. exists j. by exists l, p, q.
  - right. intros j (l' & p' & q & Hi' & Hj & Hh). simplify_eq. apply Hx, Exists_exists. exists q. split; [|done].
    by eapply list_elem_of_lookup_2.
Qed.

Lemma holder_under_way w i j : waits_for w i j -> exists a p, lk_plans w !! j = Some (a :: p).
Proof. intros (l & p & [|a q] & _ & Hj & Hh); [done|]. by exists a, q. Qed.

(** A task that is under way can go on, or the one it waits for, or the one that one
    waits for: a task that holds what another waits for waits for the backend's lock
    at most, and whoever has that one waits for nothing. *)
Lemma chain_steps w i a p : locked_inv w -> lk_plans w !! i = Some (a :: p) ->
  exists k w', (k = i \/ waits_for w i k \/ exists j, waits_for w i j /\ waits_for w j k) /\ task_step k w w'.
Proof.
  intros Hw Hi. destruct (waits_dec w i a p Hi) as [[j Hij]|Hno].
  2:{ destruct (unblocked_steps w i a p Hw Hi Hno) as [w' Hs]. exists i, w'. auto. }
  destruct (holder_under_way _ _ _ Hij) as (b & q & Hj). destruct (waits_dec w j b q Hj) as [[k Hjk]|Hno].
  2:{ destruct (unblocked_steps w j b q Hw Hj Hno) as [w' Hs]. exists j, w'. auto. }
  destruct (holder_under_way _ _ _ Hjk) as (c & r & Hk). destruct (waits_dec w k c r Hk) as [[m Hkm]|Hno].
  2:{ destruct (unblocked_steps w k c r Hw Hk Hno) as [w' Hs]. exists k, w'. split; [right; right; by exists j|done]. }
  exfalso. destruct Hjk as (l & q1 & r1 & Hj1 & Hk1 & Hh1), Hkm as (l2 & r2 & t & Hk2 & _), Hij as (l0 & p1 & q0 & _ & Hj0 & Hh0).
  rewrite Hj1 in Hj0. injection Hj0 as <-. rewrite Hk2 in Hk1. injection Hk1 as <-.
  destruct (waits_holding w j l q1 l0 Hw Hj1 Hh0) as [_ ->]. destruct (waits_holding w k l2 r2 _ Hw Hk2 Hh1) as [[=] _].
Qed.

(** C14: The connections do not deadlock.  Tasks interleave at every point where they
    take or give back the lock of the export table, of the manager or of the backend,
    or wait for their client or for the bus.  What they do to the shared state is a run
    of Connections.v.  In every state a connection that has not ended can go on as soon
    as its client and the bus let it, or it waits for the lock of one that can, or for
    one that waits for the lock of one that can; a lock has one holder; and a task that waits for its client while it holds a
    lock holds the export table's and is answering a client that was refused. *)
Theorem no_deadlock usb w : rtc locked_step (locked_new usb) w ->
  rtc world_step (world_new usb) (lk_world w)
  /\ (forall i s, wo_sessions (lk_world w) !! i = Some s ->
        (has_ended s /\ lk_plans w !! i = Some [])
        \/ exists k w', (k = i \/ waits_for w i k \/ exists j, waits_for w i j /\ waits_for w j k) /\ task_step k w w')
  /\ (forall l i j qi qj, lk_plans w !! i = Some qi -> lk_plans w !! j = Some qj ->
        holding l qi = true -> holding l qj = true -> i = j)
  /\ (forall i l p, lk_plans w !! i = Some (OnSocket :: p) -> holding l p = true ->
        l = ExportsLock /\ exists s, wo_sessions (lk_world w) !! i = Some s /\ se_phase s = Finished).
Proof.
  intros Hr. apply locked_reachable in Hr as [Hw Hrun]. split_and!; [done| |by apply li_once|].
  - intros i s Hs. destruct (lk_plans w !! i) as [[|a p]|] eqn:Hi.
    + destruct (decide (steps_left s = 0%nat)) as [He|He]; [by left|]. right.
      destruct (idle_steps w i s Hi Hs He) as [w' Hst]. exists i, w'. auto.
    + right. by eapply chain_steps.
    + apply lookup_ge_None in Hi. apply lookup_lt_Some in Hs. rewrite (li_length _ Hw) in Hi. lia.
  - intros i l p Hi Hh. destruct (li_tasks _ Hw _ _ Hi) as [[Hd _]|[[= ->] Hs]].
    + cbn [disciplined allowed_next forallb] in Hd. rewrite !andb_true_iff, !negb_true_iff in Hd.
      destruct Hd as [(H1 & H2 & H3 & _) _]. destruct l; congruence.
    + simpl in Hh. case_decide; [|done]. subst l. done.
Qed.

(** While a task holds the export table, nobody else changes it. *)
Inductive others_step (i : nat) : Locked -> Locked -> Prop :=
| others_accept w ps peer id :
    others_step i {| lk_world := w; lk_plans := ps |}
      {| lk_world := {| wo_usb := wo_usb w; wo_exports := wo_exports w; wo_sessions := wo_sessions w ++ [requested peer id] |};
         lk_plans := ps ++ [[]] |}
| others_run j w w' : j <> i -> task_step j w w' -> others_step i w w'.

Lemma others_steps i w w' : others_step i w w' -> locked_step w w'.
Proof. intros [w0 ps peer id|j w0 w0' _ Hs]; [constructor|by apply (locked_runs j)]. Qed.

(** Only a task that holds the export table's lock changes the table. *)
Lemma exports_change ev s usb x s' usb' x' : session_step ev s usb x = Some (s', usb', x') ->
  x' = x \/ ev = Reserve \/ ev = RemoveExport.
Proof.
  unfold session_step. destruct (se_phase s), ev; try done; intros H; try (by right; left); try (by right; right); left.
  - by injection H as <- <- <-.
  - by destruct (claim_device _ _) as [[]]; injection H as <- <- <-.
  - by destruct (get_descriptor_tree _ _) as [[]]; injection H as <- <- <-.
  - by injection H as <- <- <-.
  - by injection H as <- <- <-.
  - by injection H as <- <- <-.
  - by destruct (release_device _ _) as [[]]; injection H as <- <- <-.
Qed.

Lemma table_kept i q w w' : locked_inv w -> lk_plans w !! i = Some q -> holding ExportsLock q = true -> others_step i w w' ->
  lk_plans w' !! i = Some q /\ wo_exports (lk_world w') = wo_exports (lk_world w).
Proof.
  intros Hw Hi Hh Hs. destruct Hs as [w ps peer id|j w w' Hj Hs]; [split; [by apply lookup_app_l_Some|done]|].
  destruct Hs as [w ps s ev p Hp|w ps l p Hp|w ps l p Hp|w ps a p Hp|w ps s ev p s' usb x Hp Hses Hst]; simpl in *;
    rewrite list_lookup_insert_ne by done; try done.
  split; [done|]. destruct (exports_change _ _ _ _ _ _ _ Hst) as [->|Hev]; [done|]. destruct Hj.
  apply (li_once _ Hw ExportsLock j i (Effect ev :: p) q); simpl; try done. destruct (li_tasks _ Hw _ _ Hp) as [[Hd _]|[[=] _]].
  cbn [disciplined allowed_next] in Hd. rewrite !andb_true_iff in Hd. destruct Hd as [[_ Hd] _].
  destruct Hev as [-> | ->]; by destruct p as [|[| [] | | |] []].
Qed.

(** A refused client that does not take its answer holds up everybody: as long as its
    task has not written it, no device is lent and none is given back, whatever the
    other tasks do. *)
Lemma refusal_holds_table usb i w w' : rtc locked_step (locked_new usb) w ->
  lk_plans w !! i = Some [OnSocket; Give ExportsLock] -> rtc (others_step i) w w' ->
  wo_exports (lk_world w') = wo_exports (lk_world w).
Proof.
  intros Hr Hi Hrun. apply locked_reachable in Hr as [Hw _]. revert Hw Hi. induction Hrun as [w|w w1 w2 Hs _ IH]; intros Hw Hi; [done|].
  destruct (table_kept i _ w w1 Hw Hi eq_refl Hs) as [Hi1 He]. rewrite <- He. apply IH; [|done].
  eapply locked_step_inv; [exact Hw|by eapply others_steps].
Qed.
End Locks.

(** ** A refused client that does not take its answer *)

Definition looks_up (i : nat) : list move := [Begins i LookUp 0; Goes i; Goes i].

(** The first client has the device; the second one is refused and does not take its
    answer; the third one has come. *)
Definition held_up : list move :=
  Accepts "10.0.0.2:1" "1-1" :: Accepts "10.0.0.3:1" "1-1" :: Accepts "10.0.0.4:1" "1-1"
  :: looks_up 0 ++ looks_up 1 ++ looks_up 2 ++ [Begins 0 Reserve 0; Goes 0; Goes 0; Goes 0]
  ++ [Begins 1 Reserve 0; Goes 1; Goes 1; Begins 2 Reserve 0].

Lemma no_deadlock_witness : exists w, rtc locked_step (locked_new sample_manager) w
  /\ lk_plans w !! 1%nat = Some [OnSocket; Give ExportsLock] /\ waits_for w 2 1
  /\ exists k w', (k = 2%nat \/ waits_for w 2 k \/ exists j, waits_for w 2 j /\ waits_for w j k) /\ task_step k w w'.
Proof.
  destruct (schedule held_up (locked_new sample_manager)) as [w|] eqn:E; [|vm_compute in E; discriminate E].
  pose proof (schedule_reaches _ _ _ E) as Hr. exists w. split; [exact Hr|].
  destruct (no_deadlock sample_manager w Hr) as (_ & Hgo & _). vm_compute in E. injection E as <-. split; [reflexivity|].
  split; [by repeat eexists|]. destruct (Hgo 2%nat _ eq_refl) as [[He _]|Hk]; [vm_compute in He; discriminate He|exact Hk].
Defined.
