(* ===== verification/Reconnect.v ===== *)
(** * Reconnecting with backoff (client/usbip-client/src/reconnect.rs)

    The backoff configuration, the reconnect state machine and the two functions
    that drive it.  The random number drawn from a range is the parameter [draw]
    (the rand crate), [f64::powi], whose precision Rust leaves open, is the
    parameter [powi].  Durations are in nanoseconds; an attempt counter is a
    [u32] that wraps, as in a release build. *)

From Stdlib Require Import Floats.SpecFloat.
From S2P Require Import Prelude RustFloat Errors.

Record ReconnectConfig := {
  max_retries : option Z;
  initial_delay_secs : Z;
  max_delay_secs : Z;
  backoff_multiplier : f64
}.

Definition reconnect_default : ReconnectConfig :=
  {| max_retries := None; initial_delay_secs := 1; max_delay_secs := 30;
     backoff_multiplier := f64_of_Z 2 |}.

Definition no_retry : ReconnectConfig :=
  {| max_retries := Some 0; initial_delay_secs := initial_delay_secs reconnect_default;
     max_delay_secs := max_delay_secs reconnect_default;
     backoff_multiplier := backoff_multiplier reconnect_default |}.

Definition with_max_retries (max : Z) : ReconnectConfig :=
  {| max_retries := Some max; initial_delay_secs := initial_delay_secs reconnect_default;
     max_delay_secs := max_delay_secs reconnect_default;
     backoff_multiplier := backoff_multiplier reconnect_default |}.

Definition should_retry (c : ReconnectConfig) (attempt : Z) : bool :=
  match max_retries c with
  | None => true
  | Some max => attempt <? max
  end.

Inductive ReconnectState :=
| Active
| BackOff (attempt next_delay : Z)
| Stopped.

Inductive ReconnectDecision :=
| RetryAfter (delay : Z)
| Stop.

(** [Duration::from_secs_f64]: nanoseconds, to nearest even; a negative, infinite
    or too long time panics. *)
Definition from_secs_f64 (x : f64) : outcome Z :=
  match x with
  | S754_zero _ => Returns 0
  | S754_finite false m e =>
      let n := Zpos m * 1000000000 in
      let ns := if 0 <=? e then n * 2 ^ e
                else let d := 2 ^ (- e) in
                     let q := n / d in
                     let r := n mod d in
                     if (2 * r <? d) || ((2 * r =? d) && Z.even q) then q else q + 1 in
      if ns <? 2 ^ 64 * 1000000000 then Returns ns else Panics
  | _ => Panics
  end.

Section Reconnect.
Variable powi : f64 -> Z -> f64.
Variable draw : f64 -> f64 -> f64.

(** [rng.gen_range(low..high)]: an empty range panics. *)
Definition gen_range (low high : f64) : outcome f64 :=
  if f64_lt low high then Returns (draw low high) else Panics.

(** The delay of the n-th attempt before the jitter. *)
Definition capped_secs (c : ReconnectConfig) (attempt : Z) : f64 :=
  let raw_secs := f64_mul (f64_of_Z (initial_delay_secs c))
                          (powi (backoff_multiplier c) (to_i32 attempt)) in
  f64_min raw_secs (f64_of_Z (max_delay_secs c)).

Definition delay_for_attempt (c : ReconnectConfig) (attempt : Z) : outcome Z :=
  let capped := capped_secs c attempt in
  let jitter_range := f64_mul capped (f64_ratio 1 4) in
  let! jitter := gen_range (f64_neg jitter_range) jitter_range in
  let total := f64_max (f64_add capped jitter) (f64_ratio 1 10) in
  from_secs_f64 total.

Definition next_attempt (s : ReconnectState) : Z :=
  match s with
  | Active | Stopped => 0
  | BackOff attempt _ => wrap 32 (attempt + 1)
  end.

(** [ReconnectState::on_error]. *)
Definition on_error (s : ReconnectState) (e : ErrorKind) (c : ReconnectConfig)
    : outcome ReconnectState :=
  match category e with
  | Transient =>
      let attempt := next_attempt s in
      if should_retry c attempt then
        let! delay := delay_for_attempt c attempt in
        Returns (BackOff attempt delay)
      else Returns Stopped
  | Permanent | Fatal => Returns Stopped
  end.

(** [classify_and_backoff] and [decide_reconnect]: the answer and the new state. *)
Definition classify_and_backoff (r : UsbIpResult unit) (s : ReconnectState) (c : ReconnectConfig)
    : outcome (option Z * ReconnectState) :=
  match r with
  | Ok _ => Returns (None, Stopped)
  | Err e =>
      let! new_state := on_error s e c in
      Returns (match new_state with BackOff _ d => Some d | _ => None end, new_state)
  end.

Definition decide_reconnect (r : UsbIpResult unit) (s : ReconnectState) (c : ReconnectConfig)
    : outcome (ReconnectDecision * ReconnectState) :=
  match r with
  | Ok _ => Returns (Stop, s)
  | Err e =>
      let! new_state := on_error s e c in
      Returns (match new_state with BackOff _ d => RetryAfter d | _ => Stop end, new_state)
  end.

(** ** A sequence of failures *)

(** The decisions on the results [rs], until the first [Stop]: how many retries
    were made, and whether it stopped. *)
Fixpoint retries (rs : list (UsbIpResult unit)) (s : ReconnectState) (c : ReconnectConfig)
    : outcome (nat * bool) :=
  match rs with
  | [] => Returns (O, false)
  | r :: rs =>
      let! (d, s') := decide_reconnect r s c in
      match d with
      | Stop => Returns (O, true)
      | RetryAfter _ => let! (n, stopped) := retries rs s' c in Returns (S n, stopped)
      end
  end.

Definition transient (r : UsbIpResult unit) : Prop :=
  exists e, r = Err e /\ category e = Transient.

(** The configuration's delays can be drawn for the first [n] attempts. *)
Definition delays_defined (c : ReconnectConfig) (n : Z) : Prop :=
  forall attempt, 0 <= attempt < n -> exists d, delay_for_attempt c attempt = Returns d.

Lemma decide_transient e s c n :
  category e = Transient -> delays_defined c n -> 0 <= next_attempt s < n ->
  if should_retry c (next_attempt s)
  then exists d, decide_reconnect (Err e) s c = Returns (RetryAfter d, BackOff (next_attempt s) d)
  else decide_reconnect (Err e) s c = Returns (Stop, Stopped).
Proof.
  intros He Hd Hn. unfold decide_reconnect, on_error. rewrite He.
  destruct (should_retry c (next_attempt s)); [|done].
  destruct (Hd _ Hn) as [d ->]. by exists d.
Qed.

Lemma retries_from rs s c a n :
  Forall transient rs -> delays_defined c n -> next_attempt s = a -> 0 <= a ->
  a + zlen rs <= n -> n < 2 ^ 32 ->
  retries rs s c
  = match max_retries c with
    | None => Returns (length rs, false)
    | Some max => if a + zlen rs <=? Z.max a max then Returns (length rs, false)
                  else Returns (Z.to_nat (Z.max 0 (max - a)), true)
    end.
Proof.
  intros Hrs Hd. revert s a. induction Hrs as [|r rs (e & -> & He) Hrs IH]; intros s a Ha Hpos Hlt Hn.
  - simpl. destruct (max_retries c); [|done]. unfold zlen; simpl. case_bool; [done|lia].
  - assert (Hz : zlen (Err e :: rs) = zlen rs + 1) by (unfold zlen; simpl; lia).
    pose proof (zlen_nonneg rs). rewrite Hz in *.
    pose proof (decide_transient e s c n He Hd ltac:(lia)) as Hdec. rewrite Ha in Hdec.
    cbn [retries]. unfold should_retry in Hdec. destruct (max_retries c) as [max|] eqn:Em.
    + destruct (Z.ltb_spec a max) as [Hlt'|Hge].
      * destruct Hdec as [d ->]. rewrite (IH (BackOff a d) (a + 1)); simpl; [|rewrite wrap_small; lia|lia|lia|lia].
        destruct (Z.leb_spec (a + 1 + zlen rs) (Z.max (a + 1) max)), (Z.leb_spec (a + (zlen rs + 1)) (Z.max a max));
          try lia; [done|]. do 2 f_equal. lia.
      * rewrite Hdec. destruct (Z.leb_spec (a + (zlen rs + 1)) (Z.max a max)); [lia|].
        do 2 f_equal. lia.
    + destruct Hdec as [d ->]. rewrite (IH (BackOff a d) (a + 1)); simpl; [done|rewrite wrap_small; lia|lia|lia|lia].
Qed.

(** ** Theorems *)

(** C31: the retry limit is exact. Over any run of transient failures a fresh
    state machine with limit [max] retries at most [max] times and then stops,
    exactly when the [max + 1]-st failure comes; without a limit it never stops (for
    runs of fewer than 2^32 failures, with a configuration whose delays are defined).
    A permanent or fatal error stops it at once, in every state. *)
Theorem retry_limit_exact rs c s e :
  Forall transient rs -> delays_defined c (zlen rs) -> zlen rs < 2 ^ 32 ->
  (retries rs Active c
   = match max_retries c with
     | None => Returns (length rs, false)
     | Some max => if zlen rs <=? Z.max 0 max then Returns (length rs, false)
                   else Returns (Z.to_nat max, true)
     end)
  /\ (category e <> Transient -> decide_reconnect (Err e) s c = Returns (Stop, Stopped)).
Proof.
  intros Hrs Hd Hlt. split.
  - rewrite (retries_from rs Active c 0 (zlen rs)) by (done || lia). destruct (max_retries c); [|done].
    rewrite Z.add_0_l. destruct (_ <=? _); [done|]. do 2 f_equal. lia.
  - intros He. unfold decide_reconnect, on_error. by destruct (category e).
Qed.

(** The two drivers agree, except on the state after a clean end. *)
Lemma classify_decide r s c :
  match r, decide_reconnect r s c with
  | Ok _, _ => classify_and_backoff r s c = Returns (None, Stopped)
  | Err _, Returns (RetryAfter d, s') => classify_and_backoff r s c = Returns (Some d, s')
  | Err _, Returns (Stop, s') => classify_and_backoff r s c = Returns (None, s')
  | Err _, Panics => classify_and_backoff r s c = Panics
  | Err _, OutOfFuel => classify_and_backoff r s c = OutOfFuel
  end.
Proof.
  destruct r as [[]|e]; [done|]. unfold classify_and_backoff, decide_reconnect.
  destruct (on_error s e c) as [[| |]| |]; done.
Qed.

(** A stopped machine does not stay stopped: a transient error makes it back
    off from attempt 0 again. *)
Lemma stopped_restarts e c :
  category e = Transient -> delays_defined c 1 -> should_retry c 0 = true ->
  exists d, on_error Stopped e c = Returns (BackOff 0 d).
Proof.
  intros He Hd Hr. unfold on_error. rewrite He. simpl. rewrite Hr.
  destruct (Hd 0 ltac:(lia)) as [d ->]. by exists d.
Qed.

(** A configuration without any delay makes the jitter's range empty. *)
Lemma zero_delay_panics c attempt :
  f64_mul (capped_secs c attempt) (f64_ratio 1 4) = f64_zero -> delay_for_attempt c attempt = Panics.
Proof. intros H. unfold delay_for_attempt. rewrite H. reflexivity. Qed.
End Reconnect.

(** ** The default configuration *)

(** [powi] by repeated multiplication, and a generator that draws 0. *)
Definition powi_mul (x : f64) (n : Z) : f64 := Nat.iter (Z.to_nat (Z.min n 64)) (f64_mul x) (f64_of_Z 1).
Definition draw_zero (low high : f64) : f64 := f64_zero.

(** The delays of the documentation: 1, 2, 4, 8, 16 and then 30 seconds. *)
Lemma default_delays :
  map (delay_for_attempt powi_mul draw_zero reconnect_default) [0; 1; 2; 3; 4; 5; 6; 100]
  = map (fun s => Returns (s * 1000000000)) [1; 2; 4; 8; 16; 30; 30; 30].
Proof. vm_compute. reflexivity. Qed.

(** Four timeouts against a limit of three. *)
Definition four_timeouts : list (UsbIpResult unit) := replicate 4 (Err Timeout).

Lemma first_delays_defined : delays_defined powi_mul draw_zero (with_max_retries 3) 4.
Proof.
  intros a Ha. assert (a = 0 \/ a = 1 \/ a = 2 \/ a = 3) as [-> | [-> | [-> | ->]]] by lia;
    eexists; vm_compute; reflexivity.
Qed.

Lemma retry_limit_exact_witness :
  retries powi_mul draw_zero four_timeouts Active (with_max_retries 3) = Returns (3%nat, true).
Proof.
  refine (proj1 (retry_limit_exact powi_mul draw_zero four_timeouts (with_max_retries 3) Active Timeout _ _ _)).
  - repeat constructor; eexists; split; reflexivity.
  - exact first_delays_defined.
  - reflexivity.
Defined.
