(* ===== verification/Backoff.v ===== *)
(** * The delays of the default backoff (client/usbip-client/src/reconnect.rs)

    The documentation of [delay_for_attempt] promises 1, 2, 4, 8, 16 and then 30
    seconds, each with up to 25 percent of jitter.  Whatever number the generator
    draws, the delay computed in [f64] and rounded to nanoseconds keeps that
    promise to the nanosecond. *)

From Stdlib Require Import Floats.SpecFloat.
From S2P Require Import Prelude RustFloat FloatFacts FloatRound Reconnect.

(** The seconds of the documentation. *)
Definition documented_secs (attempt : Z) : Z := Z.min 30 (2 ^ attempt).

(** The default delays, whatever the limit of retries. *)
Definition default_delays_of (c : ReconnectConfig) : Prop :=
  initial_delay_secs c = initial_delay_secs reconnect_default
  /\ max_delay_secs c = max_delay_secs reconnect_default
  /\ backoff_multiplier c = backoff_multiplier reconnect_default.

(** What the rand crate documents of [gen_range(low..high)]. *)
Definition draws_in_range (draw : f64 -> f64 -> f64) : Prop := forall low high,
  valid low -> valid high -> finite low -> finite high -> f64_lt low high = true ->
  valid (draw low high) /\ finite (draw low high)
  /\ f64_le low (draw low high) = true /\ f64_lt (draw low high) high = true.

(** ** Powers of two *)

Lemma large_power n : 1024 <= n -> f64_of_Z (2 ^ n) = S754_infinity false.
Proof.
  intros Hn. pose proof (Z.pow_pos_nonneg 2 n ltac:(lia) ltac:(lia)) as Hpos. unfold f64_of_Z, binary_normalize, binary_round.
  destruct (2 ^ n) as [|p|p] eqn:Ep; [lia| |lia].
  assert (Hd : Zpos (digits2_pos p) = n + 1).
  { apply digits_unique; [|lia]. rewrite <- Ep. replace (n + 1 - 1) with n by lia. rewrite Z.pow_add_r by lia. lia. }
  rewrite Hd, fexp_normal by lia. unfold shl_align. destruct (n + 1 + 0 - 53 - 0) as [|q|q] eqn:Eq; [lia| |lia].
  unfold binary_round_aux. rewrite shr_fexp_pos by lia. cbn [shr_m shifted].
  fold (rounded (Zpos p) (Zpos (digits2_pos p) - 53)). pose proof (rounded_53 p ltac:(lia)) as HR. rewrite Hd in *.
  destruct (rounded (Zpos p) (n + 1 - 53)) as [|r|r]; [lia| |lia]. destruct (Z.eq_dec (Zpos r) (2 ^ 53)) as [Hc|Hc].
  - injection Hc as ->. rewrite shr_fexp_pos by (simpl; lia). cbn [shr_m shifted].
    change (_ / 2 ^ _) with (Zpos (2 ^ 52)). change (digits2_pos _) with 54%positive.
    by replace (_ <=? emax - prec) with false by (unfold emax, prec; lia).
  - assert (Hr : Zpos (digits2_pos r) = 53) by (apply digits_unique; [simpl Z.sub; lia|done]).
    rewrite shr_fexp_short by lia. cbn [shr_m]. by replace (_ <=? emax - prec) with false by (unfold emax, prec; lia).
Qed.

Lemma capped_power n : 0 <= n ->
  f64_min (f64_mul (f64_of_Z 1) (f64_of_Z (2 ^ n))) (f64_of_Z 30) = f64_of_Z (documented_secs n).
Proof.
  intros Hn. unfold documented_secs. destruct (Z.le_gt_cases 1024 n) as [Hl|Hs].
  - rewrite large_power by done. assert (2 ^ 1024 <= 2 ^ n) by (by apply Z.pow_le_mono_r).
    rewrite Z.min_l by lia. reflexivity.
  - assert (H : forallb (fun n => bool_decide (f64_min (f64_mul (f64_of_Z 1) (f64_of_Z (2 ^ n))) (f64_of_Z 30)
        = f64_of_Z (Z.min 30 (2 ^ n)))) (map Z.of_nat (seq 0 1024)) = true) by (vm_compute; reflexivity).
    rewrite forallb_forall in H. eapply bool_decide_eq_true_1, (H n). rewrite in_map_iff. exists (Z.to_nat n).
    split; [lia|apply in_seq; lia].
Qed.

(** ** The jitter and the nanoseconds *)

Definition delay_cases : list Z := [1; 2; 4; 8; 16; 30].

Lemma documented_cases n : 0 <= n -> In (documented_secs n) delay_cases.
Proof.
  intros Hn. unfold documented_secs. destruct (Z.le_gt_cases 5 n).
  - pose proof (Z.pow_le_mono_r 2 5 n ltac:(lia) ltac:(lia)). rewrite Z.min_l by lia. simpl. tauto.
  - assert (n = 0 \/ n = 1 \/ n = 2 \/ n = 3 \/ n = 4) as [-> |[-> |[-> |[-> | ->]]]] by lia; simpl; tauto.
Qed.

Lemma quarter_of s : In s delay_cases -> f64_mul (f64_of_Z s) (f64_ratio 1 4) = f64_ratio s 4.
Proof. simpl. intros H. by repeat (destruct H as [<-|H]; [vm_compute|]). Qed.

Lemma opp_fixed x : finite x -> valid x -> finite (f64_neg x) /\ valid (f64_neg x) /\ fixed (f64_neg x) = - fixed x.
Proof.
  destruct x as [s|s| |s m e]; try done. intros _ Hv. split; [done|]. split; [done|]. unfold f64_neg, SFopp, fixed.
  destruct s; cbn [negb]; rewrite <- Z.mul_opp_l; done.
Qed.

(** Nanoseconds to nearest even, between bounds in quarters of a second. *)
Lemma from_secs_bounds x lo hi : valid x -> f64_finite_pos x -> 0 < lo -> hi < 2 ^ 10 ->
  lo * 2 ^ 1072 <= fixed x <= hi * 2 ^ 1072 ->
  exists ns, from_secs_f64 x = Returns ns /\ lo * 250000000 <= ns <= hi * 250000000.
Proof.
  destruct x as [s|s| |[] m e]; try done. intros Hv _ Hlo Hhi. unfold fixed. intros [H1 H2].
  pose proof (valid_finite _ _ _ Hv) as (He & Hm & Hn).
  assert (Hneg : e <= -40).
  { destruct Hn as [Hn|]; [|lia]. apply Z.nlt_ge. intros Hlt.
    assert (2 ^ 52 * 2 ^ 1035 <= Zpos m * 2 ^ (e + 1074)) by (apply Z.mul_le_mono_nonneg; [lia|done|lia|apply Z.pow_le_mono_r; lia]).
    assert (hi * 2 ^ 1072 <= 2 ^ 10 * 2 ^ 1072) by (apply Z.mul_le_mono_nonneg_r; lia).
    rewrite <- !Z.pow_add_r in * by lia. assert (2 ^ (10 + 1072) < 2 ^ (52 + 1035)) by (apply Z.pow_lt_mono_r; lia). lia. }
  assert (Hd : lo * 2 ^ (- e) <= 4 * Zpos m <= hi * 2 ^ (- e)).
  { assert (Hp : 2 ^ 1072 = 2 ^ (- e - 2) * 2 ^ (e + 1074)) by (rewrite <- Z.pow_add_r by lia; f_equal; lia).
    assert (Hq : 2 ^ (- e) = 4 * 2 ^ (- e - 2)) by (rewrite <- (Z.pow_add_r 2 2) by lia; f_equal; lia).
    rewrite Hp in *. pose proof (Z.pow_pos_nonneg 2 (e + 1074) ltac:(lia) ltac:(lia)) as Hs. rewrite Hq.
    set (q := 2 ^ (- e - 2)) in *. set (s := 2 ^ (e + 1074)) in *. rewrite Z.mul_assoc in *.
    apply Z.mul_le_mono_pos_r in H1; [|done]. apply Z.mul_le_mono_pos_r in H2; [|done]. lia. }
  unfold from_secs_f64. replace (0 <=? e) with false by lia. pose proof (Z.pow_pos_nonneg 2 (- e) ltac:(lia) ltac:(lia)) as Hpos.
  set (d := 2 ^ (- e)) in *. set (n := Zpos m * 1000000000).
  pose proof (Z.div_mod n d ltac:(lia)) as Hdm. pose proof (Z.mod_pos_bound n d Hpos) as Hr.
  set (q := n / d) in *. set (r := n mod d) in *.
  assert (Hnb : lo * 250000000 * d <= n <= hi * 250000000 * d) by lia. clearbody n q r.
  assert (Hq : lo * 250000000 <= q <= hi * 250000000) by nia.
  set (ns := if _ : bool then q else q + 1). assert (Hns : lo * 250000000 <= ns <= hi * 250000000).
  { subst ns. destruct (Z.ltb_spec (2 * r) d); [done|]. simpl. case_match; [done|]. nia. }
  clearbody ns. exists ns. replace (ns <? 2 ^ 64 * 1000000000) with true by lia. done.
Qed.

Section Delay.
Context (powi : f64 -> Z -> f64) (draw : f64 -> f64 -> f64).
Hypothesis powi_two : forall n, 0 <= n < 2 ^ 31 -> powi (f64_of_Z 2) n = f64_of_Z (2 ^ n).
Hypothesis draw_ok : draws_in_range draw.

Lemma capped_default c n : default_delays_of c -> 0 <= n < 2 ^ 31 ->
  capped_secs powi c n = f64_of_Z (documented_secs n).
Proof.
  intros (Hi & Hm & Hb) Hn. unfold capped_secs. rewrite Hi, Hm, Hb. unfold to_i32.
  rewrite wrap_small by lia. replace (n <? 2 ^ 31) with true by lia. simpl. rewrite powi_two by lia. apply capped_power. lia.
Qed.

(** The delay before it is rounded to nanoseconds. *)
Lemma jitter_bounds s : In s delay_cases ->
  exists j, gen_range draw (f64_neg (f64_ratio s 4)) (f64_ratio s 4) = Returns j
  /\ valid (f64_add (f64_of_Z s) j) /\ f64_finite_pos (f64_add (f64_of_Z s) j)
  /\ 3 * s * 2 ^ 1072 <= fixed (f64_add (f64_of_Z s) j) <= 5 * s * 2 ^ 1072.
Proof.
  intros Hs. assert (Hb : 0 < s <= 30) by (simpl in Hs; lia).
  destruct (quarter_fixed s ltac:(lia)) as (Qv & Qf & Qx). destruct (opp_fixed _ Qf Qv) as (Nf & Nv & Nx).
  destruct (f64_of_Z_fixed s ltac:(lia)) as (Cv & Cf & Cx).
  assert (HP : 2 ^ 60 <= 2 ^ 1072 /\ 2 ^ 1072 * 2 ^ 40 < 2 ^ 2000) by (vm_compute; done).
  assert (Hlt : f64_lt (f64_neg (f64_ratio s 4)) (f64_ratio s 4) = true)
    by (rewrite fixed_lt by done; rewrite Nx, Qx; apply Z.ltb_lt; lia).
  unfold gen_range. rewrite Hlt. eexists. split; [done|].
  destruct (draw_ok _ _ Nv Qv Nf Qf Hlt) as (Jv & Jf & J1 & J2). rewrite fixed_le, fixed_lt in * by done.
  rewrite Nx, Qx in *. apply Z.leb_le in J1. apply Z.ltb_lt in J2. change (2 ^ 1074) with (4 * 2 ^ 1072) in Cx.
  set (j := draw _ _) in *. clearbody j.
  destruct (add_rounds (f64_of_Z s) j Cv Jv Cf Jf) as [[Tf Tv Tge Tle] Tp].
  { rewrite Cx. destruct HP. set (Q := 2 ^ 2000) in *. set (P := 2 ^ 1072) in *. clearbody P Q. nia. }
  split; [done|]. split; [done|].
  destruct (quarter_fixed (3 * s) ltac:(lia)) as (Lv & Lf & Lx). destruct (quarter_fixed (5 * s) ltac:(lia)) as (Uv & Uf & Ux).
  rewrite <- Lx, <- Ux. split; [apply Tge|apply Tle]; try done; lia.
Qed.

Lemma delay_bounds c n : default_delays_of c -> 0 <= n < 2 ^ 31 ->
  exists d, delay_for_attempt powi draw c n = Returns d
  /\ 3 * documented_secs n * 250000000 <= d <= 5 * documented_secs n * 250000000.
Proof.
  intros Hc Hn. pose proof (documented_cases n ltac:(lia)) as Hs. unfold delay_for_attempt.
  rewrite capped_default by done. set (s := documented_secs n) in *. rewrite quarter_of by done.
  assert (Hb : 0 < s <= 30) by (simpl in Hs; lia).
  destruct (jitter_bounds s Hs) as (j & -> & Tv & Tp & Tb). set (t := f64_add _ _) in *.
  assert (f64_max t (f64_ratio 1 10) = t) as ->.
  { unfold f64_max. replace (f64_is_nan t) with false by (by destruct t). rewrite fixed_le; [|done..|by destruct t].
    replace (_ <=? _) with true; [done|]. symmetry. apply Z.leb_le, (Z.le_trans _ (3 * 2 ^ 1072)); [by vm_compute|lia]. }
  apply from_secs_bounds; [done|done|lia|lia|done].
Qed.

(** The retry limit needs no further assumption on the delays. *)
Lemma schedule_delays_defined c n : default_delays_of c -> n <= 2 ^ 31 -> delays_defined powi draw c n.
Proof. intros Hc Hn a Ha. destruct (delay_bounds c a Hc ltac:(lia)) as (d & -> & _). by exists d. Qed.

(** C30: the backoff keeps its documented schedule. With the default delays and any
    limit of retries, whatever the generator draws from the range it is given, the
    delay of the n-th attempt exists, is within 25 percent of 1, 2, 4, 8, 16 or 30
    seconds, exactly to the nanosecond, and each of the first five delays is longer
    than the one before. *)
Theorem backoff_schedule c n : default_delays_of c -> 0 <= n < 2 ^ 31 - 1 ->
  exists d d', delay_for_attempt powi draw c n = Returns d /\ delay_for_attempt powi draw c (n + 1) = Returns d'
  /\ 3 * documented_secs n * 1000000000 <= 4 * d <= 5 * documented_secs n * 1000000000
  /\ (n < 5 -> d < d').
Proof.
  intros Hc Hn. destruct (delay_bounds c n Hc ltac:(lia)) as (d & -> & Hd).
  destruct (delay_bounds c (n + 1) Hc ltac:(lia)) as (d' & -> & Hd'). exists d, d'. repeat split; [lia..|].
  intros H5. assert (n = 0 \/ n = 1 \/ n = 2 \/ n = 3 \/ n = 4) as [-> |[-> |[-> |[-> | ->]]]] by lia;
    unfold documented_secs in *; simpl in Hd, Hd'; lia.
Qed.
End Delay.

(** ** An instance *)

(** Powers of two exactly, others by repeated multiplication; the lower bound drawn. *)
Definition powi_two_exact (x : f64) (n : Z) : f64 :=
  if bool_decide (x = f64_of_Z 2) then f64_of_Z (2 ^ n) else powi_mul x n.
Definition draw_low (low high : f64) : f64 := low.

Lemma powi_two_ok n : 0 <= n < 2 ^ 31 -> powi_two_exact (f64_of_Z 2) n = f64_of_Z (2 ^ n).
Proof. intros _. unfold powi_two_exact. by rewrite bool_decide_eq_true_2. Qed.

Lemma draw_low_ok : draws_in_range draw_low.
Proof.
  intros low high Hl Hh Fl Fh H. unfold draw_low. repeat split; [done..| |done]. apply f64_le_refl. by destruct low.
Qed.

Lemma backoff_schedule_witness :
  exists d d', delay_for_attempt powi_two_exact draw_low (with_max_retries 7) 3 = Returns d
  /\ delay_for_attempt powi_two_exact draw_low (with_max_retries 7) 4 = Returns d'
  /\ 3 * 8 * 1000000000 <= 4 * d <= 5 * 8 * 1000000000 /\ (3 < 5 -> d < d').
Proof.
  apply (backoff_schedule powi_two_exact draw_low powi_two_ok draw_low_ok (with_max_retries 7) 3); [|lia].
  by repeat split.
Defined.
