(* ===== verification/Vhci.v ===== *)
(** * Virtual host controllers (client/usbip-client/src/vhci)

    The interface [VhciBackend] and its two implementations.  The Linux one
    reads and writes files of sysfs, the Windows one opens a device and sends it
    a control request; the file system and the Win32 calls are the parameters
    [SysFs] and [Win32]. *)

From Stdlib Require Import Ascii.
From S2P Require Import Prelude RustStd Errors Proto Stream.

(** ** The interface (mod.rs) *)

Record VhciDevice := {
  vd_port : Z;
  vd_devid : Z;
  vd_busid : string;
  vd_vid : Z;
  vd_pid : Z
}.

Class VhciBackend (V : Type) : Type := {
  vh_create_device : UsbIpDeviceEntry -> list byte -> io V VhciDevice;
  vh_complete_urb : forall (seqnum devid status actual_length : Z) (data : list byte), io V unit;
  vh_cancel_urb : forall (seqnum devid : Z), io V unit;
  vh_remove_device : forall (port : Z), io V unit
}.

(** The handle every backend returns for a device at [port]. *)
Definition vhci_device (port : Z) (entry : UsbIpDeviceEntry) : VhciDevice :=
  {| vd_port := port; vd_devid := port; vd_busid := busid_str entry;
     vd_vid := vid entry; vd_pid := pid entry |}.

(** ** Linux (vhci_linux.rs) *)

(** What the backend uses of the file system and of the shell. *)
Class SysFs (F : Type) : Type := {
  sys_exists : string -> F -> bool;
  sys_dir_count : string -> F -> option Z;
  sys_modprobe : string -> io F unit;
  sys_read_to_string : string -> F -> UsbIpResult string;
  sys_write : string -> list byte -> io F unit
}.

Record LinuxVhciBackend := { sysfs_path : string; num_ports : Z }.

(** [PathBuf::join] with a relative path. *)
Definition join (base name : string) : string := base +:+ "/" +:+ name.

Definition VHCI_PATH : string := "/sys/devices/platform/vhci_hcd.0".

(** [format!("port{}/...", port)]. *)
Definition port_file (port : Z) (name : string) : string := "port" +:+ pretty port +:+ "/" +:+ name.

(** A port line of the status file that is not attached. *)
Definition port_is_free (line : string) : bool :=
  contains_str "Port" line && negb (contains_str "Attached" line).

Fixpoint first_free (port : Z) (ls : list string) : Z :=
  match ls with
  | [] => 0
  | line :: ls => if port_is_free line then wrap 32 port else first_free (port + 1) ls
  end.

Section Linux.
Context {F : Type} `{!SysFs F}.

Definition linux_new : io F LinuxVhciBackend :=
  fun fs =>
    if sys_exists VHCI_PATH fs then
      (Ok {| sysfs_path := VHCI_PATH;
             num_ports := match sys_dir_count (join VHCI_PATH "status") fs with
                          | Some n => wrap 32 n
                          | None => 8
                          end |}, fs)
    else match sys_modprobe "vhci-hcd" fs with
         | (Err _, fs) =>
             (Err (NotSupported "vhci-hcd kernel module not available. Install with: sudo modprobe vhci-hcd"), fs)
         | (Ok _, fs) => (Ok {| sysfs_path := VHCI_PATH; num_ports := 8 |}, fs)
         end.

Definition first_free_port_in_sysfs (b : LinuxVhciBackend) (fs : F) : Z :=
  let status := default "" (result_ok (sys_read_to_string (join (sysfs_path b) "status") fs)) in
  first_free 0 (lines status).

(** The backend together with the file system it acts on. *)
Definition Linux : Type := LinuxVhciBackend * F.

Definition on_fs {A} (m : LinuxVhciBackend -> io F A) : io Linux A :=
  fun st => let '(r, fs) := m (fst st) (snd st) in (r, (fst st, fs)).

Definition attach_line (port devid speed : Z) : string :=
  pretty port +:+ " " +:+ pretty devid +:+ " " +:+ pretty speed +:+ String "010"%char EmptyString.

Definition linux_create_device (entry : UsbIpDeviceEntry) (descriptors : list byte) : io Linux VhciDevice :=
  on_fs (fun b fs =>
    let port := first_free_port_in_sysfs b fs in
    let attach_str := attach_line port port (speed_val entry) in
    (sys_write (join (sysfs_path b) "attach") (as_bytes attach_str) ;;;
     io_ret (vhci_device port entry)) fs).

Definition urb_record (seqnum status actual_length : Z) (data : list byte) : list byte :=
  be_bytes 4 seqnum ++ be_bytes 4 (wrap 32 status) ++ be_bytes 4 actual_length ++ data.

Definition linux_complete_urb (seqnum devid status actual_length : Z) (data : list byte) : io Linux unit :=
  on_fs (fun b =>
    sys_write (join (sysfs_path b) (port_file devid "urb_complete"))
      (urb_record seqnum status actual_length data) ;;;
    io_ret tt).

Definition linux_cancel_urb (seqnum devid : Z) : io Linux unit :=
  on_fs (fun b fs =>
    let '(_, fs) := sys_write (join (sysfs_path b) (port_file devid "urb_unlink")) (be_bytes 4 seqnum) fs in
    (Ok tt, fs)).

Definition linux_remove_device (port : Z) : io Linux unit :=
  on_fs (fun b =>
    sys_write (join (sysfs_path b) "detach") (as_bytes (pretty port +:+ String "010"%char EmptyString)) ;;;
    io_ret tt).

#[global] Instance linux_vhci : VhciBackend Linux := {|
  vh_create_device := linux_create_device;
  vh_complete_urb := linux_complete_urb;
  vh_cancel_urb := linux_cancel_urb;
  vh_remove_device := linux_remove_device
|}.
End Linux.

(** ** Windows (vhci_windows.rs) *)

Definition IOCTL_USBIP_VHCI_ATTACH : Z := 0x220004.

(** The Win32 calls: [CreateFileW] ([None]: an invalid handle), the result of
    [DeviceIoControl] (0: failure) and [CloseHandle]. *)
Class Win32 (W : Type) : Type := {
  Handle : Type;
  create_file : string -> W -> option Handle * W;
  device_io_control : Handle -> Z -> list byte -> W -> Z * W;
  close_handle : Handle -> W -> W
}.

Definition build_windows_descriptor_block (descriptors : list byte) : list byte :=
  le_bytes 4 (wrap 32 (zlen descriptors)) ++ descriptors.

Section Windows.
Context {W : Type} `{!Win32 W}.

Definition attach_input (port devid speed : Z) (desc_block : list byte) : list byte :=
  le_bytes 4 port ++ le_bytes 4 devid ++ le_bytes 4 speed ++ desc_block.

Definition windows_create_device (entry : UsbIpDeviceEntry) (descriptors : list byte) : io W VhciDevice :=
  fun w =>
    let port := 0 in
    let desc_block := build_windows_descriptor_block descriptors in
    match create_file "\\.\USBIP-VHCI" w with
    | (None, w) => (Err (NotSupported "Cannot open \\.\USBIP-VHCI. Is usbip-win2 driver installed?"), w)
    | (Some handle, w) =>
        let input := attach_input port port (speed_val entry) desc_block in
        let '(result, w) := device_io_control handle IOCTL_USBIP_VHCI_ATTACH input w in
        let w := close_handle handle w in
        if result =? 0 then (Err (NotSupported "VHCI attach IOCTL failed"), w)
        else (Ok (vhci_device port entry), w)
    end.

(** The stubs: completions and cancellations are dropped. *)
Definition windows_vhci : VhciBackend W := {|
  vh_create_device := windows_create_device;
  vh_complete_urb _ _ _ _ _ := io_ret tt;
  vh_cancel_urb _ _ := io_ret tt;
  vh_remove_device _ := io_ret tt
|}.
End Windows.

(** ** The recording backend of the tests (mod.rs) *)

Definition RecordedUrb : Type := Z * Z * Z * Z * list byte.

Record MockVhciBackend := {
  mk_devices : list VhciDevice;
  mk_urbs : list RecordedUrb;
  mk_next_port : Z
}.

Definition mock_new : MockVhciBackend := {| mk_devices := []; mk_urbs := []; mk_next_port := 0 |}.

#[export] Instance mock_vhci : VhciBackend MockVhciBackend := {|
  vh_create_device entry _ m :=
    let device := vhci_device (mk_next_port m) entry in
    (Ok device, {| mk_devices := mk_devices m ++ [device]; mk_urbs := mk_urbs m;
                   mk_next_port := wrap 32 (mk_next_port m + 1) |});
  vh_complete_urb seqnum devid status actual_length data m :=
    (Ok tt, {| mk_devices := mk_devices m;
               mk_urbs := mk_urbs m ++ [(seqnum, devid, status, actual_length, data)];
               mk_next_port := mk_next_port m |});
  vh_cancel_urb _ _ := io_ret tt;
  vh_remove_device _ := io_ret tt
|}.

(** ** Lemmas *)

Lemma first_free_cases port ls :
  (exists p line, ls !! p = Some line /\ port_is_free line = true
     /\ (forall q l, (q < p)%nat -> ls !! q = Some l -> port_is_free l = false)
     /\ first_free port ls = wrap 32 (port + Z.of_nat p))
  \/ (Forall (fun l => port_is_free l = false) ls /\ first_free port ls = 0).
Proof.
  revert port. induction ls as [|line ls IH]; intros port; [by right|]. simpl.
  destruct (port_is_free line) eqn:Ef.
  - left. exists O, line. split_and!; [done|done|lia|]. f_equal. lia.
  - destruct (IH (port + 1)) as [(p & l & Hl & Hf & Hq & ->)|[Hall ->]].
    + left. exists (S p), l. split_and!; [done|done| |f_equal; lia].
      intros [|q] l' Hlt Hl'; [by simplify_eq/=|]. apply (Hq q); [lia|done].
    + right. by repeat constructor.
Qed.

(** The record of a completed URB, read back. *)
Definition read_urb_record (l : list byte) : option (Z * Z * Z * list byte) :=
  '(seqnum, l) ← take_be 4 l;
  '(status, l) ← take_be 4 l;
  '(actual_length, l) ← take_be 4 l;
  Some (seqnum, to_i32 status, actual_length, l).

Lemma urb_record_read seqnum status al data :
  is_u32 seqnum -> is_i32 status -> is_u32 al ->
  read_urb_record (urb_record seqnum status al data) = Some (seqnum, status, al, data).
Proof.
  unfold is_u32. intros ? Hs ?. unfold read_urb_record, urb_record. pose proof (wrap_range 32 status).
  decode_fields. by rewrite to_i32_wrap.
Qed.

(** ** Theorems *)

(** The Linux backend attaches at the first free port. The device is created
    at the least index of a line of the status file that names a port and is not
    attached, at port 0 when the file cannot be read or no line is free; exactly
    one line, with that port, is written to [attach], and the handle returned
    carries that port; when the write fails, its error is returned. *)
Theorem linux_attach_port {F} `{!SysFs F} entry descriptors (b : LinuxVhciBackend) (fs : F) :
  let status := match sys_read_to_string (join (sysfs_path b) "status") fs with Ok s => s | Err _ => "" end in
  let '(w, fs') := sys_write (join (sysfs_path b) "attach")
                     (as_bytes (attach_line (first_free 0 (lines status)) (first_free 0 (lines status)) (speed entry))) fs in
  linux_create_device entry descriptors (b, fs)
  = (match w with
     | Ok _ => Ok (vhci_device (first_free 0 (lines status)) entry)
     | Err k => Err k
     end, (b, fs'))
  /\ ((exists p line, lines status !! p = Some line /\ port_is_free line = true
         /\ (forall q l, (q < p)%nat -> lines status !! q = Some l -> port_is_free l = false)
         /\ first_free 0 (lines status) = wrap 32 (Z.of_nat p))
      \/ (Forall (fun l => port_is_free l = false) (lines status) /\ first_free 0 (lines status) = 0)).
Proof.
  simpl. unfold linux_create_device, on_fs, first_free_port_in_sysfs, io_bind, speed_val. simpl.
  set (status := match sys_read_to_string _ fs with Ok s => s | Err _ => "" end).
  replace (default "" (result_ok (sys_read_to_string (join (sysfs_path b) "status") fs))) with status
    by (unfold status; by destruct (sys_read_to_string _ fs)).
  destruct (sys_write _ _ fs) as [[[]|k] fs']; simpl; (split; [done|]); apply first_free_cases.
Qed.

(** A completed URB reaches the kernel unchanged. On Linux the record written
    to the [urb_complete] file of the device's port reads back as the sequence
    number, the signed status, the length and the data; cancelling never fails. *)
Theorem linux_urb_record {F} `{!SysFs F} seqnum devid status al data (b : LinuxVhciBackend) (fs : F) :
  is_u32 seqnum -> is_i32 status -> is_u32 al ->
  (exists rec, linux_complete_urb seqnum devid status al data (b, fs)
               = (let '(r, fs') := sys_write (sysfs_path b +:+ "/port" +:+ pretty devid +:+ "/urb_complete") rec fs in
                  (r, (b, fs')))
             /\ read_urb_record rec = Some (seqnum, status, al, data))
  /\ fst (linux_cancel_urb seqnum devid (b, fs)) = Ok tt.
Proof.
  intros. split.
  - exists (urb_record seqnum status al data). split; [|by apply urb_record_read].
    unfold linux_complete_urb, on_fs, join, port_file, io_bind. simpl.
    destruct (sys_write _ _ fs) as [[[]|k] fs']; done.
  - unfold linux_cancel_urb, on_fs. simpl. by destruct (sys_write _ _ fs).
Qed.

(** The Windows backend never leaks its handle: whenever the device was
    opened, the handle is closed last, and the input of the attach request reads
    back as port 0 twice, the speed, the length of the descriptors and the
    descriptors. *)
Theorem windows_attach {W} `{!Win32 W} entry descriptors w h w1 :
  create_file "\\.\USBIP-VHCI" w = (Some h, w1) ->
  let input := zeros 8 ++ le_bytes 4 (speed entry)
               ++ le_bytes 4 (wrap 32 (zlen descriptors)) ++ descriptors in
  let '(result, w2) := device_io_control h IOCTL_USBIP_VHCI_ATTACH input w1 in
  windows_create_device entry descriptors w
  = (if result =? 0 then Err (NotSupported "VHCI attach IOCTL failed")
     else Ok (vhci_device 0 entry), close_handle h w2).
Proof.
  intros H. unfold windows_create_device. rewrite H. unfold attach_input, build_windows_descriptor_block.
  replace (le_bytes 4 0 ++ le_bytes 4 0 ++ le_bytes 4 (speed_val entry) ++ le_bytes 4 (wrap 32 (zlen descriptors)) ++ descriptors)
    with (zeros 8 ++ le_bytes 4 (speed entry) ++ le_bytes 4 (wrap 32 (zlen descriptors)) ++ descriptors) by done.
  destruct (device_io_control _ _ _ _) as [res w2]. by destruct (res =? 0).
Qed.

(** ** A file system *)

(** The files that exist, with their contents, and the writes made so far. *)
Record Files := { fs_files : gmap string string; fs_log : list (string * list byte) }.

#[export] Instance files_sysfs : SysFs Files := {|
  sys_exists p fs := bool_decide (is_Some (fs_files fs !! p));
  sys_dir_count _ _ := None;
  sys_modprobe _ := io_err (NotSupported "modprobe");
  sys_read_to_string p fs :=
    match fs_files fs !! p with
    | Some s => Ok s
    | None => Err (Io {| io_kind := IoNotFound; io_text := "not found" |})
    end;
  sys_write p data fs :=
    match fs_files fs !! p with
    | Some _ => (Ok tt, {| fs_files := fs_files fs; fs_log := fs_log fs ++ [(p, data)] |})
    | None => (Err (Io {| io_kind := IoNotFound; io_text := "not found" |}), fs)
    end
|}.

Lemma linux_urb_record_witness :
  exists rec, linux_complete_urb 7 1 (-32) 2 [x61; x62]
                ({| sysfs_path := "/v"; num_ports := 8 |}, {| fs_files := {["/v/port1/urb_complete" := ""]}; fs_log := [] |})
              = (Ok tt, ({| sysfs_path := "/v"; num_ports := 8 |},
                         {| fs_files := {["/v/port1/urb_complete" := ""]}; fs_log := [("/v/port1/urb_complete", rec)] |}))
              /\ read_urb_record rec = Some (7, -32, 2, [x61; x62]).
Proof.
  destruct (linux_urb_record 7 1 (-32) 2 [x61; x62] {| sysfs_path := "/v"; num_ports := 8 |}
              {| fs_files := {["/v/port1/urb_complete" := ""]}; fs_log := [] |}) as [(rec & Hw & Hr) _];
    [split; vm_compute; congruence|split; vm_compute; congruence|split; vm_compute; congruence|].
  exists rec. split; [|exact Hr]. rewrite Hw. vm_compute. reflexivity.
Defined.

(** A driver that accepts every request and remembers it. *)
Definition recording_win32 : Win32 (list (Z * list byte) * nat) := {|
  Handle := unit;
  create_file _ w := (Some tt, (fst w, S (snd w)));
  device_io_control _ code input w := (1, (fst w ++ [(code, input)], snd w));
  close_handle _ w := (fst w, pred (snd w))
|}.

Lemma windows_attach_witness :
  @windows_create_device _ recording_win32 sample_entry [x12; x01] ([], O)
  = (Ok (vhci_device 0 sample_entry),
     ([(0x220004, zeros 8 ++ le_bytes 4 (speed sample_entry) ++ [x02; x00; x00; x00; x12; x01])], O)).
Proof.
  rewrite (@windows_attach _ recording_win32 sample_entry [x12; x01] ([], O) tt ([], 1%nat) eq_refl).
  reflexivity.
Defined.
