(* ===== verification/Client.v ===== *)
(** * The client (client/usbip-client/src/client.rs)

    Listing a server's devices, importing one, and forwarding what the server
    sends to the virtual host controller.  A TCP connection attempt is a [Dial]:
    what connecting and setting TCP_NODELAY gave.  How the network cuts the
    descriptor bytes into reads is the argument [chunks], whether ctrl-c came
    before the i-th message the argument [ctrl_c]. *)

From S2P Require Import Prelude RustStd RustFloat Errors Proto Urb Stream Wire Descriptor Reconnect Vhci.

Record ClientConfig := {
  cc_server_addr : option string;
  cc_use_mdns : bool;
  cc_auto_reconnect : bool;
  cc_reconnect : ReconnectConfig;
  cc_tcp_nodelay : bool
}.

Definition client_default : ClientConfig :=
  {| cc_server_addr := None; cc_use_mdns := true; cc_auto_reconnect := true;
     cc_reconnect := reconnect_default; cc_tcp_nodelay := true |}.

Record ActiveConnection := {
  ac_busid : string;
  ac_device_entry : UsbIpDeviceEntry;
  ac_descriptors : list byte
}.

Record ImportedDevice := { im_busid : string; im_device_entry : UsbIpDeviceEntry }.

(** ** Connecting *)

Record Dial := { dial_connect : UsbIpResult Stream; dial_nodelay : UsbIpResult unit }.

Definition open_stream (d : Dial) (tcp_nodelay : bool) : UsbIpResult Stream :=
  let? stream := dial_connect d in
  let? _ := if tcp_nodelay then dial_nodelay d else Ok tt in
  Ok stream.

(** [stream.read(&mut buf[..room])]: some of the bytes that have arrived, none
    at the end of the stream or when there is no room. *)
Definition read (room chunk : nat) : io Stream (list byte) :=
  fun s => match room, rx s with
           | O, _ => (Ok [], s)
           | _, [] => if decide (io_kind (rx_end s) = IoUnexpectedEof) then (Ok [], s)
                      else (Err (Io (rx_end s)), s)
           | _, l => let n := Nat.min room (Nat.max 1 chunk) in (Ok (take n l), set_rx (drop n l) s)
           end.

(** ** [list_remote_devices] *)

Fixpoint read_entries (ndev : nat) : io Stream (list UsbIpDeviceEntry) :=
  match ndev with
  | O => io_ret []
  | S ndev =>
      entry_buf <-- read_exact entry_SIZE;;
      devices <-- read_entries ndev;;
      io_ret (match entry_read_from_prefix entry_buf with
              | Some (entry, _) => entry :: devices
              | None => devices
              end)
  end.

(** What is said on the connection. *)
Definition request_devices : io Stream (list UsbIpDeviceEntry) :=
  write_all (header_as_bytes (header_new OP_REQ_DEVLIST)) ;;;
  header_buf <-- read_exact header_SIZE;;
  match header_read_from_prefix header_buf with
  | None => io_err (Protocol "invalid reply header")
  | Some (rep_header, _) =>
      if negb (command rep_header =? OP_REP_DEVLIST) then io_err (Protocol "unexpected reply")
      else
        ndev_buf <-- read_exact 4;;
        read_entries (Z.to_nat (be_val ndev_buf))
  end.

Definition list_remote_devices (config : ClientConfig) (d : Dial) : UsbIpResult (list UsbIpDeviceEntry) :=
  let? stream := open_stream d (cc_tcp_nodelay config) in
  fst (request_devices stream).

(** ** The import handshake *)

(** Up to the device entry, whose bytes are returned; [do_import] and
    [tcp_connect_and_import] both do this. *)
Definition request_import (busid : string) : io Stream (list byte) :=
  write_all (header_as_bytes (header_new OP_REQ_IMPORT)) ;;;
  write_all (copy_padded 32 (as_bytes busid)) ;;;
  header_buf <-- read_exact header_SIZE;;
  match header_read_from_prefix header_buf with
  | None => io_err (Protocol "invalid import reply")
  | Some (rep_header, _) =>
      if negb (command rep_header =? OP_REP_IMPORT) then io_err (Protocol "unexpected reply")
      else if negb (hstatus rep_header =? STATUS_SUCCESS) then
        io_err (DeviceBusy ("server rejected import (status=" +:+ pretty (hstatus rep_header) +:+ ")"))
      else read_exact entry_SIZE
  end.

Definition tcp_connect_and_import (d : Dial) (busid : string) (tcp_nodelay : bool) : UsbIpResult Stream :=
  let? stream := open_stream d tcp_nodelay in
  match request_import busid stream with
  | (Ok _, stream) => Ok stream
  | (Err k, _) => Err k
  end.

Definition tree_estimate : nat := 512.

(** The loop that reads descriptors until they parse.  [steps] bounds the reads
    ([tree_estimate + 2] are never used up); a tree that makes the parser itself
    loop makes this loop too. *)
Fixpoint read_descriptors (steps : nat) (overflow_checks : bool) (chunks : nat -> nat)
    (descriptors : list byte) (s : Stream) : outcome (list byte * Stream) :=
  match steps with
  | O => OutOfFuel
  | S steps =>
      match read (tree_estimate - length descriptors) (chunks O) s with
      | (Ok [], s) | (Err _, s) => Returns (descriptors, s)
      | (Ok bs, s) =>
          let descriptors := descriptors ++ bs in
          let! tree := parse_descriptor_tree (S (length descriptors)) overflow_checks descriptors in
          match tree with
          | Some _ => Returns (descriptors, s)
          | None => read_descriptors steps overflow_checks (fun i => chunks (S i)) descriptors s
          end
      end
  end.

Section Client.
Context {V : Type} `{!VhciBackend V}.

Definition do_import (overflow_checks : bool) (chunks : nat -> nat) (d : Dial) (busid : string)
    (tcp_nodelay : bool) (v : V) : outcome (UsbIpResult (UsbIpDeviceEntry * list byte) * V) :=
  match open_stream d tcp_nodelay with
  | Err k => Returns (Err k, v)
  | Ok stream =>
      match request_import busid stream with
      | (Err k, _) => Returns (Err k, v)
      | (Ok entry_buf, stream) =>
          match entry_read_from_prefix entry_buf with
          | None => Returns (Err (Protocol "invalid device entry"), v)
          | Some (device_entry, _) =>
              let! (descriptors, _) :=
                read_descriptors (tree_estimate + 2) overflow_checks chunks [] stream in
              match vh_create_device device_entry descriptors v with
              | (Ok _, v) => Returns (Ok (device_entry, descriptors), v)
              | (Err k, v) => Returns (Err k, v)
              end
          end
      end
  end.

(** ** [urb_forwarding_loop] *)

Inductive step :=
| Next (s : Stream) (v : V)
| Leave (r : UsbIpResult unit) (v : V).

(** One message, given to the host controller. *)
Definition forward_frame (frame : list byte) (s : Stream) (v : V) : step :=
  if (length frame <? header_SIZE)%nat then Leave (Ok tt) v
  else match header_read_from_prefix (take header_SIZE frame) with
  | None => Leave (Ok tt) v
  | Some (header, _) =>
      let payload := drop header_SIZE frame in
      if command header =? USBIP_CMD_SUBMIT then Next s v
      else if command header =? USBIP_RET_SUBMIT then
        if (length payload <? ret_HEADER_SIZE)%nat then Leave (Err (Protocol "invalid RET_SUBMIT")) v
        else match ret_read_from_prefix (take ret_HEADER_SIZE payload) with
        | None => Leave (Err (Protocol "invalid RET_SUBMIT")) v
        | Some (ret, _) =>
            let in_data := if rs_has_data ret then drop ret_HEADER_SIZE payload else [] in
            match vh_complete_urb (rs_seqnum ret) (rs_devid ret) (to_i32 (rs_status ret))
                    (rs_actual_length ret) in_data v with
            | (Ok _, v) => Next s v
            | (Err k, v) => Leave (Err k) v
            end
        end
      else if command header =? USBIP_RET_UNLINK then
        if (length payload <? unlink_SIZE)%nat then Leave (Err (Protocol "invalid RET_UNLINK")) v
        else match unlink_read_from_prefix (take unlink_SIZE payload) with
        | None => Leave (Err (Protocol "invalid RET_UNLINK")) v
        | Some (unlink, _) =>
            match vh_cancel_urb (ru_seqnum unlink) (ru_devid unlink) v with
            | (Ok _, v) => Next s v
            | (Err k, v) => Leave (Err k) v
            end
        end
      else Next s v
  end.

Fixpoint forwarding (fuel : nat) (ctrl_c : nat -> bool) (s : Stream) (v : V)
    : outcome (UsbIpResult unit * V) :=
  match fuel with
  | O => OutOfFuel
  | S fuel =>
      if ctrl_c O then Returns (Ok tt, v)
      else match read_message s with
      | (Err _, _) => Returns (Ok tt, v)
      | (Ok frame, s) =>
          match forward_frame frame s v with
          | Next s v => forwarding fuel (fun i => ctrl_c (S i)) s v
          | Leave r v => Returns (r, v)
          end
      end
  end.

(** A message has at least 8 bytes, so the input bounds the iterations. *)
Definition urb_forwarding_loop (ctrl_c : nat -> bool) (s : Stream) (v : V) : outcome (UsbIpResult unit * V) :=
  forwarding (S (length (rx s))) ctrl_c s v.

Definition urb_forwarding_task (ctrl_c : nat -> bool) (d : Dial) (busid : string) (tcp_nodelay : bool)
    (v : V) : outcome (UsbIpResult unit * V) :=
  match tcp_connect_and_import d busid tcp_nodelay with
  | Err k => Returns (Err k, v)
  | Ok stream => urb_forwarding_loop ctrl_c stream v
  end.

(** ** The client object *)

Record Client := { cl_config : ClientConfig; cl_vhci : V; cl_connections : list ActiveConnection }.

Definition new_with_vhci (config : ClientConfig) (v : V) : UsbIpResult Client :=
  Ok {| cl_config := config; cl_vhci := v; cl_connections := [] |}.

Definition import_device_once (overflow_checks : bool) (chunks : nat -> nat) (d : Dial) (busid : string)
    (c : Client) : outcome (UsbIpResult ImportedDevice * Client) :=
  let! (r, v) := do_import overflow_checks chunks d busid (cc_tcp_nodelay (cl_config c)) (cl_vhci c) in
  match r with
  | Err k => Returns (Err k, {| cl_config := cl_config c; cl_vhci := v; cl_connections := cl_connections c |})
  | Ok (device_entry, descriptors) =>
      Returns (Ok {| im_busid := busid; im_device_entry := device_entry |},
               {| cl_config := cl_config c; cl_vhci := v;
                  cl_connections := cl_connections c ++
                    [{| ac_busid := busid; ac_device_entry := device_entry; ac_descriptors := descriptors |}] |})
  end.

(** [import_device]: also the task it spawns, which runs [reconnect_loop] below
    with a copy of the configuration. *)
Record Task := { tk_busid : string; tk_config : ClientConfig }.

Definition import_device (overflow_checks : bool) (chunks : nat -> nat) (d : Dial) (busid : string)
    (c : Client) : outcome (UsbIpResult ImportedDevice * Client * option Task) :=
  let! (r, c') := import_device_once overflow_checks chunks d busid c in
  Returns (r, c', match r with
                  | Ok _ => Some {| tk_busid := busid; tk_config := cl_config c |}
                  | Err _ => None
                  end).

Definition run_urb_forwarding (ctrl_c : nat -> bool) (d : Dial) (busid : string) (c : Client)
    : outcome (UsbIpResult unit * Client) :=
  let! (r, v) := urb_forwarding_task ctrl_c d busid (cc_tcp_nodelay (cl_config c)) (cl_vhci c) in
  Returns (r, {| cl_config := cl_config c; cl_vhci := v; cl_connections := cl_connections c |}).

(** The task [import_device] spawns: sessions until one ends cleanly, a permanent
    error or the retry limit; the delays slept before each retry and the host
    controller.  [fuel] counts sessions. *)
Section Spawned.
Variable powi : f64 -> Z -> f64.
Variable draw : f64 -> f64 -> f64.

Fixpoint reconnect_loop (fuel : nat) (config : ClientConfig) (busid : string) (ctrl_c : nat -> nat -> bool)
    (dials : nat -> Dial) (state : ReconnectState) (v : V) : outcome (list Z * V) :=
  match fuel with
  | O => OutOfFuel
  | S fuel =>
      let! (r, v) := urb_forwarding_task (ctrl_c O) (dials O) busid (cc_tcp_nodelay config) v in
      match r with
      | Ok _ => Returns ([], v)
      | Err _ =>
          if negb (cc_auto_reconnect config) then Returns ([], v)
          else
            let! (decision, state) := decide_reconnect powi draw r state (cc_reconnect config) in
            match decision with
            | RetryAfter delay =>
                let! (delays, v) := reconnect_loop fuel config busid (fun i => ctrl_c (S i))
                                      (fun i => dials (S i)) state v in
                Returns (delay :: delays, v)
            | Stop => Returns ([], v)
            end
      end
  end.
End Spawned.
End Client.

(** ** What the forwarding loop means *)

(** The messages of a connection, each given to the host controller in turn,
    until it refuses one. *)
Definition deliver_one {V} `{!VhciBackend V} (f : frame) : io V unit :=
  match f with
  | FRet _ ret data =>
      vh_complete_urb (rs_seqnum ret) (rs_devid ret) (to_i32 (rs_status ret)) (rs_actual_length ret) data
  | FUnlink _ u => vh_cancel_urb (ru_seqnum u) (ru_devid u)
  | FCmd _ _ _ _ | FOther _ => io_ret tt
  end.

Fixpoint deliver {V} `{!VhciBackend V} (frs : list frame) : io V unit :=
  match frs with
  | [] => io_ret tt
  | f :: frs => deliver_one f ;;; deliver frs
  end.

(** An input that does not start with a whole message. *)
Definition no_frame (l : list byte) : Prop := forall fr r, frame_wf fr -> l <> frame_bytes fr ++ r.

(** A host controller that refuses nothing. *)
Class AcceptingVhci (V : Type) `{!VhciBackend V} : Prop := {
  complete_accepted seqnum devid status al data v : fst (vh_complete_urb seqnum devid status al data v) = Ok tt;
  cancel_accepted seqnum devid v : fst (vh_cancel_urb seqnum devid v) = Ok tt
}.

Section Forwarding.
Context {V : Type} `{!VhciBackend V}.

Lemma take_header h l : take header_SIZE (header_as_bytes h ++ l) = header_as_bytes h.
Proof. apply take_app_length'. by rewrite length_header. Qed.

Lemma drop_header h l : drop header_SIZE (header_as_bytes h ++ l) = l.
Proof. apply drop_app_length'. by rewrite length_header. Qed.

Lemma deliver_ret h ret data v :
  frame_wf (FRet h ret data) ->
  (if rs_has_data ret then data else []) = data
  /\ take ret_HEADER_SIZE (ret_as_bytes ret ++ data) = ret_as_bytes ret
  /\ drop ret_HEADER_SIZE (ret_as_bytes ret ++ data) = data
  /\ deliver_one (FRet h ret data) v
     = vh_complete_urb (rs_seqnum ret) (rs_devid ret) (to_i32 (rs_status ret)) (rs_actual_length ret) data v.
Proof.
  intros (_ & _ & Hret & Hd). assert (Hl : length (ret_as_bytes ret) = 44%nat) by (apply length_ret, Hret).
  split_and!; [|by apply take_app_length'|by apply drop_app_length'|done].
  by destruct (ret_data_case ret data Hd) as [[-> _]|[-> ->]].
Qed.

(** A whole message is handed over, unchanged. *)
Lemma forward_frame_deliver f s v :
  frame_wf f ->
  forward_frame (frame_bytes f) s v
  = match deliver_one f v with (Ok _, v') => Next s v' | (Err k, v') => Leave (Err k) v' end.
Proof.
  intros Hw. unfold forward_frame. pose proof (frame_bytes_length f Hw) as Hlen. unfold header_SIZE at 1.
  case_bool; [lia|]. destruct f as [h cmd pad data|h ret data|h u|h]; cbn [frame_bytes] in *.
  - rewrite take_header, header_decode_nil by apply Hw. destruct Hw as (_ & -> & _). done.
  - destruct (deliver_ret h ret data v Hw) as (Hdata & Htake & Hdrop & Hone).
    rewrite take_header, drop_header, header_decode_nil by apply Hw.
    destruct Hw as (_ & -> & Hret & Hd).
    change (USBIP_RET_SUBMIT =? USBIP_CMD_SUBMIT) with false.
    change (USBIP_RET_SUBMIT =? USBIP_RET_SUBMIT) with true. cbv iota zeta. rewrite Htake, Hdrop.
    rewrite <- (app_nil_r (ret_as_bytes ret)), ret_codec_decode, app_nil_r, Hdata by done.
    assert (Hl : length (ret_as_bytes ret) = 44%nat) by (apply length_ret, Hret).
    rewrite length_app, Hl. case_bool; [unfold ret_HEADER_SIZE in *; lia|]. rewrite Hone.
    by destruct (vh_complete_urb _ _ _ _ _ v) as [[[]|k] v'].
  - rewrite take_header, drop_header, header_decode_nil by apply Hw.
    destruct Hw as (_ & -> & Hu). simpl. rewrite length_unlink. simpl.
    rewrite take_ge by (rewrite length_unlink; done).
    rewrite <- (app_nil_r (unlink_as_bytes u)), unlink_codec_decode by done.
    by destruct (vh_cancel_urb _ _ v) as [[[]|k] v'].
  - destruct Hw as (Hh & H1 & H2 & H3). rewrite take_ge by (rewrite length_header; done).
    rewrite header_decode_nil by done. apply Z.eqb_neq in H1, H2, H3. by rewrite H1, H2, H3.
Qed.

Lemma read_no_frame l s : no_frame l -> exists k, read_message (set_rx l s) = (Err k, set_rx [] s).
Proof.
  intros Hl. destruct (read_message (set_rx l s)) as [[f|k] s'] eqn:E; pose proof (read_message_cases _ _ _ E) as Hc.
  - destruct Hc as (fr & Hw & -> & Hrx & _). by destruct (Hl fr (rx s') Hw).
  - exists k. by destruct Hc as [_ ->].
Qed.

Lemma forwarding_deliver frs l s v fuel :
  Forall frame_wf frs -> no_frame l -> (length frs < fuel)%nat ->
  forwarding fuel (fun _ => false) (set_rx (concat (map frame_bytes frs) ++ l) s) v = Returns (deliver frs v).
Proof.
  intros Hw Hl. revert v fuel. induction Hw as [|f frs Hf Hw IH]; intros v fuel Hfuel;
    (destruct fuel as [|fuel]; [simpl in Hfuel; lia|]); simpl.
  - destruct (read_no_frame l s Hl) as [k ->]. done.
  - rewrite <- app_assoc, read_message_frame by done. rewrite forward_frame_deliver by done.
    unfold io_bind. destruct (deliver_one f v) as [[[]|k] v']; [|done]. apply IH. simpl in Hfuel. lia.
Qed.

Lemma length_frames frs l :
  Forall frame_wf frs -> (length frs <= length (concat (map frame_bytes frs) ++ l))%nat.
Proof.
  induction 1 as [|f frs Hf Hw IH]; simpl; [lia|]. apply frame_bytes_length in Hf.
  rewrite <- app_assoc, length_app. lia.
Qed.

Lemma forwarding_returns fuel ctrl_c s v :
  (length (rx s) < fuel)%nat -> exists r v', forwarding fuel ctrl_c s v = Returns (r, v').
Proof.
  revert ctrl_c s v. induction fuel as [|fuel IH]; intros ctrl_c s v Hf; [lia|]. simpl.
  destruct (ctrl_c O); [by do 2 eexists|].
  destruct (read_message s) as [[f|k] s'] eqn:E; [|by do 2 eexists].
  apply read_message_cases in E as (fr & Hw & -> & Hrx & _). rewrite forward_frame_deliver by done.
  destruct (deliver_one fr v) as [[[]|k] v']; [|by do 2 eexists].
  apply IH. apply frame_bytes_length in Hw. rewrite Hrx, length_app in Hf. lia.
Qed.

Lemma deliver_one_accepted `{!AcceptingVhci V} f v : fst (deliver_one f v) = Ok tt.
Proof. destruct f; simpl; try done; [apply complete_accepted|apply cancel_accepted]. Qed.

Lemma forwarding_accepted `{!AcceptingVhci V} fuel ctrl_c s v r v' :
  forwarding fuel ctrl_c s v = Returns (r, v') -> r = Ok tt.
Proof.
  revert ctrl_c s v. induction fuel as [|fuel IH]; intros ctrl_c s v; simpl; [done|].
  destruct (ctrl_c O); [by intros [= <- _]|].
  destruct (read_message s) as [[f|k] s'] eqn:E; [|by intros [= <- _]].
  apply read_message_cases in E as (fr & Hw & -> & _). rewrite forward_frame_deliver by done.
  pose proof (deliver_one_accepted fr v) as Ha.
  destruct (deliver_one fr v) as [[[]|k] v1]; [apply IH|discriminate Ha].
Qed.

Lemma task_returns ctrl_c d busid nodelay v :
  exists r v', urb_forwarding_task ctrl_c d busid nodelay v = Returns (r, v').
Proof.
  unfold urb_forwarding_task. destruct (tcp_connect_and_import d busid nodelay) as [s|k]; [|by do 2 eexists].
  apply forwarding_returns. lia.
Qed.
End Forwarding.

(** ** The handshake and what follows it *)

Lemma request_import_ok busid h e l s :
  header_wf h -> command h = OP_REP_IMPORT -> hstatus h = STATUS_SUCCESS -> length e = entry_SIZE ->
  tx_room s = None ->
  request_import busid (set_rx (header_as_bytes h ++ e ++ l) s)
  = (Ok e, set_rx l (sent (header_as_bytes (header_new OP_REQ_IMPORT) ++ copy_padded 32 (as_bytes busid)) s)).
Proof.
  intros Hh Hc Hst He Hroom. unfold request_import, io_bind at 1. rewrite write_all_sent by done.
  unfold io_bind at 1. rewrite write_all_sent by done. rewrite sent_sent.
  set (req := header_as_bytes (header_new OP_REQ_IMPORT) ++ _).
  change (sent req (set_rx (header_as_bytes h ++ e ++ l) s))
    with (set_rx (header_as_bytes h ++ e ++ l) (sent req s)).
  rewrite read_header, header_decode_nil, Hc, Hst by done. cbn [negb Z.eqb].
  change (OP_REP_IMPORT =? OP_REP_IMPORT) with true. change (STATUS_SUCCESS =? STATUS_SUCCESS) with true.
  by apply read_exact_app.
Qed.

Lemma be_word l : length l = 4%nat -> is_u32 (be_val l) /\ be_bytes 4 (be_val l) = l.
Proof.
  intros Hl. split; [|by apply be_bytes_be_val]. pose proof (be_val_range l) as Hw. unfold zlen in Hw.
  by rewrite Hl in Hw.
Qed.

(** A device descriptor and two more bytes, read as a header and a RET_UNLINK. *)
Definition misread_header (d : DeviceDescriptor) : UsbIpHeader :=
  {| version := be_val [dd_b_length d; dd_b_descriptor_type d]; command := USBIP_RET_UNLINK;
     hstatus := to_i32 (be_val [dd_b_device_class d; dd_b_device_sub_class d; dd_b_device_protocol d;
                                dd_b_max_packet_size0 d]) |}.

Definition misread_unlink (d : DeviceDescriptor) (rest : list byte) : UsbIpRetUnlink :=
  {| ru_seqnum := be_val (le_bytes 2 (dd_id_vendor d) ++ le_bytes 2 (dd_id_product d));
     ru_devid := be_val (le_bytes 2 (dd_bcd_device d) ++ [dd_i_manufacturer d; dd_i_product d]);
     ru_status := be_val ([dd_i_serial_number d; dd_b_num_configurations d] ++ take 2 rest) |}.

#[local] Transparent DeviceDescriptor_to_bytes.

Lemma descriptor_as_unlink d rest :
  dd_bcd_usb d = 0x0200 -> (2 <= length rest)%nat ->
  frame_wf (FUnlink (misread_header d) (misread_unlink d rest))
  /\ DeviceDescriptor_to_bytes d ++ rest
     = frame_bytes (FUnlink (misread_header d) (misread_unlink d rest)) ++ drop 2 rest.
Proof.
  intros Hb Hr.
  destruct (be_word (le_bytes 2 (dd_id_vendor d) ++ le_bytes 2 (dd_id_product d))) as [U1 B1]; [len_solve|].
  destruct (be_word (le_bytes 2 (dd_bcd_device d) ++ [dd_i_manufacturer d; dd_i_product d])) as [U2 B2]; [len_solve|].
  destruct (be_word ([dd_i_serial_number d; dd_b_num_configurations d] ++ take 2 rest)) as [U3 B3]; [len_solve|].
  destruct (be_word [dd_b_device_class d; dd_b_device_sub_class d; dd_b_device_protocol d; dd_b_max_packet_size0 d])
    as [U4 B4]; [done|].
  split.
  - unfold frame_wf, header_wf, unlink_wf. split_and!; try done; [exact (be_val_range [_; _])|apply to_i32_range].
  - cbn [frame_bytes]. unfold header_as_bytes, unlink_as_bytes, misread_header, misread_unlink.
    cbn [version command hstatus ru_seqnum ru_devid ru_status].
    rewrite B1, B2, B3. rewrite be_bytes_be_val by done.
    rewrite <- (be_bytes_wrap32 (to_i32 _)), wrap_to_i32, B4 by exact U4.
    unfold DeviceDescriptor_to_bytes. rewrite Hb. change (le_bytes 2 0x0200) with [x00; x02].
    change (be_bytes 2 USBIP_RET_UNLINK) with [x00; x02]. rewrite <- !app_assoc. simpl.
    by rewrite (take_drop 2 rest).
Qed.

#[local] Opaque DeviceDescriptor_to_bytes.

Lemma forwarding_fuel {V} `{!VhciBackend V} fuel1 fuel2 ctrl_c s (v : V) :
  (length (rx s) < fuel1)%nat -> (length (rx s) < fuel2)%nat ->
  forwarding fuel1 ctrl_c s v = forwarding fuel2 ctrl_c s v.
Proof.
  revert fuel2 ctrl_c s v. induction fuel1 as [|fuel1 IH]; intros [|fuel2] ctrl_c s v H1 H2; try lia. simpl.
  destruct (ctrl_c O); [done|]. destruct (read_message s) as [[f|k] s'] eqn:E; [|done].
  apply read_message_cases in E as (fr & Hw & -> & Hrx & _). rewrite forward_frame_deliver by done.
  destruct (deliver_one fr v) as [[[]|k] v']; [|done]. apply frame_bytes_length in Hw.
  rewrite Hrx, length_app in H1, H2. apply IH; lia.
Qed.

(** ** Theorems *)

(** C18: every answer of the server reaches the host controller exactly once, in
    order. On any input, which always is a sequence of whole messages and an
    incomplete rest, the loop completes the URB of each RET_SUBMIT with its
    sequence number, device, signed status, length and data, cancels the URB of
    each RET_UNLINK, skips every other message, and ends cleanly at the rest, or
    with the error of the first call the host controller refuses. *)
Theorem forwarding_delivers {V} `{!VhciBackend V} frs l s (v : V) :
  Forall frame_wf frs -> no_frame l ->
  urb_forwarding_loop (fun _ => false) (set_rx (concat (map frame_bytes frs) ++ l) s) v
  = Returns (deliver frs v).
Proof.
  intros Hw Hl. apply forwarding_deliver; [done|done|]. simpl rx.
  pose proof (length_frames frs l Hw). lia.
Qed.

(** A dropped connection is a clean end. With a host controller that refuses
    nothing, a session that got through the import handshake ends with [Ok],
    however the connection ends, so that the spawned task ends with it and never
    sleeps or connects again, whatever the reconnect configuration says. *)
Theorem drop_never_reconnects {V} `{!VhciBackend V} `{!AcceptingVhci V} powi draw fuel config busid ctrl_c dials state (v : V) stream :
  tcp_connect_and_import (dials O) busid (cc_tcp_nodelay config) = Ok stream ->
  exists v', reconnect_loop powi draw (S fuel) config busid ctrl_c dials state v = Returns ([], v').
Proof.
  intros Hs. simpl. unfold urb_forwarding_task. rewrite Hs. unfold urb_forwarding_loop.
  destruct (forwarding_returns (S (length (rx stream))) (ctrl_c O) stream v) as (r & v' & E); [lia|].
  rewrite E. apply forwarding_accepted in E as ->. by exists v'.
Qed.

Section Reconnecting.
Context {V : Type} `{!VhciBackend V} (powi : f64 -> Z -> f64) (draw : f64 -> f64 -> f64).

Lemma reconnect_loop_from fuel config busid ctrl_c dials state (v : V) max a :
  max_retries (cc_reconnect config) = Some max -> max < 2 ^ 32 ->
  delays_defined powi draw (cc_reconnect config) max ->
  next_attempt state = a -> 0 <= a -> max - a < Z.of_nat fuel -> (0 < fuel)%nat ->
  exists delays v', reconnect_loop powi draw fuel config busid ctrl_c dials state v = Returns (delays, v')
                    /\ zlen delays <= Z.max 0 (max - a).
Proof.
  intros Hmax Hm Hd. revert ctrl_c dials state v a.
  induction fuel as [|fuel IH]; intros ctrl_c dials state v a Ha Hpos Hf H0; [lia|]. simpl.
  destruct (task_returns (ctrl_c O) (dials O) busid (cc_tcp_nodelay config) v) as (r & v1 & ->).
  assert (Hnil : exists delays v', Returns ([], v1) = Returns (delays, v') /\ @zlen Z delays <= Z.max 0 (max - a)).
  { exists [], v1. split; [done|]. unfold zlen. simpl. lia. }
  destruct r as [[]|k]; [done|]. destruct (cc_auto_reconnect config); simpl; [|done].
  unfold on_error, should_retry. rewrite Hmax, Ha. destruct (category k); simpl; [|done|done].
  destruct (Z.ltb_spec a max) as [Hlt|Hge]; [|done].
  destruct (Hd a ltac:(lia)) as [d ->]. simpl.
  destruct (IH (fun i => ctrl_c (S i)) (fun i => dials (S i)) (BackOff a d) v1 (a + 1)) as (ds & v' & -> & Hds);
    [simpl; rewrite wrap_small; lia|lia|lia|lia|].
  exists (d :: ds), v'. split; [done|]. unfold zlen in *. simpl. lia.
Qed.
End Reconnecting.

(** C29: with a retry limit the spawned task ends. If the sessions end and the delays
    of the configuration are defined, then whatever the network, the server and the
    host controller do in each session, it runs at most [max + 1] sessions and sleeps
    at most [max] times. *)
Theorem reconnect_loop_ends {V} `{!VhciBackend V} powi draw fuel config busid ctrl_c dials (v : V) max :
  max_retries (cc_reconnect config) = Some max -> is_u32 max ->
  delays_defined powi draw (cc_reconnect config) max -> max < Z.of_nat fuel ->
  exists delays v', reconnect_loop powi draw fuel config busid ctrl_c dials Active v = Returns (delays, v')
                    /\ zlen delays <= max.
Proof.
  intros Hmax [H0 Hm] Hd Hf.
  destruct (reconnect_loop_from powi draw fuel config busid ctrl_c dials Active v max 0) as (ds & v' & E & Hl);
    [done|done|done|done|lia|lia|lia|].
  exists ds, v'. split; [done|lia].
Qed.

(** C40: the URB loop takes the descriptors for a message. The server's import
    reply goes on with the descriptor tree, which [tcp_connect_and_import] leaves
    in the stream: for every USB 2.0 device the task reads the device descriptor
    as a RET_UNLINK, cancels a URB whose number is made of the vendor and product
    ids, and goes on two bytes into the configuration descriptor. *)
Theorem descriptors_taken_for_unlink {V} `{!VhciBackend V} dial busid nodelay h e d rest s (v : V) :
  open_stream dial nodelay = Ok (set_rx (header_as_bytes h ++ e ++ DeviceDescriptor_to_bytes d ++ rest) s) ->
  header_wf h -> command h = OP_REP_IMPORT -> hstatus h = STATUS_SUCCESS -> length e = entry_SIZE ->
  tx_room s = None -> dd_bcd_usb d = 0x0200 -> (2 <= length rest)%nat ->
  exists s', rx s' = drop 2 rest /\
  urb_forwarding_task (fun _ => false) dial busid nodelay v
  = match vh_cancel_urb (be_val (le_bytes 2 (dd_id_vendor d) ++ le_bytes 2 (dd_id_product d)))
            (be_val (le_bytes 2 (dd_bcd_device d) ++ [dd_i_manufacturer d; dd_i_product d])) v with
    | (Ok _, v') => urb_forwarding_loop (fun _ => false) s' v'
    | (Err k, v') => Returns (Err k, v')
    end.
Proof.
  intros Ho Hh Hc Hst He Hroom Hb Hr. unfold urb_forwarding_task, tcp_connect_and_import.
  rewrite Ho, request_import_ok by done. set (s1 := sent _ s).
  destruct (descriptor_as_unlink d rest Hb Hr) as (Hw & Heq).
  exists (set_rx (drop 2 rest) s1). split; [done|]. unfold urb_forwarding_loop at 1. simpl rx.
  rewrite Heq. cbn [forwarding]. rewrite read_message_frame by done. rewrite forward_frame_deliver by done.
  cbn [deliver_one misread_unlink ru_seqnum ru_devid].
  destruct (vh_cancel_urb _ _ v) as [[[]|k] v']; [|done].
  apply frame_bytes_length in Hw. apply forwarding_fuel; simpl rx; rewrite ?length_app; lia.
Qed.

(** ** Reading the descriptors *)

Lemma read_length room chunk s : match fst (read room chunk s) with Ok bs => (length bs <= room)%nat | Err _ => True end.
Proof.
  unfold read. destruct room as [|room]; [simpl; lia|]. destruct (rx s) as [|x l]; [case_decide; simpl; [lia|done]|].
  cbn [fst]. rewrite length_take. lia.
Qed.

(** The loop does not run out of reads: only the parser can keep it going. *)
Lemma read_descriptors_ends steps checks chunks acc s :
  (length acc <= tree_estimate)%nat -> (tree_estimate - length acc + 1 < steps)%nat ->
  read_descriptors steps checks chunks acc s = OutOfFuel ->
  exists l, parse_descriptor_tree (S (length l)) checks l = OutOfFuel.
Proof.
  revert chunks acc s. induction steps as [|steps IH]; intros chunks acc s Ha Hst; [lia|]. simpl.
  destruct (read _ _ s) as [[[|b bs]|k] s'] eqn:E; [done| |done].
  destruct (parse_descriptor_tree _ _ (acc ++ b :: bs)) as [[t|]| |] eqn:Ep; [done| |done|by eexists].
  assert (Hb : (length (b :: bs) <= tree_estimate - length acc)%nat).
  { pose proof (read_length (tree_estimate - length acc) (chunks O) s) as Hr. by rewrite E in Hr. }
  apply IH; rewrite length_app; simpl in *; lia.
Qed.

Lemma read_chunk n bs l s :
  (0 < length bs <= n)%nat -> read n (length bs) (set_rx (bs ++ l) s) = (Ok bs, set_rx l s).
Proof.
  intros Hn. unfold read. destruct n as [|n]; [lia|]. simpl rx.
  destruct (bs ++ l) as [|x r] eqn:E; [destruct bs; simpl in *; [lia|done]|].
  rewrite <- E. replace (Nat.min (S n) (Nat.max 1 (length bs))) with (length bs) by lia.
  by rewrite take_app_length, drop_app_length.
Qed.

Lemma read_one_chunk steps checks chunks bs l s t :
  chunks O = length bs -> (0 < length bs <= tree_estimate)%nat ->
  parse_descriptor_tree (S (length bs)) checks bs = Returns (Some t) ->
  read_descriptors (S steps) checks chunks [] (set_rx (bs ++ l) s) = Returns (bs, set_rx l s).
Proof.
  intros Hc Hb Hp. cbn [read_descriptors length]. rewrite Nat.sub_0_r, Hc, read_chunk by done.
  destruct bs as [|b bs]; [simpl in Hb; lia|]. simpl app. by rewrite Hp.
Qed.

Lemma length_configs cs : (length cs <= length (concat (map config_bytes cs)))%nat.
Proof.
  induction cs as [|c cs IH]; simpl; [lia|]. unfold config_bytes at 1. rewrite !length_app, length_ConfigDescriptor. lia.
Qed.

Lemma parse_whole_tree t checks :
  tree_wf t ->
  parse_descriptor_tree (S (length (serialize_descriptor_tree t))) checks (serialize_descriptor_tree t)
  = Returns (Some t).
Proof.
  intros Ht. apply parse_serialized_tree; [done|]. pose proof (length_configs (ud_configs t)).
  unfold serialize_descriptor_tree. rewrite length_app. lia.
Qed.

Lemma length_tree t : (18 <= length (serialize_descriptor_tree t))%nat.
Proof. unfold serialize_descriptor_tree. rewrite length_app, length_DeviceDescriptor. lia. Qed.

(** A tree of at most 512 bytes that arrives in one piece is read whole. *)
Lemma read_whole_tree checks chunks t l s :
  tree_wf t -> (length (serialize_descriptor_tree t) <= tree_estimate)%nat ->
  chunks O = length (serialize_descriptor_tree t) ->
  read_descriptors (tree_estimate + 2) checks chunks [] (set_rx (serialize_descriptor_tree t ++ l) s)
  = Returns (serialize_descriptor_tree t, set_rx l s).
Proof.
  intros Ht Hl Hc. pose proof (length_tree t). rewrite Nat.add_succ_r.
  apply (read_one_chunk _ _ _ _ _ _ t); [done|lia|by apply parse_whole_tree].
Qed.

Lemma parse_configs_at_end fuel checks raw offset acc :
  (length raw <= offset)%nat -> parse_configs (S fuel) checks raw offset acc = Returns (Some acc).
Proof. intros H. simpl. case_bool; [lia|done]. Qed.

Lemma parse_configs_one_byte fuel checks raw offset acc :
  length raw = S offset -> parse_configs (S fuel) checks raw offset acc = Panics.
Proof.
  intros H. simpl. case_bool; [|lia]. unfold index.
  destruct (raw !! offset); [|done]. rewrite lookup_ge_None_2 by lia. done.
Qed.

(** The descriptors a device is created with depend on how the network cuts
    them. When the first read returns exactly the device descriptor, the loop
    stops there and the configurations are never read; when it returns one byte
    more, the parser panics. *)
Theorem descriptors_depend_on_cut checks chunks d b l s :
  device_wf d ->
  (chunks O = 18%nat ->
   read_descriptors (tree_estimate + 2) checks chunks [] (set_rx (DeviceDescriptor_to_bytes d ++ b :: l) s)
   = Returns (DeviceDescriptor_to_bytes d, set_rx (b :: l) s))
  /\ (chunks O = 19%nat ->
      read_descriptors (tree_estimate + 2) checks chunks [] (set_rx (DeviceDescriptor_to_bytes d ++ b :: l) s) = Panics).
Proof.
  intros Hd. pose proof (length_DeviceDescriptor d) as Hl. split; intros Hc; rewrite Nat.add_succ_r.
  - apply (read_one_chunk _ _ _ _ _ _ {| ud_device := d; ud_configs := [] |}); unfold tree_estimate; [lia|lia|].
    unfold parse_descriptor_tree.
    pose proof (DeviceDescriptor_parse_bytes d [] Hd) as Hp. rewrite app_nil_r in Hp. rewrite Hp, Hl.
    by rewrite parse_configs_at_end by (rewrite Hl; done).
  - cbn [read_descriptors length]. rewrite Nat.sub_0_r, Hc.
    replace (DeviceDescriptor_to_bytes d ++ b :: l) with ((DeviceDescriptor_to_bytes d ++ [b]) ++ l) by (by rewrite <- app_assoc).
    replace 19%nat with (length (DeviceDescriptor_to_bytes d ++ [b])) by (rewrite length_app, Hl; done).
    rewrite read_chunk by (rewrite length_app, Hl; unfold tree_estimate; simpl; lia).
    destruct (DeviceDescriptor_to_bytes d ++ [b]) as [|x r] eqn:E; [apply (f_equal length) in E; rewrite length_app in E; simpl in E; lia|].
    rewrite <- E. simpl app. unfold parse_descriptor_tree. rewrite DeviceDescriptor_parse_bytes by done.
    by rewrite parse_configs_one_byte by (rewrite length_app, Hl; done).
Qed.

(** ** The theorems at concrete inputs *)

#[export] Instance mock_accepting : AcceptingVhci MockVhciBackend.
Proof. by constructor. Qed.

Lemma no_frame_nil : no_frame [].
Proof. intros fr r Hw He. apply frame_bytes_length in Hw. destruct (frame_bytes fr); simpl in *; [lia|done]. Qed.

Lemma forwarding_delivers_witness :
  urb_forwarding_loop (fun _ => false) (peer_sends (concat (map frame_bytes sample_frames) ++ [])) mock_new
  = Returns (Ok tt, {| mk_devices := []; mk_urbs := [(cs_seqnum sample_cmd, cs_devid sample_cmd, 0, 2, [x61; x62])];
                       mk_next_port := 0 |}).
Proof.
  refine (forwarding_delivers sample_frames [] (peer_sends []) mock_new _ no_frame_nil).
  repeat constructor; vm_compute; congruence.
Defined.

(** The reply to an import: the header, a device entry and the descriptors. *)
Definition reply_stream (descriptors : list byte) : Stream :=
  set_rx (header_as_bytes (header_new OP_REP_IMPORT) ++ entry_as_bytes sample_entry ++ descriptors) (peer_sends []).

Definition dial_to (s : Stream) : Dial := {| dial_connect := Ok s; dial_nodelay := Ok tt |}.

Lemma drop_never_reconnects_witness :
  exists v', reconnect_loop powi_mul draw_zero 1 client_default "1-2" (fun _ _ => false)
               (fun _ => dial_to (reply_stream [])) Active mock_new = Returns ([], v').
Proof.
  refine (drop_never_reconnects powi_mul draw_zero 0 client_default "1-2" (fun _ _ => false) _ Active mock_new
            (set_rx [] (sent (header_as_bytes (header_new OP_REQ_IMPORT) ++ copy_padded 32 (as_bytes "1-2")) (peer_sends []))) _).
  vm_compute. reflexivity.
Defined.

(** No server listens: three retries and an end. *)
Definition refused_dial : Dial :=
  {| dial_connect := Err (Io {| io_kind := IoConnectionRefused; io_text := "refused" |}); dial_nodelay := Ok tt |}.

Definition limited_config : ClientConfig :=
  {| cc_server_addr := None; cc_use_mdns := true; cc_auto_reconnect := true;
     cc_reconnect := with_max_retries 3; cc_tcp_nodelay := true |}.

Lemma reconnect_loop_ends_witness :
  (exists delays v', reconnect_loop powi_mul draw_zero 4 limited_config "1-2" (fun _ _ => false)
                       (fun _ => refused_dial) Active mock_new = Returns (delays, v') /\ zlen delays <= 3)
  /\ reconnect_loop powi_mul draw_zero 4 limited_config "1-2" (fun _ _ => false) (fun _ => refused_dial) Active mock_new
     = Returns ([1000000000; 2000000000; 4000000000], mock_new).
Proof.
  split; [|vm_compute; reflexivity].
  apply (reconnect_loop_ends powi_mul draw_zero 4 limited_config "1-2" (fun _ _ => false) (fun _ => refused_dial) mock_new 3);
    [reflexivity|split; vm_compute; congruence| |reflexivity].
  intros a Ha. apply first_delays_defined. lia.
Defined.

Lemma sample_header_wf : header_wf (header_new OP_REP_IMPORT).
Proof. repeat split; vm_compute; congruence. Qed.

Lemma descriptors_taken_for_unlink_witness :
  exists s', rx s' = [x04; x00]
  /\ urb_forwarding_task (fun _ => false)
       (dial_to (reply_stream (DeviceDescriptor_to_bytes sample_device ++ [x09; x02; x04; x00]))) "1-2" true mock_new
     = urb_forwarding_loop (fun _ => false) s' mock_new.
Proof.
  destruct (descriptors_taken_for_unlink
              (dial_to (reply_stream (DeviceDescriptor_to_bytes sample_device ++ [x09; x02; x04; x00]))) "1-2" true
              (header_new OP_REP_IMPORT) (entry_as_bytes sample_entry) sample_device [x09; x02; x04; x00]
              (peer_sends []) mock_new) as (s' & Hrx & Ht);
    [reflexivity|exact sample_header_wf|reflexivity|reflexivity|reflexivity|reflexivity|reflexivity|simpl; lia|].
  exists s'. split; [exact Hrx|exact Ht].
Defined.

Lemma descriptors_depend_on_cut_witness :
  read_descriptors (tree_estimate + 2) false (fun _ => 18%nat) []
    (set_rx (DeviceDescriptor_to_bytes sample_device ++ x09 :: x02 :: [x39]) (peer_sends []))
  = Returns (DeviceDescriptor_to_bytes sample_device, set_rx [x09; x02; x39] (peer_sends []))
  /\ read_descriptors (tree_estimate + 2) false (fun _ => 19%nat) []
       (set_rx (DeviceDescriptor_to_bytes sample_device ++ x09 :: x02 :: [x39]) (peer_sends [])) = Panics.
Proof.
  assert (Hd : device_wf sample_device) by (repeat split; vm_compute; congruence).
  split.
  - exact (proj1 (descriptors_depend_on_cut false (fun _ => 18%nat) sample_device x09 [x02; x39] (peer_sends []) Hd) eq_refl).
  - exact (proj2 (descriptors_depend_on_cut false (fun _ => 19%nat) sample_device x09 [x02; x39] (peer_sends []) Hd) eq_refl).
Defined.
