(* ===== verification/TestsCore.v ===== *)
(** * The unit tests of the core library

    The test functions of error.rs, urb.rs, wire.rs, descriptor.rs, crypto.rs and
    pool.rs (shared/usbip-core/src), as programs over the models: a test returns or
    panics.  What a test gets from outside (a fresh id, a generated key, a clock
    reading, the order in which threads run) is its argument, and the theorems say
    that it passes whatever that is.  Tests that only ask the compiler a question
    (Send, Sync, implements Error) have no counterpart, nor have those of the uuid
    crate itself. *)

From Stdlib Require Import Ascii Floats.SpecFloat.
From S2P Require Import Prelude RustStd RustFloat FloatFacts Errors Proto Urb Stream Wire Descriptor Pool Crypto.

(** ** Tests *)

Definition assert (b : bool) : outcome unit := if b then Returns tt else Panics.
Definition assert_eq {A} `{!EqDecision A} (x y : A) : outcome unit := assert (bool_decide (x = y)).
Definition unwrap {A} (o : option A) : outcome A := match o with Some a => Returns a | None => Panics end.
Definition unwrap_ok {E A} (r : result E A) : outcome A := match r with Ok a => Returns a | Err _ => Panics end.

Notation "c1 ;! c2" :=
  (match c1 with Returns _ => c2 | Panics => Panics | OutOfFuel => OutOfFuel end)
  (at level 100, right associativity) : anyplug_scope.

(** [for x in l { f(x) }]. *)
Fixpoint for_each {A} (l : list A) (f : A -> outcome unit) : outcome unit :=
  match l with [] => Returns tt | x :: l => f x ;! for_each l f end.

Definition passes (t : outcome unit) : Prop := t = Returns tt.

Lemma assert_eq_refl {A} `{!EqDecision A} (x y : A) : x = y -> assert_eq x y = Returns tt.
Proof. intros ->. unfold assert_eq, assert. by rewrite bool_decide_eq_true_2. Qed.

(** ** error.rs *)

Section Error_tests.
Context (cid : string).

Definition test_error_category_display : outcome unit :=
  assert_eq (category_to_string Transient) "transient" ;!
  assert_eq (category_to_string Permanent) "permanent" ;!
  assert_eq (category_to_string Fatal) "fatal".

Definition count_char (c : Ascii.ascii) (s : string) : nat := (length (split_on c s) - 1)%nat.

Definition test_error_new_produces_correlation_id : outcome unit :=
  let err := error_new cid Timeout Transient in
  let cid_str := err_correlation_id err in
  assert_eq (String.length cid_str) 36%nat ;!
  assert_eq (count_char "-" cid_str) 4%nat.

Definition test_error_new_preserves_kind : outcome unit :=
  let err := error_new cid (DeviceNotFound "foo") Permanent in
  assert (match err_kind err with DeviceNotFound _ => true | _ => false end).

Definition test_error_new_preserves_category : outcome unit :=
  let err := error_new cid Timeout Transient in
  assert_eq (err_category err) Transient.

Definition test_error_with_context_adds_key_value : outcome unit :=
  let err := with_context (with_context (error_new cid ConnectionClosed Transient) "busid" "3-2")
               "peer" "192.168.1.5:3240" in
  assert_eq (get_context err "busid") (Some "3-2") ;!
  assert_eq (get_context err "peer") (Some "192.168.1.5:3240") ;!
  assert_eq (get_context err "nonexistent") None.

Definition test_error_display_one_line : outcome unit :=
  let err := error_new cid (DeviceNotFound "3-2") Permanent in
  let s := display_error err [] in
  assert (contains_str "[permanent]" s) ;!
  assert (contains_str "Device not found" s) ;!
  assert (contains_str "3-2" s).

Definition test_error_display_includes_correlation_id : outcome unit :=
  let err := error_new cid ConnectionClosed Transient in
  let s := display_error err [] in
  assert (contains_str (err_correlation_id err) s).
End Error_tests.

Definition test_transient_kinds_are_all_detected : outcome unit :=
  for_each [Timeout; ConnectionClosed; Io {| io_kind := IoWouldBlock; io_text := "test" |}; Usb UsbTimeout]
    (fun kind => assert_eq (category kind) Transient).

Definition test_permanent_kinds_are_all_detected : outcome unit :=
  for_each [DeviceNotFound "foo"; DeviceBusy "foo"; NotSupported "foo"; Protocol "foo"; InvalidMessage "foo"]
    (fun kind => assert_eq (category kind) Permanent).

Definition test_fatal_kinds_are_all_detected : outcome unit :=
  for_each [UrbFailed 0; Encryption "foo"; Serialization "foo"] (fun kind => assert_eq (category kind) Fatal).

Definition test_usb_error_to_urb_status_unchanged : outcome unit :=
  assert_eq (usb_error_to_urb_status UsbIo) (-5) ;!
  assert_eq (usb_error_to_urb_status UsbInvalidParam) (-22) ;!
  assert_eq (usb_error_to_urb_status UsbAccess) (-1) ;!
  assert_eq (usb_error_to_urb_status UsbNoDevice) (-19) ;!
  assert_eq (usb_error_to_urb_status UsbNotFound) (-2) ;!
  assert_eq (usb_error_to_urb_status UsbBusy) (-16) ;!
  assert_eq (usb_error_to_urb_status UsbTimeout) (-62) ;!
  assert_eq (usb_error_to_urb_status UsbOverflow) (-75) ;!
  assert_eq (usb_error_to_urb_status UsbPipe) (-32) ;!
  assert_eq (usb_error_to_urb_status UsbInterrupted) (-4) ;!
  assert_eq (usb_error_to_urb_status UsbNoMem) (-12) ;!
  assert_eq (usb_error_to_urb_status UsbNotSupported) (-95).

Definition error_tests (cid : string) : list (outcome unit) :=
  [test_error_category_display; test_error_new_produces_correlation_id cid; test_error_new_preserves_kind cid;
   test_error_new_preserves_category cid; test_error_with_context_adds_key_value cid;
   test_error_display_one_line cid; test_error_display_includes_correlation_id cid;
   test_transient_kinds_are_all_detected; test_permanent_kinds_are_all_detected;
   test_fatal_kinds_are_all_detected; test_usb_error_to_urb_status_unchanged].

(** ** urb.rs *)

(** [build_cmd_submit]. *)
Definition build_cmd_submit (endpoint direction transfer_buffer_length : Z) (setup : list byte) : UsbIpCmdSubmit :=
  {| cs_seqnum := 1; cs_devid := 1; cs_direction := direction; cs_ep := endpoint;
     cs_transfer_flags := if direction =? 1 then URB_DIR_IN else URB_DIR_OUT;
     cs_transfer_buffer_length := transfer_buffer_length; cs_start_frame := 0; cs_number_of_packets := 0;
     cs_interval := 0; cs_setup := setup |}.

Definition test_hid_interrupt_in_roundtrip : outcome unit :=
  let bytes := cmd_as_bytes (build_cmd_submit 0x81 1 64 (zeros 8)) in
  let! (deserialized, _) := unwrap (cmd_read_from_prefix bytes) in
  assert_eq (cs_ep deserialized) 0x81 ;!
  assert (cs_is_in deserialized) ;!
  assert_eq (cs_data_len deserialized) 64 ;!
  assert (negb (cs_is_control deserialized)).

Definition test_bulk_out_roundtrip : outcome unit :=
  let bytes := cmd_as_bytes (build_cmd_submit 0x02 0 512 (zeros 8)) in
  let! (deserialized, _) := unwrap (cmd_read_from_prefix bytes) in
  assert_eq (cs_ep deserialized) 0x02 ;!
  assert_eq (cs_direction deserialized) 0 ;!
  assert_eq (cs_data_len deserialized) 512 ;!
  assert (negb (cs_is_in deserialized)) ;!
  assert (negb (cs_is_control deserialized)).

Definition test_control_transfer_roundtrip : outcome unit :=
  let setup := [x80; x06; x00; x01; x00; x00; x40; x00] in
  let bytes := cmd_as_bytes (build_cmd_submit 0x00 1 64 setup) in
  let! (deserialized, _) := unwrap (cmd_read_from_prefix bytes) in
  assert (cs_is_control deserialized) ;!
  assert_eq (cs_setup deserialized) setup ;!
  assert_eq (cs_ep deserialized) 0x00 ;!
  assert_eq (cs_data_len deserialized) 64.

Definition urb_tests : list (outcome unit) :=
  [test_hid_interrupt_in_roundtrip; test_bulk_out_roundtrip; test_control_transfer_roundtrip].

(** ** wire.rs *)

(** [make_cmd_submit], with its own assertion. *)
Definition make_cmd_submit (seqnum : Z) (data : list byte) : outcome (list byte) :=
  let header := header_new USBIP_CMD_SUBMIT in
  let cmd := {| cs_seqnum := seqnum; cs_devid := 1; cs_direction := 0; cs_ep := 1; cs_transfer_flags := 0;
                cs_transfer_buffer_length := wrap 32 (zlen data); cs_start_frame := 0; cs_number_of_packets := 0;
                cs_interval := 0; cs_setup := zeros 8 |} in
  let cmd_bytes := cmd_as_bytes cmd in
  assert_eq (length cmd_bytes + 4)%nat cmd_HEADER_SIZE ;!
  Returns (header_as_bytes header ++ cmd_bytes ++ zeros 4 ++ data).

(** The two ends of [duplex(n)]: what one end writes the other reads. *)
Definition through_duplex (n : Z) (msg : list byte) : outcome Stream :=
  let! _ := unwrap_ok (fst (write_message msg {| rx := []; rx_end := eof; tx := []; tx_room := Some (Z.to_nat n) |})) in
  Returns (peer_sends (tx (snd (write_message msg {| rx := []; rx_end := eof; tx := []; tx_room := Some (Z.to_nat n) |})))).

Definition plain_framing_has_no_length_prefix : outcome unit :=
  let! msg := make_cmd_submit 42 (as_bytes "hello") in
  let! b := through_duplex 4096 msg in
  let! got := unwrap_ok (fst (read_message b)) in
  assert_eq got msg.

Definition server_writer_client_reader_interop : outcome unit :=
  let! raw := make_cmd_submit 7 [] in
  let raw := take 16 raw ++ be_bytes 4 URB_DIR_IN ++ drop 20 raw in
  let! (cmd, _) := unwrap (cmd_read_from_prefix (take 48 (drop 8 raw))) in
  let reply1 := serialize_reply cmd 0 3 (as_bytes "abc") in
  let reply2 := serialize_reply cmd 0 2 (as_bytes "xy") in
  let batch := reply1 ++ reply2 in
  let! client_side := through_duplex 8192 batch in
  let '(r1, client_side) := read_message client_side in
  let! got1 := unwrap_ok r1 in
  assert_eq got1 reply1 ;!
  let! got2 := unwrap_ok (fst (read_message client_side)) in
  assert_eq got2 reply2.

Definition wire_tests : list (outcome unit) := [plain_framing_has_no_length_prefix; server_writer_client_reader_interop].

(** ** descriptor.rs *)

Module Descriptor_tests.
Definition sample_device : DeviceDescriptor :=
  {| dd_b_length := x12; dd_b_descriptor_type := x01; dd_bcd_usb := 0x0200; dd_b_device_class := x00;
     dd_b_device_sub_class := x00; dd_b_device_protocol := x00; dd_b_max_packet_size0 := x40; dd_id_vendor := 0x046d;
     dd_id_product := 0xc261; dd_bcd_device := 0x0100; dd_i_manufacturer := x01; dd_i_product := x02;
     dd_i_serial_number := x00; dd_b_num_configurations := x01 |}.

Definition device_descriptor_round_trips : outcome unit :=
  let original := sample_device in
  let bytes := DeviceDescriptor_to_bytes original in
  let! parsed := unwrap (DeviceDescriptor_parse bytes) in
  assert_eq (dd_id_vendor parsed) (dd_id_vendor original) ;!
  assert_eq (dd_id_product parsed) (dd_id_product original) ;!
  assert_eq (DeviceDescriptor_to_bytes parsed) bytes.

Definition config_descriptor_round_trips : outcome unit :=
  let original := {| cd_b_length := x09; cd_b_descriptor_type := x02; cd_w_total_length := 34; cd_b_num_interfaces := x01;
                     cd_b_configuration_value := x01; cd_i_configuration := x00; cd_bm_attributes := xa0;
                     cd_b_max_power := x32 |} in
  let bytes := ConfigDescriptor_to_bytes original in
  let! parsed := unwrap (ConfigDescriptor_parse bytes) in
  assert_eq (ConfigDescriptor_to_bytes parsed) bytes ;!
  assert_eq (cd_w_total_length parsed) (cd_w_total_length original).

Definition interface_descriptor_round_trips : outcome unit :=
  let original := {| id_b_length := x09; id_b_descriptor_type := x04; id_b_interface_number := x00;
                     id_b_alternate_setting := x00; id_b_num_endpoints := x01; id_b_interface_class := x03;
                     id_b_interface_sub_class := x00; id_b_interface_protocol := x00; id_i_interface := x00 |} in
  let bytes := InterfaceDescriptor_to_bytes original in
  let! parsed := unwrap (InterfaceDescriptor_parse bytes) in
  assert_eq (InterfaceDescriptor_to_bytes parsed) bytes.

Definition endpoint_descriptor_round_trips : outcome unit :=
  let original := {| ed_b_length := x07; ed_b_descriptor_type := x05; ed_b_endpoint_address := x81;
                     ed_bm_attributes := x03; ed_w_max_packet_size := 8; ed_b_interval := x0a |} in
  let bytes := EndpointDescriptor_to_bytes original in
  let! parsed := unwrap (EndpointDescriptor_parse bytes) in
  assert_eq (EndpointDescriptor_to_bytes parsed) bytes.

Definition hid_descriptor_round_trips : outcome unit :=
  let original := {| hd_b_length := x09; hd_b_descriptor_type := x21; hd_bcd_hid := 0x0111; hd_b_country_code := x00;
                     hd_b_num_descriptors := x01; hd_report_descriptor_type := x22;
                     hd_w_report_descriptor_length := 65 |} in
  let bytes := HidDescriptor_to_bytes original in
  let! parsed := unwrap (HidDescriptor_parse bytes) in
  assert_eq (HidDescriptor_to_bytes parsed) bytes.

(** tests/fixtures/hid_keyboard/descriptor.bin. *)
Definition hid_keyboard : list byte :=
    [x12; x01; x10; x02; x00; x00; x00; x40; x6b; x1d; x04; x01; x01; x00; x00; x00; x00; x01; x09; x02;
     x22; x00; x01; x01; x00; x80; x32; x09; x04; x00; x00; x01; x03; x01; x01; x00; x09; x21; x11; x01;
     x00; x01; x22; x40; x00; x07; x05; x81; x03; x08; x00; x0a].

Definition fixture_descriptor_tree_round_trips : outcome unit :=
  let raw := hid_keyboard in
  let! parsed := parse_descriptor_tree (length raw) true raw in
  let! parsed := unwrap parsed in
  assert_eq (serialize_descriptor_tree parsed) raw.

Definition descriptor_tests : list (outcome unit) :=
  [device_descriptor_round_trips; config_descriptor_round_trips; interface_descriptor_round_trips;
   endpoint_descriptor_round_trips; hid_descriptor_round_trips; fixture_descriptor_tree_round_trips].
End Descriptor_tests.

(** ** crypto.rs *)

(** The keys the generator returns and the nonces it fills are the arguments; the
    tests stop at the first failure of the crate, so they are run where its calls
    succeed. *)
Section Crypto_tests.
Context `{!Ring}.

Definition test_key_exchange_roundtrip (alice bob : option PrivateKey) : outcome unit :=
  let! (alice_pub, alice_priv) := unwrap_ok (generate_key_pair alice) in
  let! (bob_pub, bob_priv) := unwrap_ok (generate_key_pair bob) in
  let! alice_secret := unwrap_ok (agree alice_priv bob_pub) in
  let! bob_secret := unwrap_ok (agree bob_priv alice_pub) in
  assert_eq alice_secret bob_secret.

Definition test_encrypt_decrypt (a b c : option PrivateKey) (nonce : option (list byte)) : outcome unit :=
  let! (_, priv_bytes) := unwrap_ok (generate_key_pair a) in
  let! _ := unwrap_ok (generate_key_pair b) in
  let! (peer_pub, _) := unwrap_ok (generate_key_pair c) in
  let! shared := unwrap_ok (agree priv_bytes peer_pub) in
  let! key := unwrap_ok (derive_session_key shared) in
  let plaintext := as_bytes "Hello, USB/IP!" in
  let! encrypted := unwrap_ok (encrypt_message key nonce plaintext) in
  let! decrypted := unwrap_ok (decrypt key encrypted) in
  assert_eq plaintext decrypted.

(** The capacity of the buffer is not modelled. *)
Definition test_decrypt_in_place_roundtrip (nonce : option (list byte)) : outcome unit :=
  let shared := replicate 32 x42 in
  let! key := unwrap_ok (derive_session_key shared) in
  let plaintext := replicate 512 xab in
  let! wire := unwrap_ok (encrypt_message key nonce plaintext) in
  let! plaintext_slice := unwrap_ok (fst (decrypt_in_place key wire)) in
  assert_eq plaintext_slice plaintext ;!
  assert_eq (length plaintext_slice) (length plaintext).

(** The calls of the crate succeed. *)
Record ring_works : Prop := {
  rw_public : forall a, is_Some (public_key a);
  rw_agree : forall a b pb, public_key b = Some pb -> is_Some (agree_ephemeral a pb);
  rw_hkdf : forall s, is_Some (hkdf SALT s INFO 32);
  rw_seal : forall k n p, length n = 12%nat -> is_Some (seal_in_place k n p)
}.
End Crypto_tests.

Definition test_hex_roundtrip : outcome unit :=
  let original := [xde; xad; xbe; xef] in
  let hex := hex_encode original in
  let! decoded := hex_decode hex in
  let! decoded := unwrap decoded in
  assert_eq original decoded.

(** ** pool.rs *)

(** The pool is one over any queue that keeps its promises. *)
Section Pool_tests.
Context {Q : Type} `{!BoundedQueue Q UrbBuffer}.

Definition test_new_pool_has_min_size_buffers : outcome unit :=
  let pool := pool_new (Q := Q) 64 128 in
  assert_eq (available pool) 128%nat ;!
  assert (128 <=? capacity pool)%nat.

(** The capacity of the first buffer of a pool. *)
Definition first_capacity (pool : UrbBufferPool (Q := Q)) : outcome nat := pooled_data_capacity (fst (acquire pool)).

Definition test_new_pool_respects_data_capacity : outcome unit :=
  let! c := first_capacity (pool_new 4096 16) in assert_eq c 4096%nat.

Definition test_new_bulk_uses_16k_capacity : outcome unit :=
  let! c := first_capacity (new_bulk 8) in assert_eq c DEFAULT_BULK_CAPACITY.

Definition test_new_interrupt_uses_64b_capacity : outcome unit :=
  let! c := first_capacity (new_interrupt 8) in assert_eq c DEFAULT_INTERRUPT_CAPACITY.

Definition test_acquire_returns_buffer : outcome unit :=
  let! c := first_capacity (pool_new 64 16) in assert (64 <=? c)%nat.

Definition test_acquire_decreases_available : outcome unit :=
  let pool := pool_new (Q := Q) 64 32 in
  let before := available pool in
  let '(_buf, pool) := acquire pool in
  assert_eq (available pool) (before - 1)%nat.

(** [for _ in 0..n { bufs.push(pool.acquire()) }]. *)
Fixpoint acquire_many (n : nat) (pool : UrbBufferPool (Q := Q)) : list PooledBuffer * UrbBufferPool :=
  match n with
  | O => ([], pool)
  | S n => let '(b, pool) := acquire pool in let '(bufs, pool) := acquire_many n pool in (b :: bufs, pool)
  end.

Definition test_acquire_multiple_buffers : outcome unit :=
  let pool := pool_new 64 1024 in
  let '(bufs, pool) := acquire_many 1024 pool in
  assert_eq (available pool) 0%nat ;!
  let '(_extra, pool) := acquire pool in
  Returns tt.

Definition test_reset_clears_buffer : outcome unit :=
  let pool := pool_new 64 8 in
  let buf := fst (acquire pool) in
  let! bytes := pooled_as_slice buf in
  let! buf := pooled_write (<[0%nat := xff]> bytes) buf in
  let! bytes := pooled_as_slice buf in
  let! buf := pooled_write (<[10%nat := xab]> bytes) buf in
  let buf := pooled_reset buf in
  let! bytes := pooled_as_slice buf in
  let! b0 := unwrap (bytes !! 0%nat) in
  assert_eq b0 x00 ;!
  let! b10 := unwrap (bytes !! 10%nat) in
  assert_eq b10 x00.

Definition test_ewma_starts_at_zero : outcome unit := assert (f64_eq (ewma_rate (pool_new (Q := Q) 64 16)) f64_zero).

Definition test_record_urb_updates_rate (now : Z) : outcome unit :=
  let pool := pool_new (Q := Q) 64 16 in
  assert (negb (bool_decide (is_Some (last_record pool)))) ;!
  let pool := record_urb now pool in
  assert (bool_decide (is_Some (last_record pool))).

Definition test_record_urb_does_not_panic (clock : nat -> Z) : outcome unit :=
  let pool := foldl (fun pool i => record_urb (clock i) pool) (pool_new (Q := Q) 64 16) (seq 0 100) in
  assert (f64_eq (ewma_rate pool) f64_zero || f64_lt f64_zero (ewma_rate pool)).

(** [pool.last_record = Some(now - 2s); pool.window_count = 500;] *)
Definition set_window (last count : Z) (p : UrbBufferPool (Q := Q)) : UrbBufferPool :=
  {| queue := queue p; data_capacity := data_capacity p; ewma_rate := ewma_rate p; last_record := Some last;
     window_count := count; min_size := min_size p; max_size := max_size p |}.

Definition test_pool_grows_when_rate_demands (now0 now1 : Z) : outcome unit :=
  let pool := pool_new (Q := Q) 64 16 in
  let initial := available pool in
  let pool := set_window (now0 - 2000000000) 500 pool in
  let pool := record_urb now1 pool in
  let ewma := ewma_rate pool in
  assert (f64_lt f64_zero ewma) ;!
  let target := f64_ceil_as_unsigned USIZE_MAX (f64_mul ewma (f64_of_Z 2)) in
  let desired := Z.max target 16 in
  if Z.of_nat initial <? desired
  then assert ((initial <=? available pool)%nat || (available pool <=? capacity pool)%nat)
  else Returns tt.

Definition test_pool_exhaustion_allocates_fresh : outcome unit :=
  let pool := pool_new 64 4 in
  let '(bufs, pool) := acquire_many 4 pool in
  assert_eq (available pool) 0%nat ;!
  let '(extra, pool) := acquire pool in
  let! c := pooled_data_capacity extra in
  assert_eq c 64%nat.

Definition test_min_size_is_honored : outcome unit :=
  let pool := pool_new (Q := Q) 128 1024 in
  assert_eq (available pool) 1024%nat ;!
  assert (1024 <=? capacity pool)%nat.

Definition test_default_min_pool_size_constant : outcome unit := assert_eq DEFAULT_MIN_POOL_SIZE 1024%nat.

(** [test_concurrent_acquire]: eight threads, each of which acquires a buffer and
    drops it, 128 times.  A thread is the number of rounds it has left and the
    buffer it holds. *)
Record PoolThreads := { pt_pool : UrbBufferPool (Q := Q); pt_threads : list (nat * option PooledBuffer) }.

Definition concurrent_start : PoolThreads :=
  {| pt_pool := pool_new 64 1024; pt_threads := replicate 8 (128%nat, None) |}.

Inductive thread_step : PoolThreads -> PoolThreads -> Prop :=
| thread_acquires p ts i n b p' :
    ts !! i = Some (S n, None) -> acquire p = (b, p') ->
    thread_step {| pt_pool := p; pt_threads := ts |} {| pt_pool := p'; pt_threads := <[i := (n, Some b)]> ts |}
| thread_drops p ts i n b :
    ts !! i = Some (n, Some b) ->
    thread_step {| pt_pool := p; pt_threads := ts |}
                {| pt_pool := pooled_drop b p; pt_threads := <[i := (n, None)]> ts |}.

(** All threads have been joined. *)
Definition threads_joined (s : PoolThreads) : Prop := Forall (fun t => t = (0%nat, None)) (pt_threads s).

Definition test_concurrent_acquire (s : PoolThreads) : outcome unit := assert (512 <=? available (pt_pool s))%nat.
End Pool_tests.

(** ** They pass *)

Lemma prefix_app p s : String.prefix p (p +:+ s) = true.
Proof. induction p as [|c p IH]; simpl; [by destruct s|]. by destruct (Ascii.ascii_dec c c). Qed.

Lemma contains_str_here p s : contains_str p (p +:+ s) = true.
Proof. pose proof (prefix_app p s) as Hp. destruct (p +:+ s); cbn [contains_str]; by rewrite Hp. Qed.

Lemma contains_str_skip p s1 s2 : contains_str p s2 = true -> contains_str p (s1 +:+ s2) = true.
Proof. intros Hs. induction s1 as [|c s1 IH]; [done|]. simpl. by rewrite IH, orb_true_r. Qed.

Lemma error_tests_pass cid :
  String.length cid = 36%nat -> count_char "-" cid = 4%nat -> Forall passes (error_tests cid).
Proof.
  intros Hl Hc. unfold error_tests. repeat (apply Forall_cons; split); [..|by apply Forall_nil]; unfold passes; try reflexivity.
  - unfold test_error_new_produces_correlation_id. simpl err_correlation_id. by rewrite Hl, Hc.
  - unfold test_error_display_one_line, display_error. simpl category_to_string. simpl kind_to_string. simpl err_correlation_id.
    do 2 (match goal with |- context [contains_str ?p ?s] => replace (contains_str p s) with true by (symmetry; do 5 apply contains_str_skip; reflexivity) end).
    reflexivity.
  - unfold test_error_display_includes_correlation_id, display_error. simpl err_correlation_id.
    replace (contains_str _ _) with true; [reflexivity|]. symmetry. do 3 apply contains_str_skip. apply contains_str_here.
Qed.

Lemma computed_tests_pass :
  Forall passes (urb_tests ++ wire_tests ++ Descriptor_tests.descriptor_tests ++ [test_hex_roundtrip]).
Proof. repeat (apply Forall_cons; split); [..|by apply Forall_nil]; vm_compute; reflexivity. Qed.

Section Crypto_pass.
Context `{!Ring}.

Lemma key_pair a : ring_works -> exists pa, public_key a = Some pa /\ generate_key_pair (Some a) = Ok (pa, a).
Proof. intros Hw. destruct (rw_public Hw a) as [pa Hp]. exists pa. unfold generate_key_pair. simpl. by rewrite Hp. Qed.

Lemma tested_key_derived s : ring_works -> exists k, derive_session_key s = Ok k.
Proof.
  intros Hw. destruct (rw_hkdf Hw s) as [kb Hk]. unfold derive_session_key. rewrite Hk. simpl.
  destruct (proj2 (key_new_spec kb) (hkdf_length _ _ _ _ _ Hk)) as [k ->]. by exists k.
Qed.

Lemma message_encrypted k n p : ring_works -> length n = 12%nat ->
  exists w, encrypt_message k (Some n) p = Ok w /\ decrypt k w = Ok p.
Proof.
  intros Hw Hn. unfold encrypt_message. simpl. destruct (rw_seal Hw k n p Hn) as [c Hc].
  assert (He : encrypt_with_nonce k p n = Ok (be_bytes 4 12 ++ n ++ c)) by (unfold encrypt_with_nonce; by rewrite Hc).
  eexists. split; [exact He|]. by apply (decrypt_encrypt k p n).
Qed.

(** Whatever keys are generated and whatever nonces are drawn. *)
Lemma crypto_tests_pass (a b c : PrivateKey) (n1 n2 : list byte) : ring_works -> length n1 = 12%nat -> length n2 = 12%nat ->
  Forall passes [test_key_exchange_roundtrip (Some a) (Some b); test_encrypt_decrypt (Some a) (Some b) (Some c) (Some n1);
                 test_decrypt_in_place_roundtrip (Some n2)].
Proof.
  intros Hw Hn1 Hn2. destruct (key_pair a Hw) as (pa & Hpa & Ha), (key_pair b Hw) as (pb & Hpb & Hb), (key_pair c Hw) as (pc & Hpc & Hc).
  repeat (apply Forall_cons; split); [| | |by apply Forall_nil]; unfold passes.
  - unfold test_key_exchange_roundtrip. rewrite Ha, Hb. cbn [unwrap_ok]. unfold agree.
    rewrite (agree_comm a b pa pb) by done. destruct (rw_agree Hw b a pa Hpa) as [s ->]. by apply assert_eq_refl.
  - unfold test_encrypt_decrypt. rewrite Ha, Hb, Hc. cbn [unwrap_ok]. unfold agree.
    destruct (rw_agree Hw a c pc Hpc) as [s ->]. cbn [ok_or unwrap_ok]. destruct (tested_key_derived s Hw) as [k ->]. cbn [unwrap_ok].
    destruct (message_encrypted k n1 (as_bytes "Hello, USB/IP!") Hw Hn1) as (w & -> & Hd). cbn [unwrap_ok]. rewrite Hd. by apply assert_eq_refl.
  - unfold test_decrypt_in_place_roundtrip. destruct (tested_key_derived (replicate 32 x42) Hw) as [k ->]. cbn [unwrap_ok].
    destruct (message_encrypted k n2 (replicate 512 xab) Hw Hn2) as (w & -> & Hd). cbn [unwrap_ok].
    destruct (decrypt_in_place_spec k w) as [-> _]. rewrite Hd. cbn [unwrap_ok]. by rewrite !assert_eq_refl.
Qed.
End Crypto_pass.

Section Pool_pass.
Context {Q : Type} `{!BoundedQueue Q UrbBuffer}.

(** A pool of [k] fresh buffers of capacity [cap], made with the minimum [n]. *)
Record filled (cap n k : nat) (p : UrbBufferPool (Q := Q)) : Prop := {
  fi_contents : q_contents (queue p) = replicate k (UrbBuffer_new cap);
  fi_queue : q_capacity (queue p) = Nat.max (n * 4) 4096;
  fi_cap : data_capacity p = cap
}.

Lemma pool_filled cap n : filled cap n n (pool_new cap n).
Proof.
  destruct (q_new_spec (Q := Q) (A := UrbBuffer) (Nat.max (n * 4) 4096)) as [Hc Hk]; [lia|].
  destruct (push_buffers_spec false n cap (q_new (Nat.max (n * 4) 4096))) as [Hp Hpc]; [rewrite Hc, Hk; simpl; lia|].
  split; [|by simpl; rewrite Hpc|done]. simpl. by rewrite Hp, Hc.
Qed.

Definition fresh (cap : nat) : PooledBuffer := {| pb_inner := Some (UrbBuffer_new cap); pb_pool := true |}.

Lemma acquire_filled cap n k p : filled cap n k p -> exists p', acquire p = (fresh cap, p') /\ filled cap n (pred k) p'.
Proof.
  intros [Hc Hq Hd]. unfold acquire. destruct k as [|k].
  - rewrite q_pop_empty by done. rewrite Hd. by exists p.
  - destruct (q_pop_spec _ _ _ Hc) as (q' & -> & Hc' & Hq'). eexists. split; [done|]. by split; simpl; rewrite ?Hc', ?Hq'.
Qed.

Lemma drop_filled cap n k p : (k < Nat.max (n * 4) 4096)%nat -> filled cap n k p ->
  filled cap n (S k) (pooled_drop (fresh cap) p).
Proof.
  intros Hk [Hc Hq Hd]. unfold pooled_drop, fresh. cbn [pb_inner pb_pool].
  rewrite (reset_is_new cap) by apply buffer_shape_new.
  destruct (q_push_spec (UrbBuffer_new cap) (queue p)) as (q' & -> & Hc' & Hq'); [rewrite Hc, length_replicate, Hq; done|].
  split; simpl; [rewrite Hc', Hc; symmetry; apply replicate_S_end|congruence|done].
Qed.

Lemma acquire_many_filled cap n m k p : filled cap n k p -> exists bufs p', acquire_many m p = (bufs, p') /\ filled cap n (k - m) p'.
Proof.
  revert k p. induction m as [|m IH]; intros k p Hf; simpl; [exists [], p; by rewrite Nat.sub_0_r|].
  destruct (acquire_filled _ _ _ _ Hf) as (p1 & -> & Hf1). destruct (IH _ _ Hf1) as (bufs & p2 & -> & Hf2).
  eexists _, _. split; [done|]. by replace (k - S m)%nat with (pred k - m)%nat by lia.
Qed.

Lemma filled_available cap n k p : filled cap n k p -> available p = k.
Proof. intros [Hc _ _]. unfold available. by rewrite Hc, length_replicate. Qed.

Lemma filled_capacity cap n k p : filled cap n k p -> capacity p = Nat.max (n * 4) 4096.
Proof. by intros []. Qed.

Lemma first_capacity_new cap n : first_capacity (pool_new cap n) = Returns cap.
Proof. unfold first_capacity. destruct (acquire_filled _ _ _ _ (pool_filled cap n)) as (p & -> & _). done. Qed.

(** The tests without a clock. *)
Definition pool_tests : list (outcome unit) :=
  [test_new_pool_has_min_size_buffers (Q := Q); test_new_pool_respects_data_capacity (Q := Q);
   test_new_bulk_uses_16k_capacity (Q := Q); test_new_interrupt_uses_64b_capacity (Q := Q);
   test_acquire_returns_buffer (Q := Q); test_acquire_decreases_available (Q := Q); test_acquire_multiple_buffers (Q := Q);
   test_reset_clears_buffer (Q := Q); test_ewma_starts_at_zero (Q := Q); test_pool_exhaustion_allocates_fresh (Q := Q);
   test_min_size_is_honored (Q := Q); test_default_min_pool_size_constant].

Lemma assert_true b : b = true -> assert b = Returns tt.
Proof. by intros ->. Qed.

Lemma pool_tests_pass : Forall passes pool_tests.
Proof.
  unfold pool_tests. repeat (apply Forall_cons; split); [..|by apply Forall_nil]; unfold passes.
  - unfold test_new_pool_has_min_size_buffers. pose proof (pool_filled 64 128) as Hf.
    rewrite (filled_available _ _ _ _ Hf), (filled_capacity _ _ _ _ Hf). reflexivity.
  - unfold test_new_pool_respects_data_capacity. rewrite first_capacity_new. by apply assert_eq_refl.
  - unfold test_new_bulk_uses_16k_capacity, new_bulk. rewrite first_capacity_new. by apply assert_eq_refl.
  - unfold test_new_interrupt_uses_64b_capacity, new_interrupt. rewrite first_capacity_new. by apply assert_eq_refl.
  - unfold test_acquire_returns_buffer. rewrite first_capacity_new. done.
  - unfold test_acquire_decreases_available. pose proof (pool_filled 64 32) as Hf.
    destruct (acquire_filled _ _ _ _ Hf) as (p & -> & Hf'). rewrite (filled_available _ _ _ _ Hf), (filled_available _ _ _ _ Hf').
    by apply assert_eq_refl.
  - unfold test_acquire_multiple_buffers. destruct (acquire_many_filled _ _ 1024 _ _ (pool_filled 64 1024)) as (bufs & p & -> & Hf).
    rewrite (filled_available _ _ _ _ Hf), assert_eq_refl by done. by destruct (acquire p).
  - unfold test_reset_clears_buffer. destruct (acquire_filled _ _ _ _ (pool_filled 64 8)) as (p & -> & _). reflexivity.
  - reflexivity.
  - unfold test_pool_exhaustion_allocates_fresh. destruct (acquire_many_filled _ _ 4 _ _ (pool_filled 64 4)) as (bufs & p & -> & Hf).
    rewrite (filled_available _ _ _ _ Hf), assert_eq_refl by done. destruct (acquire_filled _ _ _ _ Hf) as (p' & -> & _).
    by apply assert_eq_refl.
  - unfold test_min_size_is_honored. pose proof (pool_filled 128 1024) as Hf.
    rewrite (filled_available _ _ _ _ Hf), (filled_capacity _ _ _ _ Hf), assert_eq_refl by done. apply assert_true. by apply Nat.leb_le, Nat.leb_le.
  - reflexivity.
Qed.

(** However the threads interleave, the pool is full again when they have ended. *)
Definition holding (ts : list (nat * option PooledBuffer)) : nat :=
  length (filter (fun t => is_Some (snd t)) ts).

Definition threads_inv (s : PoolThreads) : Prop :=
  Forall (fun t => snd t = None \/ snd t = Some (fresh 64)) (pt_threads s)
  /\ length (pt_threads s) = 8%nat /\ filled 64 1024 (1024 - holding (pt_threads s)) (pt_pool s).

Lemma holding_le ts : (holding ts <= length ts)%nat.
Proof. unfold holding. apply length_filter. Qed.

Lemma holding_insert ts i t t' : ts !! i = Some t ->
  (holding (<[i := t']> ts) + (if decide (is_Some (snd t)) then 1 else 0)
   = holding ts + (if decide (is_Some (snd t')) then 1 else 0))%nat.
Proof.
  intros Hi. pose proof (take_drop_middle _ _ _ Hi) as Hts. rewrite <- Hts at 2. rewrite insert_take_drop by (by eapply lookup_lt_Some).
  unfold holding. rewrite !filter_app, !filter_cons, !length_app. repeat case_decide; simpl; lia.
Qed.

Lemma thread_step_inv s s' : threads_inv s -> thread_step s s' -> threads_inv s'.
Proof.
  intros (Hts & Hlen & Hf) Hst. destruct Hst as [p ts i n b p' Hi Ha|p ts i n b Hi]; simpl in *.
  - destruct (acquire_filled _ _ _ _ Hf) as (p1 & Ha1 & Hf1). rewrite Ha in Ha1. injection Ha1 as -> ->.
    pose proof (holding_insert ts i _ (n, Some (fresh 64)) Hi) as Hh. simpl in Hh.
    split; [by apply Forall_insert; [|right]|]. split; [simpl; by rewrite length_insert|].
    simpl. by replace (1024 - holding (<[i:=(n, Some (fresh 64))]> ts))%nat with (pred (1024 - holding ts)) by lia.
  - assert (b = fresh 64) as ->.
    { rewrite Forall_lookup in Hts. destruct (Hts _ _ Hi) as [|[=]]; done. }
    pose proof (holding_insert ts i _ (n, None) Hi) as Hh. simpl in Hh.
    split; [by apply Forall_insert; [|left]|]. split; [simpl; by rewrite length_insert|]. simpl.
    replace (1024 - holding (<[i:=(n, None)]> ts))%nat with (S (1024 - holding ts));
      [|pose proof (holding_le ts); lia]. apply drop_filled; [|done]. pose proof (Nat.le_max_r (1024 * 4) 4096). lia.
Qed.

(** *** Tests with a clock *)

(** The rate is never negative and never a NaN. *)
Record rate_inv (i : Z) (p : UrbBufferPool (Q := Q)) : Prop := {
  ri_rate : f64_nonneg (ewma_rate p);
  ri_count : 0 <= window_count p <= i
}.

Lemma one_le_cases x : f64_nonneg x -> f64_le (f64_of_Z 1) x = true -> f64_finite_pos x \/ x = S754_infinity false.
Proof. destruct x as [[]|[]| |[] m e]; simpl; intros; try done; [by right|by left]. Qed.

Lemma observed_rate_nonneg count elapsed : 0 < count < 2 ^ 53 -> f64_nonneg elapsed -> f64_le (f64_of_Z 1) elapsed = true ->
  f64_nonneg (f64_div (f64_of_Z count) elapsed).
Proof.
  intros Hc He Hle. destruct (f64_of_Z_exact count Hc) as (m & -> & _).
  destruct (one_le_cases elapsed He Hle) as [Hp| ->]; [by apply f64_div_nonneg|done].
Qed.

Lemma record_rate_inv i now p : 0 <= i < 2 ^ 52 -> rate_inv i p -> rate_inv (i + 1) (record_urb now p).
Proof.
  intros Hi [Hr Hc]. unfold record_urb. destruct (last_record p) as [last|]; [|split; simpl; [done|lia]].
  destruct (f64_le (f64_of_Z 1) (as_secs_f64 (Z.max 0 (now - last)))) eqn:Ele; [|split; simpl; [done|lia]].
  split; simpl; [|lia].
  pose proof (observed_rate_nonneg (window_count p + 1) _ ltac:(lia) (as_secs_f64_nonneg (Z.max 0 (now - last)) ltac:(lia)) Ele).
  destruct (f64_eq _ _); [done|]. apply f64_add_nonneg; by apply f64_mul_nonneg_l.
Qed.

Lemma records_rate_inv (clock : nat -> Z) l i p : 0 <= i -> i + zlen l < 2 ^ 52 -> rate_inv i p ->
  f64_nonneg (ewma_rate (foldl (fun pool j => record_urb (clock j) pool) p l)).
Proof.
  revert i p. induction l as [|j l IH]; intros i p Hi Hl Hp; [apply Hp|]. unfold zlen in *. simpl length in Hl.
  apply (IH (i + 1)); [lia|lia|]. apply record_rate_inv; [lia|done].
Qed.

Lemma nonneg_sign x : f64_nonneg x -> f64_eq x f64_zero || f64_lt f64_zero x = true.
Proof. destruct x as [[]|[]| |[] m e]; simpl; intros; done. Qed.

Lemma grown_rate d : 0 <= d <= 1000 ->
  f64_lt f64_zero (f64_div (f64_of_Z 501) (as_secs_f64 (2000000000 + d))) = true
  /\ f64_le (f64_of_Z 1) (as_secs_f64 (2000000000 + d)) = true.
Proof.
  intros Hd. assert (Hall : forallb (fun n => let d := Z.of_nat n in
     f64_lt f64_zero (f64_div (f64_of_Z 501) (as_secs_f64 (2000000000 + d)))
     && f64_le (f64_of_Z 1) (as_secs_f64 (2000000000 + d))) (seq 0 1001) = true) by (vm_compute; reflexivity).
  rewrite forallb_forall in Hall. specialize (Hall (Z.to_nat d)). cbv zeta in Hall. rewrite Z2Nat.id in Hall by lia.
  apply andb_true_iff, Hall, in_seq. lia.
Qed.

(** The test of the growth, when the two readings of the clock are at most a
    microsecond apart. *)
Lemma grows_passes now0 now1 : 0 <= now1 - now0 <= 1000 -> passes (test_pool_grows_when_rate_demands (Q := Q) now0 now1).
Proof.
  intros Hd. unfold passes, test_pool_grows_when_rate_demands.
  set (p := record_urb now1 _). destruct (grown_rate (now1 - now0) Hd) as [Hlt Hle].
  assert (Hr : ewma_rate p = f64_div (f64_of_Z 501) (as_secs_f64 (2000000000 + (now1 - now0)))).
  { subst p. unfold record_urb. cbn [last_record set_window window_count ewma_rate].
    replace (Z.max 0 (now1 - (now0 - 2000000000))) with (2000000000 + (now1 - now0)) by lia. by rewrite Hle. }
  rewrite Hr, Hlt. cbn [assert]. destruct (_ <? _); [|done]. apply assert_true, orb_true_iff. right. apply Nat.leb_le.
  assert (Hi : pool_inv (fun _ => True) 64 16 {| pw_pool := p; pw_held := [] |}).
  { apply record_inv; [apply anything_kept|]. destruct (pool_new_inv (Q := Q) 64 _ (anything_kept 64) 16). by split. }
  destruct Hi as [_ _ _ Hq Hb _ _]. unfold available, capacity. simpl in *. lia.
Qed.

(** Whatever the clock shows and however the threads interleave. *)
Lemma pool_tests_always_pass now clock now0 now1 s :
  0 <= now1 - now0 <= 1000 -> rtc thread_step (concurrent_start (Q := Q)) s -> threads_joined s ->
  Forall passes (pool_tests ++ [test_record_urb_updates_rate (Q := Q) now; test_record_urb_does_not_panic (Q := Q) clock;
                                test_pool_grows_when_rate_demands (Q := Q) now0 now1; test_concurrent_acquire s])
  /\ available (pt_pool s) = 1024%nat.
Proof.
  intros Hd Hrun Hjoin. assert (Hinv : threads_inv s).
  { clear Hjoin. revert s Hrun. apply rtc_ind_r; [|intros x y _ Hst Hi; by eapply thread_step_inv].
    split; [by apply Forall_replicate; left|]. split; [done|]. apply pool_filled. }
  assert (Hav : available (pt_pool s) = 1024%nat).
  { destruct Hinv as (_ & _ & Hf). rewrite (filled_available _ _ _ _ Hf). unfold holding, threads_joined in *.
    assert (Hno : Forall (fun t : nat * option PooledBuffer => ~ is_Some (snd t)) (pt_threads s)).
    { eapply Forall_impl; [exact Hjoin|]. intros t ->. by intros [? [=]]. }
    rewrite (filter_none _ _ Hno). done. }
  split; [|done]. apply Forall_app. split; [apply pool_tests_pass|].
  repeat (apply Forall_cons; split); [| | | |by apply Forall_nil].
  - reflexivity.
  - unfold passes, test_record_urb_does_not_panic. apply assert_true, nonneg_sign, (records_rate_inv clock _ 0); [lia| |].
    + vm_compute. reflexivity.
    + split; simpl; [done|lia].
  - by apply grows_passes.
  - unfold passes, test_concurrent_acquire. by rewrite Hav.
Qed.

(** The threads can end. *)
Lemma thread_ends p ts i n : ts !! i = Some (n, None) ->
  exists p', rtc thread_step {| pt_pool := p; pt_threads := ts |} {| pt_pool := p'; pt_threads := <[i := (0%nat, None)]> ts |}.
Proof.
  revert p ts. induction n as [|n IH]; intros p ts Hi; [exists p; by rewrite list_insert_id|].
  destruct (acquire p) as [b p1] eqn:Ha. pose proof (lookup_lt_Some _ _ _ Hi) as Hlt.
  destruct (IH (pooled_drop b p1) (<[i := (n, None)]> (<[i := (n, Some b)]> ts))) as [p' Hrun];
    [by rewrite list_lookup_insert_eq by (by rewrite length_insert)|].
  rewrite !list_insert_insert_eq in Hrun. exists p'.
  eapply rtc_l; [by eapply thread_acquires|]. eapply rtc_l; [|exact Hrun].
  rewrite <- (list_insert_insert_eq ts i (n, None) (n, Some b)). apply thread_drops. by apply list_lookup_insert_eq.
Qed.

Lemma threads_end (k n : nat) p ts : (k + n = length ts)%nat -> Forall (fun t => t = (0%nat, None)) (take k ts) ->
  Forall (fun t => snd t = None) ts ->
  exists s, rtc thread_step {| pt_pool := p; pt_threads := ts |} s /\ threads_joined s.
Proof.
  revert k p ts. induction n as [|n IH]; intros k p ts Hk Hz Hn.
  { eexists. split; [apply rtc_refl|]. unfold threads_joined. simpl. by rewrite take_ge in Hz by lia. }
  destruct (lookup_lt_is_Some_2 ts k) as [[m o] Hm]; [lia|].
  assert (o = None) as -> by (rewrite Forall_lookup in Hn; by apply (Hn k _ Hm)).
  destruct (thread_ends p ts k m Hm) as [p' Hrun].
  destruct (IH (S k) p' (<[k := (0%nat, None)]> ts)) as (s & Hrun' & Hj).
  - rewrite length_insert. lia.
  - rewrite (take_S_r _ k (0%nat, None)) by (apply list_lookup_insert_eq; lia). rewrite take_insert_ge by lia.
    by apply Forall_app_2, Forall_singleton.
  - by apply Forall_insert.
  - exists s. split; [by etrans|done].
Qed.
End Pool_pass.

Section Core_pass.
Context {Q : Type} `{!BoundedQueue Q UrbBuffer} `{!Ring}.

(** What the tests get from outside. *)
Record CoreInputs := {
  ci_cid : string;
  ci_keys : PrivateKey * PrivateKey * PrivateKey;
  ci_nonces : list byte * list byte;
  ci_now : Z;
  ci_clock : nat -> Z;
  ci_readings : Z * Z;
  ci_threads : PoolThreads (Q := Q)
}.

(** An id printed as 36 characters with 4 hyphens, nonces of 12 bytes, two readings
    of the clock at most a microsecond apart, threads that ran to their end. *)
Definition core_inputs_ok (i : CoreInputs) : Prop :=
  String.length (ci_cid i) = 36%nat /\ count_char "-" (ci_cid i) = 4%nat
  /\ length (fst (ci_nonces i)) = 12%nat /\ length (snd (ci_nonces i)) = 12%nat
  /\ 0 <= snd (ci_readings i) - fst (ci_readings i) <= 1000
  /\ rtc thread_step concurrent_start (ci_threads i) /\ threads_joined (ci_threads i).

Definition core_tests (i : CoreInputs) : list (outcome unit) :=
  let '(a, b, c) := ci_keys i in
  error_tests (ci_cid i)
  ++ (urb_tests ++ wire_tests ++ Descriptor_tests.descriptor_tests ++ [test_hex_roundtrip])
  ++ [test_key_exchange_roundtrip (Some a) (Some b);
      test_encrypt_decrypt (Some a) (Some b) (Some c) (Some (fst (ci_nonces i)));
      test_decrypt_in_place_roundtrip (Some (snd (ci_nonces i)))]
  ++ (pool_tests (Q := Q)
      ++ [test_record_urb_updates_rate (Q := Q) (ci_now i); test_record_urb_does_not_panic (Q := Q) (ci_clock i);
          test_pool_grows_when_rate_demands (Q := Q) (fst (ci_readings i)) (snd (ci_readings i));
          test_concurrent_acquire (ci_threads i)]).

(** The unit tests of the core library pass on the models, and not only in one
    run: with any queue and any ring that keeps its promises and whose calls
    succeed, whatever ids, keys and nonces are drawn, whatever the clock shows and
    however the eight threads of the concurrent test interleave. *)
Theorem core_tests_pass (i : CoreInputs) : ring_works -> core_inputs_ok i -> Forall passes (core_tests i).
Proof.
  intros Hw (Hl & Hc & Hn1 & Hn2 & Hr & Hrun & Hj). unfold core_tests. destruct (ci_keys i) as [[a b] c].
  apply Forall_app. split; [by apply error_tests_pass|]. apply Forall_app. split; [apply computed_tests_pass|].
  apply Forall_app. split; [by apply crypto_tests_pass|]. by apply pool_tests_always_pass.
Qed.
End Core_pass.

Lemma toy_ring_works : ring_works (H := toy_ring).
Proof. split; simpl; intros; by eexists. Qed.

Lemma core_tests_pass_witness : exists i : CoreInputs (Q := nat * list UrbBuffer) (H := toy_ring),
  core_inputs_ok i /\ Forall passes (core_tests i).
Proof.
  destruct (threads_end 0 8 (pool_new (Q := nat * list UrbBuffer) 64 1024) (replicate 8 (128%nat, None)))
    as (s & Hrun & Hj); [reflexivity|constructor|repeat constructor|].
  set (i := Build_CoreInputs (H := toy_ring) (Q := nat * list UrbBuffer) "0190a5b2-7c3d-7e4f-8a9b-0c1d2e3f4a5b"
              (5, 7, 9) (zeros 12, zeros 12) 0 (fun _ => 0) (0, 100) s).
  assert (Hok : core_inputs_ok i)
    by (split; [reflexivity|]; split; [reflexivity|]; split; [reflexivity|]; split; [reflexivity|]; split; [simpl; lia|]; split; [exact Hrun|exact Hj]).
  exists i. split; [exact Hok|]. exact (core_tests_pass (H := toy_ring) i toy_ring_works Hok).
Defined.
