(* ===== verification/EndToEnd.v ===== *)
(** * Client and server together

    Theorems about the two programs on the two ends of one connection: what the
    client writes is what the server reads, and the other way round. *)

From S2P Require Import Prelude RustStd Errors Proto Urb Stream Wire Descriptor Crypto CryptoStream.
From S2P Require Import Bandwidth UsbBackend UsbManager Batcher Server Reconnect Vhci Client.

(** ** The device list *)

Lemma read_entries_ok es l s :
  Forall entry_wf es ->
  read_entries (length es) (set_rx (concat (map entry_as_bytes es) ++ l) s) = (Ok es, set_rx l s).
Proof.
  induction 1 as [|e es He Hes IH]; simpl; [done|]. rewrite <- app_assoc.
  rewrite io_bind_read_exact by exact (encode_length e He). unfold io_bind at 1. rewrite IH.
  pose proof (entry_codec_decode e [] He) as Hd. rewrite app_nil_r in Hd. by rewrite Hd.
Qed.

Lemma request_devices_ok es l s :
  Forall entry_wf es -> zlen es < 2 ^ 32 -> tx_room s = None ->
  request_devices (set_rx (devlist_reply es ++ l) s)
  = (Ok es, set_rx l (sent (header_as_bytes (header_new OP_REQ_DEVLIST)) s)).
Proof.
  intros Hes Hn Hroom. pose proof (zlen_nonneg es). unfold request_devices, io_bind at 1.
  rewrite write_all_sent by done. unfold devlist_reply. rewrite <- !app_assoc, wrap_small by lia.
  match goal with |- context [sent ?r (set_rx ?q s)] => change (sent r (set_rx q s)) with (set_rx q (sent r s)) end.
  rewrite read_header, header_decode_nil by (repeat split; vm_compute; congruence).
  change (negb (command (header_new OP_REP_DEVLIST) =? OP_REP_DEVLIST)) with false. cbv iota.
  rewrite io_bind_read_exact by apply length_be_bytes. rewrite be_val_be_bytes by (split; [lia|exact Hn]).
  unfold zlen. rewrite Nat2Z.id. by apply read_entries_ok.
Qed.

Section EndToEnd.
Context `{!Ring} {B : Type} `{!UsbBackend B} {V : Type} `{!VhciBackend V}.

(** C8: the client gets the server's device list. The request the client writes
    makes the server answer with bytes that the client reads back as exactly the
    devices the server has, in order, and nothing is left over. *)
Theorem devlist_end_to_end fuel env config peer (c : Conn (B := B)) s :
  env_nodelay env = Ok tt -> tx_room (cn_stream c) = None -> tx_room s = None ->
  Forall entry_wf (list_devices (cn_usb c)) -> zlen (list_devices (cn_usb c)) < 2 ^ 32 ->
  exists request reply c',
    handle_client fuel env config peer (receives request c) = Returns (Ok tt, c')
    /\ tx (cn_stream c') = tx (cn_stream c) ++ reply
    /\ request_devices (set_rx reply s) = (Ok (list_devices (cn_usb c)), set_rx [] (sent request s)).
Proof.
  intros He Hc Hs Hes Hn.
  eexists (header_as_bytes (header_new OP_REQ_DEVLIST)), (devlist_reply (list_devices (cn_usb c))), _.
  split; [|split].
  - rewrite <- (app_nil_r (header_as_bytes _)).
    apply devlist_answered; [done|repeat split; vm_compute; congruence|done|done].
  - done.
  - rewrite <- (app_nil_r (devlist_reply _)) at 1. by apply request_devices_ok.
Qed.

(** ** Importing a device *)

Lemma request_busid_padded id :
  no_nul (as_bytes id) -> utf8_valid (as_bytes id) = true -> (length (as_bytes id) <= 31)%nat ->
  request_busid (copy_padded 32 (as_bytes id)) = id.
Proof.
  intros Hn Hu Hl. unfold request_busid. rewrite take_copy_padded by (done || lia).
  rewrite from_utf8_lossy_valid by done. apply of_bytes_as_bytes.
Qed.

(** C7: an import reaches the virtual host controller. When the server accepts
    the import of a bus id of at most 31 bytes, the reply it sends makes the
    client create a virtual device with exactly the entry and the descriptor tree
    of the server's device (a tree of at most 512 bytes that arrives in one
    piece), and the request the client wrote is the one the server answered. *)
Theorem import_end_to_end checks chunks nodelay peer id t e usb1 usb2 (c : Conn (B := B)) s (v : V) :
  no_nul (as_bytes id) -> utf8_valid (as_bytes id) = true -> (length (as_bytes id) <= 31)%nat ->
  tx_room (cn_stream c) = None -> tx_room s = None ->
  get_device_entry id (cn_usb c) = Some e -> entry_wf e -> cn_exports c !! id = None ->
  claim_device id (cn_usb c) = (Ok tt, usb1) ->
  get_descriptor_tree id usb1 = (Ok (serialize_descriptor_tree t), usb2) ->
  tree_wf t -> (length (serialize_descriptor_tree t) <= 512)%nat ->
  chunks O = length (serialize_descriptor_tree t) ->
  exists buf reply c' s',
    import_handshake peer (receives buf c) = (Ok (Accepted id), c')
    /\ tx (cn_stream c') = tx (cn_stream c) ++ reply
    /\ cn_exports c' = <[id := (peer, e)]> (cn_exports c)
    /\ request_import id (set_rx reply s) = (Ok (entry_as_bytes e), s')
    /\ tx s' = tx s ++ header_as_bytes (header_new OP_REQ_IMPORT) ++ buf
    /\ do_import checks chunks {| dial_connect := Ok (set_rx reply s); dial_nodelay := Ok tt |} id nodelay v
       = (let '(r, v') := vh_create_device e (serialize_descriptor_tree t) v in
          match r with
          | Ok _ => Returns (Ok (e, serialize_descriptor_tree t), v')
          | Err k => Returns (Err k, v')
          end).
Proof.
  intros Hn Hu Hl Hroom Hs Hdev He Hx Hclaim Hd Ht Hlen Hchunk.
  pose proof (request_busid_padded id Hn Hu Hl) as Hid. set (buf := copy_padded 32 (as_bytes id)) in *.
  assert (Hri : request_import id (set_rx (import_reply e (serialize_descriptor_tree t)) s)
                = (Ok (entry_as_bytes e), set_rx (serialize_descriptor_tree t)
                     (sent (header_as_bytes (header_new OP_REQ_IMPORT) ++ buf) s))).
  { apply request_import_ok; [apply sample_header_wf|done|done|exact (encode_length e He)|done]. }
  eexists (buf ++ []), (import_reply e (serialize_descriptor_tree t)), _, _.
  split; [|split; [|split; [|split; [exact Hri|split]]]].
  - rewrite (import_accepted peer buf [] c e usb1 (serialize_descriptor_tree t) usb2), Hid;
      rewrite ?Hid; try done. apply length_copy_padded. lia.
  - done.
  - done.
  - by rewrite app_nil_r.
  - unfold do_import, open_stream. simpl dial_connect. simpl dial_nodelay.
    replace (if nodelay then @Ok ErrorKind unit tt else Ok tt) with (@Ok ErrorKind unit tt) by by destruct nodelay.
    rewrite Hri. pose proof (entry_codec_decode e [] He) as Hdec. rewrite app_nil_r in Hdec. rewrite Hdec.
    rewrite <- (app_nil_r (serialize_descriptor_tree t)) at 1. rewrite read_whole_tree by done.
    by destruct (vh_create_device e _ v) as [[dev|k] v'].
Qed.

(** ** URBs *)

(** The host controller's side of a list of executed URBs. *)
Fixpoint complete_all (us : list urb_done) : io V unit :=
  match us with
  | [] => io_ret tt
  | u :: us =>
      vh_complete_urb (cs_seqnum (ud_cmd u)) (cs_devid (ud_cmd u)) (ur_status (ud_result u))
        (ur_actual_length (ud_result u)) (ur_data (ud_result u)) ;;;
      complete_all us
  end.

(** A command whose flags and direction field say the same. *)
Definition direction_agrees (f : frame) : Prop :=
  match f with
  | FCmd _ cmd _ _ => cs_is_in cmd = negb (cs_direction cmd =? 0)
  | _ => True
  end.

Definition done_frame (u : urb_done) : frame :=
  FRet (header_new USBIP_RET_SUBMIT)
    (reply_ret (ud_cmd u) (ur_status (ud_result u)) (ur_actual_length (ud_result u))) (ur_data (ud_result u)).

Lemma done_frame_bytes u : frame_bytes (done_frame u) = done_reply u.
Proof. unfold done_reply, reply_of. by rewrite serialize_reply_eq. Qed.

Lemma cmd_data_lt cmd (data : list byte) : cmd_wf cmd -> zlen data = cmd_data_size cmd -> zlen data < 2 ^ 32.
Proof.
  intros (_ & _ & _ & _ & _ & [_ Hl] & _) ->. unfold cmd_data_size, cs_data_len. destruct (_ && _); lia.
Qed.

Lemma session_framed `{!UsbBackendLaws B} id clock frs (usb : UsbDeviceManager (B := B)) :
  Forall frame_wf frs -> Forall direction_agrees frs ->
  Forall (fun u => frame_wf (done_frame u) /\ is_i32 (ur_status (ud_result u))) (fst (session id clock frs usb)).
Proof.
  intros Hw. revert clock usb. induction Hw as [|fr frs Hf Hw IH]; intros clock usb Hdir; [constructor|].
  inversion Hdir as [|? ? Hd Hdir']; subst.
  destruct fr as [h cmd pad data|h ret data|h u|h]; try (by apply IH). simpl.
  destruct Hf as (_ & _ & Hcmd & _ & Hdata).
  pose proof (submit_urb_result id cmd data usb Hcmd (cmd_data_lt _ _ Hcmd Hdata)) as Hr.
  destruct (submit_urb id cmd data usb) as [r usb']. specialize (IH (fun i => clock (S i)) usb' Hdir').
  destruct (session id _ frs usb') as [us usb'']. constructor; [|exact IH]. simpl in Hr. split; [|apply Hr].
  split_and!; [exact header_new_ret_wf|done|apply reply_ret_wf; [done|apply Hr]|by apply reply_data_size].
Qed.

Lemma deliver_done us v :
  Forall (fun u => frame_wf (done_frame u) /\ is_i32 (ur_status (ud_result u))) us ->
  deliver (map done_frame us) v = complete_all us v.
Proof.
  intros Hus. revert v. induction Hus as [|u us [_ Hst] Hus IH]; intros v; simpl; [done|].
  unfold io_bind. rewrite to_i32_wrap by done.
  destruct (vh_complete_urb _ _ _ _ _ v) as [[[]|k] v']; [apply IH|done].
Qed.

Lemma Forall_sublist_of {A} (P : A -> Prop) l k : l `sublist_of` k -> Forall P k -> Forall P l.
Proof. induction 1; inversion 1; subst; auto. Qed.

(** C6: the results of the device reach the client's host controller unchanged.
    For any messages of the client (with consistent directions) and whatever
    replies of the session the server sends, in order, the client's forwarding
    loop completes exactly those URBs, once each and in that order, with the
    sequence number of the command and the status, length and data the device
    returned. *)
Theorem urbs_end_to_end `{!UsbBackendLaws B} id clock frs (usb : UsbDeviceManager (B := B)) us s (v : V) :
  Forall frame_wf frs -> Forall direction_agrees frs ->
  us `sublist_of` fst (session id clock frs usb) ->
  urb_forwarding_loop (fun _ => false) (set_rx (concat (map done_reply us)) s) v
  = Returns (complete_all us v).
Proof.
  intros Hw Hdir Hsub. pose proof (session_framed id clock frs usb Hw Hdir) as Hall.
  apply (Forall_sublist_of _ _ _ Hsub) in Hall.
  rewrite <- (deliver_done us v Hall), <- (map_ext _ _ done_frame_bytes), <- (map_map done_frame frame_bytes).
  rewrite <- (app_nil_r (concat _)). unfold urb_forwarding_loop. apply forwarding_deliver.
  - apply Forall_map. eapply Forall_impl; [exact Hall|]. by intros u [].
  - apply no_frame_nil.
  - simpl rx. apply le_n_S, length_frames. apply Forall_map. eapply Forall_impl; [exact Hall|]. by intros u [].
Qed.
End EndToEnd.

(** ** A wheel and its host *)

(** A backend with one device, whose descriptors are [sample_tree] and which
    answers every URB. *)
Record Wheel := { wheel_urbs : nat }.

Definition wheel_entry : UsbIpDeviceEntry := make_test_entry "1-1" 0x046d 0xc261.

#[export] Instance wheel_backend : UsbBackend Wheel := {
  be_list_devices _ := [wheel_entry];
  be_get_device_entry id _ := if decide (id = "1-1") then Some wheel_entry else None;
  be_claim_device _ b := (Ok tt, b);
  be_get_descriptor_tree _ b := (Ok (serialize_descriptor_tree sample_tree), b);
  be_execute_urb _ _ _ b :=
    (Ok {| ut_status := 0; ut_actual_length := 0; ut_data := [] |}, {| wheel_urbs := S (wheel_urbs b) |});
  be_release_device _ b := (Ok tt, b)
}.

#[export] Instance wheel_laws : UsbBackendLaws Wheel.
Proof.
  split; [by eexists|]. intros id cmd data b r b' _ _ [= <- <-].
  split; [done|]. split; [done|]. by destruct (cs_is_in cmd).
Qed.

Definition wheel_manager : UsbDeviceManager (B := Wheel) := with_backend {| wheel_urbs := 0 |}.
Definition wheel_conn : Conn (B := Wheel) :=
  {| cn_stream := peer_sends []; cn_usb := wheel_manager; cn_exports := ∅ |}.

Lemma devlist_end_to_end_witness :
  exists request reply c',
    handle_client (H := toy_ring) 1 sample_env default_config "10.0.0.2:40000" (receives request wheel_conn)
    = Returns (Ok tt, c')
    /\ tx (cn_stream c') = reply
    /\ request_devices (peer_sends reply) = (Ok [wheel_entry], set_rx [] (sent request (peer_sends []))).
Proof.
  exact (devlist_end_to_end (H := toy_ring) 1 sample_env default_config "10.0.0.2:40000" wheel_conn (peer_sends [])
           eq_refl eq_refl eq_refl (Forall_cons_2 _ _ _ sample_entry_1_1_wf (Forall_nil_2 _)) eq_refl).
Defined.

Lemma wheel_claim : exists m, claim_device "1-1" wheel_manager = (Ok tt, m)
                              /\ get_descriptor_tree "1-1" m = (Ok (serialize_descriptor_tree sample_tree), m).
Proof. eexists. split; reflexivity. Qed.

Lemma import_end_to_end_witness :
  exists reply, do_import true (fun _ => 75%nat) {| dial_connect := Ok (peer_sends reply); dial_nodelay := Ok tt |}
                  "1-1" true mock_new
                = Returns (Ok (wheel_entry, serialize_descriptor_tree sample_tree),
                           {| mk_devices := [vhci_device 0 wheel_entry]; mk_urbs := []; mk_next_port := 1 |}).
Proof.
  destruct wheel_claim as (m & Hc & Hd).
  destruct (import_end_to_end (B := Wheel) true (fun _ => 75%nat) true "10.0.0.2:40000" "1-1" sample_tree wheel_entry
              m m wheel_conn (peer_sends []) mock_new) as (buf & reply & c' & s' & _ & _ & _ & _ & _ & Hi);
    [repeat constructor; discriminate|reflexivity|vm_compute; lia|reflexivity|reflexivity|vm_compute; reflexivity
    |exact sample_entry_1_1_wf|reflexivity|exact Hc|exact Hd|exact sample_tree_wf|vm_compute; lia|reflexivity|].
  exists reply. exact Hi.
Defined.

Definition claimed_wheel : UsbDeviceManager (B := Wheel) :=
  {| mgr_backend := {| wheel_urbs := 0 |}; mgr_handles := <["1-1" := true]> ∅ |}.

Lemma urbs_end_to_end_witness :
  urb_forwarding_loop (fun _ => false)
    (peer_sends (concat (map done_reply (fst (session "1-1" (env_clock sample_env) session_frames claimed_wheel))))) mock_new
  = Returns (Ok tt, {| mk_devices := []; mk_urbs := [(1, 1, 0, 0, []); (2, 1, 0, 0, [])]; mk_next_port := 0 |}).
Proof.
  refine (urbs_end_to_end (B := Wheel) "1-1" (env_clock sample_env) session_frames claimed_wheel
            (fst (session "1-1" (env_clock sample_env) session_frames claimed_wheel)) (peer_sends []) mock_new _ _ _).
  - repeat constructor; vm_compute; congruence.
  - repeat constructor.
  - reflexivity.
Defined.
