(* ===== verification/Pipeline.v ===== *)
(** * A client with a window against the URB loop
    (handle_urb_loop of server/usbip-server/src/server.rs, batcher.rs)

    The other files run the URB loop on the whole input of a connection.  Here the
    input depends on the output: a client sends commands as long as no more than
    [w] of them are unanswered, the loop reads and executes them and writes a batch
    when its batcher asks for it, the client reads the replies.  The steps
    interleave freely and the clock shows what it likes.  The loop waits for input
    with replies in its batcher, and nothing else empties it: this is what the
    theorems are about. *)

From stdpp Require Import relations.
From S2P Require Import Prelude RustStd Errors Proto Urb Stream Wire Crypto CryptoStream Bandwidth UsbBackend UsbManager.
From S2P Require Import Batcher Server Reconnect Vhci Client EndToEnd.

Section Pipeline.
Context `{!Ring} {B : Type} `{!UsbBackend B}.
Context (w : nat) (id peer : string).

Record Pipe := {
  pp_todo : list frame;
  pp_sent : nat;
  pp_stream : Stream;
  pp_batcher : UrbBatcher;
  pp_usb : UsbDeviceManager (B := B);
  pp_client : list byte;
  pp_got : nat;
  pp_refused : nat
}.

(** What the network does with what the server wrote. *)
Definition handed_over (s : Stream) : Stream :=
  {| rx := rx s; rx_end := rx_end s; tx := []; tx_room := tx_room s |}.

(** A command the client may send. *)
Definition command_ok (fr : frame) : Prop :=
  frame_wf fr /\ direction_agrees fr /\ match fr with FCmd _ _ _ _ => True | _ => False end.

(** [pp_refused] counts the replies the batcher does not take: a batch is written
    without them. *)
Inductive pipe_step : Pipe -> Pipe -> Prop :=
| pipe_send fr todo sent s b usb c got ref :
    (sent - got < w)%nat ->
    pipe_step {| pp_todo := fr :: todo; pp_sent := sent; pp_stream := s; pp_batcher := b; pp_usb := usb;
                 pp_client := c; pp_got := got; pp_refused := ref |}
              {| pp_todo := todo; pp_sent := S sent; pp_stream := set_rx (rx s ++ frame_bytes fr) s; pp_batcher := b;
                 pp_usb := usb; pp_client := c; pp_got := got; pp_refused := ref |}
| pipe_serve clock h cmd pad data rest r usb1 todo sent s b usb c got ref s' b' usb' :
    command_ok (FCmd h cmd pad data) -> rx s = frame_bytes (FCmd h cmd pad data) ++ rest ->
    submit_urb id cmd data usb = (r, usb1) ->
    urb_iteration id clock {| lp_wire := WirePlain s peer; lp_batcher := b; lp_usb := usb |}
    = Continue {| lp_wire := WirePlain s' peer; lp_batcher := b'; lp_usb := usb' |} ->
    pipe_step {| pp_todo := todo; pp_sent := sent; pp_stream := s; pp_batcher := b; pp_usb := usb;
                 pp_client := c; pp_got := got; pp_refused := ref |}
              {| pp_todo := todo; pp_sent := sent; pp_stream := handed_over s'; pp_batcher := b'; pp_usb := usb';
                 pp_client := c ++ tx s'; pp_got := got;
                 pp_refused := if accepts (fst clock) cmd r b then ref else S ref |}
| pipe_receive todo sent s b usb c got ref f c' :
    read_message (peer_sends c) = (Ok f, peer_sends c') ->
    pipe_step {| pp_todo := todo; pp_sent := sent; pp_stream := s; pp_batcher := b; pp_usb := usb;
                 pp_client := c; pp_got := got; pp_refused := ref |}
              {| pp_todo := todo; pp_sent := sent; pp_stream := s; pp_batcher := b; pp_usb := usb;
                 pp_client := c'; pp_got := S got; pp_refused := ref |}.

(** The connection right after the import. *)
Definition pipe_start (todo : list frame) (usb : UsbDeviceManager (B := B)) : Pipe :=
  {| pp_todo := todo; pp_sent := 0; pp_stream := peer_sends []; pp_batcher := batcher_new; pp_usb := usb;
     pp_client := []; pp_got := 0; pp_refused := 0 |}.

(** A reply that is one message. *)
Definition one_message (reply : list byte) : Prop := exists fr, frame_wf fr /\ reply = frame_bytes fr.

(** Where the commands sent so far are: on their way, answered in the batch, answered
    on the way back, answered and received, or answered with a reply the batcher
    refused. *)
Record pipe_inv (p : Pipe) (coming : list frame) (held back : list (list byte)) : Prop := {
  pi_todo : Forall command_ok (pp_todo p);
  pi_rx : rx (pp_stream p) = concat (map frame_bytes coming);
  pi_coming : Forall command_ok coming;
  pi_tx : tx (pp_stream p) = [];
  pi_room : tx_room (pp_stream p) = None;
  pi_batch : batch_holds (pp_batcher p) held;
  pi_held : Forall one_message held;
  pi_max : max_batch (pp_batcher p) = 8%nat;
  pi_count : (length held < 8)%nat;
  pi_client : pp_client p = concat back;
  pi_back : Forall one_message back;
  pi_sent : pp_sent p = (length coming + pp_refused p + length held + length back + pp_got p)%nat;
  pi_window : (pp_sent p <= pp_got p + w)%nat
}.

Lemma pipe_start_inv todo usb : Forall command_ok todo -> pipe_inv (pipe_start todo usb) [] [] [].
Proof. intros Ht. split; try done; simpl; [apply holds_new|lia..]. Qed.

Context `{!UsbBackendLaws B}.

(** The reply to a command is one message. *)
Lemma reply_one_message h cmd pad data usb r usb' : command_ok (FCmd h cmd pad data) ->
  submit_urb id cmd data usb = (r, usb') -> one_message (reply_of cmd r).
Proof.
  intros (Hf & Hd & _) Hs. pose proof (session_framed id (fun _ => (0, 0)) [FCmd h cmd pad data] usb) as Hall.
  cbn [session] in Hall. rewrite Hs in Hall. cbn [fst] in Hall.
  specialize (Hall (Forall_cons_2 _ _ _ Hf (Forall_nil_2 _)) (Forall_cons_2 _ _ _ Hd (Forall_nil_2 _))).
  inversion Hall as [|u us [Hw _] _]; subst. eexists. split; [exact Hw|]. by rewrite done_frame_bytes.
Qed.

(** One round of the loop: the reply is put into the batch; or it fills the batch,
    which is written; or it is lost, and the batch without it is written. *)
Lemma serve_cases clock h cmd pad data coming s b usb held r usb1 :
  command_ok (FCmd h cmd pad data) -> tx_room s = None -> tx s = [] ->
  rx s = concat (map frame_bytes (FCmd h cmd pad data :: coming)) -> submit_urb id cmd data usb = (r, usb1) ->
  batch_holds b held -> Forall one_message held -> max_batch b = 8%nat -> (length held < 8)%nat ->
  exists s' b' usb',
    urb_iteration id clock {| lp_wire := WirePlain s peer; lp_batcher := b; lp_usb := usb |}
    = Continue {| lp_wire := WirePlain s' peer; lp_batcher := b'; lp_usb := usb' |}
    /\ rx s' = concat (map frame_bytes coming) /\ tx_room s' = None /\ max_batch b' = 8%nat
    /\ one_message (reply_of cmd r)
    /\ if accepts (fst clock) cmd r b
       then tx s' = [] /\ batch_holds b' (held ++ [reply_of cmd r]) /\ (length (held ++ [reply_of cmd r]) < 8)%nat
            \/ tx s' = concat (held ++ [reply_of cmd r]) /\ batch_holds b' [] /\ length held = 7%nat
       else tx s' = concat held /\ batch_holds b' [].
Proof.
  intros Hok Hroom Htx Hrx Es Hh Hm Hmax Hlt.
  assert (Hf : frame_wf (FCmd h cmd pad data)) by apply Hok. assert (Hc : cmd_wf cmd) by apply Hf.
  pose proof (urb_iteration_cmd id clock h cmd pad data (concat (map frame_bytes coming)) s peer b usb Hf) as Hi.
  cbv zeta in Hi. cbn [map concat] in Hrx. rewrite <- Hrx, set_rx_rx in Hi.
  rewrite Es in Hi. pose proof (reply_one_message _ _ _ _ _ _ _ Hok Es) as Hr.
  pose proof (push_accepts (fst clock) (snd clock) cmd r b) as Hp.
  pose proof (push_holds (fst clock) (snd clock) cmd r b held Hh Hc) as Hph.
  rewrite Hmax, (holds_count _ _ Hh) in Hp.
  assert (Hwr : forall batch, write_message batch (set_rx (concat (map frame_bytes coming)) s)
                = (Ok tt, sent batch (set_rx (concat (map frame_bytes coming)) s))).
  { intros batch. by apply write_message_sent. }
  destruct (accepts (fst clock) cmd r b).
  - rewrite Hp in Hi, Hph. specialize (Hph eq_refl). cbn [snd] in Hph.
    destruct (Nat.leb_spec 8 (S (length held))) as [Hfull|Hfull].
    + rewrite Hwr in Hi. apply flush_holds in Hph as [Hfl Hph]. eexists _, _, _. split; [exact Hi|].
      split_and!; [done|done|done|done|]. right. split_and!; [|done|lia].
      simpl. rewrite Htx. exact Hfl.
    + eexists _, _, _. split; [exact Hi|]. split_and!; [done|done|done|done|].
      left. split_and!; [done|done|]. rewrite length_app. simpl. lia.
  - rewrite Hp, Hwr in Hi. apply flush_holds in Hh as [Hfl Hh]. eexists _, _, _. split; [exact Hi|].
    split_and!; [done..| |done].
    simpl. rewrite Htx. exact Hfl.
Qed.

(** What a step can be, on the places of the commands. *)
Inductive moves (w : nat) : nat * nat * nat * nat * nat * nat -> nat * nat * nat * nat * nat * nat -> Prop :=
| moves_send todo coming lost held back got :
    (coming + lost + held + back < w)%nat ->
    moves w (S todo, coming, lost, held, back, got) (todo, S coming, lost, held, back, got)
| moves_batched todo coming lost held back got :
    moves w (todo, S coming, lost, held, back, got) (todo, coming, lost, S held, back, got)
| moves_full todo coming lost back got :
    moves w (todo, S coming, lost, 7%nat, back, got) (todo, coming, lost, 0%nat, (back + 8)%nat, got)
| moves_lost todo coming lost held back got :
    moves w (todo, S coming, lost, held, back, got) (todo, coming, S lost, 0%nat, (back + held)%nat, got)
| moves_received todo coming lost held back got :
    moves w (todo, coming, lost, held, S back, got) (todo, coming, lost, held, back, S got).

Definition places (p : Pipe) (coming : list frame) (held back : list (list byte)) :=
  (length (pp_todo p), length coming, pp_refused p, length held, length back, pp_got p).

Lemma message_cons back c f c' :
  Forall one_message back -> c = concat back -> read_message (peer_sends c) = (Ok f, peer_sends c') ->
  exists back', back = f :: back' /\ c' = concat back'.
Proof.
  intros Hb -> Hread. destruct Hb as [|r back (fr & Hw & ->) Hb].
  - exfalso. apply read_message_cases in Hread as (fr & Hw & -> & Hrx & _). simpl in Hrx.
    apply frame_bytes_length in Hw. destruct (frame_bytes fr); simpl in *; [lia|done].
  - pose proof (read_message_frame fr (concat back) (peer_sends []) Hw) as Hfr.
    cbn [concat] in Hread. change (peer_sends (frame_bytes fr ++ concat back))
      with (set_rx (frame_bytes fr ++ concat back) (peer_sends [])) in Hread.
    rewrite Hfr in Hread. pose proof (f_equal (fun x => rx (snd x)) Hread) as Hc. simpl in Hc. injection Hread as <- _. by exists back.
Qed.

(** The command at the head of the input is the one the loop reads. *)
Lemma head_command h cmd pad data rest coming : command_ok (FCmd h cmd pad data) -> Forall command_ok coming ->
  frame_bytes (FCmd h cmd pad data) ++ rest = concat (map frame_bytes coming) ->
  exists h' pad' coming', coming = FCmd h' cmd pad' data :: coming' /\ command_ok (FCmd h' cmd pad' data).
Proof.
  intros [Hw _] Hco Heq. destruct Hco as [|fr coming Hfr Hco].
  { apply frame_bytes_length in Hw. apply (f_equal length) in Heq. rewrite length_app in Heq. simpl (length (concat _)) in Heq. lia. }
  destruct fr as [h' cmd' pad' data'| | |]; [|by destruct Hfr as (_ & _ & [])..].
  destruct Hw as (_ & _ & Hc & Hp & Hd). pose proof Hfr as [(_ & _ & Hc' & Hp' & Hd') _].
  cbn [map concat frame_bytes] in Heq. rewrite <- !app_assoc in Heq.
  apply app_inj_1 in Heq as [_ Heq]; [|by rewrite !length_header].
  pose proof (cmd_codec_decode cmd (pad ++ data ++ rest) Hc) as H1. rewrite Heq, cmd_codec_decode in H1 by done.
  injection H1 as <- Heq'. apply app_inj_1 in Heq' as [<- Heq']; [|by rewrite Hp].
  apply app_inj_1 in Heq' as [<- _]; [|unfold zlen in *; lia]. by exists h', pad', coming.
Qed.

Lemma pipe_step_inv p p' coming held back : pipe_inv p coming held back -> pipe_step p p' ->
  exists coming' held' back', pipe_inv p' coming' held' back'
  /\ moves w (places p coming held back) (places p' coming' held' back').
Proof.
  intros [Ht Hrx Hco Htx Hroom Hb Hh Hmax Hcnt Hcl Hba Hs Hw] Hst. destruct Hst as
    [fr todo sent s b usb c got ref Hlt|clock h cmd pad data rest r usb1 todo sent s b usb c got ref s' b' usb' Hok Hin Hsub Hit
    |todo sent s b usb c got ref f c' Hread]; simpl in *.
  - exists (coming ++ [fr]), held, back. inversion Ht; subst. split.
    + split; simpl; try done.
      * rewrite Hrx, map_app, concat_app. simpl. by rewrite app_nil_r.
      * by apply Forall_app_2, Forall_singleton.
      * rewrite length_app. simpl. lia.
      * lia.
    + unfold places. simpl. rewrite length_app, Nat.add_1_r. constructor. lia.
  - rewrite Hrx in Hin. destruct (head_command _ _ _ _ _ _ Hok Hco (eq_sym Hin)) as (h' & pad' & coming' & -> & Hok').
    apply Forall_cons_1 in Hco as [_ Hco].
    destruct (serve_cases clock h' cmd pad' data coming' s b usb held r usb1 Hok' Hroom Htx Hrx Hsub Hb Hh Hmax Hcnt)
      as (s1 & b1 & usb2 & Hit1 & Hrx1 & Hroom1 & Hmax1 & Hr & Hcase).
    rewrite Hit1 in Hit. injection Hit as <- <- <-. simpl in Hs.
    destruct (accepts (fst clock) cmd r b); [destruct Hcase as [(Htx1 & Hb1 & Hc1)|(Htx1 & Hb1 & H7)]|destruct Hcase as (Htx1 & Hb1)].
    + exists coming', (held ++ [reply_of cmd r]), back. split.
      * split; simpl; try done; [by apply Forall_app_2, Forall_singleton|by rewrite Htx1, app_nil_r|rewrite length_app; simpl; lia].
      * unfold places. simpl. rewrite length_app, Nat.add_1_r. constructor.
    + exists coming', [], (back ++ held ++ [reply_of cmd r]). split.
      * split; simpl; try done; [lia|by rewrite Htx1, Hcl, <- concat_app|by repeat apply Forall_app_2; [..|apply Forall_singleton]|].
        rewrite !length_app. simpl. lia.
      * unfold places. simpl. rewrite !length_app, H7. constructor.
    + exists coming', [], (back ++ held). split.
      * split; simpl; try done; [lia|by rewrite Htx1, Hcl, <- concat_app|by apply Forall_app_2|]. rewrite length_app. lia.
      * unfold places. simpl. rewrite length_app. constructor.
  - destruct (message_cons back c f c' Hba Hcl Hread) as (back' & -> & ->). inversion Hba; subst.
    exists coming, held, back'. split; [split; simpl in *; try done; lia|]. unfold places. simpl. constructor.
Qed.

(** ** Runs *)

(** Every step uses up some of this. *)
Definition weight (m : nat * nat * nat * nat * nat * nat) : nat :=
  let '(todo, coming, lost, held, back, got) := m in (4 * todo + 3 * coming + 2 * held + back)%nat.

Lemma moves_weight m m' : moves w m m' -> (weight m' < weight m)%nat.
Proof. destruct 1; simpl; lia. Qed.

(** How many replies can have been written when [lost] were lost and no batch was
    ever full: the one written on the occasion of the n-th loss held [w - n] at most. *)
Fixpoint budget (lost : nat) : nat :=
  match lost with O => 0 | S n => budget n + (w - S n) end.

Lemma budget_bound lost : (lost <= w)%nat -> (2 * (w + budget lost) <= w * (w + 1))%nat.
Proof.
  intros Hl. assert (2 * budget lost + lost * lost + lost = 2 * (lost * w))%nat as Hb.
  { induction lost as [|n IH]; [done|]. simpl budget. specialize (IH ltac:(lia)). lia. }
  destruct (Nat.le_exists_sub lost w Hl) as (k & Hk & _). rewrite Hk in *.
  assert (k <= k * k)%nat by (destruct k; [lia|apply Nat.le_mul_l; lia]). lia.
Qed.

Definition within_budget (m : nat * nat * nat * nat * nat * nat) : Prop :=
  let '(todo, coming, lost, held, back, got) := m in (back + got <= budget lost)%nat.

Lemma moves_budget todo coming lost held back got m' : (w <= 7)%nat -> (coming + lost + held + back <= w)%nat ->
  within_budget (todo, coming, lost, held, back, got) -> moves w (todo, coming, lost, held, back, got) m' -> within_budget m'.
Proof. intros Hw Hwin Hb Hm. inversion Hm; subst; simpl in *; lia. Qed.

Lemma pipe_run n p0 p coming held back : nsteps pipe_step n p0 p -> pipe_inv p0 coming held back ->
  exists coming' held' back', pipe_inv p coming' held' back'
  /\ (n + weight (places p coming' held' back') <= weight (places p0 coming held back))%nat
  /\ ((w <= 7)%nat -> within_budget (places p0 coming held back) -> within_budget (places p coming' held' back')).
Proof.
  intros Hrun. revert coming held back. induction Hrun as [p|n p0 p1 p Hst Hrun IH]; intros coming held back Hi.
  { exists coming, held, back. split; [done|]. split; [lia|done]. }
  pose proof (pipe_step_inv _ _ _ _ _ Hi Hst) as (c1 & h1 & b1 & Hi1 & Hm).
  destruct (IH _ _ _ Hi1) as (c2 & h2 & b2 & Hi2 & Hwt & Hbud). exists c2, h2, b2.
  split; [done|]. split; [apply moves_weight in Hm; lia|]. intros H7 Hb. apply Hbud; [done|].
  eapply moves_budget; [done| |exact Hb|exact Hm]. destruct Hi. lia.
Qed.

(** A connection on which nothing moves. *)
Lemma stuck_places p coming held back : pipe_inv p coming held back -> nf pipe_step p ->
  coming = [] /\ back = [] /\ (pp_todo p = [] \/ (w <= pp_refused p + length held)%nat).
Proof.
  intros [Ht Hrx Hco Htx Hroom Hb Hh Hmax Hcnt Hcl Hba Hs Hw] Hnf.
  destruct p as [todo sent s b usb c got ref]; simpl in *.
  destruct Hco as [|fr coming Hfr Hco].
  2: { exfalso. apply Hnf. destruct fr as [h cmd pad data| | |]; [|by destruct Hfr as (_ & _ & [])..].
       destruct (submit_urb id cmd data usb) as [r usb1] eqn:Es.
       destruct (serve_cases (0, 0) h cmd pad data coming s b usb held r usb1) as (s' & b' & usb' & Hit & _); [done..|].
       eexists. eapply pipe_serve; [exact Hfr|exact Hrx|exact Es|exact Hit]. }
  destruct Hba as [|r back (fr & Hfr & ->) Hba].
  2: { exfalso. apply Hnf. eexists. eapply (pipe_receive _ _ _ _ _ _ _ _ (frame_bytes fr) (concat back)).
       rewrite Hcl. exact (read_message_frame fr (concat back) (peer_sends []) Hfr). }
  split; [done|]. split; [done|]. destruct todo as [|fr todo]; [by left|]. right. simpl in Hs.
  destruct (Nat.lt_ge_cases (ref + length held) w) as [Hlt|]; [|done].
  exfalso. apply Hnf. eexists. apply pipe_send. lia.
Qed.

(** ** Theorems *)

(** C15: Every run ends, and how.  A client that sends any commands with a window
    of [w] has at most four steps for each of them.  When nothing moves any more,
    the replies to all commands that were sent have been received, but those the
    batcher refused (counted where it did) and those that wait in the batch, of which
    there are at most seven; and commands are left unsent only when these fill the
    window.  So with a window of 8 or more a connection on which the batcher refuses
    no reply sends all of its commands. *)
Theorem window_runs_end todo usb n p :
  Forall command_ok todo -> nsteps pipe_step n (pipe_start todo usb) p ->
  (n <= 4 * length todo)%nat
  /\ (nf pipe_step p ->
        (pp_got p + pp_refused p + count (pp_batcher p) = pp_sent p)%nat /\ (count (pp_batcher p) <= 7)%nat
        /\ (pp_todo p = [] \/ (pp_refused p + count (pp_batcher p) = w)%nat)
        /\ ((8 <= w)%nat -> pp_refused p = 0%nat -> pp_todo p = [])).
Proof.
  intros Hok Hrun. destruct (pipe_run _ _ _ _ _ _ Hrun (pipe_start_inv todo usb Hok))
    as (coming & held & back & Hi & Hn & _). split.
  - unfold places in Hn. simpl in Hn. lia.
  - intros Hnf. destruct (stuck_places _ _ _ _ Hi Hnf) as (-> & -> & Hend).
    destruct Hi as [Ht _ _ _ _ Hb _ _ Hc _ _ Hs Hw]. rewrite (holds_count _ _ Hb). simpl in Hs.
    split; [lia|]. split; [lia|]. split; [destruct Hend as [|]; [by left|right; lia]|]. intros H8 H0. destruct Hend as [|]; [done|lia].
Qed.

(** C16: A small window stalls the connection. A client that keeps at most [w] <= 7
    commands unanswered, for instance one that waits for each answer before it goes
    on, gets to send at most [w (w + 1) / 2] commands in all, whatever they are,
    whatever the device answers and however the clock runs: the batch is never full,
    nothing but the next command empties it, and the reply to the command that
    does is lost. *)
Theorem small_window_stalls todo usb p :
  (w <= 7)%nat -> Forall command_ok todo -> rtc pipe_step (pipe_start todo usb) p -> (2 * pp_sent p <= w * (w + 1))%nat.
Proof.
  intros H7 Hok Hrun. apply rtc_nsteps in Hrun as [n Hrun].
  destruct (pipe_run _ _ _ _ _ _ Hrun (pipe_start_inv todo usb Hok)) as (coming & held & back & Hi & _ & Hbud).
  specialize (Hbud H7 ltac:(simpl; lia)). destruct Hi as [_ _ _ _ _ _ _ _ _ _ _ Hs Hw]. simpl in Hbud.
  pose proof (budget_bound (pp_refused p) ltac:(lia)). lia.
Qed.
End Pipeline.

(** ** A client that waits for each answer *)

Lemma session_frames_ok : Forall command_ok session_frames.
Proof. repeat constructor; vm_compute; congruence. Qed.

(** It sends the first of its two commands, which is executed; no reply is written,
    and nothing moves any more. *)
Lemma waiting_run : exists p,
  nsteps (pipe_step (H := toy_ring) (B := Wheel) 1 "1-1" "10.0.0.2:40000") 2 (pipe_start session_frames claimed_wheel) p
  /\ pp_sent p = 1%nat /\ length (pp_todo p) = 1%nat /\ pp_client p = [] /\ rx (pp_stream p) = [] /\ pp_got p = 0%nat.
Proof.
  assert (Hok := session_frames_ok). unfold session_frames in *. inversion Hok as [|fr frs Hfr _]; subst.
  destruct (submit_urb (B := Wheel) "1-1" (ud_cmd (sample_done 1 0)) [] claimed_wheel) as [r usb1] eqn:Es.
  destruct (serve_cases (H := toy_ring) (B := Wheel) "1-1" "10.0.0.2:40000" (0, 0) _ _ _ _ [] (peer_sends (frame_bytes
              (FCmd (header_new USBIP_CMD_SUBMIT) (ud_cmd (sample_done 1 0)) (zeros 4) []))) batcher_new claimed_wheel [] r usb1 Hfr)
    as (s' & b' & usb' & Hit & Hrx & _ & _ & _ & Hcase);
    [done|done|simpl; by rewrite app_nil_r|exact Es|apply holds_new|done|done|simpl; lia|].
  eexists. split.
  - eapply nsteps_l; [apply pipe_send; simpl; lia|]. eapply nsteps_l; [|apply nsteps_O].
    eapply (pipe_serve (H := toy_ring)); [exact Hfr| |exact Es|exact Hit]. simpl. by rewrite app_nil_r.
  - simpl. split_and!; [done|done| |done|done]. destruct (accepts _ _ _ _); [destruct Hcase as [(-> & _)|(_ & _ & H7)]; done|].
    by destruct Hcase as (-> & _).
Qed.

Lemma waiting_stuck p : pp_sent p = 1%nat -> pp_client p = [] -> rx (pp_stream p) = [] -> pp_got p = 0%nat ->
  nf (pipe_step (H := toy_ring) (B := Wheel) 1 "1-1" "10.0.0.2:40000") p.
Proof.
  intros Hs Hc Hrx Hg [p' Hst].
  destruct Hst as [|clock h cmd pad data rest r usb1 todo sent s b usb c got ref s' b' usb' [Hw _] Hin _ _|? ? ? ? ? ? ? ? ? ? Hread];
    cbn [pp_sent pp_client pp_stream pp_got] in *.
  - lia.
  - apply frame_bytes_length in Hw. rewrite Hrx in Hin. apply (f_equal length) in Hin. rewrite length_app in Hin.
    simpl (length []) in Hin. lia.
  - subst. by eapply message_cons in Hread as (? & ? & _); [|apply Forall_nil_2|done].
Qed.

Lemma window_runs_end_witness : exists p,
  nsteps (pipe_step (H := toy_ring) (B := Wheel) 1 "1-1" "10.0.0.2:40000") 2 (pipe_start session_frames claimed_wheel) p
  /\ (2 <= 4 * length session_frames)%nat /\ nf (pipe_step (H := toy_ring) (B := Wheel) 1 "1-1" "10.0.0.2:40000") p
  /\ length (pp_todo p) = 1%nat /\ (0 + pp_refused p + count (pp_batcher p) = 1)%nat.
Proof.
  destruct waiting_run as (p & Hrun & Hs & Ht & Hc & Hrx & Hg). exists p. split; [exact Hrun|].
  destruct (window_runs_end (H := toy_ring) (B := Wheel) 1 "1-1" "10.0.0.2:40000" session_frames claimed_wheel 2 p session_frames_ok Hrun)
    as [Hn Hend]. assert (Hnf := waiting_stuck p Hs Hc Hrx Hg). destruct (Hend Hnf) as (Hsum & _). rewrite Hg, Hs in Hsum.
  split; [exact Hn|]. split; [exact Hnf|]. split; [exact Ht|exact Hsum].
Defined.

Lemma small_window_stalls_witness : exists p,
  rtc (pipe_step (H := toy_ring) (B := Wheel) 1 "1-1" "10.0.0.2:40000") (pipe_start session_frames claimed_wheel) p
  /\ pp_sent p = 1%nat /\ (2 * pp_sent p <= 1 * (1 + 1))%nat.
Proof.
  destruct waiting_run as (p & Hrun & Hs & _). assert (Hr := rtc_nsteps_2 _ _ _ Hrun). exists p. split; [exact Hr|]. split; [exact Hs|].
  apply (small_window_stalls (H := toy_ring) (B := Wheel) 1 "1-1" "10.0.0.2:40000" session_frames claimed_wheel);
    [lia|exact session_frames_ok|exact Hr].
Defined.
