(* ===== verification/Wiring.v ===== *)
(** * Putting the server together (server/usbip-server/src/server.rs)

    The construction of the server, the state it hands to the HTTP interface, the
    importers behind [POST /api/connect], and the accept loop.  The theorems are
    about components that meet here: the interface over the importer, the
    advertisement over the share policy, the persisted configuration over a restart;
    Interface.v has the interface over the export table of the connections. *)

From S2P Require Import Prelude RustStd Errors Text NetAddr Proto Urb Stream Wire Crypto CryptoStream Bandwidth.
From S2P Require Import UsbBackend UsbManager Batcher Server Api Discovery Connections Vhci Client.

(** ** The importers *)

Section Importer.
Context {V : Type} `{!VhciBackend V}.

(** [RealImporter]: the client, the handles by bus id, the tasks [abort] has
    spawned and not run yet, and the tasks that were aborted. *)
Record RealImporter := {
  ri_client : Client (V := V);
  ri_handles : gmap string nat;
  ri_spawned : list string;
  ri_aborted : list nat
}.

Definition real_importer_new (client : UsbIpResult (Client (V := V))) : UsbIpResult RealImporter :=
  match client with
  | Ok c => Ok {| ri_client := c; ri_handles := ∅; ri_spawned := []; ri_aborted := [] |}
  | Err k => Err k
  end.

(** What the environment decides: whether the caller runs in an asynchronous
    context, whether a runtime can be built, and what a connection attempt meets. *)
Record ImportEnv := {
  ie_in_async : bool;
  ie_runtime : result IoError unit;
  ie_dial : SocketAddr -> Dial;
  ie_overflow_checks : bool;
  ie_chunks : nat -> nat
}.

(** [RealImporter::import]: [block_on] panics in an asynchronous context. *)
Definition real_import (env : ImportEnv) (host : string) (port : Z) (busid : string) (i : RealImporter)
    : outcome (UsbIpResult UsbIpDeviceEntry * RealImporter) :=
  match parse_socket_addr (host +:+ ":" +:+ pretty port) with
  | None => Returns (Err (InvalidMessage ("bad host:port: " +:+ addr_parse_error)), i)
  | Some addr =>
      match ie_runtime env with
      | Err e => Returns (Err (Io {| io_kind := IoOther; io_text := "tokio rt: " +:+ io_text e |}), i)
      | Ok _ =>
          if ie_in_async env then Panics
          else
            let! (r, c) := import_device_once (ie_overflow_checks env) (ie_chunks env) (ie_dial env addr) busid (ri_client i) in
            let i := {| ri_client := c; ri_handles := ri_handles i; ri_spawned := ri_spawned i; ri_aborted := ri_aborted i |} in
            Returns (match r with Ok d => Ok (im_device_entry d) | Err k => Err k end, i)
      end
  end.

(** [RealImporter::abort] spawns a task when there is a runtime, ... *)
Definition real_abort (env : ImportEnv) (busid : string) (i : RealImporter) : RealImporter :=
  if ie_in_async env
  then {| ri_client := ri_client i; ri_handles := ri_handles i; ri_spawned := ri_spawned i ++ [busid]; ri_aborted := ri_aborted i |}
  else i.

(** ... and this is the task. *)
Definition abort_task (busid : string) (i : RealImporter) : RealImporter :=
  match ri_handles i !! busid with
  | Some task => {| ri_client := ri_client i; ri_handles := delete busid (ri_handles i);
                    ri_spawned := ri_spawned i; ri_aborted := ri_aborted i ++ [task] |}
  | None => i
  end.

(** [RealImporter::record]. *)
Definition record_handle (busid : string) (task : nat) (i : RealImporter) : RealImporter :=
  {| ri_client := ri_client i; ri_handles := <[busid := task]> (ri_handles i);
     ri_spawned := ri_spawned i; ri_aborted := ri_aborted i |}.

(** [build_remote_importer]: the real importer, or the stub. *)
Inductive Importer := Real (i : RealImporter) | UnsupportedImporterFallback.

Definition build_remote_importer (linux : bool) (client : UsbIpResult (Client (V := V))) : Importer :=
  if linux then match real_importer_new client with Ok i => Real i | Err _ => UnsupportedImporterFallback end
  else UnsupportedImporterFallback.

Definition unsupported : ErrorKind := NotSupported "remote import requires a host with VHCI driver (Linux)".

Definition platform_importer (env : ImportEnv) : RemoteImporter Importer := {|
  import host port busid i :=
    match i with
    | Real r => let! (x, r) := real_import env host port busid r in Returns (x, Real r)
    | UnsupportedImporterFallback => Returns (Err unsupported, UnsupportedImporterFallback)
    end;
  abort busid i :=
    match i with
    | Real r => Real (real_abort env busid r)
    | UnsupportedImporterFallback => UnsupportedImporterFallback
    end
|}.
End Importer.

(** ** The server *)

(** The browser of [app_state]: the real one, or one that finds nothing. *)
Inductive Browser (D : Type) := RealBrowser (d : D) | NoopBrowser.
Arguments RealBrowser {D} d.
Arguments NoopBrowser {D}.

(** When a browse starts and what its receiver delivers. *)
Record BrowseEnv := {
  be_start : Z;
  be_script : Script;
  be_into_values : gmap string DiscoveredServer -> list DiscoveredServer
}.

Definition app_browser {D} `{!MdnsSd D} (env : BrowseEnv) : MdnsBrowser (Browser D) := {|
  browse timeout b :=
    match b with
    | RealBrowser d =>
        let! (l, d) := server_browse (be_into_values env) (be_start env) timeout (be_script env) d in
        Returns (l, RealBrowser d)
    | NoopBrowser => Returns ([], NoopBrowser)
    end
|}.

(** [impl DeviceLister for UsbDeviceManager]. *)
#[export] Instance manager_lister {B} `{!UsbBackend B} : DeviceLister (UsbDeviceManager (B := B)) :=
  {| lister_devices := list_devices |}.

Section Server_object.
Context {B D V F : Type} `{!UsbBackend B} `{!MdnsSd D} `{!VhciBackend V} `{!HostFs F} `{!Toml}.
Context (var_os : string -> option string).

Record Server := {
  sv_usb : UsbDeviceManager (B := B);
  sv_exports : Exports;
  sv_mdns : option (MdnsAdvertiser (D := D));
  sv_config : ServerConfig
}.

Definition server_of (usb : UsbDeviceManager (B := B)) (daemon : result string D) (hostname : string)
    (config : ServerConfig) : Server :=
  let devices := list_exportable_devices (sc_allowed_vid_pid config) usb in
  {| sv_usb := usb; sv_exports := ∅;
     sv_mdns := result_ok (advertiser_new daemon hostname (sc_port config) devices); sv_config := config |}.

(** [Server::new], with the result of [UsbDeviceManager::new]. *)
Definition server_new (usb : UsbIpResult (UsbDeviceManager (B := B))) (daemon : result string D) (hostname : string)
    (config : ServerConfig) : UsbIpResult Server :=
  let? usb := usb in Ok (server_of usb daemon hostname config).

(** [Server::with_backend]. *)
Definition server_with_backend (backend : B) (daemon : result string D) (hostname : string)
    (config : ServerConfig) : UsbIpResult Server :=
  Ok (server_of (with_backend backend) daemon hostname config).

(** [Server::exportable_devices]. *)
Definition exportable_devices (sv : Server) : list UsbIpDeviceEntry := list_devices (sv_usb sv).

(** The configuration of [app_state]: the file, with the command line over it. *)
Definition app_config (sv : Server) (api_port : Z) (loaded : ApiConfig) : ApiConfig :=
  set_encryption_enabled (sc_encryption_enabled (sv_config sv))
    (set_api_port api_port (set_port (sc_port (sv_config sv)) (set_bind_address (sc_bind_address (sv_config sv)) loaded))).

(** [Server::app_state]: [daemon] is what [ServiceDaemon::new] gave the browser. *)
Definition app_state (sv : Server) (api_port now : Z) (daemon : result string D) (linux : bool)
    (client : UsbIpResult (Client (V := V))) (id name : string) (disk : F)
    : AppState (L := UsbDeviceManager (B := B)) (M := Browser D) (I := Importer (V := V)) (F := F) :=
  {| st_start_time := now;
     st_exports := sv_exports sv;
     st_device_lister := sv_usb sv;
     st_mdns_browser := match browser_new daemon with Ok d => RealBrowser d | Err _ => NoopBrowser end;
     st_remote_importer := build_remote_importer linux client;
     st_config := app_config sv api_port (load_config var_os id name disk);
     st_disk := disk |}.

(** *** Running *)

(** The accept loop: the peers a task was spawned for, and the error it ended
    with, if it did. *)
Fixpoint accept_loop (events : list (result IoError string)) : list string * option ErrorKind :=
  match events with
  | [] => ([], None)
  | Ok peer :: events => let '(peers, r) := accept_loop events in (peer :: peers, r)
  | Err e :: _ => ([], Some (Io e))
  end.

(** What a start meets: the result of binding an address, and the platform. *)
Record RunEnv := {
  re_bind : string -> result IoError unit;
  re_platform : string;
  re_local_ip : option IpAddr
}.

Definition set_mdns (a : MdnsAdvertiser (D := D)) (sv : Server) : Server :=
  {| sv_usb := sv_usb sv; sv_exports := sv_exports sv; sv_mdns := Some a; sv_config := sv_config sv |}.

(** Binding and advertising; [api] is the address of the interface, if it is run.
    [re_bind] answers per address: that an address is taken by the listener itself,
    when both ports are the same, is not seen. *)
Definition start_listening (env : RunEnv) (api : option string) (sv : Server) : UsbIpResult unit * Server :=
  let addr := sc_bind_address (sv_config sv) +:+ ":" +:+ pretty (sc_port (sv_config sv)) in
  match re_bind env addr with
  | Err e => (Err (Io e), sv)
  | Ok _ =>
      let '(r, sv) := match sv_mdns sv with
                      | Some a => let '(r, a) := advertiser_start (re_platform env) (re_local_ip env) a in (r, set_mdns a sv)
                      | None => (Ok tt, sv)
                      end in
      match r, api with
      | Err k, _ => (Err k, sv)
      | Ok _, None => (Ok tt, sv)
      | Ok _, Some api_addr => (map_err Io (re_bind env api_addr), sv)
      end
  end.

(** [Server::run] and [Server::run_with_api]: the peers served and the result
    ([None] while it runs). *)
Definition server_run_at (env : RunEnv) (api : option string) (events : list (result IoError string)) (sv : Server)
    : list string * option (UsbIpResult unit) * Server :=
  match start_listening env api sv with
  | (Err k, sv) => ([], Some (Err k), sv)
  | (Ok _, sv) => let '(peers, r) := accept_loop events in (peers, option_map Err r, sv)
  end.

Definition server_run (env : RunEnv) := server_run_at env None.

Definition run_with_api (env : RunEnv) (api_port : Z) (events : list (result IoError string)) (sv : Server) :=
  server_run_at env (Some (sc_bind_address (sv_config sv) +:+ ":" +:+ pretty api_port)) events sv.

End Server_object.

(** ** Theorems *)

(** *** The importers *)

Section Importer_facts.
Context {L M V F : Type} `{!DeviceLister L} `{!MdnsBrowser M} `{!VhciBackend V}.
Context (env : ImportEnv).
#[local] Existing Instance platform_importer.

Definition importer_usable (host : string) (port : Z) (i : Importer (V := V)) : Prop :=
  match i with
  | Real _ => is_Some (parse_socket_addr (host +:+ ":" +:+ pretty port)) /\ ie_runtime env = Ok tt
  | UnsupportedImporterFallback => False
  end.

(** The interface cannot import: in the asynchronous context of a handler
    [POST /api/connect] never answers 200. On a host without the importer, with an
    address that is not numeric or without a runtime it answers 500 and leaves the
    export table and the importer alone; otherwise the handler panics. *)
Theorem connect_never_imports uuid req (st : AppState (L := L) (M := M) (I := Importer (V := V)) (F := F)) :
  ie_in_async env = true ->
  (importer_usable (cr_host req) (cr_port req) (st_remote_importer st)
   /\ post_connect (RemoteImporter0 := platform_importer env) uuid req st = Panics)
  \/ (~ importer_usable (cr_host req) (cr_port req) (st_remote_importer st)
      /\ exists k, post_connect (RemoteImporter0 := platform_importer env) uuid req st
                   = Returns (error_response INTERNAL_SERVER_ERROR (from_kind uuid k),
                              with_importer (st_remote_importer st) st)).
Proof.
  intros Ha. unfold post_connect, importer_usable; simpl. destruct (st_remote_importer st) as [i|]; simpl.
  - unfold real_import. destruct (parse_socket_addr _) as [a|].
    + destruct (ie_runtime env) as [[]|e].
      * left. rewrite Ha. done.
      * right. split; [by intros []|]. by eexists.
    + right. split; [by intros [[] _]|]. by eexists.
  - right. split; [tauto|]. by eexists.
Qed.

(** What happens to a real importer in the server: the trait methods and the tasks
    they spawn; nothing calls [record]. *)
Inductive importer_step : RealImporter (V := V) -> RealImporter (V := V) -> Prop :=
| step_import host port busid i r i' : real_import env host port busid i = Returns (r, i') -> importer_step i i'
| step_abort busid i : importer_step i (real_abort env busid i)
| step_abort_task busid i : importer_step i (abort_task busid i).

(** No task is ever aborted: the table of handles stays empty. *)
Lemma abort_never_aborts client i i' :
  real_importer_new client = Ok i -> rtc importer_step i i' -> ri_handles i' = ∅ /\ ri_aborted i' = [].
Proof.
  intros Hn Hs. assert (H0 : ri_handles i = ∅ /\ ri_aborted i = []).
  { destruct client; [|done]. by injection Hn as <-. }
  clear Hn client. induction Hs as [|x y z Hxy _ IH]; [done|]. apply IH. clear IH. destruct H0 as [Hh Ha].
  destruct Hxy as [host port busid x r y Hi|busid x|busid x].
  - revert Hi. unfold real_import. destruct (parse_socket_addr _); [|intros [= <- <-]; done].
    destruct (ie_runtime env); [|intros [= <- <-]; done]. destruct (ie_in_async env); [done|].
    destruct (import_device_once _ _ _ _ _) as [[r' c]| |]; [|done..]. intros [= <- <-]. done.
  - unfold real_abort. by destruct (ie_in_async env).
  - unfold abort_task. by rewrite Hh, lookup_empty.
Qed.
End Importer_facts.

(** *** The configuration over a restart *)

Section Restart.
Context {B D V F : Type} `{!UsbBackend B} `{!MdnsSd D} `{!VhciBackend V} `{!HostFs F} `{!HostFsLaws F} `{!Toml} `{!TomlLaws}.
Context {L M I : Type} `{!DeviceLister L} `{!MdnsBrowser M} `{!RemoteImporter I}.
Context (var_os : string -> option string).

(** After an update was answered with 200 a restarted server keeps the identity
    of the one that answered, whatever id and host name the new process would draw;
    its addresses, ports and encryption are those of its command line, not those
    that were stored. *)
Theorem restart_keeps_identity uuid req (st st' : AppState (L := L) (M := M) (I := I) (F := F)) r
    (sv : Server (B := B) (D := D)) api_port now daemon linux (client : UsbIpResult (Client (V := V))) id name :
  update_wf req -> put_config var_os uuid req st = (r, st') -> rs_code r = OK ->
  let c := st_config (app_state var_os sv api_port now daemon linux client id name (st_disk st')) in
  same_identity (st_config st) c
  /\ ap_bind_address c = sc_bind_address (sv_config sv) /\ ap_port c = sc_port (sv_config sv)
  /\ ap_api_port c = api_port /\ ap_encryption_enabled c = sc_encryption_enabled (sv_config sv).
Proof.
  intros Hr Hput Hok. cbv zeta. split; [|done].
  unfold put_config in Hput. destruct (put_config_prepare var_os uuid req st) as [[r1|c] st1] eqn:E.
  - injection Hput as <- <-. apply prepare_spec in E as (_ & _ & k & _ & [[Hc _]|[Hc _]]);
      rewrite Hc in Hok; discriminate.
  - injection Hput as <- <-. apply prepare_spec in E as (_ & _ & Hu & Hl).
    apply updated_config_Ok in Hu as [Hi _]; [|done]. unfold app_state; cbn [st_config st_disk with_api_config].
    rewrite Hl. exact Hi.
Qed.

(** Until an update has written the file, a server has the identity its process
    drew. *)
Lemma identity_drawn_anew (sv : Server (B := B) (D := D)) api_port now daemon linux
    (client : UsbIpResult (Client (V := V))) id name (disk : F) :
  fs_read_to_string (config_path var_os) disk = None ->
  ap_server_id (st_config (app_state var_os sv api_port now daemon linux client id name disk)) = id.
Proof. intros Hd. unfold app_state, load_config; simpl. by rewrite Hd. Qed.
End Restart.

(** *** The advertisement and the share policy *)

Section Advertised.
Context {B D : Type} `{!UsbBackend B} `{!MdnsSd D}.

(** What becomes of a property on its way through the TXT record, whose strings have
    at most 255 bytes: one that fits arrives as it is. *)
Context (deliver : string * string -> option (string * string)).
Hypothesis deliver_short : forall k v, (String.length (k +:+ "=" +:+ v) <= 255)%nat -> deliver (k, v) = Some (k, v).

(** What the client of another machine looks up in the properties that arrive. *)
Definition received_devices (properties : list (string * string)) : option string :=
  snd <$> List.find (fun p => bool_decide (p.1 = "devices")) (omap deliver properties).

Lemma find_delivered v ps :
  Forall (fun p => p.1 <> "devices" /\ (String.length (p.1 +:+ "=" +:+ p.2) <= 255)%nat) ps ->
  (String.length ("devices=" +:+ v) <= 255)%nat ->
  received_devices ps = None /\ received_devices (ps ++ [("devices", v)]) = Some v.
Proof.
  intros Hps Hv. unfold received_devices. induction Hps as [|[k' v'] ps [Hk Hl] _ IH]; simpl in *.
  - by rewrite deliver_short.
  - rewrite (deliver_short _ _ Hl). simpl. by rewrite bool_decide_eq_false_2.
Qed.

(** C22: The advertisement tells exactly the devices of the allow list (all of them
    when there is none), in the order of the bus: when their description fits into a
    TXT string of 255 bytes, the name of the platform is no longer than 200 bytes, ids
    are u16 and bus ids have no separator in them, a client that receives the properties reads back those devices, and receives no
    [devices] key when there is none. *)
Theorem advertised_exactly_allowed (usb : UsbDeviceManager (B := B)) (d : D) hostname config platform :
  Forall txt_ok (list_devices usb) -> (String.length platform <= 200)%nat ->
  let sv := server_of usb (Ok d) hostname config in
  let allowed := List.filter (fun e => bool_decide (sc_allowed_vid_pid config = [])
                                       || allowed_device (sc_allowed_vid_pid config) e) (list_devices usb) in
  (String.length ("devices=" +:+ encode_devices_txt allowed) <= 255)%nat ->
  exists a, sv_mdns sv = Some a
    /\ match received_devices (advertised_properties platform (ad_devices a)) with
       | Some txt => parse_devices_kv txt = Some (map remote_device allowed) /\ allowed <> []
       | None => allowed = []
       end.
Proof.
  intros Hok Hplat. cbv zeta. intros Hlen. eexists. split; [reflexivity|]. cbn [ad_devices].
  assert (Hs : list_exportable_devices (sc_allowed_vid_pid config) usb
    = List.filter (fun e => bool_decide (sc_allowed_vid_pid config = [])
                            || allowed_device (sc_allowed_vid_pid config) e) (list_devices usb)).
  { unfold list_exportable_devices. destruct (sc_allowed_vid_pid config) as [|vp l]; [|done]. clear.
    induction (list_devices usb) as [|e es IH]; [done|]. simpl in IH |- *. by rewrite <- IH. }
  rewrite <- Hs in *. assert (Hf : Forall txt_ok (list_exportable_devices (sc_allowed_vid_pid config) usb)).
  { rewrite Hs. rewrite Forall_forall in Hok |- *. intros e He%list_elem_of_In. apply List.filter_In in He as [He _].
    apply Hok. by apply list_elem_of_In. }
  set (es := list_exportable_devices _ usb) in *. unfold advertised_properties.
  destruct (find_delivered (encode_devices_txt es) [("version", "1.1.1"); ("platform", platform)]) as [Hnone Hsome]; [|exact Hlen|].
  - assert (Hp : (String.length ("platform" +:+ "=" +:+ platform) <= 255)%nat) by (rewrite !string_length_app; simpl; lia).
    rewrite !Forall_cons, Forall_nil. split_and!; [done|simpl; lia|done|exact Hp|done].
  - destruct es as [|e es']; [by rewrite app_nil_r, Hnone|]. rewrite Hsome. split; [|done]. by apply devices_txt_roundtrip.
Qed.
End Advertised.

(** *** The accept loop *)

(** A task is spawned for every connection that is accepted, in order, until the
    first accept that fails, which ends the server with its error. *)
Lemma accept_loop_exact peers rest :
  accept_loop (map Ok peers ++ rest)
  = match rest with
    | Err e :: _ => (peers, Some (Io e))
    | _ => (peers ++ (accept_loop rest).1, (accept_loop rest).2)
    end.
Proof.
  induction peers as [|p peers IH]; simpl.
  - destruct rest as [|[p|e] rest]; [done| |done]. by destruct (accept_loop _).
  - rewrite IH. by destruct rest as [|[q|e] rest].
Qed.

(** ** Witnesses *)

Definition handler_env : ImportEnv :=
  {| ie_in_async := true; ie_runtime := Ok tt; ie_dial := fun _ => refused_dial; ie_overflow_checks := true;
     ie_chunks := fun _ => 1%nat |}.

Definition mock_client : Client (V := MockVhciBackend) :=
  {| cl_config := client_default; cl_vhci := mock_new; cl_connections := [] |}.

Definition api_state_with (i : Importer (V := MockVhciBackend))
    : AppState (L := unit) (M := unit) (I := Importer (V := MockVhciBackend)) (F := gmap string string) :=
  {| st_start_time := 0; st_exports := ∅; st_device_lister := tt; st_mdns_browser := tt;
     st_remote_importer := i; st_config := api_default "0190" "host"; st_disk := ∅ |}.

Definition connect_to (host : string) : ConnectRequest := {| cr_host := host; cr_port := 3240; cr_busid := "1-1" |}.

Lemma connect_never_imports_witness :
  let st := api_state_with (build_remote_importer true (Ok mock_client)) in
  post_connect (RemoteImporter0 := platform_importer handler_env) "u" (connect_to "10.0.0.7") st = Panics.
Proof.
  cbv zeta.
  destruct (connect_never_imports handler_env "u" (connect_to "10.0.0.7")
    (api_state_with (build_remote_importer true (Ok mock_client))) eq_refl) as [[_ H]|[H _]]; [exact H|].
  exfalso. apply H. vm_compute. split; [by eexists|reflexivity].
Defined.

Definition sample_server : Server (B := FakeBackend) (D := bool) :=
  server_of sample_manager (Ok true) "rig" default_config.

Lemma restart_keeps_identity_witness :
  exists r st', put_config toy_env "u" (port_request 4000) (toy_state ∅) = (r, st')
    /\ same_identity (st_config (toy_state ∅))
         (st_config (app_state toy_env sample_server 3241 0 (Err "down") true (Ok mock_client) "0191" "other" (st_disk st'))).
Proof.
  eexists _, _. split; [reflexivity|].
  refine (proj1 (restart_keeps_identity (B := FakeBackend) (D := bool) (V := MockVhciBackend) toy_env "u" (port_request 4000)
    (toy_state ∅) _ _ sample_server 3241 0 (Err "down") true (Ok mock_client) "0191" "other" _ eq_refl _)).
  - apply port_request_wf. lia.
  - vm_compute. reflexivity.
Defined.

(** A record that drops what does not fit. *)
Definition fitting (p : string * string) : option (string * string) :=
  if (String.length (p.1 +:+ "=" +:+ p.2) <=? 255)%nat then Some p else None.

Lemma fitting_short k v : (String.length (k +:+ "=" +:+ v) <= 255)%nat -> fitting (k, v) = Some (k, v).
Proof. intros Hl. unfold fitting. cbn [fst snd]. apply Nat.leb_le in Hl. by rewrite Hl. Qed.

Definition one_allowed : ServerConfig :=
  {| sc_bind_address := "0.0.0.0"; sc_port := 3240; sc_allowed_vid_pid := [(0x046d, 0xc261)];
     sc_require_confirmation := true; sc_encryption_enabled := false; sc_tcp_nodelay := true;
     sc_max_bandwidth := unlimited; sc_per_client_bandwidth := None |}.

Lemma advertised_exactly_allowed_witness :
  exists a txt, sv_mdns (server_of (with_backend {| fb_devices := toy_entries |}) (Ok true) "rig" one_allowed) = Some a
    /\ received_devices fitting (advertised_properties "linux" (ad_devices a)) = Some txt
    /\ parse_devices_kv txt = Some [remote_device (make_test_entry "1-1" 0x046d 0xc261)].
Proof.
  destruct (advertised_exactly_allowed fitting fitting_short
              (with_backend {| fb_devices := toy_entries |}) true "rig" one_allowed "linux") as (a & Ha & Hr).
  - unfold list_devices, toy_entries, txt_ok, is_u16; simpl. rewrite !Forall_cons, Forall_nil.
    repeat split; try (vm_compute; reflexivity); vm_compute; discriminate.
  - vm_compute. lia.
  - vm_compute. lia.
  - exists a. injection Ha as <-. destruct (received_devices _ _) as [txt|] eqn:E; [|vm_compute in Hr; discriminate Hr].
    exists txt. split; [reflexivity|]. split; [reflexivity|]. destruct Hr as [Hr _]. rewrite Hr. vm_compute. reflexivity.
Defined.
