(* ===== verification/Interface.v ===== *)
(** * The connections and the HTTP interface over one export table
    (server/usbip-server/src/server.rs, api.rs)

    The tasks of Connections.v and the handlers of Api.v share the export table and
    the device manager: here they run side by side, in any order.  A request is served
    in one step; the only two that change the table, [POST /api/connect] and
    [POST /api/disconnect], do so under its lock. *)

From S2P Require Import Prelude RustStd Errors Text NetAddr Proto Urb Stream Wire Crypto CryptoStream Bandwidth.
From S2P Require Import UsbBackend UsbManager Batcher Server Api Discovery Connections Vhci Client Wiring.

Section System.
Context {B M I F : Type} `{!UsbBackend B} `{!MdnsBrowser M} `{!RemoteImporter I} `{!HostFs F} `{!Toml}.
Context (var_os : string -> option string) (spec : string).
Abbreviation Rest := (AppState (L := UsbDeviceManager (B := B)) (M := M) (I := I) (F := F)).

(** The connections, and what the interface has besides the table and the devices. *)
Record System := { sy_world : World (B := B); sy_rest : Rest }.

(** The state of the interface: its table and its devices are those of the connections. *)
Definition api_view (s : System) : Rest :=
  let st := sy_rest s in
  {| st_start_time := st_start_time st; st_exports := wo_exports (sy_world s); st_device_lister := wo_usb (sy_world s);
     st_mdns_browser := st_mdns_browser st; st_remote_importer := st_remote_importer st;
     st_config := st_config st; st_disk := st_disk st |}.

Definition system_new (usb : UsbDeviceManager (B := B)) (rest : Rest) : System :=
  {| sy_world := world_new usb; sy_rest := rest |}.

Inductive system_event :=
| OnWire (e : world_event)
| OnApi (uuid : string) (r : Request).

Definition system_happens (e : system_event) (s : System) : option System :=
  match e with
  | OnWire e => w ← world_happens e (sy_world s); Some {| sy_world := w; sy_rest := sy_rest s |}
  | OnApi uuid r =>
      let st := served var_os spec uuid r (api_view s) in
      Some {| sy_world := {| wo_usb := wo_usb (sy_world s); wo_exports := st_exports st; wo_sessions := wo_sessions (sy_world s) |};
              sy_rest := st |}
  end.

Fixpoint system_run (es : list system_event) (s : System) : option System :=
  match es with
  | [] => Some s
  | e :: es => s' ← system_happens e s; system_run es s'
  end.

(** ** What the interface does to an entry of the table *)

(** A request that enters the bus id: a connect whose import yields it. *)
Definition enters (id : string) (e : system_event) (s : System) : bool :=
  match e with
  | OnApi _ (PostConnectR req) =>
      match import (cr_host req) (cr_port req) (cr_busid req) (st_remote_importer (sy_rest s)) with
      | Returns (Ok entry, _) => bool_decide (busid_str entry = id)
      | _ => false
      end
  | _ => false
  end.





(** ** Who holds a bus id *)










(** ** The device list *)



End System.

(** In the server as it is shipped no request enters anything: its handlers run in an
    asynchronous context, where the importer panics or fails. *)
Lemma shipped_never_enters {B M V F : Type} `{!UsbBackend B} `{!MdnsBrowser M} `{!VhciBackend V} `{!HostFs F} `{!Toml}
    env id e (s : System (B := B) (M := M) (I := Importer (V := V)) (F := F)) :
  ie_in_async env = true -> enters (RemoteImporter0 := platform_importer env) id e s = false.
Proof.
  intros Ha. destruct e as [e|uuid r]; [done|]. destruct r; try done. simpl.
  destruct (st_remote_importer (sy_rest s)) as [i|]; [|done]. unfold real_import.
  destruct (parse_socket_addr _); [|done]. destruct (ie_runtime env); [|done]. by rewrite Ha.
Qed.

(** ** Runs *)

Definition quiet_api : AppState (L := UsbDeviceManager (B := FakeBackend)) (M := unit) (I := unit) (F := gmap string string) :=
  {| st_start_time := 0; st_exports := ∅; st_device_lister := sample_manager; st_mdns_browser := tt;
     st_remote_importer := tt; st_config := api_default "0190" "host"; st_disk := ∅ |}.

Definition wire (es : list world_event) : list system_event := map OnWire es.
Definition asks (r : Request) : system_event := OnApi "u" r.



(** A [POST /api/disconnect] of a device in use takes its entry away while the
    connection goes on: the device is listed as available, and a second client imports
    it. *)
Lemma api_disconnect_breaks_exclusion :
  exists s s' l, system_run toy_env "" (wire rivals ++ [asks (PostDisconnectR {| dr_busid := "1-1" |})])
                   (system_new sample_manager quiet_api) = Some s
    /\ get_devices (api_view s) = json (DevicesBody l) /\ map dp_status l = ["available"]
    /\ system_run toy_env "" (wire (Accept "10.0.0.4:1" "1-1" :: handshake_events 2)) s = Some s'
    /\ (exists e1 e2, se_phase <$> wo_sessions (sy_world s') = [Serving e1; Finished; Serving e2]).
Proof.
  eexists _, _, _. split; [vm_compute; reflexivity|]. split; [reflexivity|]. split; [vm_compute; reflexivity|].
  split; [vm_compute; reflexivity|]. by repeat eexists.
Qed.
