(* ===== verification/ServerCli.v ===== *)
(** * The command line of the server (server/usbip-server/src/main.rs, metrics.rs)

    The value parsers of the options, the resolution of [--bind-iface], the metrics,
    and [main] from the parsed options to the running server.  What [clap] parses is given as
    the record of options; the interfaces of the host are what [getifaddrs]
    returns. *)

From Stdlib Require Import Ascii.
From S2P Require Import Prelude RustStd Errors Text NetAddr Proto Urb Stream Bandwidth UsbBackend UsbManager Server Discovery Wiring.

(** ** Option values *)

(** [ParseIntError::to_string] for an input [from_str_radix] refuses: a digit is
    checked before the overflow it would cause. *)
Fixpoint digits_error (radix max acc : Z) (s : string) : string :=
  match s with
  | EmptyString => "invalid digit found in string"
  | String a s =>
      match to_digit radix a with
      | None => "invalid digit found in string"
      | Some d =>
          let acc' := acc * radix + d in
          if max <? acc' then "number too large to fit in target type" else digits_error radix max acc' s
      end
  end.

Definition parse_int_error (radix max : Z) (s : string) : string :=
  match s with
  | EmptyString => "cannot parse integer from empty string"
  | String a rest => if decide (a = "+"%char) then digits_error radix max 0 rest else digits_error radix max 0 s
  end.

(** [u16::from_str_radix(s, 16).map_err(|e| e.to_string())]. *)
Definition parse_hex16 (s : string) : result string Z :=
  match from_str_radix 16 65535 s with
  | Some z => Ok z
  | None => Err (parse_int_error 16 65535 s)
  end.

Definition parse_vid_pid (s : string) : result string (Z * Z) :=
  match split_on ":"%char s with
  | [p0; p1] => let? vid := parse_hex16 p0 in let? pid := parse_hex16 p1 in Ok (vid, pid)
  | _ => Err "format: VID:PID (e.g., 046d:c261)"
  end.

Definition parse_fake_device (s : string) : result string (string * Z * Z) :=
  match split_on ":"%char s with
  | [busid; p1; p2] =>
      if negb (contains_char "-"%char busid) then Err "busid must be of the form BUSNUM-DEVNUM (e.g. 1-1)"
      else let? vid := parse_hex16 p1 in let? pid := parse_hex16 p2 in Ok (busid, vid, pid)
  | _ => Err "format: BUSID:VID:PID (e.g., 1-1:046d:c261)"
  end.

(** ** The address to bind *)

(** [resolve_bind_address]; it never fails. *)
Definition resolve_bind_address (bind : string) (iface : option string) (lookup : string -> option string)
    : UsbIpResult string :=
  match iface with
  | Some name => match lookup name with Some ip => Ok ip | None => Ok bind end
  | None => Ok bind
  end.

(** A node of the list of [getifaddrs]: the bytes of [ifa_name], and the address,
    if there is one. *)
Inductive SockAddr := AF_INET (a b c d : byte) | OtherFamily (family : Z).
Record IfAddrs := { ifa_name : list byte; ifa_addr : option SockAddr }.

Fixpoint walk_interfaces (name : string) (l : list IfAddrs) : option string :=
  match l with
  | [] => None
  | ifa :: l =>
      if bool_decide (default "" (from_utf8 (ifa_name ifa)) = name) then
        match ifa_addr ifa with
        | Some (AF_INET a b c d) => Some (ipv4_to_string (u8 a) (u8 b) (u8 c) (u8 d))
        | _ => walk_interfaces name l
        end
      else walk_interfaces name l
  end.

(** [interface_lookup::lookup] on Unix ([None]: [getifaddrs] failed), and elsewhere. *)
Definition interface_lookup (unix : bool) (getifaddrs : option (list IfAddrs)) (name : string) : option string :=
  if unix then match getifaddrs with Some l => walk_interfaces name l | None => None end else None.

(** [lookup_interface_ip]. *)
Definition lookup_interface_ip (unix : bool) (getifaddrs : option (list IfAddrs)) (name : string) : option string :=
  interface_lookup unix getifaddrs name.

(** ** The metrics *)

(** The default registry: a metric is in it from the first use of its static on. *)
Definition Registry : Type := gmap string Z.

Definition DEVICES_EXPORTED : string := "usbip_devices_exported".
Definition CLIENTS_CONNECTED : string := "usbip_clients_connected".
Definition URB_SUBMIT_TOTAL : string := "usbip_urb_submit_total".
Definition URB_BYTES_TOTAL : string := "usbip_urb_bytes_total".
Definition ENCRYPTION_ENABLED : string := "usbip_encryption_enabled".

(** [metric.set(v)]. *)
Definition metric_set (metric : string) (v : Z) (r : Registry) : Registry := <[metric := v]> r.

(** [metrics_handler]: the status, the content type and the body; [encode] is the text
    encoder on what [gather] returns. *)
Definition metrics_handler (encode : Registry -> result string (list byte)) (r : Registry) : Z * string * string :=
  match encode r with
  | Ok buffer => (200, "text/plain; charset=utf-8", default "" (from_utf8 buffer))
  | Err e => (500, "text/plain; charset=utf-8", "encoding error: " +:+ e)
  end.

(** ** [main] *)

Inductive Commands := List.

Record Cli := {
  command : option Commands;
  bind : string;
  bind_iface : option string;
  cli_port : Z;
  api_port : option Z;
  allow : list (Z * Z);
  no_confirm : bool;
  encrypt : bool;
  metrics_port : option Z;
  fake_devices : list (string * Z * Z)
}.

(** [Cli::default()]: the options when none is given. *)
Definition cli_default : Cli :=
  {| command := None; bind := "0.0.0.0"; bind_iface := None; cli_port := 3240; api_port := None; allow := [];
     no_confirm := false; encrypt := false; metrics_port := None; fake_devices := [] |}.

Definition cli_config (cli : Cli) (bind_address : string) : ServerConfig :=
  {| sc_bind_address := bind_address;
     sc_port := cli_port cli;
     sc_allowed_vid_pid := allow cli;
     sc_require_confirmation := negb (no_confirm cli);
     sc_encryption_enabled := encrypt cli;
     sc_tcp_nodelay := true;
     sc_max_bandwidth := unlimited;
     sc_per_client_bandwidth := None |}.

Definition list_line (dev : UsbIpDeviceEntry) : string :=
  "  " +:+ hex_pad 4 (vid dev) +:+ ":" +:+ hex_pad 4 (pid dev) +:+ "  " +:+ busid_str dev +:+ "  "
  +:+ path_str dev +:+ "  speed=" +:+ pretty (speed_val dev).

(** [Box<dyn UsbBackend>]: the backend of the platform or the fake one. *)
Inductive AnyBackend (B : Type) := Platform (b : B) | Fake (b : FakeBackend).
Arguments Platform {B} b.
Arguments Fake {B} b.

(** An operation of whichever backend is in the box. *)
Definition any_io {B A} (on_platform : io B A) (on_fake : io FakeBackend A) : io (AnyBackend B) A := fun b =>
  match b with
  | Platform b => let '(r, b) := on_platform b in (r, Platform b)
  | Fake b => let '(r, b) := on_fake b in (r, Fake b)
  end.

#[export] Instance any_backend {B} `{!UsbBackend B} : UsbBackend (AnyBackend B) := {
  be_list_devices b := match b with Platform b => be_list_devices b | Fake b => be_list_devices b end;
  be_get_device_entry id b := match b with Platform b => be_get_device_entry id b | Fake b => be_get_device_entry id b end;
  be_claim_device id := any_io (be_claim_device id) (be_claim_device id);
  be_get_descriptor_tree id := any_io (be_get_descriptor_tree id) (be_get_descriptor_tree id);
  be_execute_urb id cmd data := any_io (be_execute_urb id cmd data) (be_execute_urb id cmd data);
  be_release_device id := any_io (be_release_device id) (be_release_device id)
}.

Section Main.
Context {B D : Type} `{!UsbBackend B} `{!MdnsSd D}.

(** What a run comes to: the registry of the metrics, the address they are served on, what was printed, the peers that were served, and the result ([None]
    while the server runs). *)
Record Run := {
  ru_registry : Registry;
  ru_metrics : option string;
  ru_stdout : list string;
  ru_peers : list string;
  ru_result : option (UsbIpResult unit)
}.

Definition failed (registry : Registry) (metrics : option string) (k : ErrorKind) : Run :=
  {| ru_registry := registry; ru_metrics := metrics; ru_stdout := []; ru_peers := []; ru_result := Some (Err k) |}.

(** The server of the options; [usb] is the result of [UsbDeviceManager::new]. *)
Definition cli_server (cli : Cli) (usb : UsbIpResult (UsbDeviceManager (B := AnyBackend B))) (daemon : result string D)
    (hostname : string) (config : ServerConfig) : UsbIpResult (Server (B := AnyBackend B) (D := D)) :=
  match fake_devices cli with
  | [] => server_new usb daemon hostname config
  | devices =>
      let entries := map (fun '(busid, vid, pid) => make_test_entry busid vid pid) devices in
      server_with_backend (Fake {| fb_devices := entries |}) daemon hostname config
  end.

Definition main_with (cli : Cli) (env : RunEnv) (events : list (result IoError string)) (bind_address : string)
    (server : Server (B := AnyBackend B) (D := D)) : Run :=
  let registry := if encrypt cli then metric_set ENCRYPTION_ENABLED 1 ∅ else ∅ in
  let run metrics :=
    match command cli with
    | Some List =>
        {| ru_registry := registry; ru_metrics := metrics;
           ru_stdout := "Exportable USB devices:" :: map list_line (exportable_devices server);
           ru_peers := []; ru_result := Some (Ok tt) |}
    | None =>
        let '(peers, r, _) := match api_port cli with
                              | Some p => run_with_api env p events server
                              | None => server_run env events server
                              end in
        {| ru_registry := registry; ru_metrics := metrics; ru_stdout := []; ru_peers := peers; ru_result := r |}
    end in
  match metrics_port cli with
  | Some p =>
      let metrics_addr := bind_address +:+ ":" +:+ pretty p in
      match re_bind env metrics_addr with
      | Err e => failed registry None (Io e)
      | Ok _ => run (Some metrics_addr)
      end
  | None => run None
  end.

Definition server_main (cli : Cli) (unix : bool) (getifaddrs : option (list IfAddrs))
    (usb : UsbIpResult (UsbDeviceManager (B := AnyBackend B))) (daemon : result string D) (hostname : string)
    (env : RunEnv) (events : list (result IoError string)) : Run :=
  match resolve_bind_address (bind cli) (bind_iface cli) (lookup_interface_ip unix getifaddrs) with
  | Err k => failed ∅ None k
  | Ok bind_address =>
      match cli_server cli usb daemon hostname (cli_config cli bind_address) with
      | Err k => failed ∅ None k
      | Ok server => main_with cli env events bind_address server
      end
  end.
End Main.

(** ** Theorems *)

Lemma parse_hex16_pad z : is_u16 z -> parse_hex16 (hex_pad 4 z) = Ok z.
Proof. intros Hz. unfold parse_hex16. unfold is_u16 in Hz. by rewrite parse_hex_pad by (simpl; lia). Qed.

Lemma parse_hex16_range s z : parse_hex16 s = Ok z -> is_u16 z.
Proof.
  unfold parse_hex16. destruct (from_str_radix 16 65535 s) eqn:E; [|done]. intros [= <-].
  apply from_str_radix_range in E; [|lia]. unfold is_u16. lia.
Qed.

Lemma parse_hex16_error s e : parse_hex16 s = Err e ->
  e = "cannot parse integer from empty string" \/ e = "invalid digit found in string"
  \/ e = "number too large to fit in target type".
Proof.
  unfold parse_hex16. destruct (from_str_radix 16 65535 s); [done|]. intros [= <-].
  assert (Hd : forall s acc, digits_error 16 65535 acc s = "invalid digit found in string"
                             \/ digits_error 16 65535 acc s = "number too large to fit in target type").
  { clear s. induction s as [|a s IH]; intros acc; simpl; [by left|]. destruct (to_digit 16 a); [|by left].
    destruct (_ <? _); [by right|apply IH]. }
  destruct s as [|a s]; simpl; [by left|]. case_decide; right; [apply Hd|].
  destruct (Hd (String a s) 0); [by left|by right].
Qed.

(** The text a device is named by in the list. *)
Definition model_text (d : UsbIpDeviceEntry) : string := hex_pad 4 (vid d) +:+ ":" +:+ hex_pad 4 (pid d).

Lemma parse_model_text d : is_u16 (vid d) -> is_u16 (pid d) -> parse_vid_pid (model_text d) = Ok (vid d, pid d).
Proof.
  intros Hv Hp. unfold parse_vid_pid, model_text.
  assert (Hc : forall z, is_u16 z -> contains_char ":" (hex_pad 4 z) = false).
  { intros z Hz. unfold is_u16 in Hz. apply hex_pad_no_char; [simpl; lia|done]. }
  change (":" +:+ hex_pad 4 (pid d)) with (String ":" (hex_pad 4 (pid d))).
  rewrite split_on_app, split_on_none by auto. by rewrite !parse_hex16_pad.
Qed.

(** What [list] prints can be given to [--allow]: the VID:PID text at the
    front of a device's line is parsed back to its ids, and a server that allows
    just them shares exactly the devices of that model. *)
Theorem list_then_allow {B} `{!UsbBackend B} (m : UsbDeviceManager (B := B)) (e : UsbIpDeviceEntry) :
  is_u16 (vid e) -> is_u16 (pid e) ->
  String.substring 2 9 (list_line e) = model_text e
  /\ exists vp, parse_vid_pid (model_text e) = Ok vp
     /\ forall d, d ∈ list_exportable_devices [vp] m <-> d ∈ list_devices m /\ vid d = vid e /\ pid d = pid e.
Proof.
  intros Hv Hp. split.
  - unfold list_line, model_text. unfold is_u16 in *.
    destruct (hex_pad_digits 4 (vid e)) as (v & -> & Hlv & _); [simpl; lia|].
    destruct (hex_pad_digits 4 (pid e)) as (p & -> & Hlp & _); [simpl; lia|].
    do 5 (destruct v as [|? v]; try discriminate Hlv). do 5 (destruct p as [|? p]; try discriminate Hlp).
    generalize (busid_str e +:+ "  " +:+ path_str e +:+ "  speed=" +:+ pretty (speed_val e)). reflexivity.
  - exists (vid e, pid e). split; [by apply parse_model_text|]. intros d. unfold list_exportable_devices.
    rewrite list_elem_of_In, List.filter_In, <- list_elem_of_In. unfold allowed_device. simpl.
    rewrite orb_false_r, andb_true_iff, !Z.eqb_eq. done.
Qed.

Section Fake_devices.
Context {B D : Type} `{!UsbBackend B} `{!MdnsSd D}.

Lemma fake_device_range s b v p :
  parse_fake_device s = Ok (b, v, p) -> contains_char "-" b = true /\ is_u16 v /\ is_u16 p.
Proof.
  unfold parse_fake_device. destruct (split_on ":" s) as [|x0 [|x1 [|x2 [|]]]]; try done.
  destruct (contains_char "-" x0) eqn:Ec; [|done]. simpl.
  destruct (parse_hex16 x1) eqn:E1; [|done]. simpl. destruct (parse_hex16 x2) eqn:E2; [|done]. intros [= <- <- <-].
  split_and!; [done|by eapply parse_hex16_range..].
Qed.

(** A server started with [--fake-devices] can be asked for one device only:
    whatever bus ids were given, the first entry is found under the ids that read as
    1-1, and every other id, the others' own included, is not found. *)
Theorem fake_devices_found cli usb (daemon : result string D) hostname config sv id :
  fake_devices cli <> [] -> cli_server (B := B) cli usb daemon hostname config = Ok sv ->
  length (exportable_devices sv) = length (fake_devices cli)
  /\ get_device_entry id (sv_usb sv)
     = match parse_busid id with Ok (1, 1) => head (exportable_devices sv) | _ => None end.
Proof.
  intros Hne Hs. unfold cli_server in Hs. destruct (fake_devices cli) as [|[[b v] p] ds] eqn:E; [done|].
  injection Hs as <-. split.
  { unfold exportable_devices, list_devices, server_of, with_backend. cbn [sv_usb mgr_backend be_list_devices any_backend fake_backend fb_devices].
    exact (length_map _ ((b, v, p) :: ds)). }
  unfold get_device_entry, list_devices, exportable_devices, server_of, with_backend.
  cbn [sv_usb mgr_backend be_list_devices any_backend fake_backend fb_devices map].
  set (rest := map _ ds).
  assert (Hn : forall e, In e (make_test_entry b v p :: rest) -> busnum e = 1 /\ devnum e = 1).
  { intros e [<-|He]; [done|]. apply in_map_iff in He as ([[b' v'] p'] & <- & _). done. }
  destruct (parse_busid id) as [[bus dev]|k]; [|done]. destruct (decide (bus = 1 /\ dev = 1)) as [[-> ->]|Hd]; [done|].
  transitivity (@None UsbIpDeviceEntry); [|destruct bus as [|[]|], dev as [|[]|]; done || tauto].
  destruct (List.find _ _) as [e|] eqn:Ef; [|done]. apply List.find_some in Ef as [He Hm].
  destruct (Hn e He) as [H1 H2]. unfold matches_numbers in Hm. rewrite H1, H2 in Hm. lia.
Qed.
End Fake_devices.

(** *** The addresses [main] binds *)

(** The first IPv4 address of the interface is the one that is found. *)
Lemma walk_interfaces_first name l ip :
  walk_interfaces name l = Some ip <->
  exists l1 n a b c d l2, l = l1 ++ {| ifa_name := n; ifa_addr := Some (AF_INET a b c d) |} :: l2
    /\ default "" (from_utf8 n) = name /\ ip = ipv4_to_string (u8 a) (u8 b) (u8 c) (u8 d)
    /\ walk_interfaces name l1 = None.
Proof.
  split.
  - induction l as [|[n addr] l IH]; [done|]. cbn [walk_interfaces ifa_name ifa_addr]. intros H.
    case_bool_decide as Hn; [destruct addr as [[a b c d|f]|]|].
    { injection H as <-. by exists [], n, a, b, c, d, l. }
    all: destruct (IH H) as (l1 & n' & a' & b' & c' & d' & l2 & -> & Hn' & Hip & Hw).
    all: eexists (_ :: l1), n', a', b', c', d', l2; split_and!; [reflexivity|done|done|];
      cbn [walk_interfaces ifa_name ifa_addr]; by case_bool_decide.
  - intros (l1 & n & a & b & c & d & l2 & -> & Hn & -> & Hw). induction l1 as [|[n' addr] l1 IH]; simpl.
    + by rewrite bool_decide_eq_true_2.
    + cbn [walk_interfaces ifa_name ifa_addr] in Hw. case_bool_decide; [destruct addr as [[]|]|]; (done || by apply IH).
Qed.

(** The host part of every address: the first IPv4 address of the interface, if it
    has one, and [--bind] otherwise. *)
Definition bound_host (cli : Cli) (unix : bool) (getifaddrs : option (list IfAddrs)) : string :=
  match bind_iface cli with
  | Some name => default (bind cli) (lookup_interface_ip unix getifaddrs name)
  | None => bind cli
  end.

Definition bound_port (cli : Cli) (p : Z) : Prop :=
  p = cli_port cli \/ api_port cli = Some p \/ metrics_port cli = Some p.

Lemma resolve_bound_host cli unix getifaddrs :
  resolve_bind_address (bind cli) (bind_iface cli) (lookup_interface_ip unix getifaddrs)
  = Ok (bound_host cli unix getifaddrs).
Proof. unfold resolve_bind_address, bound_host. destruct (bind_iface cli); [|done]. by destruct (lookup_interface_ip _ _ _). Qed.

Section Bound.
Context {B D : Type} `{!UsbBackend B} `{!MdnsSd D}.

Lemma server_run_at_bind {X} env1 env2 api events (sv : Server (B := X) (D := D)) :
  re_platform env1 = re_platform env2 -> re_local_ip env1 = re_local_ip env2 ->
  (let addr := sc_bind_address (sv_config sv) +:+ ":" +:+ pretty (sc_port (sv_config sv)) in
   re_bind env1 addr = re_bind env2 addr) ->
  (forall a, api = Some a -> re_bind env1 a = re_bind env2 a) ->
  server_run_at env1 api events sv = server_run_at env2 api events sv.
Proof.
  intros Hp Hl Hw Ha. unfold server_run_at, start_listening. cbv zeta in Hw. rewrite Hw, Hp, Hl.
  destruct api as [a|]; [|done]. by rewrite (Ha a eq_refl).
Qed.

Lemma cli_server_config cli usb (daemon : result string D) hostname config sv :
  cli_server (B := B) cli usb daemon hostname config = Ok sv -> sv_config sv = config.
Proof.
  unfold cli_server. destruct (fake_devices cli); [|by intros [= <-]].
  unfold server_new. destruct usb; [|done]. by intros [= <-].
Qed.

(** C38: The wire port, the interface and the metrics are bound on one host
    address only: a run depends on what binding does at that host and the three
    ports of the options, and on no other address. *)
Theorem main_binds_only cli unix getifaddrs usb (daemon : result string D) hostname env1 env2 events :
  (forall p, bound_port cli p ->
     let addr := bound_host cli unix getifaddrs +:+ ":" +:+ pretty p in re_bind env1 addr = re_bind env2 addr) ->
  re_platform env1 = re_platform env2 -> re_local_ip env1 = re_local_ip env2 ->
  server_main (B := B) cli unix getifaddrs usb daemon hostname env1 events
  = server_main cli unix getifaddrs usb daemon hostname env2 events.
Proof.
  intros Hb Hp Hl. cbv zeta in Hb. unfold server_main. rewrite resolve_bound_host.
  set (host := bound_host cli unix getifaddrs) in *. destruct (cli_server cli usb daemon hostname _) as [sv|k] eqn:Es; [|done].
  apply cli_server_config in Es. unfold main_with.
  assert (Hr : forall p, api_port cli = Some p -> run_with_api env1 p events sv = run_with_api env2 p events sv).
  { intros p Hap. unfold run_with_api. apply server_run_at_bind; [done|done| |]; rewrite Es; simpl.
    - apply Hb. by left.
    - intros a [= <-]. apply Hb. by right; left. }
  assert (Hw : server_run env1 events sv = server_run env2 events sv).
  { apply server_run_at_bind; [done|done| |done]. rewrite Es. apply Hb. by left. }
  assert (Hm : forall p, metrics_port cli = Some p ->
            re_bind env1 (host +:+ ":" +:+ pretty p) = re_bind env2 (host +:+ ":" +:+ pretty p)).
  { intros p Hmp. apply Hb. by right; right. }
  destruct (metrics_port cli) as [mp|]; [rewrite (Hm mp eq_refl)|];
    destruct (api_port cli) as [ap|]; rewrite ?(Hr ap eq_refl), ?Hw; done.
Qed.
End Bound.

(** *** What is counted *)

(** Whatever the server does, the metrics of its devices, clients and URBs are not
    even registered: [/metrics] shows the encryption gauge at most. *)
Lemma metrics_never_count {B D} `{!UsbBackend B} `{!MdnsSd D} cli unix getifaddrs usb (daemon : result string D) hostname env events metric :
  metric <> ENCRYPTION_ENABLED -> ru_registry (server_main (B := B) cli unix getifaddrs usb daemon hostname env events) !! metric = None.
Proof.
  intros Hne. unfold server_main. destruct (resolve_bind_address _ _ _); [|done]. destruct (cli_server _ _ _ _ _) as [a0|]; [|done].
  assert (Hr : (if encrypt cli then metric_set ENCRYPTION_ENABLED 1 ∅ else ∅ : Registry) !! metric = None).
  { destruct (encrypt cli); [|done]. unfold metric_set, Registry. by rewrite lookup_insert_ne by done. }
  unfold main_with. destruct (metrics_port cli); [destruct (re_bind env _)|]; try done;
    (destruct (command cli) as [[]|]; [done|]); destruct (api_port cli) as [p|];
    (by destruct (run_with_api env p events a0) as [[]]) || by destruct (server_run env events a0) as [[]].
Qed.

(** ** Witnesses *)

Lemma list_then_allow_witness :
  exists vp, parse_vid_pid (model_text sample_entry) = Ok vp
    /\ forall d, d ∈ list_exportable_devices [vp] sample_manager
         <-> d ∈ list_devices sample_manager /\ vid d = vid sample_entry /\ pid d = pid sample_entry.
Proof. apply (list_then_allow sample_manager sample_entry); unfold is_u16; vm_compute; split; congruence. Defined.

(** The options of the example in the help text of [--fake-devices]. *)
Definition help_cli : Cli :=
  {| command := None; bind := "0.0.0.0"; bind_iface := None; cli_port := 3240; api_port := None; allow := [];
     no_confirm := false; encrypt := false; metrics_port := None;
     fake_devices := [("1-1", 0x046d, 0xc261); ("1-2", 0x8087, 0x0024)] |}.

Definition help_server : Server (B := AnyBackend FakeBackend) (D := bool) :=
  server_of (with_backend (Fake {| fb_devices := [make_test_entry "1-1" 0x046d 0xc261; make_test_entry "1-2" 0x8087 0x0024] |}))
    (Err "no mDNS") "host" (cli_config help_cli "0.0.0.0").

Example help_values :
  map parse_fake_device ["1-1:046d:c261"; "1-2:8087:0024"; "11:046d:c261"; "1-1:046d"; "1-1:46dd0:1"; "1-1::1"; "1-1:g:1"]
  = [Ok ("1-1", 0x046d, 0xc261); Ok ("1-2", 0x8087, 0x0024);
     Err "busid must be of the form BUSNUM-DEVNUM (e.g. 1-1)"; Err "format: BUSID:VID:PID (e.g., 1-1:046d:c261)";
     Err "number too large to fit in target type"; Err "cannot parse integer from empty string";
     Err "invalid digit found in string"].
Proof. vm_compute. reflexivity. Qed.

Lemma fake_devices_found_witness :
  get_device_entry "1-2" (sv_usb help_server) = None.
Proof.
  assert (H : cli_server (B := FakeBackend) help_cli (Err Timeout) (Err "no mDNS") "host" (cli_config help_cli "0.0.0.0")
              = Ok help_server) by reflexivity.
  exact (proj2 (fake_devices_found help_cli (Err Timeout) (Err "no mDNS") "host" (cli_config help_cli "0.0.0.0")
           help_server "1-2" ltac:(done) H)).
Defined.

Definition iface_cli : Cli :=
  {| command := None; bind := "0.0.0.0"; bind_iface := Some "en0"; cli_port := 3240; api_port := Some 3241; allow := [];
     no_confirm := false; encrypt := false; metrics_port := None; fake_devices := [] |}.

Definition sample_interfaces : list IfAddrs :=
  [{| ifa_name := as_bytes "lo"; ifa_addr := Some (AF_INET x7f x00 x00 x01) |};
   {| ifa_name := as_bytes "en0"; ifa_addr := Some (OtherFamily 10) |};
   {| ifa_name := as_bytes "en0"; ifa_addr := Some (AF_INET x0a x00 x00 x05) |}].

(** An environment in which only the addresses of one host can be bound. *)
Definition bind_env (host : string) (elsewhere : result IoError unit) : RunEnv :=
  {| re_bind a := if String.prefix host a then Ok tt else elsewhere; re_platform := "linux"; re_local_ip := None |}.

Lemma main_binds_only_witness :
  let run env := server_main (B := FakeBackend) (D := bool) iface_cli true (Some sample_interfaces)
                   (Ok (with_backend (Platform {| fb_devices := [] |}))) (Err "no mDNS") "host" env [Ok "peer"] in
  let elsewhere := bind_env "10.0.0.5:" (Err {| io_kind := IoOther; io_text := "in use" |}) in
  run elsewhere = run (bind_env "10.0.0.5:" (Ok tt)) /\ ru_peers (run elsewhere) = ["peer"].
Proof.
  cbv zeta. split; [|vm_compute; reflexivity]. apply main_binds_only; [|done|done].
  intros p [->|[[= <-]|[=]]]; reflexivity.
Defined.
