(* ===== verification/TestsServer.v ===== *)
(** * The unit tests of the server

    The test functions of batcher.rs, bandwidth.rs, usb.rs, usb_backend.rs,
    crypto_stream.rs, server.rs, discovery.rs, main.rs, hotplug.rs, api.rs and
    iokit_backend.rs (server/usbip-server/src), as programs over the models.  Clock readings are
    arguments; the tests of batcher.rs that depend on them are shown to pass exactly
    when the machine is fast enough, and the I/O Kit of the machine is the argument of
    those of iokit_backend.rs.  Tests of the option parser and of Debug output have no
    counterpart. *)

From Stdlib Require Import Ascii Floats.SpecFloat.
From S2P Require Import Prelude RustStd RustFloat Errors Proto Urb Stream Wire Crypto CryptoStream Bandwidth UsbBackend UsbManager.
From S2P Require Import Iokit Batcher Server Encrypted Api Discovery Hotplug ServerCli TestsCore.

(** ** batcher.rs *)

Module Batcher_tests.
(** [make_cmd] and [make_result]. *)
Definition make_cmd (seqnum ep len : Z) : UsbIpCmdSubmit :=
  {| cs_seqnum := seqnum; cs_devid := 1; cs_direction := 1; cs_ep := ep; cs_transfer_flags := URB_DIR_IN;
     cs_transfer_buffer_length := len; cs_start_frame := 0; cs_number_of_packets := 0; cs_interval := 0;
     cs_setup := zeros 8 |}.

Definition make_result (len : Z) : UrbResult :=
  {| ur_status := 0; ur_actual_length := len; ur_data := replicate (Z.to_nat len) xab |}.

Section Batcher_tests.
(** The readings of the clock by the pushes, in their order. *)
Context (clock : nat -> Z * Z).

Definition push_at (i : nat) (cmd : UsbIpCmdSubmit) (r : UrbResult) (b : UrbBatcher) : bool * UrbBatcher :=
  push (fst (clock i)) (snd (clock i)) cmd r b.

Definition test_new_batcher_is_empty : outcome unit :=
  let b := batcher_new in
  assert (batcher_is_empty b) ;!
  assert_eq (batcher_len b) 0%nat.

Definition test_push_first_urb_does_not_flush : outcome unit :=
  let '(full, b) := push_at 0 (make_cmd 1 0x81 8) (make_result 8) batcher_new in
  assert (negb full) ;!
  assert_eq (batcher_len b) 1%nat.

(** The body of the loop of [test_push_up_to_batch_size], from [i] on. *)
Fixpoint push_up_to (n i : nat) (b : UrbBatcher) : outcome UrbBatcher :=
  match n with
  | O => Returns b
  | S n =>
      let '(should_flush, b) := push_at i (make_cmd (Z.of_nat i) 0x81 4) (make_result 4) b in
      (if (i <? 4)%nat then assert (negb should_flush) else assert should_flush) ;!
      push_up_to n (S i) b
  end.

Definition test_push_up_to_batch_size : outcome unit :=
  let! b := push_up_to 4 1 (with_config 4 60000000000) in
  assert_eq (batcher_len b) 4%nat.

Definition test_flush_returns_data_and_resets : outcome unit :=
  let '(_, b) := push_at 0 (make_cmd 1 0x81 8) (make_result 8) batcher_new in
  let '(data, b) := Batcher.flush b in
  assert (negb (bool_decide (data = []))) ;!
  assert (batcher_is_empty b) ;!
  assert_eq (batcher_len b) 0%nat.

Definition test_flush_empty_returns_empty : outcome unit :=
  let '(data, b) := Batcher.flush batcher_new in
  assert (bool_decide (data = [])).

Definition test_push_non_sequential_triggers_flush : outcome unit :=
  let '(_, b) := push_at 0 (make_cmd 1 0x81 4) (make_result 4) batcher_new in
  let '(should_flush, b) := push_at 1 (make_cmd 5 0x81 4) (make_result 4) b in
  assert should_flush.

Definition test_sequential_seqnus_stay_in_batch : outcome unit :=
  let b := foldl (fun b i => snd (push_at i (make_cmd (Z.of_nat i) 0x81 4) (make_result 4) b)) batcher_new (seq 1 5) in
  assert (negb (batcher_is_empty b)).

Definition test_seqnum_wraparound_is_sequential : outcome unit :=
  let '(_, b) := push_at 0 (make_cmd (2 ^ 32 - 1) 0x81 4) (make_result 4) batcher_new in
  let '(should_flush, b) := push_at 1 (make_cmd 0 0x81 4) (make_result 4) b in
  assert (negb should_flush).

Definition test_large_urb_triggers_capacity_flush : outcome unit :=
  let result := {| ur_status := 0; ur_actual_length := 65536; ur_data := zeros (Z.to_nat 65536) |} in
  let '(should_flush, b) := push_at 0 (make_cmd 1 0x81 65536) result batcher_new in
  assert should_flush.

(** [should_timeout] reads the clock as well. *)
Definition test_timeout_check (now0 now1 : Z) : outcome unit :=
  let b := batcher_new in
  assert (negb (should_timeout now0 b)) ;!
  let '(_, b) := push_at 0 (make_cmd 1 0x81 4) (make_result 4) b in
  assert (negb (should_timeout now1 b)).

Definition test_push_after_flush_resumes_batching : outcome unit :=
  let '(_, b) := push_at 0 (make_cmd 1 0x81 4) (make_result 4) batcher_new in
  let '(_, b) := Batcher.flush b in
  assert (batcher_is_empty b) ;!
  assert_eq (batcher_len b) 0%nat ;!
  let '(_, b) := push_at 1 (make_cmd 2 0x81 4) (make_result 4) b in
  assert_eq (batcher_len b) 1%nat.

Definition test_mixed_in_out_urbs : outcome unit :=
  let '(_, b) := push_at 0 (make_cmd 1 0x81 8) (make_result 8) batcher_new in
  let cmd_out := {| cs_seqnum := 2; cs_devid := 1; cs_direction := 0; cs_ep := 0x02; cs_transfer_flags := 0;
                    cs_transfer_buffer_length := 0; cs_start_frame := 0; cs_number_of_packets := 0; cs_interval := 0;
                    cs_setup := zeros 8 |} in
  let result_out := {| ur_status := 0; ur_actual_length := 4; ur_data := [] |} in
  let '(should_flush, b) := push_at 1 cmd_out result_out b in
  assert (negb should_flush) ;!
  assert_eq (batcher_len b) 2%nat.

(** The tests whose result does not depend on the clock. *)
Definition batcher_tests : list (outcome unit) :=
  [test_new_batcher_is_empty; test_push_first_urb_does_not_flush; test_flush_returns_data_and_resets;
   test_flush_empty_returns_empty; test_push_non_sequential_triggers_flush; test_sequential_seqnus_stay_in_batch;
   test_large_urb_triggers_capacity_flush; test_push_after_flush_resumes_batching].
End Batcher_tests.
End Batcher_tests.

(** *** They pass *)

Section Batcher_pass.
Import Batcher_tests.
Context (clock : nat -> Z * Z).

(** The batcher with one reply in it. *)
Definition holds_one (reply : list byte) (start seqnum : Z) : UrbBatcher :=
  {| buffer := reply; max_batch := 8; timeout := 200000; batch_start := Some start; last_seqnum := Some seqnum; count := 1 |}.

Lemma first_push now later cmd r : zlen (reply_of cmd r) <= MAX_BATCH_CAPACITY ->
  push now later cmd r batcher_new = (false, holds_one (reply_of cmd r) later (cs_seqnum cmd)).
Proof.
  intros Hl. unfold push. cbn [non_sequential batch_full timer_expired batcher_new with_config last_seqnum batch_start max_batch count].
  change (zlen (buffer batcher_new)) with 0. rewrite Z.add_0_l.
  by replace (MAX_BATCH_CAPACITY <? zlen (reply_of cmd r)) with false by lia.
Qed.

(** The next one is taken in exactly when it comes within 200 microseconds. *)
Lemma second_push now later cmd r reply start seqnum :
  reply <> [] -> wrap 32 (seqnum + 1) = cs_seqnum cmd -> zlen reply + zlen (reply_of cmd r) <= MAX_BATCH_CAPACITY ->
  fst (push now later cmd r (holds_one reply start seqnum)) = negb (elapsed start now <? 200000)
  /\ (elapsed start now < 200000 -> count (snd (push now later cmd r (holds_one reply start seqnum))) = 2%nat).
Proof.
  intros Hne Hseq Hl. unfold push, non_sequential, batch_full, timer_expired, is_nonempty, holds_one.
  cbn [last_seqnum max_batch count batch_start timeout buffer]. rewrite Hseq, Z.eqb_refl. cbn [negb andb].
  rewrite bool_decide_eq_false_2 by done. cbn [negb]. rewrite andb_true_r.
  replace (MAX_BATCH_CAPACITY <? zlen reply + zlen (reply_of cmd r)) with false by lia.
  destruct (Z.leb_spec 200000 (elapsed start now)), (Z.ltb_spec (elapsed start now) 200000); try lia; (split; [done|]; done || lia).
Qed.

Lemma push_keeps now later cmd r b : (count b <= count (snd (push now later cmd r b)))%nat.
Proof. rewrite push_accepts. destruct (accepts _ _ _ _); simpl; lia. Qed.

Lemma pushes_keep l b : (count b <= count (foldl (fun b i => snd (push_at clock i (make_cmd (Z.of_nat i) 0x81 4) (make_result 4) b)) b l))%nat.
Proof.
  revert b. induction l as [|i l IH]; intros b; simpl; [done|]. etrans; [|apply IH]. apply push_keeps.
Qed.

Lemma batcher_tests_pass : Forall passes (batcher_tests clock).
Proof.
  unfold batcher_tests. repeat (apply Forall_cons; split); [..|by apply Forall_nil]; unfold passes.
  - reflexivity.
  - unfold test_push_first_urb_does_not_flush, push_at. rewrite first_push by (vm_compute; congruence). reflexivity.
  - unfold test_flush_returns_data_and_resets, push_at. rewrite first_push by (vm_compute; congruence). vm_compute. reflexivity.
  - reflexivity.
  - unfold test_push_non_sequential_triggers_flush, push_at. rewrite first_push by (vm_compute; congruence). vm_compute. reflexivity.
  - unfold test_sequential_seqnus_stay_in_batch. apply assert_true. unfold batcher_is_empty. apply negb_true_iff, Nat.eqb_neq.
    pose proof (pushes_keep (seq 2 4) (snd (push_at clock 1 (make_cmd (Z.of_nat 1) 0x81 4) (make_result 4) batcher_new))) as Hk.
    unfold push_at at 1 in Hk. rewrite first_push in Hk by (vm_compute; congruence).
    change (count (snd (false, _))) with 1%nat in Hk.
    intros H0. revert Hk. apply Nat.lt_nge. apply Nat.lt_1_r. exact H0.
  - unfold test_large_urb_triggers_capacity_flush, push_at. unfold push. vm_compute. reflexivity.
  - unfold test_push_after_flush_resumes_batching, push_at. rewrite first_push by (vm_compute; congruence). vm_compute. reflexivity.
Qed.

(** Three tests pass exactly when the test takes less than 200 microseconds from
    the first push on, and one when it takes less than a minute. *)
Lemma timed_batcher_tests now0 now1 :
  (passes (test_mixed_in_out_urbs clock) <-> elapsed (snd (clock 0%nat)) (fst (clock 1%nat)) < 200000)
  /\ (passes (test_seqnum_wraparound_is_sequential clock) <-> elapsed (snd (clock 0%nat)) (fst (clock 1%nat)) < 200000)
  /\ (passes (test_timeout_check clock now0 now1) <-> elapsed (snd (clock 0%nat)) now1 < 200000).
Proof.
  unfold passes. split_and!.
  - unfold test_mixed_in_out_urbs, push_at. rewrite first_push by (vm_compute; congruence).
    set (cmd := {| cs_seqnum := 2; cs_devid := _ |}). set (r := {| ur_status := 0; ur_actual_length := 4; ur_data := [] |}).
    destruct (second_push (fst (clock 1%nat)) (snd (clock 1%nat)) cmd r (reply_of (make_cmd 1 0x81 8) (make_result 8))
                (snd (clock 0%nat)) 1) as [Hf Hc]; [by vm_compute|done|vm_compute; congruence|].
    cbn [cs_seqnum make_cmd]. destruct (push _ _ cmd r _) as [full b]. cbn [fst snd] in *. subst full.
    destruct (Z.ltb_spec (elapsed (snd (clock 0%nat)) (fst (clock 1%nat))) 200000) as [Hlt|Hge]; cbn [negb assert];
      [|split; [done|lia]]. unfold batcher_len. rewrite Hc by done. split; [done|]. intros _. by apply assert_eq_refl.
  - unfold test_seqnum_wraparound_is_sequential, push_at. rewrite first_push by (vm_compute; congruence).
    destruct (second_push (fst (clock 1%nat)) (snd (clock 1%nat)) (make_cmd 0 0x81 4) (make_result 4)
                (reply_of (make_cmd (2 ^ 32 - 1) 0x81 4) (make_result 4)) (snd (clock 0%nat)) (2 ^ 32 - 1)) as [Hf _];
      [by vm_compute|by vm_compute|vm_compute; congruence|].
    cbn [cs_seqnum make_cmd]. fold (make_cmd (2 ^ 32 - 1) 0x81 4). fold (make_cmd 0 0x81 4).
    destruct (push _ _ (make_cmd 0 0x81 4) _ _) as [full b]. cbn [fst] in Hf. subst full.
    rewrite negb_involutive. destruct (Z.ltb_spec (elapsed (snd (clock 0%nat)) (fst (clock 1%nat))) 200000); simpl; split; done || lia.
  - unfold test_timeout_check, push_at. rewrite first_push by (vm_compute; congruence).
    change (should_timeout now0 batcher_new) with false. cbn [negb assert].
    unfold should_timeout, holds_one. cbn [batch_start timeout].
    change (is_nonempty _) with true. rewrite andb_true_r.
    destruct (Z.leb_spec 200000 (elapsed (snd (clock 0%nat)) now1)); simpl; split; done || lia.
Qed.
End Batcher_pass.

(** ** bandwidth.rs *)

Module Bandwidth_tests.
Section Bandwidth_tests.
(** The clock advances by [d] nanoseconds from one reading to the next; a sleep
    ends [d] after its time. *)
Context (d : Z).

Definition ms (n : Z) : Z := n * 1000000.
Definition near (x y : f64) : bool := f64_lt (f64_max (f64_sub x y) (f64_sub y x)) (f64_ratio 1 1000).

Definition unlimited_by_default : outcome unit :=
  let lim := unlimited in
  assert (is_unlimited lim) ;!
  assert_eq (bytes_per_sec lim) 0.

Definition limited_is_not_unlimited : outcome unit :=
  let lim := {| bytes_per_sec := 10000 |} in
  assert (negb (is_unlimited lim)).

Definition into_bucket_returns_none_for_unlimited : outcome unit :=
  assert (match into_bucket 0 unlimited with None => true | Some _ => false end).

Definition into_bucket_returns_some_for_limited : outcome unit :=
  assert (match into_bucket 0 {| bytes_per_sec := 1000 |} with Some _ => true | None => false end).

Definition consume_small_amount_returns_zero_delay : outcome unit :=
  let bucket := bucket_new 0 1000000 in
  let! delay := unwrap (fst (consume d 100 bucket)) in
  assert_eq delay 0.

Definition consume_exact_bucket_full : outcome unit :=
  let bucket := bucket_new 0 1000 in
  let! delay := unwrap (fst (consume d 1000 bucket)) in
  assert_eq delay 0.

Definition consume_over_limit_returns_nonzero_delay : outcome unit :=
  let bucket := bucket_new 0 1000 in
  let! delay := unwrap (fst (consume d 2000 bucket)) in
  assert (0 <? delay) ;!
  assert (ms 900 <=? delay) ;!
  assert (delay <=? ms 1100).

Definition consume_multiple_accumulates_debt : outcome unit :=
  let bucket := bucket_new 0 1000 in
  let '(r, bucket) := consume d 1000 bucket in
  let! delay := unwrap r in
  assert_eq delay 0 ;!
  let! delay := unwrap (fst (consume (2 * d) 1000 bucket)) in
  assert (ms 900 <=? delay).

Definition bucket_refills_over_time : outcome unit :=
  let bucket := bucket_new 0 1000 in
  let '(r, bucket) := consume d 1000 bucket in
  let! delay := unwrap r in
  assert_eq delay 0 ;!
  let bucket := {| tokens := tokens bucket; max_tokens := max_tokens bucket; refill_per_ns := refill_per_ns bucket;
                   last_refill := 2 * d - 2000000000 |} in
  let bucket := refill (3 * d) bucket in
  assert (near (tokens bucket) (f64_of_Z 1000)) ;!
  let! delay := unwrap (fst (consume (4 * d) 1000 bucket)) in
  assert_eq delay 0.

Definition consume_exact_after_partial_refill : outcome unit :=
  let bucket := bucket_new 0 1000 in
  let '(r, bucket) := consume d 500 bucket in
  let! _ := unwrap r in
  assert (near (tokens bucket) (f64_of_Z 500)).

Definition negative_or_zero_bytes_ok : outcome unit :=
  let bucket := bucket_new 0 1000 in
  let! delay := unwrap (fst (consume d 0 bucket)) in
  assert_eq delay 0.

Definition high_bandwidth_low_delay : outcome unit :=
  let bucket := bucket_new 0 1000000000 in
  let! delay := unwrap (fst (consume d 65536 bucket)) in
  assert_eq delay 0.

Definition low_bandwidth_high_delay : outcome unit :=
  let bucket := bucket_new 0 1 in
  let! delay := unwrap (fst (consume d 10 bucket)) in
  assert (ms 9000 <=? delay) ;!
  assert (delay <=? ms 11000).

Definition throttle_free_returns_immediately : outcome unit :=
  let bucket := bucket_new 0 1000000 in
  let before := d in
  let '(slept, bucket) := throttle (2 * d) 100 bucket in
  assert (elapsed before (3 * d + slept) <? ms 50).

Definition throttle_delays_when_exceeded : outcome unit :=
  let bucket := bucket_new 0 100 in
  let '(slept, bucket) := throttle d 100 bucket in
  let before := 2 * d + slept in
  let '(slept2, bucket) := throttle (3 * d + slept) 100 bucket in
  let elapsed := elapsed before (4 * d + slept + slept2) in
  assert (ms 800 <=? elapsed) ;!
  assert (elapsed <=? ms 2000).

Definition throttle_no_bucket_no_delay : outcome unit :=
  let bucket := bucket_new 0 0 in
  let before := d in
  assert (negb (bool_decide (is_Some (fst (consume (2 * d) 10000 bucket))))) ;!
  assert (elapsed before (3 * d) <? ms 10).

Definition bandwidth_tests : list (outcome unit) :=
  [unlimited_by_default; limited_is_not_unlimited; into_bucket_returns_none_for_unlimited;
   into_bucket_returns_some_for_limited; consume_small_amount_returns_zero_delay; consume_exact_bucket_full;
   consume_over_limit_returns_nonzero_delay; consume_multiple_accumulates_debt; bucket_refills_over_time;
   consume_exact_after_partial_refill; negative_or_zero_bytes_ok; high_bandwidth_low_delay; low_bandwidth_high_delay;
   throttle_free_returns_immediately; throttle_delays_when_exceeded; throttle_no_bucket_no_delay].
End Bandwidth_tests.
End Bandwidth_tests.

Definition passesb (t : outcome unit) : bool := match t with Returns _ => true | _ => false end.

Lemma passesb_passes t : passesb t = true -> passes t.
Proof. destruct t as [[]| |]; done. Qed.


(** With a clock of any resolution from 0 to 300 ns. *)
Lemma bandwidth_tests_pass d : 0 <= d <= 300 -> Forall passes (Bandwidth_tests.bandwidth_tests d).
Proof.
  intros Hd. assert (Hall : forallb (fun n => forallb passesb (Bandwidth_tests.bandwidth_tests (Z.of_nat n))) (seq 0 301) = true)
    by (vm_compute; reflexivity).
  rewrite forallb_forall in Hall. specialize (Hall (Z.to_nat d) ltac:(apply in_seq; lia)). rewrite Z2Nat.id in Hall by lia.
  rewrite forallb_forall in Hall. apply List.Forall_forall. intros t Ht. by apply passesb_passes, Hall.
Qed.

(** ** usb.rs and usb_backend.rs *)

Module Usb_tests.
Definition fake (devices : list UsbIpDeviceEntry) : FakeBackend := {| fb_devices := devices |}.
Definition manager (devices : list UsbIpDeviceEntry) : UsbDeviceManager := with_backend (fake devices).

Definition test_usb_error_to_urb_status_mapping : outcome unit :=
  assert_eq (usb_error_to_urb_status UsbIo) (-5) ;!
  assert_eq (usb_error_to_urb_status UsbTimeout) (-62) ;!
  assert_eq (usb_error_to_urb_status UsbNoDevice) (-19) ;!
  assert_eq (usb_error_to_urb_status UsbNotSupported) (-95).

Definition test_with_backend_accepts_fake_backend : outcome unit :=
  assert (bool_decide (length (list_devices (manager [])) = 0%nat)).

Definition test_list_exportable_devices_empty_allowlist : outcome unit :=
  let devs := list_exportable_devices [] (manager [make_test_entry "1-1" 0x046d 0xc261]) in
  assert_eq (length devs) 1%nat ;!
  let! d := unwrap (devs !! 0%nat) in
  assert_eq (vid d) 0x046d.

Definition test_list_exportable_devices_filters : outcome unit :=
  let mgr := manager [make_test_entry "1-1" 0x046d 0xc261; make_test_entry "1-2" 0x8087 0x0024] in
  let devs := list_exportable_devices [(0x046d, 0xc261)] mgr in
  assert_eq (length devs) 1%nat ;!
  let! d := unwrap (devs !! 0%nat) in
  assert_eq (vid d) 0x046d ;!
  assert_eq (pid d) 0xc261.

Definition test_list_exportable_devices_multiple_allowed : outcome unit :=
  let mgr := manager [make_test_entry "1-1" 0x046d 0xc261; make_test_entry "1-2" 0x8087 0x0024;
                      make_test_entry "1-3" 0x1234 0x5678] in
  let devs := list_exportable_devices [(0x046d, 0xc261); (0x8087, 0x0024)] mgr in
  assert_eq (length devs) 2%nat.

Definition make_usb_cmd : UsbIpCmdSubmit :=
  {| cs_seqnum := 1; cs_devid := 1; cs_direction := 1; cs_ep := 0x81; cs_transfer_flags := 0;
     cs_transfer_buffer_length := 64; cs_start_frame := 0; cs_number_of_packets := 0; cs_interval := 0;
     cs_setup := zeros 8 |}.

Definition test_submit_urb_unclaimed_device_maps_to_enodev : outcome unit :=
  let mgr := manager [make_test_entry "1-1" 0x046d 0xc261] in
  let '(result, _) := submit_urb "1-1" make_usb_cmd [] mgr in
  assert_eq (ur_status result) (-19) ;!
  assert_eq (ur_actual_length result) 0 ;!
  assert_eq (ur_data result) [].

Definition test_submit_urb_claimed_device_succeeds : outcome unit :=
  let mgr := manager [make_test_entry "1-1" 0x046d 0xc261] in
  let '(r, mgr) := claim_device "1-1" mgr in
  let! _ := unwrap_ok r in
  let '(result, _) := submit_urb "1-1" make_usb_cmd [] mgr in
  assert_eq (ur_status result) 0 ;!
  assert_eq (ur_actual_length result) 0 ;!
  assert_eq (ur_data result) [].

Definition is_ok {E A} (r : result E A) : bool := match r with Ok _ => true | Err _ => false end.

Definition test_parse_busid_valid : outcome unit :=
  let! (bus, dev) := unwrap_ok (parse_busid "3-2") in
  assert_eq bus 3 ;!
  assert_eq dev 2.

Definition test_parse_busid_invalid : outcome unit :=
  assert (negb (is_ok (parse_busid ""))) ;!
  assert (negb (is_ok (parse_busid "abc"))) ;!
  assert (negb (is_ok (parse_busid "3"))).

Definition test_parse_busid_multidigit : outcome unit :=
  let! (bus, dev) := unwrap_ok (parse_busid "12-5") in
  assert_eq bus 12 ;!
  assert_eq dev 5.

Definition test_backend_empty_list : outcome unit := assert (bool_decide (length (be_list_devices (fake [])) = 0%nat)).

Definition test_backend_returns_list : outcome unit :=
  let listed := be_list_devices (fake [make_test_entry "1-1" 0x046d 0xc261; make_test_entry "1-2" 0x8087 0x0024]) in
  assert_eq (length listed) 2%nat ;!
  let! d := unwrap (listed !! 0%nat) in
  assert_eq (vid d) 0x046d ;!
  assert_eq (pid d) 0xc261.

Definition test_backend_claim_existing_device : outcome unit :=
  assert (is_ok (fst (be_claim_device "1-1" (fake [make_test_entry "1-1" 0x046d 0xc261])))).

Definition test_backend_claim_nonexistent_device : outcome unit :=
  assert (negb (is_ok (fst (be_claim_device "999-999" (fake []))))).

Definition test_backend_release_device : outcome unit := assert (is_ok (fst (be_release_device "1-1" (fake [])))).

Definition test_backend_descriptor_tree_ok : outcome unit :=
  let! tree := unwrap_ok (fst (be_get_descriptor_tree "1-1" (fake [make_test_entry "1-1" 0x046d 0xc261]))) in
  let! b0 := unwrap (tree !! 0%nat) in
  assert_eq b0 x12 ;!
  let! b1 := unwrap (tree !! 1%nat) in
  assert_eq b1 x01.

Definition test_backend_descriptor_tree_error : outcome unit :=
  assert (negb (is_ok (fst (be_get_descriptor_tree "999-999" (fake []))))).

Definition test_backend_execute_urb_ok : outcome unit :=
  let cmd := {| cs_seqnum := 1; cs_devid := 1; cs_direction := 0; cs_ep := 0x02; cs_transfer_flags := 0;
                cs_transfer_buffer_length := 0; cs_start_frame := 0; cs_number_of_packets := 0; cs_interval := 0;
                cs_setup := zeros 8 |} in
  let! result := unwrap_ok (fst (be_execute_urb "1-1" cmd [] (fake [make_test_entry "1-1" 0x046d 0xc261]))) in
  assert_eq (ut_status result) 0 ;!
  assert_eq (ut_data result) [].

Definition test_get_device_entry_found : outcome unit :=
  let entry := be_get_device_entry "1-1" (fake [make_test_entry "1-1" 0x046d 0xc261]) in
  assert (match entry with Some _ => true | None => false end) ;!
  let! e := unwrap entry in
  assert_eq (vid e) 0x046d.

Definition test_get_device_entry_not_found : outcome unit :=
  assert (match be_get_device_entry "999-999" (fake []) with Some _ => false | None => true end).

Definition usb_tests : list (outcome unit) :=
  [test_usb_error_to_urb_status_mapping; test_with_backend_accepts_fake_backend;
   test_list_exportable_devices_empty_allowlist; test_list_exportable_devices_filters;
   test_list_exportable_devices_multiple_allowed; test_submit_urb_unclaimed_device_maps_to_enodev;
   test_submit_urb_claimed_device_succeeds; test_parse_busid_valid; test_parse_busid_invalid;
   test_parse_busid_multidigit; test_backend_empty_list; test_backend_returns_list;
   test_backend_claim_existing_device; test_backend_claim_nonexistent_device; test_backend_release_device;
   test_backend_descriptor_tree_ok; test_backend_descriptor_tree_error; test_backend_execute_urb_ok;
   test_get_device_entry_found; test_get_device_entry_not_found].
End Usb_tests.

(** ** server.rs, discovery.rs and main.rs *)

Module Wire_tests.
(** The test hands the connection to [handle_import] with the request header still
    unread, so the bus id it looks up starts with that header. *)
Definition import_unknown_busid_writes_nodev_reply (env : Env (H := toy_ring)) (peer : string) : outcome unit :=
  let req := be_bytes 2 0x0111 ++ be_bytes 2 OP_REQ_IMPORT ++ be_bytes 4 0 ++ as_bytes "9-9" ++ zeros 29 in
  let conn := {| cn_stream := peer_sends req; cn_usb := Usb_tests.manager []; cn_exports := ∅ |} in
  let! (r, conn) := handle_import (H := toy_ring) 1 env false peer conn in
  let! _ := unwrap_ok r in
  let! (header, _) := unwrap (header_read_from_prefix (take 8 (tx (cn_stream conn)))) in
  assert_eq (Proto.command header) OP_REP_IMPORT ;!
  assert_eq (hstatus header) STATUS_ST_NODEV.

Definition encode_devices_txt_empty : outcome unit := assert_eq (encode_devices_txt []) "".

Definition encode_devices_txt_single : outcome unit :=
  assert_eq (encode_devices_txt [make_test_entry "1-1" 0x1234 0x5678]) "vid=0x1234,pid=0x5678,bus=1-1,n=1234:5678".

Definition encode_devices_txt_multi_preserves_order : outcome unit :=
  assert_eq (encode_devices_txt [make_test_entry "1-1" 0x046d 0xc261; make_test_entry "1-2" 0x8087 0x0024])
    "vid=0x046d,pid=0xc261,bus=1-1,n=046d:c261,vid=0x8087,pid=0x0024,bus=1-2,n=8087:0024".

Definition resolve_bind_address_uses_iface_ip : outcome unit :=
  let lookup name := if bool_decide (name = "en0") then Some "192.168.1.21" else None in
  let! got := unwrap_ok (resolve_bind_address "0.0.0.0" (Some "en0") lookup) in
  assert_eq got "192.168.1.21".

Definition resolve_bind_address_falls_back_when_iface_missing : outcome unit :=
  let! got := unwrap_ok (resolve_bind_address "10.0.0.5" (Some "eth9") (fun _ => None)) in
  assert_eq got "10.0.0.5".

(** The lookup of this test panics when it is called: here, it can be any function. *)
Definition resolve_bind_address_passthrough_when_no_iface (lookup : string -> option string) : outcome unit :=
  let! got := unwrap_ok (resolve_bind_address "127.0.0.1" None lookup) in
  assert_eq got "127.0.0.1".

Definition wire_tests (env : Env (H := toy_ring)) (peer : string) (lookup : string -> option string) : list (outcome unit) :=
  [import_unknown_busid_writes_nodev_reply env peer; encode_devices_txt_empty; encode_devices_txt_single;
   encode_devices_txt_multi_preserves_order; resolve_bind_address_uses_iface_ip;
   resolve_bind_address_falls_back_when_iface_missing; resolve_bind_address_passthrough_when_no_iface lookup].
End Wire_tests.

Lemma usb_tests_pass : Forall passes Usb_tests.usb_tests.
Proof. repeat (apply Forall_cons; split); [..|by apply Forall_nil]; vm_compute; reflexivity. Qed.

Lemma wire_tests_pass env peer lookup : Forall passes (Wire_tests.wire_tests env peer lookup).
Proof. repeat (apply Forall_cons; split); [..|by apply Forall_nil]; vm_compute; reflexivity. Qed.

(** What that test looks up: not the bus id the client sent. *)
Lemma import_test_looks_up_header :
  request_busid (take 32 (be_bytes 2 0x0111 ++ be_bytes 2 OP_REQ_IMPORT ++ be_bytes 4 0 ++ as_bytes "9-9" ++ zeros 29)) <> "9-9".
Proof. vm_compute. congruence. Qed.

(** ** hotplug.rs *)

Module Hotplug_tests.
Record FakeHotplugSource := { fh_events : list (option HotplugEvent); fh_index : nat }.

(** [FakeHotplugSource::new]. *)
Definition fake_source_new (events : list HotplugEvent) : FakeHotplugSource := {| fh_events := map Some events; fh_index := 0 |}.

(** Its [poll]: the event is taken out of the list. *)
Definition fake_poll (s : FakeHotplugSource) : option HotplugEvent * FakeHotplugSource :=
  match fh_events s !! fh_index s with
  | Some event => (event, {| fh_events := <[fh_index s := None]> (fh_events s); fh_index := S (fh_index s) |})
  | None => (None, s)
  end.

#[export] Instance fake_source : HotplugSource FakeHotplugSource := {| poll := fake_poll |}.

Definition test_attach_event_has_busid_and_vid_pid : outcome unit :=
  match Attached "3-2" 0x046d 0xc261 with
  | Attached busid vid pid => assert_eq busid "3-2" ;! assert_eq vid 0x046d ;! assert_eq pid 0xc261
  | _ => Panics
  end.

Definition test_detach_event_has_busid_and_correlation_id (cid : string) : outcome unit :=
  match Detached "3-2" cid with
  | Detached busid correlation_id => assert_eq busid "3-2" ;! assert_eq correlation_id cid
  | _ => Panics
  end.

Definition test_fake_source_returns_events_in_order : outcome unit :=
  let events := [Attached "1-1" 0x1234 0x5678; Attached "2-1" 0x9abc 0xdef0] in
  let source := fake_source_new events in
  let '(e, source) := poll source in
  assert_eq e (events !! 0%nat) ;!
  let '(e, source) := poll source in
  assert_eq e (events !! 1%nat) ;!
  let '(e, source) := poll source in
  assert_eq e None.

(** While the test sleeps, the thread of the monitor has [k] turns. *)
Definition after_turns {S} `{!HotplugSource S} (k : nat) (source : S) : HotplugMonitor :=
  Nat.iter k Hotplug.thread_step (monitor_new source).

Definition test_monitor_receives_attach_event (k : nat) : outcome unit :=
  let event := Attached "3-2" 0x046d 0xc261 in
  let monitor := after_turns k (fake_source_new [event]) in
  assert_eq (fst (try_recv monitor)) (Some event).

Definition test_monitor_receives_detach_event (cid : string) (k : nat) : outcome unit :=
  let event := Detached "1-1" cid in
  let monitor := after_turns k (fake_source_new [event]) in
  assert_eq (fst (try_recv monitor)) (Some event).

Definition test_monitor_noop_source_never_emits (k : nat) : outcome unit :=
  let monitor := after_turns k (S := unit) tt in
  assert_eq (fst (try_recv monitor)) None.

Definition test_monitor_recv_multiple_events_in_order (cid : string) (k : nat) : outcome unit :=
  let events := [Attached "1-1" 0xaaaa 0xbbbb; Attached "1-2" 0xcccc 0xdddd; Detached "1-1" cid] in
  let monitor := after_turns k (fake_source_new events) in
  let '(e, monitor) := try_recv monitor in
  assert_eq e (events !! 0%nat) ;!
  let '(e, monitor) := try_recv monitor in
  assert_eq e (events !! 1%nat) ;!
  let '(e, monitor) := try_recv monitor in
  assert_eq e (events !! 2%nat).

Definition test_hotplug_event_clone : outcome unit :=
  let event := Attached "3-2" 0x046d 0xc261 in
  let cloned := event in
  assert_eq event cloned.

Definition hotplug_tests (cid : string) (k : nat) : list (outcome unit) :=
  [test_attach_event_has_busid_and_vid_pid; test_detach_event_has_busid_and_correlation_id cid;
   test_fake_source_returns_events_in_order; test_monitor_receives_attach_event k;
   test_monitor_receives_detach_event cid k; test_monitor_noop_source_never_emits k;
   test_monitor_recv_multiple_events_in_order cid k; test_hotplug_event_clone].

(** After enough turns the queue has the events, in order. *)
Definition queued (events : list HotplugEvent) (m : HotplugMonitor (S := FakeHotplugSource)) : Prop :=
  hm_queue m = events /\ hm_receiver m = true /\ hm_thread m <> Ended /\ fh_events (hm_source m) !! fh_index (hm_source m) = None.

Lemma queued_turn events m : queued events m -> queued events (Hotplug.thread_step m).
Proof.
  intros (Hq & Hr & Ht & Hs). unfold Hotplug.thread_step. destruct (hm_thread m); [|by repeat split|done].
  cbn [poll fake_source]. unfold fake_poll. rewrite Hs. by repeat split.
Qed.

Lemma queued_turns events n k : queued events (after_turns n (fake_source_new events)) -> (n <= k)%nat ->
  queued events (after_turns k (fake_source_new events)).
Proof.
  intros Hq Hk. unfold after_turns in *. replace k with ((k - n) + n)%nat by lia. rewrite Nat.iter_add.
  induction (k - n)%nat as [|j IH]; [done|]. rewrite Nat.iter_succ. by apply queued_turn.
Qed.

Lemma noop_queue k : hm_queue (after_turns k (S := unit) tt) = [].
Proof.
  unfold after_turns. induction k as [|k IH]; [done|]. rewrite Nat.iter_succ. unfold Hotplug.thread_step.
  destruct (hm_thread _); [|done|done]. simpl. done.
Qed.

(** However many turns the thread has, at least one for each event. *)
Lemma hotplug_tests_pass cid k : (3 <= k)%nat -> Forall passes (hotplug_tests cid k).
Proof.
  intros Hk. unfold hotplug_tests. repeat (apply Forall_cons; split); [..|by apply Forall_nil]; unfold passes; try reflexivity.
  - by apply assert_eq_refl.
  - unfold test_monitor_receives_attach_event.
    destruct (queued_turns [Attached "3-2" 0x046d 0xc261] 1 k) as (Hq & _); [by repeat split|lia|].
    unfold try_recv. rewrite Hq. reflexivity.
  - unfold test_monitor_receives_detach_event.
    destruct (queued_turns [Detached "1-1" cid] 1 k) as (Hq & _); [by repeat split|lia|].
    unfold try_recv. rewrite Hq. by apply assert_eq_refl.
  - unfold test_monitor_noop_source_never_emits, try_recv. by rewrite noop_queue.
  - unfold test_monitor_recv_multiple_events_in_order. set (events := [_; _; _]).
    destruct (queued_turns events 3 k) as (Hq & _); [by repeat split|lia|].
    unfold try_recv. rewrite Hq. unfold events. cbn [hm_queue]. rewrite !assert_eq_refl by done. reflexivity.
Qed.
End Hotplug_tests.

(** ** api.rs *)

Module Config_tests.
Definition default_config_has_stable_shape (server_id server_name : string) : outcome unit :=
  let cfg := api_default server_id server_name in
  assert_eq (String.length (ap_server_id cfg)) 36%nat ;!
  let! b := unwrap (as_bytes (ap_server_id cfg) !! 14%nat) in
  assert_eq b x37 ;!
  assert (negb (bool_decide (ap_server_name cfg = ""))) ;!
  assert_eq (ap_port cfg) 3240 ;!
  assert_eq (ap_api_port cfg) 3241.

(** The configuration of the test: the default one with another identity. *)
Definition original_config (id name : string) : ApiConfig :=
  let d := api_default id name in
  {| ap_bind_address := ap_bind_address d; ap_port := ap_port d; ap_api_port := ap_api_port d;
     ap_encryption_enabled := ap_encryption_enabled d;
     ap_server_id := "0190e4f0-1234-7234-8234-123456789abc"; ap_server_name := "test-host" |}.

Definition config_round_trips_through_toml `{!Toml} (id name id' name' : string) : outcome unit :=
  let original := original_config id name in
  let! toml_str := unwrap_ok (toml_to_string original) in
  let! parsed := unwrap (toml_from_str id' name' toml_str) in
  assert_eq (ap_server_id parsed) (ap_server_id original) ;!
  assert_eq (ap_server_name parsed) (ap_server_name original) ;!
  assert_eq (ap_port parsed) (ap_port original) ;!
  assert_eq (ap_api_port parsed) (ap_api_port original).

(** An id as the uuid crate prints it: 36 characters, the version at 14. *)
Definition uuid_v7_text (id : string) : Prop := String.length id = 36%nat /\ as_bytes id !! 14%nat = Some x37.

Lemma config_tests_pass `{!Toml, !TomlLaws} id name id' name' :
  uuid_v7_text id -> name <> "" -> (exists t, toml_to_string (original_config id name) = Ok t) ->
  Forall passes [default_config_has_stable_shape id name; config_round_trips_through_toml id name id' name'].
Proof.
  intros [Hl Hv] Hn Ht. repeat (apply Forall_cons; split); [| |by apply Forall_nil]; unfold passes.
  - unfold default_config_has_stable_shape, api_default. cbn [ap_server_id ap_server_name ap_port ap_api_port].
    rewrite Hl, Hv. cbn [unwrap]. rewrite bool_decide_eq_false_2 by done. reflexivity.
  - unfold config_round_trips_through_toml. destruct Ht as [t Hc].
    rewrite Hc. cbn [unwrap_ok]. rewrite (toml_roundtrip _ t id' name' Hc). cbn [unwrap]. by rewrite !assert_eq_refl.
Qed.
End Config_tests.

(** ** crypto_stream.rs *)

Module Tunnel_tests.
Section Tunnel_tests.
Context `{!Ring}.

(** What was written after the public key is on its way to the other side. *)
Definition delivers (from to : CryptoStream) : CryptoStream :=
  set_tun_stream (set_rx (drop 36 (tx (tun_stream from))) (tun_stream to)) to.

(** Both sides write their public key before they read the other's. *)
Definition roundtrip_message (a b : PrivateKey) (client_addr server_addr : string) (rng_c rng_s : nat -> option (list byte)) : outcome unit :=
  let! (client_pub, _) := unwrap_ok (generate_key_pair (Some a)) in
  let! (server_pub, _) := unwrap_ok (generate_key_pair (Some b)) in
  let! client := unwrap_ok (fst (client_side (Some a) client_addr rng_c (peer_sends (pubkey_bytes server_pub)))) in
  let! server := unwrap_ok (fst (server_side (Some b) server_addr rng_s (peer_sends (pubkey_bytes client_pub)))) in
  let msg := as_bytes "hello, USB/IP encrypted world" in
  let '(r, client) := tunnel_write_message msg client in
  let! _ := unwrap_ok r in
  let '(r, server) := tunnel_read_message (delivers client server) in
  let! got := unwrap_ok r in
  assert_eq got msg ;!
  let reply := as_bytes "reply from server" in
  let '(r, server) := tunnel_write_message reply server in
  let! _ := unwrap_ok r in
  let '(r, client) := tunnel_read_message (delivers server client) in
  let! got := unwrap_ok r in
  assert_eq got reply.

Definition pubkey_length_prefix_is_32 (b : PrivateKey) (server_addr : string) (rng : nat -> option (list byte)) : outcome unit :=
  let '(_, server_tcp) := server_side (Some b) server_addr rng (peer_sends (be_bytes 4 32 ++ zeros 32)) in
  let! (prefix, rest) := unwrap (take_n 4 (tx server_tcp)) in
  let len := be_val prefix in
  assert_eq len 32 ;!
  let! _ := unwrap (take_n (Z.to_nat len) rest) in
  Returns tt.

Definition pubkeys_32 : Prop := forall a pa, public_key a = Some pa -> length pa = 32%nat.

(** One message through an open tunnel. *)
Lemma tunnel_message key t u p : key_seals key -> open_tunnel key t -> open_tunnel key u -> fits p -> length (tx (tun_stream t)) = 36%nat ->
  exists t' u', tunnel_write_message p t = (Ok tt, t') /\ tunnel_read_message (delivers t' u) = (Ok p, u')
    /\ open_tunnel key u' /\ tx (tun_stream u') = tx (tun_stream u).
Proof.
  intros Hk Ht Hu Hf Hl. destruct (write_carried key t p Hk Ht) as (t' & out & Hw & Ho & Hca & Htx & _).
  inversion Hca as [|q nonce ct ps l Hn He Hc' Hp Hout]. inversion Hc'. subst. rewrite app_nil_r in *.
  eexists t', _. split; [exact Hw|]. split.
  - apply (read_carried _ p nonce ct []); [done|unfold delivers; simpl; by rewrite (ot_key _ _ Hu)|done|].
    unfold delivers. simpl. rewrite Htx, app_nil_r. by rewrite drop_app_length' by done.
  - destruct Hu. split; [by split|done].
Qed.

Lemma roundtrip_passes a b ca sa rng_c rng_s : ring_works -> pubkeys_32 -> sound_rng rng_c -> sound_rng rng_s ->
  passes (roundtrip_message a b ca sa rng_c rng_s).
Proof.
  intros Hw H32 Hc Hs. unfold passes, roundtrip_message.
  destruct (key_pair a Hw) as (pa & Hpa & ->), (key_pair b Hw) as (pb & Hpb & ->). cbn [unwrap_ok].
  destruct (rw_agree Hw a b pb Hpb) as [secret Hsec]. pose proof (agree_comm a b pa pb Hpa Hpb) as Hcomm.
  destruct (tested_key_derived secret Hw) as [key Hkey].
  assert (Hsc : forall p, peer_sends (pubkey_bytes p) = set_rx (pubkey_bytes p ++ []) (peer_sends []))
    by (intros p; by rewrite app_nil_r).
  unfold client_side, server_side. rewrite !Hsc.
  rewrite (client_handshake_ok a pa pb secret key), (server_handshake_ok b pb pa secret key) by (done || by eapply H32 || congruence).
  cbn [tunnel_of fst unwrap_ok].
  set (client := {| tun_stream := _; tun_peer := ca |}). set (server := {| tun_stream := _; tun_peer := sa |}).
  assert (Hks : key_seals key) by (intros p n; apply (rw_seal Hw)).
  assert (Hlen : forall p, length p = 32%nat -> length (pubkey_bytes p) = 36%nat)
    by (intros p Hp; unfold pubkey_bytes; rewrite length_app, length_be_bytes, Hp; done).
  assert (Ho1 : open_tunnel key client) by (by split). assert (Ho2 : open_tunnel key server) by (by split).
  destruct (tunnel_message key client server (as_bytes "hello, USB/IP encrypted world")) as (client' & server' & Hw1 & Hr1 & Ho3 & Htx1);
    [done..|vm_compute; congruence|apply Hlen; by eapply H32|].
  rewrite Hw1. cbn [unwrap_ok]. rewrite Hr1. cbn [unwrap_ok]. rewrite assert_eq_refl by done.
  destruct (write_carried key client (as_bytes "hello, USB/IP encrypted world") Hks Ho1) as (c2 & out & Hw1' & Ho4 & _).
  rewrite Hw1 in Hw1'. injection Hw1' as <-.
  destruct (tunnel_message key server' client' (as_bytes "reply from server")) as (server2 & client2 & Hw2 & Hr2 & _);
    [done..|vm_compute; congruence|rewrite Htx1; apply Hlen; by eapply H32|].
  rewrite Hw2. cbn [unwrap_ok]. rewrite Hr2. by apply assert_eq_refl.
Qed.

(** Whatever becomes of the exchange, the server has written its public key. *)
Lemma server_side_writes b pb sa rng : public_key b = Some pb ->
  tx (snd (server_side (Some b) sa rng (peer_sends (be_bytes 4 32 ++ zeros 32)))) = pubkey_bytes pb.
Proof.
  intros Hb. unfold server_side, server_handshake, generate_key_pair. simpl. rewrite Hb.
  rewrite io_bind_result. cbn -[io_bind pretty].
  rewrite (io_bind_ok _ _ _ _ _ (write_all_ok _ (peer_sends (be_bytes 4 32 ++ zeros 32)) eq_refl)).
  rewrite (io_bind_ok Stream.flush _ _ tt _ eq_refl). cbn [peer_sends rx rx_end tx tx_room app].
  set (s := {| rx := _; rx_end := _; tx := _; tx_room := _ |}).
  assert (Hs : s = set_rx (pubkey_bytes (zeros 32) ++ []) {| rx := []; rx_end := eof; tx := pubkey_bytes pb; tx_room := None |})
    by (by rewrite app_nil_r).
  rewrite Hs, (handshake_read_pub (zeros 32) [] {| rx := []; rx_end := eof; tx := pubkey_bytes pb; tx_room := None |} _
                 (fun v => io_err (Encryption ("unexpected client pubkey length: " +:+ pretty v)))) by apply length_zeros.
  rewrite io_bind_result. destruct (encryption_error (agree b (zeros 32))) as [shared|k]; [|done].
  rewrite io_bind_result. by destruct (encryption_error (derive_session_key shared)).
Qed.

Lemma prefix_passes b sa rng : ring_works -> pubkeys_32 -> passes (pubkey_length_prefix_is_32 b sa rng).
Proof.
  intros Hw H32. destruct (key_pair b Hw) as (pb & Hpb & _). unfold passes, pubkey_length_prefix_is_32.
  pose proof (server_side_writes b pb sa rng Hpb) as Htx. destruct (server_side _ _ _ _) as [r s]. cbn [snd] in Htx.
  rewrite Htx. unfold pubkey_bytes. rewrite take_n_app by apply length_be_bytes. cbn [unwrap].
  rewrite be_val_be_bytes, assert_eq_refl by lia. rewrite <- (app_nil_r pb). by rewrite take_n_app by (by eapply H32).
Qed.
End Tunnel_tests.
End Tunnel_tests.

(** ** The theorem *)

Section Batch_of_four.
Import Batcher_tests.
Context (clock : nat -> Z * Z).

(** The batcher of [test_push_up_to_batch_size] after [k] pushes. *)
Definition four_state (k : nat) : UrbBatcher :=
  {| buffer := concat (map (fun i => reply_of (make_cmd (Z.of_nat i) 0x81 4) (make_result 4)) (seq 1 k)); max_batch := 4;
     timeout := 60000000000; batch_start := Some (snd (clock 1%nat)); last_seqnum := Some (Z.of_nat k); count := k |}.

Lemma four_push k : k ∈ [1; 2; 3]%nat -> elapsed (snd (clock 1%nat)) (fst (clock (S k))) < 60000000000 ->
  push_at clock (S k) (make_cmd (Z.of_nat (S k)) 0x81 4) (make_result 4) (four_state k) = ((4 <=? S k)%nat, four_state (S k)).
Proof.
  intros Hk He. unfold push_at. rewrite push_accepts. unfold accepts, timer_expired. cbn [four_state batch_start timeout].
  replace (60000000000 <=? elapsed (snd (clock 1%nat)) (fst (clock (S k)))) with false by lia. cbn [andb negb]. rewrite andb_true_r.
  rewrite !elem_of_cons in Hk. destruct Hk as [->|[->|[->|Hk]]]; [..|by inversion Hk];
    (replace (_ && _ && _) with true by (vm_compute; reflexivity)); f_equal; unfold four_state; f_equal.
Qed.

Lemma batch_of_four_passes : (forall k, k ∈ [1; 2; 3]%nat -> elapsed (snd (clock 1%nat)) (fst (clock (S k))) < 60000000000) ->
  passes (test_push_up_to_batch_size clock).
Proof.
  intros He. unfold passes, test_push_up_to_batch_size, push_up_to.
  assert (H1 : push_at clock 1 (make_cmd (Z.of_nat 1) 0x81 4) (make_result 4) (with_config 4 60000000000) = (false, four_state 1))
    by (vm_compute; reflexivity).
  rewrite H1, !four_push by (repeat constructor || (apply He; repeat constructor)). reflexivity.
Qed.
End Batch_of_four.

(** ** iokit_backend.rs *)

Module Iokit_tests.
Section Machine.
Context {K : Type} `{!IOKit K} (kit : K) (fuel : nat).

Definition test_iokit_backend_new : outcome unit :=
  let backend := iokit_new kit fuel in
  assert (match backend with Ok _ => true | Err _ => false end).

Definition test_iokit_list_devices_returns_vec : outcome unit :=
  let! backend := unwrap_ok (iokit_new kit fuel) in
  let devices := iokit_list_devices backend in
  assert (length devices <=? 256)%nat.

Definition test_iokit_release_unclaimed : outcome unit :=
  let! backend := unwrap_ok (iokit_new kit fuel) in
  assert (match fst (be_release_device "1-1" backend) with Ok _ => true | Err _ => false end).
End Machine.

(** The construction and the release of an unclaimed device pass on every machine;
    the limit on the number of devices is one of the machine and not of the code,
    which lists all 257 devices of a registry that has them. *)
Lemma iokit_tests_pass {K : Type} `{!IOKit K} (kit : K) (fuel : nat) :
  passes (test_iokit_backend_new kit fuel) /\ passes (test_iokit_release_unclaimed kit fuel)
  /\ test_iokit_list_devices_returns_vec (toy_registry 256) 300 = Returns tt
  /\ test_iokit_list_devices_returns_vec (toy_registry 257) 300 = Panics.
Proof. split; [done|]. split; [done|]. split; vm_compute; reflexivity. Qed.
End Iokit_tests.

Section Server_pass.
Context `{!Ring, !Toml, !TomlLaws}.

(** What the tests get from outside. *)
Record ServerInputs := {
  si_clock : nat -> Z * Z;
  si_readings : Z * Z;
  si_resolution : Z;
  si_env : Env (H := toy_ring);
  si_peer : string;
  si_lookup : string -> option string;
  si_cid : string;
  si_turns : nat;
  si_id : string;
  si_name : string;
  si_keys : PrivateKey * PrivateKey;
  si_rng : (nat -> option (list byte)) * (nat -> option (list byte))
}.

Definition server_tests (i : ServerInputs) : list (outcome unit) :=
  Batcher_tests.batcher_tests (si_clock i)
  ++ [Batcher_tests.test_push_up_to_batch_size (si_clock i); Batcher_tests.test_mixed_in_out_urbs (si_clock i);
      Batcher_tests.test_seqnum_wraparound_is_sequential (si_clock i);
      Batcher_tests.test_timeout_check (si_clock i) (fst (si_readings i)) (snd (si_readings i))]
  ++ Bandwidth_tests.bandwidth_tests (si_resolution i) ++ Usb_tests.usb_tests
  ++ Wire_tests.wire_tests (si_env i) (si_peer i) (si_lookup i) ++ Hotplug_tests.hotplug_tests (si_cid i) (si_turns i)
  ++ [Config_tests.default_config_has_stable_shape (si_id i) (si_name i);
      Config_tests.config_round_trips_through_toml (si_id i) (si_name i) (si_id i) (si_name i)]
  ++ [Tunnel_tests.roundtrip_message (fst (si_keys i)) (snd (si_keys i)) (si_peer i) (si_peer i) (fst (si_rng i)) (snd (si_rng i));
      Tunnel_tests.pubkey_length_prefix_is_32 (fst (si_keys i)) (si_peer i) (snd (si_rng i))].

(** The batch of the timed tests is not older than 200 microseconds. *)
Definition fast_enough (i : ServerInputs) : Prop :=
  elapsed (snd (si_clock i 0%nat)) (fst (si_clock i 1%nat)) < 200000
  /\ elapsed (snd (si_clock i 0%nat)) (snd (si_readings i)) < 200000.

Definition server_inputs_ok (i : ServerInputs) : Prop :=
  (forall k, k ∈ [1; 2; 3]%nat -> elapsed (snd (si_clock i 1%nat)) (fst (si_clock i (S k))) < 60000000000)
  /\ 0 <= si_resolution i <= 300 /\ (3 <= si_turns i)%nat
  /\ Config_tests.uuid_v7_text (si_id i) /\ si_name i <> "" /\ sound_rng (fst (si_rng i)) /\ sound_rng (snd (si_rng i)).

(** The unit tests of the server pass on the models, whatever keys are drawn,
    however often the hotplug thread is scheduled beyond once for each event, and
    whatever the clock shows as long as the timed batch is not older than 200
    microseconds; when it is, three of them fail, and only then. *)
Theorem server_tests_pass (i : ServerInputs) :
  ring_works -> Tunnel_tests.pubkeys_32 -> (exists t, toml_to_string (Config_tests.original_config (si_id i) (si_name i)) = Ok t) -> server_inputs_ok i ->
  Forall passes (server_tests i) <-> fast_enough i.
Proof.
  intros Hw H32 Ht (H60 & Hres & Htn & Hid & Hname & Hr1 & Hr2).
  destruct (timed_batcher_tests (si_clock i) (fst (si_readings i)) (snd (si_readings i))) as (Hm & Hs & Hc).
  unfold server_tests. rewrite !Forall_app, !Forall_cons, Hm, Hs, Hc. unfold fast_enough. split; [tauto|]. intros [Ha Hb].
  pose proof (batcher_tests_pass (si_clock i)). pose proof (batch_of_four_passes _ H60).
  pose proof (bandwidth_tests_pass _ Hres). pose proof usb_tests_pass. pose proof (wire_tests_pass (si_env i) (si_peer i) (si_lookup i)).
  pose proof (Hotplug_tests.hotplug_tests_pass (si_cid i) _ Htn).
  pose proof (Config_tests.config_tests_pass _ _ (si_id i) (si_name i) Hid Hname Ht) as Hcfg.
  apply Forall_cons in Hcfg as [? Hcfg]. apply Forall_cons in Hcfg as [? _].
  pose proof (Tunnel_tests.roundtrip_passes (fst (si_keys i)) (snd (si_keys i)) (si_peer i) (si_peer i) _ _ Hw H32 Hr1 Hr2).
  pose proof (Tunnel_tests.prefix_passes (fst (si_keys i)) (si_peer i) (snd (si_rng i)) Hw H32).
  by repeat split; try apply Forall_nil.
Qed.
End Server_pass.

Definition quick_inputs : ServerInputs (H := toy_ring) :=
  Build_ServerInputs (H := toy_ring) (fun i => (Z.of_nat i, Z.of_nat i)) (10, 20) 100 sample_env "10.0.0.2:40000" (fun _ => None)
    "0190a5b2-7c3d-7e4f-8a9b-0c1d2e3f4a5b" 5 "0190a5b2-7c3d-7e4f-8a9b-0c1d2e3f4a5b" "host" (5, 7)
    (fun _ => Some (zeros 12), fun _ => Some (zeros 12)).

Lemma server_tests_pass_witness : Forall passes (server_tests quick_inputs).
Proof.
  apply (server_tests_pass (H := toy_ring) quick_inputs toy_ring_works).
  - intros a pa [= <-]. apply length_be_bytes.
  - eexists. vm_compute. reflexivity.
  - split.
    + intros k Hk. rewrite !elem_of_cons in Hk. destruct Hk as [->|[->|[->|Hk]]]; [reflexivity|reflexivity|reflexivity|by inversion Hk].
    + split; [simpl; lia|]. split; [simpl; lia|]. split; [split; reflexivity|]. split; [discriminate|].
      split; intros j; exists (zeros 12); split; reflexivity.
  - split; reflexivity.
Defined.
