(* ===== verification/Daemon.v ===== *)
(** * The client daemon (client/usbip-client/src/daemon.rs)

    The daemon keeps a list of managed connections, each with a background task
    that connects, forwards and retries, and answers commands from a socket.
    Commands and tasks interleave: they run on the same runtime and share the
    list under a mutex that they release at every await.  The model is a state
    machine whose transitions are the pieces of code between two awaits; the
    results of imports and forwarding sessions (Client.v) are inputs; an import may
    also panic, which ends the task that waits for it.  A socket
    address is its text; the JSON and TOML decoders are not modelled. *)

From S2P Require Import Prelude RustStd RustFloat Errors Proto Stream Descriptor Reconnect Vhci Client.

(** ** Data *)

Record ConnectionConfig := { cf_server : string; cf_busid : string }.

#[export] Instance ConnectionConfig_eq_dec : EqDecision ConnectionConfig.
Proof. solve_decision. Defined.

Record DaemonConfig := { dc_socket_path : string; dc_connections : list ConnectionConfig }.

Inductive DaemonCommand :=
| CmdConnect (server busid : string)
| CmdDisconnect (busid : string)
| CmdStatus
| CmdShutdown.

Inductive ConnectionState := Disconnected | Connecting | Connected | ErrorState (e : string).

Record ConnectionStatus := {
  st_server : string;
  st_busid : string;
  st_state : string;
  st_error : option string
}.

Record DaemonResponse := {
  rp_status : string;
  rp_message : option string;
  rp_connections : option (list ConnectionStatus)
}.

(** A cancellation token is a number; the daemon knows which are cancelled. *)
Record ManagedConnection := { mc_config : ConnectionConfig; mc_state : ConnectionState; mc_token : nat }.

(** What waiting for a call comes to: its result, or the panic of the callee, which
    goes on in the task that waits. *)
Inductive awaited (A : Type) := Done (a : A) | Unwound.
Arguments Done {A} a.
Arguments Unwound {A}.

(** ** [auto_connect_loop] *)

(** Which of the function's return statements was taken, or what panicked: its delay
    ([Panicked]) or the import. *)
Inductive returned := ByToken | CleanEnd | GaveUp | Panicked | ImportPanicked.

(** Where the loop is: waiting in one of its three selects or in the import, or
    about to take the lock for one of its three updates. *)
Inductive pc :=
| Select
| SetConnecting
| Importing
| SetConnected
| Forwarding
| SetError
| Backoff (delay : Z)
| Returned (why : returned).

Record AutoTask := {
  at_config : ConnectionConfig;
  at_token : nat;
  at_reconnect : ReconnectState;
  at_pc : pc
}.

Definition goto (p : pc) (t : AutoTask) : AutoTask :=
  {| at_config := at_config t; at_token := at_token t; at_reconnect := at_reconnect t; at_pc := p |}.

(** [conns.iter_mut().find(..)] and the assignment of its state. *)
Fixpoint set_state (cfg : ConnectionConfig) (st : ConnectionState) (conns : list ManagedConnection)
    : list ManagedConnection :=
  match conns with
  | [] => []
  | c :: conns =>
      if decide (mc_config c = cfg)
      then {| mc_config := mc_config c; mc_state := st; mc_token := mc_token c |} :: conns
      else c :: set_state cfg st conns
  end.

(** What lets a task go on. *)
Inductive task_event :=
| Elapsed
| TokenCancelled
| Locked
| ImportDone (r : awaited (UsbIpResult ImportedDevice))
| ForwardingDone (r : UsbIpResult unit).

Section Daemon.
Variable powi : f64 -> Z -> f64.
Variable draw : f64 -> f64 -> f64.

(** After a failed attempt: the next delay, from a [ConnectionClosed] error
    whatever the error was. *)
Definition after_failure (t : AutoTask) : AutoTask :=
  match decide_reconnect powi draw (Err ConnectionClosed) (at_reconnect t) reconnect_default with
  | Returns (RetryAfter d, st) =>
      {| at_config := at_config t; at_token := at_token t; at_reconnect := st; at_pc := Backoff d |}
  | Returns (Stop, _) => goto (Returned GaveUp) t
  | Panics | OutOfFuel => goto (Returned Panicked) t
  end.

(** One piece of the loop, with the connection list; [None]: the event does not
    happen at this point.  [stop]: one of the task's two tokens is cancelled. *)
Definition auto_connect_loop (ev : task_event) (stop : bool) (t : AutoTask) (conns : list ManagedConnection)
    : option (AutoTask * list ManagedConnection) :=
  match at_pc t, ev with
  | Select, Elapsed => Some (goto SetConnecting t, conns)
  | Select, TokenCancelled | Forwarding, TokenCancelled | Backoff _, TokenCancelled =>
      if stop then Some (goto (Returned ByToken) t, conns) else None
  | SetConnecting, Locked => Some (goto Importing t, set_state (at_config t) Connecting conns)
  | Importing, ImportDone (Done (Ok _)) => Some (goto SetConnected t, conns)
  | Importing, ImportDone (Done (Err _)) => Some (goto SetError t, conns)
  | Importing, ImportDone Unwound => Some (goto (Returned ImportPanicked) t, conns)
  | SetConnected, Locked => Some (goto Forwarding t, set_state (at_config t) Connected conns)
  | Forwarding, ForwardingDone (Ok _) => Some (goto (Returned CleanEnd) t, conns)
  | Forwarding, ForwardingDone (Err _) => Some (goto SetError t, conns)
  | SetError, Locked =>
      Some (after_failure t, set_state (at_config t) (ErrorState "connection lost, retrying") conns)
  | Backoff _, Elapsed => Some (goto Select t, conns)
  | _, _ => None
  end.

(** ** The daemon *)

Record Daemon := {
  dm_connections : list ManagedConnection;
  dm_tasks : list AutoTask;
  dm_importing : list ConnectionConfig;
  dm_cancelled : list nat;
  dm_shutdown : bool;
  dm_next_token : nat
}.

Definition daemon_new : Daemon :=
  {| dm_connections := []; dm_tasks := []; dm_importing := []; dm_cancelled := [];
     dm_shutdown := false; dm_next_token := O |}.

(** A new connection with its task. *)
Definition manage (cfg : ConnectionConfig) (st : ConnectionState) (d : Daemon) : Daemon :=
  {| dm_connections := dm_connections d ++ [{| mc_config := cfg; mc_state := st; mc_token := dm_next_token d |}];
     dm_tasks := dm_tasks d ++ [{| at_config := cfg; at_token := dm_next_token d; at_reconnect := Active; at_pc := Select |}];
     dm_importing := dm_importing d; dm_cancelled := dm_cancelled d; dm_shutdown := dm_shutdown d;
     dm_next_token := S (dm_next_token d) |}.

(** [start_auto_connect]: [blocking_lock] panics in an async context. *)
Definition start_auto_connect (in_async : bool) (cfg : ConnectionConfig) (d : Daemon) : outcome Daemon :=
  if in_async then Panics else Returns (manage cfg Disconnected d).

Fixpoint start_all (in_async : bool) (cfgs : list ConnectionConfig) (d : Daemon) : outcome Daemon :=
  match cfgs with
  | [] => Returns d
  | cfg :: cfgs => let! d := start_auto_connect in_async cfg d in start_all in_async cfgs d
  end.

(** The start of [DaemonManager::run], an async function, once the socket is bound. *)
Definition run_start (config : DaemonConfig) : outcome Daemon :=
  start_all true (dc_connections config) daemon_new.

(** *** Commands *)

Definition respond (status message : string) : DaemonResponse :=
  {| rp_status := status; rp_message := Some message; rp_connections := None |}.

Definition is_managed (cfg : ConnectionConfig) (d : Daemon) : bool :=
  existsb (fun c => bool_decide (mc_config c = cfg)) (dm_connections d).

Definition state_text (s : ConnectionState) : string :=
  match s with
  | Disconnected => "disconnected"
  | Connecting => "connecting"
  | Connected => "connected"
  | ErrorState e => "error: " +:+ e
  end.

Definition connection_status (c : ManagedConnection) : ConnectionStatus :=
  {| st_server := cf_server (mc_config c); st_busid := cf_busid (mc_config c);
     st_state := state_text (mc_state c);
     st_error := match mc_state c with ErrorState e => Some e | _ => None end |}.

Definition set_importing (l : list ConnectionConfig) (d : Daemon) : Daemon :=
  {| dm_connections := dm_connections d; dm_tasks := dm_tasks d; dm_importing := l;
     dm_cancelled := dm_cancelled d; dm_shutdown := dm_shutdown d; dm_next_token := dm_next_token d |}.

(** The first connection of a bus id, and the others. *)
Fixpoint remove_busid (busid : string) (conns : list ManagedConnection)
    : option (ManagedConnection * list ManagedConnection) :=
  match conns with
  | [] => None
  | c :: conns =>
      if decide (cf_busid (mc_config c) = busid) then Some (c, conns)
      else '(mc, rest) ← remove_busid busid conns; Some (mc, c :: rest)
  end.

(** [handle_command], up to its first await that waits for something else: a
    Connect that goes on to import answers later ([None]). *)
Definition handle_command (cmd : DaemonCommand) (d : Daemon) : option DaemonResponse * Daemon :=
  match cmd with
  | CmdConnect server busid =>
      let cfg := {| cf_server := server; cf_busid := busid |} in
      if is_managed cfg d then (Some (respond "ok" ("already managing " +:+ busid +:+ " from " +:+ server)), d)
      else (None, set_importing (dm_importing d ++ [cfg]) d)
  | CmdDisconnect busid =>
      match remove_busid busid (dm_connections d) with
      | Some (mc, rest) =>
          (Some (respond "ok" ("disconnected " +:+ busid)),
           {| dm_connections := rest; dm_tasks := dm_tasks d; dm_importing := dm_importing d;
              dm_cancelled := mc_token mc :: dm_cancelled d; dm_shutdown := dm_shutdown d;
              dm_next_token := dm_next_token d |})
      | None => (Some (respond "error" ("no connection found for busid " +:+ busid)), d)
      end
  | CmdStatus =>
      (Some {| rp_status := "ok"; rp_message := None;
               rp_connections := Some (map connection_status (dm_connections d)) |}, d)
  | CmdShutdown =>
      (Some (respond "ok" "shutting down"),
       {| dm_connections := dm_connections d; dm_tasks := dm_tasks d; dm_importing := dm_importing d;
          dm_cancelled := dm_cancelled d; dm_shutdown := true; dm_next_token := dm_next_token d |})
  end.

(** The rest of a Connect, when its import is done; an error is given by its text.  An
    import that panics takes the handler with it, and there is no response. *)
Definition finish_connect (i : nat) (r : awaited (result string ImportedDevice)) (d : Daemon)
    : option (option DaemonResponse * Daemon) :=
  cfg ← dm_importing d !! i;
  let d := set_importing (delete i (dm_importing d)) d in
  Some (match r with
        | Done (Ok device) =>
            (Some (respond "ok" ("imported " +:+ hex_pad 4 (vid (im_device_entry device)) +:+ ":"
                                 +:+ hex_pad 4 (pid (im_device_entry device)) +:+ " from " +:+ cf_server cfg)),
             manage cfg Connected d)
        | Done (Err e) => (Some (respond "error" ("import failed: " +:+ e)), d)
        | Unwound => (None, d)
        end).

(** *** Interleaving *)

Inductive event :=
| Command (cmd : DaemonCommand)
| ConnectDone (i : nat) (r : awaited (result string ImportedDevice))
| TaskRuns (i : nat) (ev : task_event).

Definition stopped (t : AutoTask) (d : Daemon) : bool :=
  bool_decide (at_token t ∈ dm_cancelled d) || dm_shutdown d.

Definition task_runs (i : nat) (ev : task_event) (d : Daemon) : option Daemon :=
  t ← dm_tasks d !! i;
  '(t', conns) ← auto_connect_loop ev (stopped t d) t (dm_connections d);
  Some {| dm_connections := conns; dm_tasks := <[i := t']> (dm_tasks d); dm_importing := dm_importing d;
          dm_cancelled := dm_cancelled d; dm_shutdown := dm_shutdown d; dm_next_token := dm_next_token d |}.

(** What happens next; [None]: the event is not possible. *)
Definition happens (e : event) (d : Daemon) : option Daemon :=
  match e with
  | Command cmd => Some (snd (handle_command cmd d))
  | ConnectDone i r => snd <$> finish_connect i r d
  | TaskRuns i ev => task_runs i ev d
  end.

Inductive step : Daemon -> Daemon -> Prop :=
| step_happens e d d' : happens e d = Some d' -> step d d'.

Fixpoint happen_all (es : list event) (d : Daemon) : option Daemon :=
  match es with
  | [] => Some d
  | e :: es => d' ← happens e d; happen_all es d'
  end.
End Daemon.

(** ** Invariants *)

(** What identifies a connection or a task. *)
Definition conn_key (c : ManagedConnection) : ConnectionConfig * nat := (mc_config c, mc_token c).
Definition task_key (t : AutoTask) : ConnectionConfig * nat := (at_config t, at_token t).

Definition live (t : AutoTask) : Prop := match at_pc t with Returned _ => False | _ => True end.

(** A task that has failed 2^31 times: the exponent of its delay, an [i32], is
    about to turn negative. *)
Definition exhausted (t : AutoTask) : Prop := 2 ^ 31 <= next_attempt (at_reconnect t).

(** Why a task may have returned. *)
Definition task_ok (d : Daemon) (t : AutoTask) : Prop :=
  match at_pc t with
  | Returned ByToken => stopped t d = true
  | Returned GaveUp => False
  | Returned Panicked => exhausted t
  | _ => True
  end.

Record daemon_inv (d : Daemon) : Prop := {
  di_tokens : NoDup (map mc_token (dm_connections d));
  di_tasks : forall c, c ∈ dm_connections d -> conn_key c ∈ map task_key (dm_tasks d);
  di_active : forall c, c ∈ dm_connections d -> mc_token c ∉ dm_cancelled d;
  di_fresh : Forall (fun t => at_token t < dm_next_token d)%nat (dm_tasks d);
  di_cancelled : Forall (fun n => n < dm_next_token d)%nat (dm_cancelled d);
  di_task_ok : Forall (task_ok d) (dm_tasks d)
}.

(** The invariant only looks at the keys of the connections. *)
Lemma set_state_keys cfg st conns : map conn_key (set_state cfg st conns) = map conn_key conns.
Proof. induction conns as [|c conns IH]; simpl; [done|]. case_decide; simpl; by rewrite ?IH. Qed.

Lemma conn_tokens conns : map mc_token conns = map snd (map conn_key conns).
Proof. rewrite map_map. done. Qed.

Lemma elem_conn_key c conns : c ∈ conns -> conn_key c ∈ map conn_key conns.
Proof. apply list_elem_of_fmap_2. Qed.

Lemma same_keys c' (conns conns' : list ManagedConnection) :
  map conn_key conns' = map conn_key conns -> c' ∈ conns' -> exists c, c ∈ conns /\ conn_key c = conn_key c'.
Proof.
  intros Hk Hc. apply elem_conn_key in Hc. rewrite Hk in Hc.
  apply list_elem_of_fmap_1 in Hc as (c & Hc & Hin). by exists c.
Qed.

Lemma map_insert_same {A C} (f : A -> C) l i x y :
  l !! i = Some x -> f y = f x -> map f (<[i := y]> l) = map f l.
Proof.
  revert i. induction l as [|a l IH]; intros [|i] Hi Hf; simpl in *; try done; [|by rewrite IH].
  injection Hi as ->. by rewrite Hf.
Qed.

Lemma remove_busid_split busid conns mc rest :
  remove_busid busid conns = Some (mc, rest) ->
  exists l1 l2, conns = l1 ++ mc :: l2 /\ rest = l1 ++ l2 /\ cf_busid (mc_config mc) = busid
                /\ Forall (fun c => cf_busid (mc_config c) <> busid) l1.
Proof.
  revert mc rest. induction conns as [|c conns IH]; intros mc rest; simpl; [done|]. case_decide as Hb.
  - intros [= <- <-]. by exists [], conns.
  - destruct (remove_busid busid conns) as [[mc' rest']|]; [|done]. simpl. intros [= <- <-].
    destruct (IH _ _ eq_refl) as (l1 & l2 & -> & -> & Hm & Hl). exists (c :: l1), l2. by repeat constructor.
Qed.

Lemma remove_busid_None busid conns :
  remove_busid busid conns = None <-> Forall (fun c => cf_busid (mc_config c) <> busid) conns.
Proof.
  induction conns as [|c conns IH]; simpl; [done|]. case_decide as Hb.
  - split; [done|]. by inversion 1.
  - destruct (remove_busid busid conns) as [[mc' rest']|]; simpl.
    + split; [done|]. inversion 1; subst. by apply IH in H3.
    + split; [|done]. intros _. constructor; [done|]. by apply IH.
Qed.

Section Invariants.
Variable powi : f64 -> Z -> f64.
Variable draw : f64 -> f64 -> f64.
Hypothesis delays : delays_defined powi draw reconnect_default (2 ^ 31).

Lemma next_attempt_nonneg s : 0 <= next_attempt s.
Proof. destruct s; simpl; try lia. apply wrap_range. lia. Qed.

(** With the default configuration the loop always has another delay. *)
Lemma after_failure_backs_off t :
  task_key (after_failure powi draw t) = task_key t
  /\ ((exists dl, at_pc (after_failure powi draw t) = Backoff dl)
      \/ (at_pc (after_failure powi draw t) = Returned Panicked /\ exhausted (after_failure powi draw t))).
Proof.
  unfold after_failure, exhausted. destruct (Z.lt_ge_cases (next_attempt (at_reconnect t)) (2 ^ 31)) as [Hn|Hn].
  - pose proof (decide_transient powi draw ConnectionClosed (at_reconnect t) reconnect_default (2 ^ 31)
                  eq_refl delays (conj (next_attempt_nonneg _) Hn)) as Hd.
    simpl in Hd. destruct Hd as [dl Hd]. simpl. rewrite Hd. split; [done|]. left. by exists dl.
  - unfold decide_reconnect, on_error. simpl.
    destruct (delay_for_attempt _ _ _ _) as [dl| |]; simpl; (split; [done|]); [left; by exists dl|by right|by right].
Qed.

(** One piece of a task: it keeps its key and the keys of the connections, and
    ends only cleanly or because of a token. *)
Lemma auto_connect_loop_keeps ev stop t conns t' conns' :
  auto_connect_loop powi draw ev stop t conns = Some (t', conns') ->
  task_key t' = task_key t /\ map conn_key conns' = map conn_key conns
  /\ match at_pc t' with
     | Returned ByToken => stop = true
     | Returned GaveUp => False
     | Returned Panicked => exhausted t'
     | _ => True
     end.
Proof.
  destruct (after_failure_backs_off t) as [Hk Hp]. unfold auto_connect_loop.
  destruct (at_pc t); destruct ev as [| | |[[?|?]|]|[?|?]]; try done;
    try (destruct stop; [|done]); intros [= <- <-]; rewrite ?set_state_keys; try done.
  split_and!; [done|done|]. destruct Hp as [[dl ->]|[-> Hx]]; done.
Qed.

Lemma inv_new : daemon_inv daemon_new.
Proof. split; simpl; try constructor; intros c Hc; by apply not_elem_of_nil in Hc. Qed.

Lemma task_ok_mono d d' t :
  (stopped t d = true -> stopped t d' = true) -> task_ok d t -> task_ok d' t.
Proof. unfold task_ok. destruct (at_pc t) as [| | | | | | |[]]; auto. Qed.

Lemma inv_set_importing l d : daemon_inv d -> daemon_inv (set_importing l d).
Proof. intros []; by split. Qed.

Lemma inv_manage cfg st d : daemon_inv d -> daemon_inv (manage cfg st d).
Proof.
  intros [Ht Hta Hac Hf Hca Hok]. split; simpl.
  - rewrite map_app, NoDup_app. split; [done|]. split; [|apply NoDup_singleton].
    intros n Hn. simpl. rewrite list_elem_of_singleton. intros ->.
    apply list_elem_of_fmap_1 in Hn as (c & Hn & Hc). apply Hta, list_elem_of_fmap_1 in Hc as (t & Hk & Hin).
    rewrite Forall_forall in Hf. apply Hf in Hin. injection Hk as _ Hk. lia.
  - intros c. rewrite map_app, !elem_of_app, list_elem_of_singleton. intros [Hc| ->]; [by left; apply Hta|].
    right. simpl. apply list_elem_of_singleton. done.
  - intros c. rewrite elem_of_app, list_elem_of_singleton. intros [Hc| ->]; [by apply Hac|]. simpl.
    intros Hin. rewrite Forall_forall in Hca. apply Hca in Hin. lia.
  - apply Forall_app. split; [|by repeat constructor].
    eapply Forall_impl; [exact Hf|]. simpl. lia.
  - eapply Forall_impl; [exact Hca|]. simpl. lia.
  - apply Forall_app. split; [|by repeat constructor]. done.
Qed.

Lemma inv_disconnect d mc rest l1 l2 :
  daemon_inv d -> dm_connections d = l1 ++ mc :: l2 -> rest = l1 ++ l2 ->
  daemon_inv {| dm_connections := rest; dm_tasks := dm_tasks d; dm_importing := dm_importing d;
                dm_cancelled := mc_token mc :: dm_cancelled d; dm_shutdown := dm_shutdown d;
                dm_next_token := dm_next_token d |}.
Proof.
  intros [Ht Hta Hac Hf Hca Hok] Hc ->. rewrite Hc in *.
  assert (Hin : forall c, c ∈ l1 ++ l2 -> c ∈ l1 ++ mc :: l2).
  { intros c. rewrite !elem_of_app, elem_of_cons. tauto. }
  rewrite map_app in Ht. simpl in Ht.
  assert (Hp : NoDup (mc_token mc :: map mc_token (l1 ++ l2))).
  { rewrite map_app. eapply (NoDup_Permutation_proper _ _), Ht. by rewrite Permutation_middle. }
  apply NoDup_cons in Hp as [Hnew Hp]. split; simpl.
  - done.
  - intros c Hx. by apply Hta, Hin.
  - intros c Hx [Heq|Hx']%elem_of_cons; [|by apply (Hac c); [apply Hin|]].
    apply Hnew. rewrite <- Heq. by apply list_elem_of_fmap_2.
  - done.
  - constructor; [|done].
    destruct (list_elem_of_fmap_1 _ _ _ (Hta mc ltac:(set_solver))) as (t & Hk & Htin).
    rewrite Forall_forall in Hf. apply Hf in Htin. injection Hk as _ ->. done.
  - eapply Forall_impl; [exact Hok|]. intros t. apply task_ok_mono. unfold stopped. simpl.
    rewrite !orb_true_iff, !bool_decide_eq_true, elem_of_cons. tauto.
Qed.

Lemma inv_command cmd d : daemon_inv d -> daemon_inv (snd (handle_command cmd d)).
Proof.
  intros Hd. destruct cmd as [server busid|busid| |]; simpl.
  - destruct (is_managed _ d); [done|]. by apply inv_set_importing.
  - destruct (remove_busid busid _) as [[mc rest]|] eqn:E; [|done].
    apply remove_busid_split in E as (l1 & l2 & Hc & Hr & _). by apply (inv_disconnect d mc rest l1 l2).
  - done.
  - destruct Hd. split; try done. simpl. eapply Forall_impl; [exact di_task_ok0|]. intros t.
    apply task_ok_mono. unfold stopped. simpl. by rewrite orb_true_r.
Qed.

Lemma inv_task i ev d d' : daemon_inv d -> task_runs powi draw i ev d = Some d' -> daemon_inv d'.
Proof.
  intros [Ht Hta Hac Hf Hca Hok] H. unfold task_runs in H.
  destruct (dm_tasks d !! i) as [t|] eqn:Ei; [|done]. simpl in H.
  destruct (auto_connect_loop _ _ _ _ _ _) as [[t' conns]|] eqn:El; [|done]. injection H as <-.
  apply auto_connect_loop_keeps in El as (Hk & Hkeys & Hend).
  assert (Htk : map task_key (<[i:=t']> (dm_tasks d)) = map task_key (dm_tasks d)).
  { by apply (map_insert_same _ _ _ t). }
  split; simpl.
  - by rewrite conn_tokens, Hkeys, <- conn_tokens.
  - intros c Hc. rewrite Htk. destruct (same_keys _ _ _ Hkeys Hc) as (c0 & Hc0 & <-). by apply Hta.
  - intros c Hc. destruct (same_keys _ _ _ Hkeys Hc) as (c0 & Hc0 & [= _ <-]). by apply Hac.
  - apply Forall_insert; [done|]. injection Hk as _ ->. exact (Forall_lookup_1 _ _ _ _ Hf Ei).
  - done.
  - apply Forall_insert; [done|]. unfold task_ok. destruct (at_pc t') as [| | | | | | |[]]; try done.
    unfold stopped in *. injection Hk as _ ->. done.
Qed.

Lemma inv_step d d' : step powi draw d d' -> daemon_inv d -> daemon_inv d'.
Proof.
  intros [e d1 d2 He] Hd. destruct e as [cmd|i r|i ev]; simpl in He.
  - injection He as <-. by apply inv_command.
  - unfold finish_connect in He. destruct (dm_importing d1 !! i) as [cfg|]; [|done]. simpl in He.
    destruct r as [[]|]; injection He as <-; [apply inv_manage|..]; by apply inv_set_importing.
  - by eapply inv_task.
Qed.

Lemma inv_reachable d : rtc (step powi draw) daemon_new d -> daemon_inv d.
Proof.
  intros H. pose proof inv_new as Hd. induction H as [|d1 d2 d3 Hs _ IH]; [done|].
  apply IH. by eapply inv_step.
Qed.
End Invariants.

(** ** Connections that are managed once *)

(** Events where no Connect comes while another one for the same device is
    still importing it. *)
Definition calm (e : event) (d : Daemon) : Prop :=
  match e with
  | Command (CmdConnect server busid) => {| cf_server := server; cf_busid := busid |} ∉ dm_importing d
  | _ => True
  end.

Inductive calm_step (powi : f64 -> Z -> f64) (draw : f64 -> f64 -> f64) : Daemon -> Daemon -> Prop :=
| calm_happens e d d' : happens powi draw e d = Some d' -> calm e d -> calm_step powi draw d d'.

(** Everything that is or is about to be managed. *)
Definition claimed (d : Daemon) : list ConnectionConfig := map mc_config (dm_connections d) ++ dm_importing d.

Lemma set_state_configs cfg st conns : map mc_config (set_state cfg st conns) = map mc_config conns.
Proof. induction conns as [|c conns IH]; simpl; [done|]. case_decide; simpl; by rewrite ?IH. Qed.

Lemma auto_connect_loop_configs powi draw ev stop t conns t' conns' :
  auto_connect_loop powi draw ev stop t conns = Some (t', conns') -> map mc_config conns' = map mc_config conns.
Proof.
  unfold auto_connect_loop. destruct (at_pc t); destruct ev as [| | |[[?|?]|]|[?|?]]; try done;
    try (destruct stop; [|done]); intros [= _ <-]; by rewrite ?set_state_configs.
Qed.

Lemma is_managed_false cfg d : is_managed cfg d = false -> cfg ∉ map mc_config (dm_connections d).
Proof.
  unfold is_managed. intros H Hin. apply list_elem_of_fmap_1 in Hin as (c & -> & Hc).
  apply not_true_iff_false in H. apply H, existsb_exists. exists c.
  split; [by apply list_elem_of_In|by apply bool_decide_eq_true].
Qed.

Lemma delete_importing (l : list ConnectionConfig) i cfg : l !! i = Some cfg -> l ≡ₚ cfg :: delete i l.
Proof. apply delete_Permutation. Qed.

Lemma calm_keeps_unique powi draw d d' : calm_step powi draw d d' -> NoDup (claimed d) -> NoDup (claimed d').
Proof.
  intros [e d1 d2 He Hcalm] Hd. unfold claimed in *. destruct e as [cmd|i r|i ev]; simpl in He.
  - injection He as <-. destruct cmd as [server busid|busid| |]; simpl in *; try done.
    + destruct (is_managed _ d1) eqn:Em; [done|]. simpl. apply is_managed_false in Em.
      rewrite app_assoc. eapply (NoDup_Permutation_proper _ _); [by rewrite <- Permutation_cons_append|].
      apply NoDup_cons. split; [|done]. rewrite elem_of_app. tauto.
    + destruct (remove_busid busid _) as [[mc rest]|] eqn:E; [|done]. simpl.
      apply remove_busid_split in E as (l1 & l2 & Hc & -> & _). rewrite Hc, !map_app in Hd. simpl in Hd.
      rewrite map_app. rewrite <- app_assoc in *. simpl in Hd.
      eapply NoDup_cons_1_2. eapply (NoDup_Permutation_proper _ _); [|exact Hd]. by rewrite Permutation_middle.
  - unfold finish_connect in He. destruct (dm_importing d1 !! i) as [cfg|] eqn:Ei; [|done]. simpl in He.
    apply delete_importing in Ei. rewrite Ei in Hd.
    assert (Hgone : NoDup (map mc_config (dm_connections d1) ++ delete i (dm_importing d1))).
    { eapply NoDup_cons_1_2. eapply (NoDup_Permutation_proper _ _); [|exact Hd]. by rewrite Permutation_middle. }
    destruct r as [[]|]; injection He as <-; simpl; [|exact Hgone..]. rewrite map_app. simpl. by rewrite <- app_assoc.
  - unfold task_runs in He. destruct (dm_tasks d1 !! i) as [t|]; [|done]. simpl in He.
    destruct (auto_connect_loop _ _ _ _ _ _) as [[t' conns]|] eqn:El; [|done]. injection He as <-. simpl.
    by rewrite (auto_connect_loop_configs _ _ _ _ _ _ _ _ El).
Qed.

Lemma calm_reachable powi draw d : rtc (calm_step powi draw) daemon_new d -> NoDup (claimed d).
Proof.
  intros H. assert (Hd : NoDup (claimed daemon_new)) by constructor.
  induction H as [|d1 d2 d3 Hs _ IH]; [done|]. apply IH. by eapply calm_keeps_unique.
Qed.

(** ** Theorems *)

(** C32: the daemon keeps a task for each connection it manages. Whatever commands come and
    however imports, sessions, timers and tasks interleave, every managed
    connection has a token of its own that is not cancelled and a task of its own
    for the same device, and that task is still at work unless the daemon is
    shutting down, its last session ended cleanly, an import of it panicked, or it
    has failed 2^31 times; it never gives up and never ends for another
    connection's token. *)
Theorem managed_connection_served powi draw d c :
  delays_defined powi draw reconnect_default (2 ^ 31) ->
  rtc (step powi draw) daemon_new d -> c ∈ dm_connections d ->
  NoDup (map mc_token (dm_connections d)) /\ (mc_token c ∉ dm_cancelled d)
  /\ exists t, t ∈ dm_tasks d /\ at_token t = mc_token c /\ at_config t = mc_config c
               /\ (live t \/ dm_shutdown d = true \/ at_pc t = Returned CleanEnd
                   \/ at_pc t = Returned ImportPanicked \/ exhausted t).
Proof.
  intros Hdel Hd Hc. apply (inv_reachable powi draw Hdel) in Hd as [Ht Hta Hac _ _ Hok].
  split; [done|]. split; [by apply Hac|].
  destruct (list_elem_of_fmap_1 _ _ _ (Hta c Hc)) as (t & [= Hcfg Htok] & Hin).
  exists t. split_and!; [done|done|done|]. rewrite Forall_forall in Hok. apply Hok in Hin. unfold task_ok, live in *.
  destruct (at_pc t) as [| | | | | | |[]]; auto 6.
  unfold stopped in Hin. apply orb_true_iff in Hin as [Hin|Hin]; [|by auto].
  apply bool_decide_eq_true in Hin. rewrite <- Htok in Hin. by apply Hac in Hc.
Qed.

(** A device is managed once, as long as no Connect arrives while another
    Connect for the same device is still waiting for its import: the server
    address and bus id of the managed connections are then pairwise distinct. *)
Theorem managed_once powi draw d :
  rtc (calm_step powi draw) daemon_new d -> NoDup (map mc_config (dm_connections d)).
Proof. intros H. apply calm_reachable, NoDup_app in H as [H _]. exact H. Qed.

(** Disconnect ends exactly one connection: the first one with the bus id is
    no longer managed, its token (and no other) is cancelled, which every wait of
    its task ends with; without such a connection nothing changes and the answer
    is an error. *)
Theorem disconnect_exact powi draw busid d :
  match handle_command (CmdDisconnect busid) d with
  | (Some r, d') =>
      (rp_status r = "ok" /\ exists l1 mc l2,
         dm_connections d = l1 ++ mc :: l2 /\ dm_connections d' = l1 ++ l2
         /\ cf_busid (mc_config mc) = busid /\ Forall (fun c => cf_busid (mc_config c) <> busid) l1
         /\ dm_cancelled d' = mc_token mc :: dm_cancelled d /\ dm_tasks d' = dm_tasks d
         /\ forall i t, dm_tasks d' !! i = Some t -> at_token t = mc_token mc ->
              at_pc t = Select \/ at_pc t = Forwarding \/ (exists dl, at_pc t = Backoff dl) ->
              exists d'', task_runs powi draw i TokenCancelled d' = Some d''
                          /\ dm_tasks d'' !! i = Some (goto (Returned ByToken) t))
      \/ (rp_status r = "error" /\ d' = d /\ Forall (fun c => cf_busid (mc_config c) <> busid) (dm_connections d))
  | (None, _) => False
  end.
Proof.
  simpl. destruct (remove_busid busid _) as [[mc rest]|] eqn:E; simpl.
  - left. split; [done|]. apply remove_busid_split in E as (l1 & l2 & Hc & -> & Hb & Hl).
    exists l1, mc, l2. split_and!; try done. intros i t Hi Ht Hpc. unfold task_runs. simpl. rewrite Hi. simpl.
    assert (Hs : forall st, auto_connect_loop powi draw TokenCancelled true t st
                            = Some (goto (Returned ByToken) t, st)).
    { intros st. unfold auto_connect_loop. by destruct Hpc as [->|[->|[dl ->]]]. }
    unfold stopped. simpl. rewrite bool_decide_eq_true_2 by (rewrite Ht; apply elem_of_cons; by left). simpl.
    rewrite Hs. simpl. eexists. split; [done|]. simpl. apply list_lookup_insert_eq. by eapply lookup_lt_Some.
  - right. by rewrite remove_busid_None in E.
Qed.

(** ** Runs *)

Definition wheel_at (server : string) : ConnectionConfig := {| cf_server := server; cf_busid := "1-1" |}.
Definition imported : ImportedDevice := {| im_busid := "1-1"; im_device_entry := sample_entry |}.

Lemma happen_all_reachable powi draw es d d' :
  happen_all powi draw es d = Some d' -> rtc (step powi draw) d d'.
Proof.
  revert d. induction es as [|e es IH]; intros d; simpl; [intros [= <-]; constructor|].
  destruct (happens powi draw e d) as [d1|] eqn:E; [|done]. simpl. intros H.
  eapply rtc_l; [by econstructor|by apply IH].
Qed.

(** A device is connected, its session fails, and the task backs off. *)
Definition failing_run : list event :=
  [Command (CmdConnect "10.0.0.1:3240" "1-1"); ConnectDone 0 (Done (Ok imported)); TaskRuns 0 Elapsed; TaskRuns 0 Locked;
   TaskRuns 0 (ImportDone (Done (Err Timeout))); TaskRuns 0 Locked].

Lemma to_i32_small z : 0 <= z < 2 ^ 31 -> to_i32 z = z.
Proof. intros H. unfold to_i32. rewrite wrap_small by lia. case_bool; lia. Qed.

Lemma default_delays_defined : delays_defined powi_mul draw_zero reconnect_default (2 ^ 31).
Proof.
  assert (Htab : Forall (fun n => exists d, delay_for_attempt powi_mul draw_zero reconnect_default (Z.of_nat n) = Returns d) (seq 0 65)).
  { repeat constructor; eexists; vm_compute; reflexivity. }
  intros a Ha. rewrite Forall_forall in Htab.
  assert (Hp : forall x, powi_mul x (to_i32 a) = powi_mul x (to_i32 (Z.of_nat (Z.to_nat (Z.min (to_i32 a) 64))))).
  { intros x. unfold powi_mul. f_equal. pose proof (to_i32_range a) as Hr. unfold is_i32 in Hr.
    rewrite (to_i32_small (Z.of_nat _)) by lia. lia. }
  unfold delay_for_attempt, capped_secs. rewrite Hp.
  apply (Htab (Z.to_nat (Z.min (to_i32 a) 64))). apply elem_of_seq. lia.
Qed.

Lemma managed_connection_served_witness :
  exists d c t, happen_all powi_mul draw_zero failing_run daemon_new = Some d /\ c ∈ dm_connections d
                /\ t ∈ dm_tasks d /\ at_token t = mc_token c.
Proof.
  destruct (happen_all powi_mul draw_zero failing_run daemon_new) as [d|] eqn:E; [|vm_compute in E; discriminate E].
  pose proof (happen_all_reachable _ _ _ _ _ E) as Hr. vm_compute in E. injection E as <-.
  eexists _, _. destruct (managed_connection_served powi_mul draw_zero _ _ default_delays_defined Hr
                             (list_elem_of_here _ _)) as (_ & _ & t & Ht & Htok & _).
  exists t. split; [reflexivity|]. split; [apply list_elem_of_here|]. split; [exact Ht|exact Htok].
Defined.

(** Two servers with the same bus id, connected one after the other. *)
Lemma managed_once_witness :
  exists d, rtc (calm_step powi_mul draw_zero) daemon_new d /\ length (dm_connections d) = 2%nat
            /\ NoDup (map mc_config (dm_connections d)).
Proof.
  assert (H : exists d, rtc (calm_step powi_mul draw_zero) daemon_new d /\ length (dm_connections d) = 2%nat).
  { eexists. split.
    - eapply rtc_l; [apply (calm_happens _ _ (Command (CmdConnect "10.0.0.1:3240" "1-1"))); [reflexivity|apply not_elem_of_nil]|].
      eapply rtc_l; [apply (calm_happens _ _ (ConnectDone 0 (Done (Ok imported)))); [reflexivity|exact I]|].
      eapply rtc_l; [apply (calm_happens _ _ (Command (CmdConnect "10.0.0.2:3240" "1-1"))); [reflexivity|apply not_elem_of_nil]|].
      eapply rtc_l; [apply (calm_happens _ _ (ConnectDone 0 (Done (Ok imported)))); [reflexivity|exact I]|]. apply rtc_refl.
    - reflexivity. }
  destruct H as (d & Hr & Hl). exists d. split; [exact Hr|]. split; [exact Hl|].
  exact (managed_once powi_mul draw_zero d Hr).
Defined.

(** Two Connect commands that overlap both go through: the device is managed
    twice, and one Disconnect leaves one of them. *)
Lemma overlapping_connects :
  exists d, happen_all powi_mul draw_zero
              [Command (CmdConnect "10.0.0.1:3240" "1-1"); Command (CmdConnect "10.0.0.1:3240" "1-1");
               ConnectDone 0 (Done (Ok imported)); ConnectDone 0 (Done (Ok imported)); Command (CmdDisconnect "1-1")] daemon_new = Some d
            /\ map mc_config (dm_connections d) = [wheel_at "10.0.0.1:3240"].
Proof. eexists. split; vm_compute; reflexivity. Qed.

(** After a session that ended cleanly (as every dropped connection does) the
    status still says connected, and no task is left. *)
Lemma stale_status :
  exists d r, happen_all powi_mul draw_zero
              [Command (CmdConnect "10.0.0.1:3240" "1-1"); ConnectDone 0 (Done (Ok imported)); TaskRuns 0 Elapsed;
               TaskRuns 0 Locked; TaskRuns 0 (ImportDone (Done (Ok imported))); TaskRuns 0 Locked;
               TaskRuns 0 (ForwardingDone (Ok tt))] daemon_new = Some d
            /\ Forall (fun t => ~ live t) (dm_tasks d)
            /\ fst (handle_command CmdStatus d) = Some r /\ st_state <$> default [] (rp_connections r) = ["connected"].
Proof. eexists _, _. split_and!; [vm_compute; reflexivity| |reflexivity|reflexivity]. repeat constructor. simpl. tauto. Qed.

(** Any configured connection makes the daemon panic at its start. *)
Lemma configured_connections_panic config :
  run_start config = match dc_connections config with [] => Returns daemon_new | _ => Panics end.
Proof. unfold run_start. by destruct (dc_connections config). Qed.

(** An import that panics leaves the connection without a task, and the status says
    that it is connecting.  A server whose first piece of descriptors has 19 bytes
    makes it panic. *)
Definition cut_answer : list byte :=
  header_as_bytes (header_new OP_REP_IMPORT) ++ entry_as_bytes sample_entry
  ++ DeviceDescriptor_to_bytes sample_device ++ [x09].

Lemma import_panic_orphans :
  import_device_once true (fun _ => 75%nat) (dial_to (peer_sends cut_answer)) "1-1"
    {| cl_config := client_default; cl_vhci := mock_new; cl_connections := [] |} = Panics
  /\ exists d r, happen_all powi_mul draw_zero
              [Command (CmdConnect "10.0.0.1:3240" "1-1"); ConnectDone 0 (Done (Ok imported)); TaskRuns 0 Elapsed;
               TaskRuns 0 Locked; TaskRuns 0 (ImportDone Unwound)] daemon_new = Some d
            /\ Forall (fun t => ~ live t) (dm_tasks d)
            /\ fst (handle_command CmdStatus d) = Some r /\ st_state <$> default [] (rp_connections r) = ["connecting"].
Proof.
  split; [vm_compute; reflexivity|]. eexists _, _. split_and!; [vm_compute; reflexivity| |reflexivity|reflexivity].
  repeat constructor. simpl. tauto.
Qed.
