(* ===== verification/SetupApi.v ===== *)
(** * Enumerating devices on Windows (windows/src/windows_usb.rs)

    The SetupAPI is a class of the calls the source makes, each with the size it is
    given and what it leaves in the buffer and the out parameters.  Undefined
    behaviour (a slice past its buffer) and a slice that is not on character
    boundaries both stop the program: [Panics].  Strings are their UTF-8 bytes;
    UTF-16 is decoded the way [OsString::from_wide] and [to_string_lossy] do. *)

From Stdlib Require Import Ascii.
From S2P Require Import Prelude RustStd Errors Text Proto.

(** ** UTF-16 *)

(** The UTF-8 encoding of a code point. *)
Definition encode_utf8 (c : Z) : list byte :=
  if c <? 0x80 then [to_u8 c]
  else if c <? 0x800 then [to_u8 (0xc0 + c / 64); to_u8 (0x80 + c mod 64)]
  else if c <? 0x10000 then [to_u8 (0xe0 + c / 4096); to_u8 (0x80 + c / 64 mod 64); to_u8 (0x80 + c mod 64)]
  else [to_u8 (0xf0 + c / 262144); to_u8 (0x80 + c / 4096 mod 64); to_u8 (0x80 + c / 64 mod 64); to_u8 (0x80 + c mod 64)].

Definition is_high (u : Z) : bool := (0xd800 <=? u) && (u <? 0xdc00).
Definition is_low (u : Z) : bool := (0xdc00 <=? u) && (u <? 0xe000).

(** [OsString::from_wide(units).to_string_lossy()]: a surrogate without its pair
    becomes U+FFFD. *)
Fixpoint wide_to_bytes (units : list Z) : list byte :=
  match units with
  | [] => []
  | u :: rest =>
      if is_high u then
        match rest with
        | v :: rest' =>
            if is_low v then encode_utf8 (0x10000 + (u - 0xd800) * 1024 + (v - 0xdc00)) ++ wide_to_bytes rest'
            else replacement ++ wide_to_bytes rest
        | [] => replacement
        end
      else if is_low u then replacement ++ wide_to_bytes rest
      else encode_utf8 u ++ wide_to_bytes rest
  end.

Definition from_wide (units : list Z) : string := of_bytes (wide_to_bytes units).

(** [slice.iter().position(|&c| c == 0).unwrap_or(slice.len())], and the slice up
    to there. *)
Fixpoint until_zero (l : list Z) : list Z :=
  match l with
  | [] => []
  | u :: l => if u =? 0 then [] else u :: until_zero l
  end.

(** The units of a little-endian buffer. *)
Fixpoint units_of (l : list byte) : list Z :=
  match l with
  | a :: b :: l => (u8 a + 256 * u8 b) :: units_of l
  | _ => []
  end.

(** ** Slices and searches of strings *)

(** [s.find(pat)]. *)
Fixpoint find_str (pat s : string) : option nat :=
  if String.prefix pat s then Some O
  else match s with
       | EmptyString => None
       | String _ s => S <$> find_str pat s
       end.

Definition is_char_boundary (i : nat) (l : list byte) : bool :=
  match drop i l with
  | [] => bool_decide (i = length l)
  | b :: _ => negb ((128 <=? u8 b) && (u8 b <? 192))
  end.

(** [&s[i..j]]. *)
Definition str_slice (i j : nat) (s : string) : outcome string :=
  let l := as_bytes s in
  if is_char_boundary i l && is_char_boundary j l then Returns (of_bytes (take (j - i) (drop i l))) else Panics.

(** ** The interface *)

Definition REG_SZ : Z := 1.
Definition REG_MULTI_SZ : Z := 7.
Definition SPDRP_DEVICEDESC : Z := 0.
Definition SPDRP_HARDWAREID : Z := 1.

(** What a call with a buffer of [size] units leaves behind: whether it succeeded,
    the buffer (zeroed before the call), and the out parameters. *)
Record StringCall (U : Type) := { call_ok : bool; call_buffer : list U; call_type : Z; call_required : Z }.
Arguments call_ok {U}. Arguments call_buffer {U}. Arguments call_type {U}. Arguments call_required {U}.

Class SetupApi (W : Type) : Type := {
  HDevInfo : Type;
  SpDevInfo : Type;
  get_class_devs : W -> option HDevInfo * W;
  enum_device_info : HDevInfo -> Z -> W -> option SpDevInfo;
  get_instance_id : HDevInfo -> SpDevInfo -> Z -> W -> StringCall Z;
  get_registry_property : HDevInfo -> SpDevInfo -> Z -> Z -> W -> StringCall byte;
  destroy_device_info_list : HDevInfo -> W -> W
}.

(** ** The source *)

Record UsbDeviceInfo := {
  vendor_id : Z;
  product_id : Z;
  description : string;
  instance_id : string;
  hardware_id : string;
  info_speed : Z
}.

Definition info_default : UsbDeviceInfo :=
  {| vendor_id := 0; product_id := 0; description := ""; instance_id := ""; hardware_id := ""; info_speed := 0 |}.

(** One of the two searches of [parse_vid_pid_from_hardware_id]. *)
Definition parse_id_after (pat : string) (hw_id : string) (id : Z) : outcome Z :=
  match find_str pat hw_id with
  | Some start =>
      let! s := str_slice (start + 4) (start + 8) hw_id in
      Returns (default id (from_str_radix 16 65535 s))
  | None => Returns id
  end.

Definition parse_vid_pid_from_hardware_id (hw_id : string) (vid pid : Z) : outcome (Z * Z) :=
  let! vid := parse_id_after "VID_" hw_id vid in
  let! pid := parse_id_after "PID_" hw_id pid in
  Returns (vid, pid).

Section Enumerate.
Context {W : Type} `{!SetupApi W}.

Definition get_device_instance_id (set : HDevInfo) (dev : SpDevInfo) (w : W) : UsbIpResult string :=
  let required_size := call_required (get_instance_id set dev 0 w) in
  let c := get_instance_id set dev required_size w in
  if negb (call_ok c) then Err (InvalidMessage "SetupDiGetDeviceInstanceIdW failed")
  else Ok (from_wide (until_zero (call_buffer c))).

Definition get_device_registry_string (set : HDevInfo) (dev : SpDevInfo) (property : Z) (w : W)
    : outcome (UsbIpResult string) :=
  let required_size := call_required (get_registry_property set dev property 0 w) in
  let c := get_registry_property set dev property required_size w in
  if negb (call_ok c) then Returns (Err (InvalidMessage "SetupDiGetDeviceRegistryPropertyW failed"))
  else if call_type c =? REG_SZ then
    let bytes := Z.to_nat (call_required c / 2 * 2) in
    if (length (call_buffer c) <? bytes)%nat then Panics
    else Returns (Ok (from_wide (until_zero (units_of (take bytes (call_buffer c))))))
  else
    let len := default (length (call_buffer c)) (position_zero (call_buffer c)) in
    Returns (Ok (from_utf8_lossy (take len (call_buffer c)))).

(** The body of the loop of [enumerate_usb_devices]. *)
Definition device_info (set : HDevInfo) (dev : SpDevInfo) (w : W) : outcome UsbDeviceInfo :=
  let instance := match get_device_instance_id set dev w with Ok id => id | Err _ => "" end in
  let! desc := get_device_registry_string set dev SPDRP_DEVICEDESC w in
  let desc := match desc with Ok d => d | Err _ => "" end in
  let! hw := get_device_registry_string set dev SPDRP_HARDWAREID w in
  match hw with
  | Ok hw_id =>
      let! (vid, pid) := parse_vid_pid_from_hardware_id hw_id 0 0 in
      Returns {| vendor_id := vid; product_id := pid; description := desc; instance_id := instance;
                 hardware_id := hw_id; info_speed := 0 |}
  | Err _ =>
      Returns {| vendor_id := 0; product_id := 0; description := desc; instance_id := instance;
                 hardware_id := ""; info_speed := 0 |}
  end.

Definition has_ids (info : UsbDeviceInfo) : bool := negb (vendor_id info =? 0) || negb (product_id info =? 0).

Fixpoint enumerate_loop (fuel : nat) (set : HDevInfo) (device_index : Z) (devices : list UsbDeviceInfo) (w : W)
    : outcome (list UsbDeviceInfo) :=
  match fuel with
  | O => OutOfFuel
  | S fuel =>
      match enum_device_info set device_index w with
      | None => Returns devices
      | Some dev =>
          let! info := device_info set dev w in
          let devices := if has_ids info then devices ++ [info] else devices in
          enumerate_loop fuel set (device_index + 1) devices w
      end
  end.

Definition enumerate_usb_devices (fuel : nat) (w : W) : outcome (UsbIpResult (list UsbDeviceInfo) * W) :=
  match get_class_devs w with
  | (None, w) => Returns (Err (NotSupported "SetupDiGetClassDevsW failed: no USB device info set"), w)
  | (Some set, w) =>
      let! devices := enumerate_loop fuel set 0 [] w in
      Returns (Ok devices, destroy_device_info_list set w)
  end.
End Enumerate.

(** [s.rsplit(c).next()]: the last piece. *)
Definition last_piece (c : ascii) (s : string) : string := List.last (split_on c s) s.

Definition to_usbip_device_entry (info : UsbDeviceInfo) : UsbIpDeviceEntry :=
  {| path := copy_padded 256 (as_bytes (instance_id info));
     busid := copy_padded 32 (as_bytes (last_piece "\"%char (instance_id info)));
     busnum := 0;
     devnum := 0;
     speed := info_speed info;
     id_vendor := vendor_id info;
     id_product := product_id info;
     bcd_device := 0;
     b_device_class := x00;
     b_device_sub_class := x00;
     b_device_protocol := x00;
     b_configuration_value := x00;
     b_num_configurations := x00;
     b_num_interfaces := x00 |}.

(** ** Lemmas *)

(** Text as Windows stores it, for ASCII text: two bytes for a character. *)
Definition wide (s : string) : list Z := map u8 (as_bytes s).
Definition wide_bytes (s : string) : list byte := concat (map (fun b => [b; x00]) (as_bytes s)).

(** ASCII without NUL. *)
Definition plain (s : string) : Prop := Forall (fun b => 0 < u8 b < 128) (as_bytes s).

Lemma from_wide_plain s : plain s -> from_wide (wide s) = s.
Proof.
  intros H. unfold from_wide, wide. rewrite <- (of_bytes_as_bytes s) at 2. f_equal.
  induction H as [|b l Hb _ IH]; [done|]. simpl. unfold is_high, is_low, encode_utf8.
  rewrite (proj2 (Z.leb_gt 0xd800 (u8 b))), (proj2 (Z.leb_gt 0xdc00 (u8 b))), (proj2 (Z.ltb_lt (u8 b) 0x80)) by lia.
  simpl. rewrite IH. f_equal. apply to_u8_u8.
Qed.

Lemma until_zero_plain s rest : plain s -> until_zero (wide s ++ 0 :: rest) = wide s.
Proof.
  unfold wide. induction 1 as [|b l Hb _ IH]; [done|]. simpl. rewrite (proj2 (Z.eqb_neq (u8 b) 0)) by lia. by rewrite IH.
Qed.

Lemma units_of_wide s rest : units_of (wide_bytes s ++ rest) = wide s ++ units_of rest.
Proof.
  unfold wide_bytes, wide. induction (as_bytes s) as [|b l IH]; [done|]. simpl. rewrite IH. f_equal.
  change (u8 x00) with 0. lia.
Qed.

Lemma length_wide_bytes s : length (wide_bytes s) = (2 * length (as_bytes s))%nat.
Proof. unfold wide_bytes. induction (as_bytes s) as [|b l IH]; [done|]. simpl. rewrite IH. simpl. lia. Qed.

(** *** The registry *)

Section Registry.
Context {W : Type} `{!SetupApi W}.

(** Property [prop] of a device holds the text [s] as a value of type [ty]; a list
    of strings ([REG_MULTI_SZ]) has one more terminator. *)
Definition stored_bytes (ty : Z) (s : string) : list byte :=
  wide_bytes s ++ (if ty =? REG_MULTI_SZ then [x00; x00; x00; x00] else [x00; x00]).

Definition stores (set : HDevInfo) (dev : SpDevInfo) (prop ty : Z) (s : string) (w : W) : Prop :=
  let bytes := stored_bytes ty s in
  call_required (get_registry_property set dev prop 0 w) = zlen bytes
  /\ get_registry_property set dev prop (zlen bytes) w
     = {| call_ok := true; call_buffer := bytes; call_type := ty; call_required := zlen bytes |}.

Definition has_instance_id (set : HDevInfo) (dev : SpDevInfo) (s : string) (w : W) : Prop :=
  let units := wide s ++ [0] in
  call_required (get_instance_id set dev 0 w) = zlen units
  /\ get_instance_id set dev (zlen units) w
     = {| call_ok := true; call_buffer := units; call_type := 0; call_required := zlen units |}.

Lemma stored_sz set dev prop s w :
  plain s -> stores set dev prop REG_SZ s w -> get_device_registry_string set dev prop w = Returns (Ok s).
Proof.
  intros Hs [H1 H2]. unfold get_device_registry_string. rewrite H1, H2. cbn [call_ok call_type call_required call_buffer negb].
  change (REG_SZ =? REG_SZ) with true. cbv iota. unfold stored_bytes. change (REG_SZ =? REG_MULTI_SZ) with false. cbv iota.
  assert (Hn : Z.to_nat (zlen (wide_bytes s ++ [x00; x00]) / 2 * 2) = length (wide_bytes s ++ [x00; x00])).
  { unfold zlen. rewrite length_app, length_wide_bytes. simpl length.
    replace (Z.of_nat (2 * length (as_bytes s) + 2)) with ((Z.of_nat (length (as_bytes s)) + 1) * 2) by lia.
    rewrite Z.div_mul by lia. lia. }
  rewrite Hn, Nat.ltb_irrefl, firstn_all, units_of_wide. change (units_of [x00; x00]) with [0].
  by rewrite until_zero_plain, from_wide_plain.
Qed.

(** The fallback takes the first byte of a list of strings for the whole. *)
Lemma stored_multi_sz set dev prop a s w :
  plain (String a s) -> stores set dev prop REG_MULTI_SZ (String a s) w ->
  get_device_registry_string set dev prop w = Returns (Ok (String a EmptyString)).
Proof.
  intros Hs [H1 H2]. unfold get_device_registry_string. rewrite H1, H2. cbn [call_ok call_type call_required call_buffer negb].
  change (REG_MULTI_SZ =? REG_SZ) with false. cbv iota.
  set (bytes := stored_bytes _ _).
  assert (Hb : exists rest, bytes = byte_of_ascii a :: x00 :: rest) by (by eexists). destruct Hb as [rest ->].
  inversion Hs as [|?? Ha _]; subst. assert (Hn : byte_of_ascii a <> x00).
  { intros E. simpl in Ha. rewrite E in Ha. change (u8 x00) with 0 in Ha. lia. }
  simpl position_zero. rewrite decide_False by done. simpl. rewrite from_utf8_lossy_valid.
  - do 2 f_equal. exact (of_bytes_as_bytes (String a EmptyString)).
  - apply utf8_valid_ascii. constructor; [lia|constructor].
Qed.

Lemma instance_id_read set dev s w :
  plain s -> has_instance_id set dev s w -> get_device_instance_id set dev w = Ok s.
Proof.
  intros Hs [H1 H2]. unfold get_device_instance_id. rewrite H1, H2. simpl.
  by rewrite until_zero_plain, from_wide_plain.
Qed.
End Registry.

(** *** Hardware ids *)

(** A number as Windows prints it in a hardware id: four capital digits. *)
Definition upper_digit (d : Z) : ascii := ascii_of_N (Z.to_N (if d <? 10 then 48 + d else 55 + d)).

Definition hex4_upper (z : Z) (rest : string) : string :=
  String (upper_digit (z / 4096)) (String (upper_digit (z / 256 mod 16))
    (String (upper_digit (z / 16 mod 16)) (String (upper_digit (z mod 16)) rest))).

(** [USB\VID_046D&PID_C261&REV_0100]. *)
Definition hardware_id_text (vid pid : Z) (rest : string) : string :=
  "USB\VID_" +:+ hex4_upper vid ("&PID_" +:+ hex4_upper pid rest).

Lemma upper_digit_facts d : 0 <= d < 16 ->
  to_digit 16 (upper_digit d) = Some d /\ upper_digit d <> "+"%char /\ upper_digit d <> "P"%char
  /\ 48 <= u8 (byte_of_ascii (upper_digit d)) < 128.
Proof.
  intros Hd. destruct (digit_cases d Hd) as [->|Hc]; [|repeat (destruct Hc as [->|Hc]; [|])]; try subst d;
    repeat split; (reflexivity || discriminate || (vm_compute; congruence)).
Qed.

Lemma hex4_digits z : is_u16 z ->
  0 <= z / 4096 < 16 /\ 0 <= z / 256 mod 16 < 16 /\ 0 <= z / 16 mod 16 < 16 /\ 0 <= z mod 16 < 16
  /\ ((z / 4096 * 16 + z / 256 mod 16) * 16 + z / 16 mod 16) * 16 + z mod 16 = z.
Proof. unfold is_u16. intros Hz. split_and!; Z.to_euclidean_division_equations; lia. Qed.

Lemma parse_hex4 z : is_u16 z -> from_str_radix 16 65535 (hex4_upper z EmptyString) = Some z.
Proof.
  intros Hz. destruct (hex4_digits z Hz) as (H1 & H2 & H3 & H4 & Hv). unfold is_u16 in Hz. unfold hex4_upper, from_str_radix.
  destruct (upper_digit_facts _ H1) as (E1 & Hp & _), (upper_digit_facts _ H2) as (E2 & _),
    (upper_digit_facts _ H3) as (E3 & _), (upper_digit_facts _ H4) as (E4 & _).
  rewrite decide_False by done. cbn [parse_digits]. rewrite E1, E2, E3, E4.
  generalize dependent (z / 4096). generalize dependent (z / 256 mod 16). generalize dependent (z / 16 mod 16).
  generalize dependent (z mod 16). intros d4 ?? d3 ?? d2 ?? d1 ? Hv **. cbn zeta.
  rewrite !(proj2 (Z.ltb_ge _ _)) by lia. f_equal. lia.
Qed.

Lemma find_str_skip a p pat s : a <> p -> find_str (String p pat) (String a s) = S <$> find_str (String p pat) s.
Proof. intros Hn. cbn [find_str String.prefix]. by destruct (ascii_dec p a) as [->|]. Qed.

Lemma is_char_boundary_app a i l : is_char_boundary (length a + i) (a ++ l) = is_char_boundary i l.
Proof.
  unfold is_char_boundary. rewrite drop_app_add, length_app. destruct (drop i l); [|done]. apply bool_decide_ext. lia.
Qed.

(** A piece of a string between character boundaries is cut out. *)
Lemma str_slice_piece pre mid rest :
  is_char_boundary 0 (as_bytes (mid +:+ rest)) = true -> is_char_boundary 0 (as_bytes rest) = true ->
  str_slice (String.length pre) (String.length pre + String.length mid) (pre +:+ mid +:+ rest) = Returns mid.
Proof.
  intros Hi Hj. unfold str_slice. rewrite as_bytes_app in Hi. rewrite !as_bytes_app, <- !length_as_bytes.
  set (a := as_bytes pre) in *. set (m := as_bytes mid) in *. set (r := as_bytes rest) in *.
  pose proof (is_char_boundary_app a 0 (m ++ r)) as Bi. rewrite Nat.add_0_r in Bi.
  pose proof (is_char_boundary_app m 0 r) as Bj. rewrite Nat.add_0_r in Bj.
  rewrite is_char_boundary_app, Bi, Bj, Hi, Hj. cbv beta iota zeta. simpl andb. cbv iota.
  replace (length a + length m - length a)%nat with (length m) by lia.
  rewrite drop_app_length, take_app_length. unfold m. by rewrite of_bytes_as_bytes.
Qed.

Lemma hex4_boundary z rest : is_u16 z -> is_char_boundary 0 (as_bytes (hex4_upper z rest)) = true.
Proof.
  intros Hz. destruct (hex4_digits z Hz) as (H1 & _). destruct (upper_digit_facts _ H1) as (_ & _ & _ & B1).
  assert (E : exists l, as_bytes (hex4_upper z rest) = byte_of_ascii (upper_digit (z / 4096)) :: l) by (by eexists).
  destruct E as [l ->]. unfold is_char_boundary. rewrite drop_0. cbv beta iota. by rewrite (proj2 (Z.leb_gt 128 _)) by lia.
Qed.

(** A hardware id in the documented form is parsed exactly: for all ids and
    whatever follows them, the vendor and the product id come out and the slices do
    not panic. *)
Theorem hardware_id_parsed v p rest v0 p0 :
  is_u16 v -> is_u16 p -> is_char_boundary 0 (as_bytes rest) = true ->
  parse_vid_pid_from_hardware_id (hardware_id_text v p rest) v0 p0 = Returns (v, p).
Proof.
  intros Hv Hp Hr. unfold parse_vid_pid_from_hardware_id, parse_id_after.
  set (tail := "&PID_" +:+ hex4_upper p rest). set (head := "USB\VID_" +:+ hex4_upper v "&PID_").
  assert (Fv : find_str "VID_" (hardware_id_text v p rest) = Some 4%nat) by reflexivity.
  assert (Fp : find_str "PID_" (hardware_id_text v p rest) = Some 13%nat).
  { destruct (hex4_digits v Hv) as (H1 & H2 & H3 & H4 & _). unfold hardware_id_text, hex4_upper at 1.
    rewrite !string_app_cons, !string_app_nil.
    repeat (rewrite find_str_skip by (discriminate || by apply upper_digit_facts)). reflexivity. }
  assert (Sv : str_slice 8 12 (hardware_id_text v p rest) = Returns (hex4_upper v "")).
  { exact (str_slice_piece "USB\VID_" (hex4_upper v "") tail (hex4_boundary v tail Hv) eq_refl). }
  assert (Sp : str_slice 17 21 (hardware_id_text v p rest) = Returns (hex4_upper p "")).
  { exact (str_slice_piece head (hex4_upper p "") rest (hex4_boundary p rest Hp) Hr). }
  rewrite Fv, Fp. simpl Nat.add. rewrite Sv. cbv beta iota. rewrite Sp. cbv beta iota. by rewrite !parse_hex4.
Qed.

(** *** Enumerating *)

(** What Windows knows of a device. *)
Record Present := {
  pr_vid : Z;
  pr_pid : Z;
  pr_rest : string;
  pr_description : string;
  pr_instance : string
}.

Definition present_hw (d : Present) : string := hardware_id_text (pr_vid d) (pr_pid d) (pr_rest d).

Definition present_wf (d : Present) : Prop :=
  is_u16 (pr_vid d) /\ is_u16 (pr_pid d) /\ (pr_vid d <> 0 \/ pr_pid d <> 0)
  /\ plain (pr_rest d) /\ plain (pr_description d) /\ plain (pr_instance d).

Definition present_info (d : Present) : UsbDeviceInfo :=
  {| vendor_id := pr_vid d; product_id := pr_pid d; description := pr_description d;
     instance_id := pr_instance d; hardware_id := present_hw d; info_speed := 0 |}.

Lemma plain_app s1 s2 : plain s1 -> plain s2 -> plain (s1 +:+ s2).
Proof. unfold plain. rewrite as_bytes_app. apply Forall_app_2. Qed.

Lemma plain_hex4 z rest : is_u16 z -> plain rest -> plain (hex4_upper z rest).
Proof.
  intros Hz Hr. destruct (hex4_digits z Hz) as (H1 & H2 & H3 & H4 & _).
  do 4 (apply Forall_cons_2; [match goal with |- context [upper_digit ?d] =>
    pose proof (proj2 (proj2 (proj2 (upper_digit_facts d ltac:(done))))) end; lia|]). exact Hr.
Qed.

Lemma present_hw_plain d : present_wf d -> plain (present_hw d).
Proof.
  intros (Hv & Hp & _ & Hr & _). unfold present_hw, hardware_id_text.
  apply plain_app; [by repeat constructor|]. apply plain_hex4; [done|].
  apply plain_app; [by repeat constructor|]. by apply plain_hex4.
Qed.

Lemma plain_boundary s : plain s -> is_char_boundary 0 (as_bytes s) = true.
Proof.
  intros H. unfold is_char_boundary. rewrite drop_0. destruct H as [|b l Hb _]; [done|].
  by rewrite (proj2 (Z.leb_gt 128 _)) by lia.
Qed.

Section Enumerated.
Context {W : Type} `{!SetupApi W}.
Context (set : HDevInfo) (w : W) (ty : Z).

(** The set holds the devices [ds]; their hardware ids are values of type [ty]. *)
Definition holds (ds : list (SpDevInfo * Present)) : Prop :=
  (forall i : nat, enum_device_info set (Z.of_nat i) w = fst <$> ds !! i)
  /\ Forall (fun '(dev, d) => present_wf d /\ has_instance_id set dev (pr_instance d) w
                               /\ stores set dev SPDRP_DEVICEDESC REG_SZ (pr_description d) w
                               /\ stores set dev SPDRP_HARDWAREID ty (present_hw d) w) ds.

(** The devices the enumeration finds: all when the ids are plain strings, none
    when they are lists of strings. *)
Definition found (ds : list (SpDevInfo * Present)) : list UsbDeviceInfo :=
  if ty =? REG_SZ then map (fun '(_, d) => present_info d) ds else [].

Lemma device_info_found dev d : ty = REG_SZ \/ ty = REG_MULTI_SZ ->
  present_wf d -> has_instance_id set dev (pr_instance d) w ->
  stores set dev SPDRP_DEVICEDESC REG_SZ (pr_description d) w -> stores set dev SPDRP_HARDWAREID ty (present_hw d) w ->
  exists info, device_info set dev w = Returns info
    /\ (if has_ids info then [info] else []) = found [(dev, d)].
Proof.
  intros Hty Hwf Hi Hd Hh. pose proof (present_hw_plain d Hwf) as Hpl. destruct Hwf as (Hv & Hp & Hne & Hr & Hde & Hin).
  unfold device_info. rewrite (instance_id_read _ _ _ _ Hin Hi), (stored_sz _ _ _ _ _ Hde Hd).
  unfold found. destruct Hty as [E|E]; rewrite E in Hh |- *.
  - rewrite (stored_sz _ _ _ _ _ Hpl Hh). unfold present_hw at 1. rewrite hardware_id_parsed by (done || by apply plain_boundary).
    eexists. split; [reflexivity|]. simpl. unfold has_ids. simpl.
    destruct (Z.eqb_spec (pr_vid d) 0), (Z.eqb_spec (pr_pid d) 0); (done || tauto).
  - change (present_hw d) with (String "U" ("SB\VID_" +:+ hex4_upper (pr_vid d) ("&PID_" +:+ hex4_upper (pr_pid d) (pr_rest d)))) in Hpl, Hh.
    rewrite (stored_multi_sz _ _ _ _ _ _ Hpl Hh). eexists. by split.
Qed.

Lemma found_app ds1 ds2 : found (ds1 ++ ds2) = found ds1 ++ found ds2.
Proof. unfold found. destruct (ty =? REG_SZ); [|done]. apply map_app. Qed.

Lemma enumerate_loop_found ds1 ds2 fuel : ty = REG_SZ \/ ty = REG_MULTI_SZ -> holds (ds1 ++ ds2) -> (length ds2 < fuel)%nat ->
  enumerate_loop fuel set (Z.of_nat (length ds1)) (found ds1) w = Returns (found (ds1 ++ ds2)).
Proof.
  intros Hty [He Hf]. revert ds1 fuel He Hf. induction ds2 as [|[dev d] ds2 IH]; intros ds1 fuel He Hf Hfuel;
    (destruct fuel as [|fuel]; [simpl in Hfuel; lia|]); cbn [enumerate_loop]; rewrite He.
  - by rewrite app_nil_r, lookup_ge_None_2 by lia.
  - rewrite lookup_app_r, Nat.sub_diag by lia. simpl.
    pose proof Hf as Hall. apply Forall_app in Hf as [_ Hf']. apply Forall_cons_1 in Hf' as [(Hwf & Hi & Hd & Hh) _].
    destruct (device_info_found dev d Hty Hwf Hi Hd Hh) as (info & -> & Hinfo).
    replace (if has_ids info then found ds1 ++ [info] else found ds1) with (found (ds1 ++ [(dev, d)])).
    2: { rewrite found_app, <- Hinfo. destruct (has_ids info); [done|by rewrite app_nil_r]. }
    replace (Z.of_nat (length ds1) + 1) with (Z.of_nat (length (ds1 ++ [(dev, d)]))) by (rewrite length_app; simpl; lia).
    rewrite (IH (ds1 ++ [(dev, d)]) fuel); [by rewrite <- app_assoc|by rewrite <- app_assoc| |simpl in Hfuel; lia].
    rewrite <- app_assoc. done.
Qed.

(** The enumeration finds every device when hardware ids are stored as plain
    strings, in the order of the set, and none at all when they are stored as the
    lists of strings ([REG_MULTI_SZ]) Windows documents for this property: only the
    first letter of the id is read then, and a device without ids is skipped. The
    device set is destroyed in both cases. *)
Theorem enumerate_by_type w0 ds fuel :
  get_class_devs w0 = (Some set, w) -> ty = REG_SZ \/ ty = REG_MULTI_SZ -> holds ds -> (length ds < fuel)%nat ->
  enumerate_usb_devices fuel w0
  = Returns (Ok (if ty =? REG_SZ then map (fun '(_, d) => present_info d) ds else []), destroy_device_info_list set w).
Proof.
  intros Hg Hty Hh Hf. unfold enumerate_usb_devices. rewrite Hg.
  pose proof (enumerate_loop_found [] ds fuel Hty Hh Hf) as H. unfold found in H. simpl map in H.
  replace (if ty =? REG_SZ then [] else []) with (@nil UsbDeviceInfo) in H by (by destruct (ty =? REG_SZ)).
  change (Z.of_nat (length [])) with 0 in H. by rewrite H.
Qed.
End Enumerated.

(** *** Entries *)

(** An entry made from a Windows device is well formed, and its bus id is the last
    segment of the instance id, when that fits. *)
Lemma windows_entry_ok info :
  is_u16 (vendor_id info) -> is_u16 (product_id info) -> info_speed info = 0 ->
  entry_wf (to_usbip_device_entry info)
  /\ (forall s, last_piece "\"%char (instance_id info) = s -> plain s -> (String.length s <= 31)%nat ->
       busid_str (to_usbip_device_entry info) = s).
Proof.
  intros Hv Hp Hs. split.
  - unfold entry_wf, to_usbip_device_entry; cbn [path busid busnum devnum speed id_vendor id_product bcd_device].
    rewrite !length_copy_padded, Hs by lia. repeat split; try lia; apply Hv || apply Hp.
  - intros s Hl Hpl Hlen. apply busid_str_padded with (s := s); cbn [busid to_usbip_device_entry]; [by rewrite Hl| | |].
    + eapply Forall_impl; [exact Hpl|]. intros b Hb ->. change (u8 x00) with 0 in Hb. lia.
    + apply utf8_valid_ascii. eapply Forall_impl; [exact Hpl|]. simpl. lia.
    + rewrite length_as_bytes. lia.
Qed.

(** ** Witnesses *)

(** A host with one device, whose hardware id is stored with type [ty]; the state
    counts the device sets that are open. *)
Definition toy_present : Present :=
  {| pr_vid := 0x046d; pr_pid := 0xc261; pr_rest := "&REV_0100"; pr_description := "Wheel";
     pr_instance := "USB\VID_046D&PID_C261\5" |}.

Definition answer {U} (size : Z) (ty : Z) (l : list U) : StringCall U :=
  if size =? zlen l then {| call_ok := true; call_buffer := l; call_type := ty; call_required := zlen l |}
  else {| call_ok := false; call_buffer := []; call_type := 0; call_required := zlen l |}.

Definition toy_setup (ty : Z) : SetupApi nat := {|
  HDevInfo := unit;
  SpDevInfo := unit;
  get_class_devs n := (Some tt, S n);
  enum_device_info _ i _ := if i =? 0 then Some tt else None;
  get_instance_id _ _ size _ := answer size 0 (wide (pr_instance toy_present) ++ [0]);
  get_registry_property _ _ prop size _ :=
    if prop =? SPDRP_DEVICEDESC then answer size REG_SZ (stored_bytes REG_SZ (pr_description toy_present))
    else answer size ty (stored_bytes ty (present_hw toy_present));
  destroy_device_info_list _ n := Nat.pred n
|}.

Lemma hardware_id_parsed_witness :
  parse_vid_pid_from_hardware_id "USB\VID_046D&PID_C261&REV_0100" 0 0 = Returns (0x046d, 0xc261).
Proof.
  exact (hardware_id_parsed 0x046d 0xc261 "&REV_0100" 0 0 ltac:(unfold is_u16; lia) ltac:(unfold is_u16; lia) eq_refl).
Defined.

(** A hardware id that is cut short makes the slice panic. *)
Lemma short_hardware_id : parse_vid_pid_from_hardware_id "USB\VID_46" 0 0 = Panics.
Proof. reflexivity. Qed.

Lemma toy_holds ty : ty = REG_SZ \/ ty = REG_MULTI_SZ -> @holds nat (toy_setup ty) tt 1%nat ty [(tt, toy_present)].
Proof.
  intros Hty. split.
  - intros [|i]; [done|]. reflexivity.
  - constructor; [|constructor]. split_and!; try (destruct Hty as [-> | ->]; split; reflexivity); [].
    unfold present_wf, is_u16. simpl. split_and!; try lia; by repeat constructor.
Qed.

Lemma enumerate_by_type_witness :
  @enumerate_usb_devices nat (toy_setup REG_MULTI_SZ) 2 0%nat = Returns (Ok [], 0%nat)
  /\ @enumerate_usb_devices nat (toy_setup REG_SZ) 2 0%nat = Returns (Ok [present_info toy_present], 0%nat).
Proof.
  split.
  - exact (@enumerate_by_type nat (toy_setup REG_MULTI_SZ) tt 1%nat REG_MULTI_SZ 0%nat [(tt, toy_present)] 2 eq_refl (or_intror eq_refl)
             (toy_holds REG_MULTI_SZ (or_intror eq_refl)) (Nat.lt_succ_diag_r 1)).
  - exact (@enumerate_by_type nat (toy_setup REG_SZ) tt 1%nat REG_SZ 0%nat [(tt, toy_present)] 2 eq_refl (or_introl eq_refl)
             (toy_holds REG_SZ (or_introl eq_refl)) (Nat.lt_succ_diag_r 1)).
Defined.
