(* ===== verification/DaemonSocket.v ===== *)
(** * The control socket of the client daemon (client/usbip-client/src/daemon.rs)

    The line protocol between [daemon-ctl] and the daemon, with the files and
    directories the daemon is configured from.  The JSON encoding of commands and
    responses is a class with the laws of [serde_json] that the protocol relies on:
    what is written is read back, a text is one line without surrounding white space,
    and a response that is cut short is no response.  The socket is a [Stream]; the daemon is that of Daemon.v, seen from one
    control connection while nothing else runs, so the result of the import a
    Connect waits for is an input. *)

From Stdlib Require Import Ascii.
From S2P Require Import Prelude RustStd RustFloat Errors Proto Stream Reconnect Vhci Client Daemon.

(** ** Configuration *)

(** What the environment tells about files and directories. *)
Record Paths := {
  pa_exists : string -> bool;
  pa_runtime_dir : option string;
  pa_data_local_dir : option string;
  pa_config_dir : option string
}.

Definition default_run_dir (p : Paths) : string :=
  if pa_exists p "/var/run/usbip-client" then "/var/run/usbip-client"
  else match pa_runtime_dir p with
       | Some runtime => join runtime "usbip-client"
       | None => match pa_data_local_dir p with
                 | Some data => join data "usbip-client"
                 | None => "/tmp/usbip-client"
                 end
       end.

Definition default_socket_path (p : Paths) : string := join (default_run_dir p) "usbip-client.sock".

(** [DaemonConfig::default]. *)
Definition daemon_config_default (p : Paths) : DaemonConfig :=
  {| dc_socket_path := default_socket_path p; dc_connections := [] |}.

Definition default_paths (p : Paths) : list string :=
  "/etc/usbip-client/config.toml"
  :: match pa_config_dir p with
     | Some config => [join (join config "usbip-client") "config.toml"]
     | None => []
     end.

Definition find_config (p : Paths) : option string := List.find (pa_exists p) (default_paths p).

(** [DaemonConfig::load]; reading the file and parsing TOML are given by their results. *)
Definition daemon_config_load (p : Paths) (read : string -> result IoError string)
    (from_toml : string -> result string DaemonConfig) (path : string) : UsbIpResult DaemonConfig :=
  if negb (pa_exists p path) then Ok (daemon_config_default p)
  else
    let? content := map_err Io (read path) in
    map_err (fun e => InvalidMessage ("bad config: " +:+ e)) (from_toml content).

(** ** Lines *)

(** The UTF-8 encodings of the white space characters of [str::trim]. *)
Definition white_space : list (list byte) :=
  [[x09]; [x0a]; [x0b]; [x0c]; [x0d]; [x20]; [xc2; x85]; [xc2; xa0]; [xe1; x9a; x80];
   [xe2; x80; x80]; [xe2; x80; x81]; [xe2; x80; x82]; [xe2; x80; x83]; [xe2; x80; x84]; [xe2; x80; x85];
   [xe2; x80; x86]; [xe2; x80; x87]; [xe2; x80; x88]; [xe2; x80; x89]; [xe2; x80; x8a];
   [xe2; x80; xa8]; [xe2; x80; xa9]; [xe2; x80; xaf]; [xe2; x81; x9f]; [xe3; x80; x80]].

Definition starts_with (enc l : list byte) : bool := bool_decide (take (length enc) l = enc).

Fixpoint strip (fuel : nat) (encs : list (list byte)) (l : list byte) : list byte :=
  match fuel with
  | O => l
  | S fuel =>
      match List.find (fun e => starts_with e l) encs with
      | Some e => strip fuel encs (drop (length e) l)
      | None => l
      end
  end.

(** [str::trim]. *)
Definition trim (l : list byte) : list byte :=
  let l := strip (length l) white_space l in
  reverse (strip (length l) (map reverse white_space) (reverse l)).

(** The bytes up to and with the first newline. *)
Fixpoint cut_line (l : list byte) : option (list byte * list byte) :=
  match l with
  | [] => None
  | b :: l =>
      if decide (b = x0a) then Some ([x0a], l)
      else match cut_line l with Some (line, rest) => Some (b :: line, rest) | None => None end
  end.

Definition not_utf8 : IoError :=
  {| io_kind := IoInvalidData; io_text := "stream did not contain valid UTF-8" |}.

(** [AsyncBufReadExt::read_line]; at the end of the stream the rest is a line. *)
Definition read_line : io Stream (list byte) := fun s =>
  match cut_line (rx s) with
  | Some (line, rest) =>
      if utf8_valid line then (Ok line, set_rx rest s) else (Err (Io not_utf8), set_rx rest s)
  | None =>
      match io_kind (rx_end s) with
      | IoUnexpectedEof =>
          if utf8_valid (rx s) then (Ok (rx s), set_rx [] s) else (Err (Io not_utf8), set_rx [] s)
      | _ => (Err (Io (rx_end s)), set_rx [] s)
      end
  end.

(** ** The encoding *)

Class DaemonJson : Type := {
  cmd_to_json : DaemonCommand -> result string string;
  cmd_from_json : string -> result string DaemonCommand;
  rsp_to_json : DaemonResponse -> result string string;
  rsp_from_json : string -> result string DaemonResponse
}.

(** A text that travels as one line. *)
Definition line_text (t : string) : Prop :=
  as_bytes t <> [] /\ ~ (x0a ∈ as_bytes t) /\ utf8_valid (as_bytes t) = true
  /\ utf8_valid (as_bytes t ++ [x0a]) = true /\ trim (as_bytes t ++ [x0a]) = as_bytes t
  /\ trim (as_bytes t) = as_bytes t.

Class DaemonJsonLaws `{!DaemonJson} : Prop := {
  cmd_roundtrip : forall c t, cmd_to_json c = Ok t -> cmd_from_json t = Ok c /\ line_text t;
  rsp_roundtrip : forall r t, rsp_to_json r = Ok t -> rsp_from_json t = Ok r /\ line_text t;
  rsp_cut : forall r t n, rsp_to_json r = Ok t -> (n < length (as_bytes t))%nat ->
    exists e, rsp_from_json (of_bytes (trim (take n (as_bytes t)))) = Err e;
  rsp_empty : exists e, rsp_from_json "" = Err e
}.

Section Socket.
Context `{!DaemonJson}.

(** [handle_command] to its end; [import] is what its import comes to.  No response:
    it panicked with it. *)
Definition command_response (import : awaited (result string ImportedDevice)) (cmd : DaemonCommand) (d : Daemon)
    : option DaemonResponse * Daemon :=
  match handle_command cmd d with
  | (Some r, d) => (Some r, d)
  | (None, d) => default (None, d) (finish_connect (length (dm_importing d) - 1) import d)
  end.

Lemma connect_finishes import cmd d d' :
  handle_command cmd d = (None, d') -> is_Some (finish_connect (length (dm_importing d') - 1) import d').
Proof.
  destruct cmd as [server busid|busid| |]; simpl; try done.
  - destruct (is_managed _ d); [done|]. intros [= <-]. unfold finish_connect. simpl.
    rewrite length_app, Nat.add_sub, lookup_app_r, Nat.sub_diag by lia. by eexists.
  - by destruct (remove_busid busid _) as [[]|].
Qed.

(** The response to one line that is not blank. *)
Definition line_response (import : awaited (result string ImportedDevice)) (trimmed : list byte) (d : Daemon)
    : option DaemonResponse * Daemon :=
  match cmd_from_json (of_bytes trimmed) with
  | Ok cmd => command_response import cmd d
  | Err e => (Some (respond "error" ("invalid command: " +:+ e)), d)
  end.

(** How the handler of a control connection ends. *)
Inductive handler_end := HandlerReturned (r : UsbIpResult unit) | HandlerPanicked.

(** The loop of [handle_connection]; [imports] is what the imports it waits for come
    to. *)
Fixpoint handle_connection (fuel : nat) (imports : nat -> awaited (result string ImportedDevice)) (s : Stream) (d : Daemon)
    : outcome (handler_end * Stream * Daemon) :=
  match fuel with
  | O => OutOfFuel
  | S fuel =>
      match read_line s with
      | (Err k, s) => Returns (HandlerReturned (Err k), s, d)
      | (Ok line, s) =>
          match line with
          | [] => Returns (HandlerReturned (Ok tt), s, d)
          | _ =>
              match trim line with
              | [] => handle_connection fuel imports s d
              | trimmed =>
                  match line_response (imports O) trimmed d with
                  | (None, d) => Returns (HandlerPanicked, s, d)
                  | (Some response, d) =>
                      match rsp_to_json response with
                      | Err e => Returns (HandlerReturned (Err (Serialization ("serialization error: " +:+ e))), s, d)
                      | Ok response_json =>
                          match (write_all (as_bytes response_json) ;;; write_all [x0a] ;;; flush) s with
                          | (Err k, s) => Returns (HandlerReturned (Err k), s, d)
                          | (Ok _, s) =>
                              if dm_shutdown d then Returns (HandlerReturned (Ok tt), s, d)
                              else handle_connection fuel (fun n => imports (S n)) s d
                          end
                      end
                  end
              end
          end
      end
  end.

(** [send_daemon_command], on the result of connecting to the socket. *)
Definition send_daemon_command (connect : result IoError Stream) (cmd : DaemonCommand)
    : UsbIpResult DaemonResponse * option Stream :=
  match connect with
  | Err e => (Err (Io e), None)
  | Ok s =>
      match cmd_to_json cmd with
      | Err e => (Err (Serialization ("serialization error: " +:+ e)), Some s)
      | Ok cmd_json =>
          match (write_all (as_bytes cmd_json) ;;; write_all [x0a] ;;; flush ;;; read_line) s with
          | (Err k, s) => (Err k, Some s)
          | (Ok buf, s) =>
              (map_err (fun e => InvalidMessage ("invalid response: " +:+ e)) (rsp_from_json (of_bytes (trim buf))), Some s)
          end
      end
  end.

End Socket.

(** ** [DaemonManager::run] *)

(** [Path::parent]: the text before the last component, without the separators and
    the components [.] at its end; nothing for the root and the empty path. *)
Definition slash : ascii := "/"%char.

(** The text without the separators and the [.] components at its end. *)
Fixpoint trim_path_rev (l : list ascii) : list ascii :=
  match l with
  | c :: l' =>
      if decide (c = slash) then match l' with [] => l | _ => trim_path_rev l' end
      else if decide (c = "."%char)
           then match l' with d :: _ => if decide (d = slash) then trim_path_rev l' else l | [] => l end
           else l
  | [] => []
  end.

Fixpoint drop_component_rev (l : list ascii) : list ascii :=
  match l with
  | [] => []
  | c :: l' => if decide (c = slash) then l else drop_component_rev l'
  end.

Definition path_parent (s : string) : option string :=
  match trim_path_rev (reverse (String.list_ascii_of_string s)) with
  | [] => None
  | [c] => if decide (c = slash) then None else Some ""
  | l => Some (String.string_of_list_ascii (reverse (trim_path_rev (drop_component_rev l))))
  end.

(** What [run] does to the file system, in order. *)
Inductive FsOp := CreateDirAll (path : string) | RemoveFile (path : string) | BindSocket (path : string).

Record RunFs := { rf_exists : string -> bool; rf_op : FsOp -> result IoError unit }.

(** The operations one after the other, up to the first that fails. *)
Fixpoint run_ops (fs : RunFs) (ops done : list FsOp) : UsbIpResult unit * list FsOp :=
  match ops with
  | [] => (Ok tt, done)
  | op :: ops =>
      match rf_op fs op with
      | Err e => (Err (Io e), done ++ [op])
      | Ok _ => run_ops fs ops (done ++ [op])
      end
  end.

Definition prepare_socket (fs : RunFs) (config : DaemonConfig) : UsbIpResult unit * list FsOp :=
  let path := dc_socket_path config in
  run_ops fs (match path_parent path with Some parent => [CreateDirAll parent] | None => [] end
              ++ (if rf_exists fs path then [RemoveFile path] else [])
              ++ [BindSocket path]) [].

(** What the accept loop meets; [Cancelled] is the shutdown token. *)
Inductive run_event := Accepted | AcceptFailed | Cancelled.

(** The loop: the handlers it spawned, and whether it ended. *)
Fixpoint daemon_accept_loop (events : list run_event) : nat * bool :=
  match events with
  | [] => (O, false)
  | Accepted :: events => let '(n, ended) := daemon_accept_loop events in (S n, ended)
  | AcceptFailed :: events => daemon_accept_loop events
  | Cancelled :: _ => (O, true)
  end.

(** The operations on the file system, the handlers that were spawned and the result
    ([None] while it runs). *)
Definition daemon_run (fs : RunFs) (config : DaemonConfig) (events : list run_event)
    : outcome (list FsOp * nat * option (UsbIpResult unit)) :=
  match prepare_socket fs config with
  | (Err k, ops) => Returns (ops, O, Some (Err k))
  | (Ok _, ops) =>
      let! d := run_start config in
      let '(n, ended) := daemon_accept_loop events in
      Returns (ops, n, if ended then Some (Ok tt) else None)
  end.

(** [DaemonManager::shutdown]. *)
Definition daemon_shutdown (d : Daemon) : Daemon :=
  {| dm_connections := dm_connections d; dm_tasks := dm_tasks d; dm_importing := dm_importing d;
     dm_cancelled := dm_cancelled d; dm_shutdown := true; dm_next_token := dm_next_token d |}.

Example path_parent_examples :
  map path_parent ["/var/run/usbip-client/usbip-client.sock"; "/a//b/./"; "/a"; "a"; "/"; ""; "a/./b"]
  = [Some "/var/run/usbip-client"; Some "/a"; Some "/"; Some ""; None; None; Some "a"].
Proof. vm_compute. reflexivity. Qed.

Lemma run_ops_ok fs ops done r : run_ops fs ops done = (Ok tt, r) -> r = done ++ ops.
Proof.
  revert done. induction ops as [|op ops IH]; intros done; simpl; [intros [= <-]; by rewrite app_nil_r|].
  destruct (rf_op fs op); [|done]. intros ->%IH. by rewrite <- app_assoc.
Qed.

(** A daemon that was shut down leaves its socket file behind: the last thing it did
    to the file system is to bind it. *)
Lemma run_leaves_socket fs config events ops n :
  daemon_run fs config events = Returns (ops, n, Some (Ok tt)) ->
  last ops = Some (BindSocket (dc_socket_path config)) /\ Cancelled ∈ events.
Proof.
  unfold daemon_run. destruct (prepare_socket fs config) as [[[]|k] ops'] eqn:E; [|done].
  apply run_ops_ok in E. destruct (run_start config) as [d| |]; try done. intros H.
  assert (Hc : daemon_accept_loop events = (n, true) /\ ops = ops').
  { destruct (daemon_accept_loop events) as [m []]; [|done]. by injection H as <- <-. }
  destruct Hc as [Hc ->]. split; [rewrite E, !app_assoc; apply last_snoc|]. clear E H.
  revert n Hc. induction events as [|[] events IH]; intros n Hc; simpl in Hc; [done| | |by left].
  - destruct (daemon_accept_loop events) as [m []]; [|done]. right. by eapply IH.
  - right. by eapply IH.
Qed.

Section Socket_facts.
Context `{!DaemonJson}.

(** ** Theorems *)

Lemma cut_line_app l rest : x0a ∉ l -> cut_line (l ++ x0a :: rest) = Some (l ++ [x0a], rest).
Proof.
  induction l as [|b l IH]; intros Hl; simpl; [done|]. rewrite elem_of_cons in Hl.
  rewrite decide_False by (intros ->; tauto). by rewrite IH by tauto.
Qed.

Lemma cut_line_shorter l line rest : cut_line l = Some (line, rest) -> (length rest < length l)%nat.
Proof.
  revert line. induction l as [|b l IH]; intros line; simpl; [done|].
  case_decide; [by intros [= _ <-]; lia|]. destruct (cut_line l) as [[x y]|]; [|done].
  intros [= _ <-]. specialize (IH x eq_refl). lia.
Qed.

Lemma read_line_text t rest s : line_text t ->
  read_line (set_rx (as_bytes t ++ x0a :: rest) s) = (Ok (as_bytes t ++ [x0a]), set_rx rest s).
Proof.
  intros (_ & Hn & _ & Hu & _ & _). unfold read_line. simpl. rewrite cut_line_app by done. by rewrite Hu.
Qed.

Lemma read_line_progress s line s' :
  read_line s = (Ok line, s') -> line <> [] -> (length (rx s') < length (rx s))%nat.
Proof.
  unfold read_line. destruct (cut_line (rx s)) as [[l rest]|] eqn:E.
  - apply cut_line_shorter in E. destruct (utf8_valid l); [|done]. by intros [= <- <-].
  - destruct (io_kind (rx_end s)); try done. destruct (utf8_valid (rx s)); [|done]. intros [= <- <-] Hne.
    simpl. destruct (rx s); [done|simpl; lia].
Qed.

Lemma write_all_rx data s r s' : write_all data s = (r, s') -> rx s' = rx s.
Proof.
  unfold write_all. destruct (tx_room s) as [room|]; [|by intros [= <- <-]].
  destruct (_ <=? _)%nat; by intros [= <- <-].
Qed.

Lemma write_line_rx data s r s' : (write_all data ;;; write_all [x0a] ;;; flush) s = (r, s') -> rx s' = rx s.
Proof.
  unfold io_bind. destruct (write_all data s) as [[[]|k] s1] eqn:E1; apply write_all_rx in E1; [|by intros [= <- <-]].
  destruct (write_all [x0a] s1) as [[[]|k] s2] eqn:E2; apply write_all_rx in E2; simpl; intros [= <- <-]; congruence.
Qed.

(** A control connection is always served to its end: one unit of fuel per
    byte the peer sends, and one more, is enough, whatever the lines are. *)
Theorem handle_connection_total fuel imports s d :
  (length (rx s) < fuel)%nat -> exists r s' d', handle_connection fuel imports s d = Returns (r, s', d').
Proof.
  revert imports s d. induction fuel as [|fuel IH]; intros imports s d Hf; [lia|]. simpl.
  destruct (read_line s) as [[line|k] s1] eqn:E; [|by repeat eexists].
  destruct line as [|b line]; [by repeat eexists|]. apply read_line_progress in E; [|done].
  destruct (trim (b :: line)) as [|c trimmed]; [apply IH; lia|].
  destruct (line_response _ _ d) as [[response|] d1]; [|by repeat eexists]. destruct (rsp_to_json response) as [j|e]; [|by repeat eexists].
  destruct ((write_all _ ;;; write_all [x0a] ;;; flush) s1) as [[[]|k] s2] eqn:Ew; [|by repeat eexists].
  apply write_line_rx in Ew. destruct (dm_shutdown d1); [by repeat eexists|]. apply IH. rewrite Ew. lia.
Qed.

Lemma write_line_ok data s : tx_room s = None ->
  (write_all data ;;; write_all [x0a] ;;; flush) s = (Ok tt, sent (data ++ [x0a]) s).
Proof.
  intros Hs. unfold io_bind, write_all, flush, io_ret, sent. rewrite Hs. simpl. by rewrite <- app_assoc.
Qed.

(** What the daemon writes for a response, if there is one. *)
Definition answer_line (response : option DaemonResponse) : list byte :=
  match response with
  | Some r => match rsp_to_json r with Ok t => as_bytes t ++ [x0a] | Err _ => [] end
  | None => []
  end.

Section With_laws.
Context `{!DaemonJsonLaws}.

(** A connection on which one command comes: it is executed, and the response written. *)
Lemma handler_answers imports cmd d t s resp d' :
  cmd_to_json cmd = Ok t -> command_response (imports O) cmd d = (resp, d') ->
  tx_room s = None -> rx s = as_bytes t ++ [x0a] -> io_kind (rx_end s) = IoUnexpectedEof ->
  exists e s', handle_connection (2 + length (rx s)) imports s d = Returns (e, s', d') /\ tx s' = tx s ++ answer_line resp
    /\ (forall r rt, resp = Some r -> rsp_to_json r = Ok rt -> e = HandlerReturned (Ok tt)).
Proof.
  intros Ht Hc Hs Hrx Hend. destruct (cmd_roundtrip _ _ Ht) as [Hfrom Hline].
  pose proof (read_line_text t [] s Hline) as Hread. rewrite <- Hrx in Hread.
  replace (set_rx (rx s) s) with s in Hread by (by destruct s). rewrite Hrx in Hread.
  destruct Hline as (Hne & _ & _ & _ & Htrim & _).
  assert (Hl : line_response (imports O) (as_bytes t) d = (resp, d')).
  { unfold line_response. by rewrite of_bytes_as_bytes, Hfrom, Hc. }
  change (2 + length (rx s))%nat with (S (S (length (rx s)))). cbn [handle_connection]. rewrite Hread.
  destruct (as_bytes t ++ [x0a]) as [|b line] eqn:El; [by destruct (as_bytes t)|]. rewrite Htrim.
  destruct (as_bytes t) as [|c bs] eqn:Eb; [done|]. rewrite Hl. unfold answer_line.
  destruct resp as [r|]; [|eexists _, _; split; [done|]; split; [by rewrite app_nil_r|done]].
  destruct (rsp_to_json r) as [rt|e] eqn:Er; [|eexists _, _; split; [done|]; split; [by rewrite app_nil_r|]; intros ? ? [= <-] ?; congruence].
  rewrite write_line_ok by done. destruct (dm_shutdown d'); [by eexists _, _|].
  unfold read_line. simpl. rewrite Hend. simpl. by eexists _, _.
Qed.

(** A control program that gets a whole response reads it back. *)
Lemma sender_reads cmd t c resp rt :
  cmd_to_json cmd = Ok t -> rsp_to_json resp = Ok rt -> tx_room c = None -> rx c = as_bytes rt ++ [x0a] ->
  exists c', send_daemon_command (Ok c) cmd = (Ok resp, Some c') /\ tx c' = tx c ++ as_bytes t ++ [x0a].
Proof.
  intros Ht Hr Hcr Hrx. destruct (rsp_roundtrip _ _ Hr) as [Hback Hrline].
  unfold send_daemon_command. rewrite Ht.
  assert (Hw : (write_all (as_bytes t) ;;; write_all [x0a] ;;; flush ;;; read_line) c
    = (Ok (as_bytes rt ++ [x0a]), set_rx [] (sent (as_bytes t ++ [x0a]) c))).
  { unfold io_bind, write_all, flush, io_ret. rewrite Hcr. simpl.
    pose proof (read_line_text rt [] (sent (as_bytes t ++ [x0a]) c) Hrline) as Hrd.
    unfold set_rx, sent in Hrd |- *. simpl in Hrd |- *. rewrite Hcr in *. simpl in *. by rewrite <- app_assoc, Hrx. }
  destruct Hrline as (_ & _ & _ & _ & Hrtrim & _).
  rewrite Hw, Hrtrim, of_bytes_as_bytes, Hback. by eexists.
Qed.

Lemma cut_line_None l : x0a ∉ l -> cut_line l = None.
Proof.
  induction l as [|b l IH]; intros Hl; simpl; [done|]. rewrite elem_of_cons in Hl.
  rewrite decide_False by (intros ->; tauto). by rewrite IH by tauto.
Qed.

Lemma read_line_bytes s line s' : x0a ∉ rx s -> read_line s = (Ok line, s') -> line = rx s.
Proof.
  intros Hn. unfold read_line. rewrite cut_line_None by done. destruct (io_kind (rx_end s)); try done.
  destruct (utf8_valid (rx s)); [|done]. by intros [= <- <-].
Qed.

(** Whether there is room for a line. *)
Definition has_room (n : nat) (s : Stream) : Prop := match tx_room s with Some room => (n <= room)%nat | None => True end.

Lemma write_all_room data s : has_room (length data) s ->
  exists s', write_all data s = (Ok tt, s') /\ rx s' = rx s /\ tx s' = tx s ++ data
    /\ forall n, has_room (length data + n) s -> has_room n s'.
Proof.
  unfold has_room, write_all. destruct (tx_room s) as [room|]; intros Hr.
  - rewrite (proj2 (Nat.leb_le _ _) Hr). eexists. split; [done|]. simpl. split_and!; try done. lia.
  - by eexists.
Qed.

Lemma write_line_room data s : has_room (length data + 1) s ->
  exists s', (write_all data ;;; write_all [x0a] ;;; flush) s = (Ok tt, s') /\ tx s' = tx s ++ data ++ [x0a].
Proof.
  intros Hr. destruct (write_all_room data s) as (s1 & E1 & _ & Htx1 & Hr1).
  { unfold has_room in *. destruct (tx_room s); [lia|done]. }
  destruct (write_all_room [x0a] s1 (Hr1 1%nat Hr)) as (s2 & E2 & _ & Htx2 & _). exists s2.
  rewrite (io_bind_ok _ _ _ _ _ E1), (io_bind_ok _ _ _ _ _ E2). split; [done|]. by rewrite Htx2, Htx1, app_assoc.
Qed.

Lemma write_all_took data s r s' : write_all data s = (r, s') -> r = Ok tt ->
  rx s' = rx s /\ forall n, has_room n s' -> has_room (length data + n) s.
Proof.
  intros E ->. split; [by eapply write_all_rx|]. unfold has_room. unfold write_all in E.
  destruct (tx_room s) as [room|]; [|done]. destruct (Nat.leb_spec (length data) room); [|done].
  injection E as <-. simpl. lia.
Qed.

(** A control program that has a response had room for its command, and read it from
    a line. *)
Lemma sender_room cmd c r c' : send_daemon_command (Ok c) cmd = (Ok r, c') ->
  exists t buf s2 s3, cmd_to_json cmd = Ok t /\ has_room (length (as_bytes t) + 1) c /\ rx s2 = rx c
    /\ read_line s2 = (Ok buf, s3) /\ rsp_from_json (of_bytes (trim buf)) = Ok r.
Proof.
  unfold send_daemon_command. destruct (cmd_to_json cmd) as [t|]; [|done].
  destruct ((write_all _ ;;; write_all [x0a] ;;; flush ;;; read_line) c) as [[buf|] s] eqn:E; [|done].
  destruct (rsp_from_json (of_bytes (trim buf))) as [r'|] eqn:Er; [|done]. intros [= -> _]. unfold io_bind in E.
  destruct (write_all (as_bytes t) c) as [[[]|] s1] eqn:E1; [|done]. apply write_all_took in E1 as [Hrx1 Hr1]; [|done].
  destruct (write_all [x0a] s1) as [[[]|] s2] eqn:E2; [|done]. apply write_all_took in E2 as [Hrx2 Hr2]; [|done].
  simpl in E. exists t, buf, s2, s. split_and!; [done| |congruence|done|done].
  apply Hr1, (Hr2 0%nat). unfold has_room. destruct (tx_room s2); [lia|done].
Qed.

(** It got the response the daemon wrote, however much of the line arrived. *)
Lemma sender_gets cmd c resp n r c' :
  rx c = take n (answer_line resp) -> send_daemon_command (Ok c) cmd = (Ok r, c') -> resp = Some r.
Proof.
  intros Hrx (t & buf & s2 & s3 & _ & _ & Hrx2 & E & Er)%sender_room. rewrite Hrx in Hrx2. assert (Hnone : rx s2 = [] -> False).
  { intros Hz. apply read_line_bytes in E; [|rewrite Hz; apply not_elem_of_nil]. rewrite Hz in E. subst buf.
    destruct rsp_empty as [e He]. change (of_bytes (trim [])) with "" in Er. congruence. }
  unfold answer_line in Hrx2. destruct resp as [r0|]; [|destruct Hnone; by rewrite Hrx2, take_nil].
  destruct (rsp_to_json r0) as [rt|] eqn:Ert; [|destruct Hnone; by rewrite Hrx2, take_nil].
  destruct (rsp_roundtrip _ _ Ert) as [Hback Hline]. f_equal.
  destruct (Nat.le_gt_cases n (length (as_bytes rt))) as [Hn|Hn].
  - rewrite take_app_le in Hrx2 by done. assert (Hno : x0a ∉ rx s2).
    { rewrite Hrx2. destruct Hline as (_ & Hno & _). intros Hin. apply Hno. by eapply elem_of_take in Hin as (? & ? & _); eapply list_elem_of_lookup_2. }
    apply read_line_bytes in E; [|done]. subst buf. rewrite Hrx2 in Er. destruct (decide (n = length (as_bytes rt))) as [->|Hne].
    + rewrite take_ge in Er by lia. destruct Hline as (_ & _ & _ & _ & _ & Htrim). rewrite Htrim, of_bytes_as_bytes in Er. congruence.
    + destruct (rsp_cut _ _ n Ert) as [e He]; [lia|]. congruence.
  - rewrite take_ge in Hrx2 by (rewrite length_app; simpl; lia).
    pose proof (read_line_text rt [] s2 Hline) as Hread. rewrite <- Hrx2 in Hread.
    replace (set_rx (rx s2) s2) with s2 in Hread by (by destruct s2). rewrite Hread in E. injection E as <- _.
    destruct Hline as (_ & _ & _ & _ & Htrim & _). rewrite Hrx2, Htrim, of_bytes_as_bytes in Er. congruence.
Qed.

(** C33: One command over the socket: the line the control program writes makes the
    daemon execute exactly that command, and the line the daemon answers with is read
    back as exactly the response of the command handler; both sides write one line and
    the connection then ends cleanly. *)
Theorem command_roundtrip imports cmd d t s c resp d' rt :
  cmd_to_json cmd = Ok t -> command_response (imports O) cmd d = (Some resp, d') -> rsp_to_json resp = Ok rt ->
  tx_room s = None -> rx s = as_bytes t ++ [x0a] -> io_kind (rx_end s) = IoUnexpectedEof -> tx_room c = None ->
  let reply := as_bytes rt ++ [x0a] in
  (exists s', handle_connection (2 + length (rx s)) imports s d = Returns (HandlerReturned (Ok tt), s', d') /\ tx s' = tx s ++ reply)
  /\ (exists c', send_daemon_command (Ok (set_rx reply c)) cmd = (Ok resp, Some c') /\ tx c' = tx c ++ rx s).
Proof.
  intros Ht Hc Hr Hs Hrx Hend Hcr. cbv zeta. split.
  - destruct (handler_answers imports cmd d t s (Some resp) d' Ht Hc Hs Hrx Hend) as (e & s' & Hh & Htx & He).
    rewrite (He resp rt eq_refl Hr) in Hh. unfold answer_line in Htx. rewrite Hr in Htx. by exists s'.
  - destruct (sender_reads cmd t (set_rx (as_bytes rt ++ [x0a]) c) resp rt Ht Hr Hcr eq_refl) as (c' & Hsend & Htx).
    exists c'. split; [done|]. by rewrite Htx, Hrx.
Qed.
End With_laws.
End Socket_facts.

(** ** Witnesses *)

#[export] Instance ConnectionStatus_eq_dec : EqDecision ConnectionStatus.
Proof. solve_decision. Defined.

#[export] Instance DaemonResponse_eq_dec : EqDecision DaemonResponse.
Proof. solve_decision. Defined.

(** An encoding of two commands and two responses. *)
Definition toy_shutdown : DaemonResponse := respond "ok" "shutting down".
Definition toy_empty_status : DaemonResponse :=
  {| rp_status := "ok"; rp_message := None; rp_connections := Some [] |}.

#[export] Instance toy_json : DaemonJson := {|
  cmd_to_json c := match c with CmdStatus => Ok "status" | CmdShutdown => Ok "shutdown" | _ => Err "unsupported" end;
  cmd_from_json t := if decide (t = "status") then Ok CmdStatus
                     else if decide (t = "shutdown") then Ok CmdShutdown else Err "unknown";
  rsp_to_json r := if decide (r = toy_shutdown) then Ok "bye"
                   else if decide (r = toy_empty_status) then Ok "none" else Err "unsupported";
  rsp_from_json t := if decide (t = "bye") then Ok toy_shutdown
                     else if decide (t = "none") then Ok toy_empty_status else Err "unknown"
|}.

Lemma toy_line t : In t ["status"; "shutdown"; "bye"; "none"] -> line_text t.
Proof.
  unfold line_text. intros Ht. repeat destruct Ht as [<-|Ht]; try done;
    (split_and!; [by vm_compute| |by vm_compute..]; apply (bool_decide_unpack _); vm_compute; exact I).
Qed.

#[export] Instance toy_json_laws : DaemonJsonLaws.
Proof.
  split; simpl.
  - intros [] t; intros [= <-]; (split; [done|]; apply toy_line; simpl; tauto).
  - intros r t. case_decide as E1; [intros [= <-]; subst r; split; [done|]; apply toy_line; simpl; tauto|].
    case_decide as E2; [intros [= <-]; subst r; split; [done|]; apply toy_line; simpl; tauto|done].
  - intros r t n. case_decide; [|case_decide; [|done]]; intros [= <-] Hn; vm_compute in Hn;
      repeat (destruct n as [|n]; [by eexists|]); lia.
  - by eexists.
Qed.

Lemma command_roundtrip_witness :
  exists s', handle_connection (2 + 9) (fun _ => Done (Err "unused")) (peer_sends (as_bytes "shutdown" ++ [x0a])) daemon_new
    = Returns (HandlerReturned (Ok tt), s', (command_response (Done (Err "unused")) CmdShutdown daemon_new).2)
    /\ tx s' = as_bytes "bye" ++ [x0a].
Proof.
  exact (proj1 (command_roundtrip (fun _ => Done (Err "unused")) CmdShutdown daemon_new "shutdown"
    (peer_sends (as_bytes "shutdown" ++ [x0a])) (peer_sends []) toy_shutdown _ "bye"
    eq_refl eq_refl eq_refl eq_refl eq_refl eq_refl eq_refl)).
Defined.

Lemma handle_connection_total_witness :
  exists r s' d', handle_connection 12 (fun _ => Done (Err "unused")) (peer_sends (as_bytes "status" ++ [x0a; x20; x0a; x21])) daemon_new
    = Returns (r, s', d').
Proof. apply handle_connection_total. vm_compute. lia. Defined.
