(* ===== verification/ClientCli.v ===== *)
(** * The command line of the client (client/usbip-client/src/main.rs)

    The commands of [main], from the parsed command line to what is printed and the
    exit status, with the construction of the client they share: [detect_backend]
    (vhci/mod.rs), [Client::new] and [Client::discover_servers] (client.rs).  The
    network, the file system and the daemon at the other end of the socket are
    given by what they answer. *)

From Stdlib Require Import Ascii.
From S2P Require Import Prelude RustStd RustFloat Errors Text NetAddr Proto Urb Stream Wire Descriptor Reconnect Vhci Client.
From S2P Require Import Crypto CryptoStream Bandwidth UsbBackend UsbManager Batcher Server Api Discovery EndToEnd.
From S2P Require Import ServerCli Daemon DaemonSocket.

(** ** The client of a platform *)

Inductive Os := OsLinux | OsWindows | OsOther.

(** [Box<dyn VhciBackend>] of the platform. *)
Inductive PlatformVhci (F W : Type) := OnLinux (l : Linux (F := F)) | OnWindows (w : W).
Arguments OnLinux {F W} l.
Arguments OnWindows {F W} w.

Section Platform.
Context {F W : Type} `{!SysFs F} `{!Win32 W}.

Definition vhci_io {A} (on_linux : io (Linux (F := F)) A) (on_windows : io W A) : io (PlatformVhci F W) A := fun v =>
  match v with
  | OnLinux l => let '(r, l) := on_linux l in (r, OnLinux l)
  | OnWindows w => let '(r, w) := on_windows w in (r, OnWindows w)
  end.

#[export] Instance platform_vhci : VhciBackend (PlatformVhci F W) := {|
  vh_create_device e d :=
    vhci_io (vh_create_device e d) (@vh_create_device W windows_vhci e d);
  vh_complete_urb q i s n d :=
    vhci_io (vh_complete_urb q i s n d) (@vh_complete_urb W windows_vhci q i s n d);
  vh_cancel_urb q i := vhci_io (vh_cancel_urb q i) (@vh_cancel_urb W windows_vhci q i);
  vh_remove_device p := vhci_io (vh_remove_device p) (@vh_remove_device W windows_vhci p)
|}.

(** [detect_backend]; [fs] and [w] are the host's file system and devices. *)
Definition detect_backend (os : Os) (fs : F) (w : W) : UsbIpResult (PlatformVhci F W) :=
  match os with
  | OsLinux => match linux_new fs with (Ok b, fs) => Ok (OnLinux (b, fs)) | (Err k, _) => Err k end
  | OsWindows => Ok (OnWindows w)
  | OsOther => Err (NotSupported "VHCI is only supported on Linux and Windows")
  end.
End Platform.

(** ** [main] *)

(** How a command ended: what it printed, and its result; [Exit n] is
    [std::process::exit]; a daemon goes on. *)
Inductive ending := Finished (r : UsbIpResult unit) | Exit (code : Z) | StillRunning.
Record Output := { out_stdout : list string; out_stderr : list string; out_end : ending }.

Definition prints (lines : list string) : Output :=
  {| out_stdout := lines; out_stderr := []; out_end := Finished (Ok tt) |}.
Definition fails (lines : list string) (k : ErrorKind) : Output :=
  {| out_stdout := lines; out_stderr := []; out_end := Finished (Err k) |}.

Section Main.
Context {V : Type} `{!VhciBackend V}.

(** [Client::new], on the result of [detect_backend]. *)
Definition client_new (config : ClientConfig) (vhci : UsbIpResult V) : UsbIpResult (Client (V := V)) :=
  let? v := vhci in new_with_vhci config v.

(** [Client::discover_servers]. *)
Definition discover_servers {D} `{!MdnsSd D} (daemon : result string D) (start : Z) (script : Script)
    : outcome (UsbIpResult (list SocketAddr)) :=
  match browser_new daemon with
  | Err k => Returns (Err k)
  | Ok d => let! (r, _) := client_browse start script d in Returns r
  end.

(** [Commands::Discover]. *)
Definition main_discover {D} `{!MdnsSd D} (vhci : UsbIpResult V) (daemon : result string D) (start : Z) (script : Script)
    : outcome Output :=
  match client_new client_default vhci with
  | Err k => Returns (fails [] k)
  | Ok _ =>
      let! servers := discover_servers daemon start script in
      Returns match servers with
              | Err k => fails [] k
              | Ok [] => prints ["No USB/IP servers found on the network."]
              | Ok addrs => prints ("USB/IP servers found:" :: map (fun a => "  " +:+ addr_to_string a) addrs)
              end
  end.

Definition device_line (dev : UsbIpDeviceEntry) : string :=
  "  " +:+ hex_pad 4 (vid dev) +:+ ":" +:+ hex_pad 4 (pid dev) +:+ "  " +:+ busid_str dev +:+ "  " +:+ path_str dev.

Definition client_config (server : SocketAddr) (auto_reconnect : bool) : ClientConfig :=
  {| cc_server_addr := Some (addr_to_string server); cc_use_mdns := false; cc_auto_reconnect := auto_reconnect;
     cc_reconnect := cc_reconnect client_default; cc_tcp_nodelay := cc_tcp_nodelay client_default |}.

(** [Commands::List]. *)
Definition main_list (vhci : UsbIpResult V) (dial : SocketAddr -> Dial) (server : SocketAddr) : Output :=
  match client_new (client_config server true) vhci with
  | Err k => fails [] k
  | Ok client =>
      match list_remote_devices (cl_config client) (dial server) with
      | Err k => fails [] k
      | Ok [] => prints ["No exportable devices on " +:+ addr_to_string server]
      | Ok devices => prints (("Devices on " +:+ addr_to_string server +:+ ":") :: map device_line devices)
      end
  end.

(** [Commands::Connect], to its end: [ctrl_c] is the result of waiting for the
    signal.  With the output comes the client as the process leaves it. *)
Definition main_connect (overflow_checks : bool) (chunks : nat -> nat) (vhci : UsbIpResult V) (dial : SocketAddr -> Dial)
    (server : SocketAddr) (busid : string) (no_reconnect : bool) (ctrl_c : result IoError unit)
    : outcome (Output * option (Client (V := V))) :=
  match client_new (client_config server (negb no_reconnect)) vhci with
  | Err k => Returns (fails [] k, None)
  | Ok client =>
      let importing := "Importing device " +:+ busid +:+ " from " +:+ addr_to_string server +:+ "..." in
      let! (r, client, _) := import_device overflow_checks chunks (dial server) busid client in
      match r with
      | Err k => Returns (fails [importing] k, Some client)
      | Ok imported =>
          let e := im_device_entry imported in
          let out := [importing; "Device imported: " +:+ hex_pad 4 (vid e) +:+ ":" +:+ hex_pad 4 (pid e);
                      "Press Ctrl+C to detach."] in
          match ctrl_c with
          | Err k => Returns (fails out (Io k), Some client)
          | Ok _ => Returns (prints (out ++ [""; "Detaching device..."]), Some client)
          end
      end
  end.
End Main.

(** *** The daemon *)

Inductive DaemonCtlAction :=
| CtlConnect (server : SocketAddr) (busid : string)
| CtlDisconnect (busid : string)
| CtlStatus
| CtlShutdown.

Definition ctl_command (a : DaemonCtlAction) : DaemonCommand :=
  match a with
  | CtlConnect server busid => CmdConnect (addr_to_string server) busid
  | CtlDisconnect busid => CmdDisconnect busid
  | CtlStatus => CmdStatus
  | CtlShutdown => CmdShutdown
  end.

Section Daemon_commands.
Context (p : Paths) (read_file : string -> result IoError string) (from_toml : string -> result string DaemonConfig).

(** [Commands::Daemon], up to the configuration it runs with. *)
Definition daemon_config_path (config : option string) : string :=
  match config with
  | Some path => path
  | None => match find_config p with Some path => path | None => "/etc/usbip-client/config.toml" end
  end.

Definition main_daemon_config (config : option string) : UsbIpResult DaemonConfig :=
  daemon_config_load p read_file from_toml (daemon_config_path config).

(** [Commands::DaemonCtl], the socket. *)
Definition FALLBACK_SOCKET : string := "/var/run/usbip-client/usbip-client.sock".

Definition ctl_socket_path (socket : option string) : string :=
  match socket with
  | Some path => path
  | None =>
      match find_config p with
      | Some cfg_path =>
          match daemon_config_load p read_file from_toml cfg_path with
          | Ok cfg => dc_socket_path cfg
          | Err _ => FALLBACK_SOCKET
          end
      | None => FALLBACK_SOCKET
      end
  end.

(** The display of a response. *)
Definition state_icon (state : string) : string :=
  if bool_decide (state = "connected") then "✓"
  else if bool_decide (state = "connecting") then "..."
  else "!".

Definition connection_line (c : ConnectionStatus) : string :=
  "  " +:+ state_icon (st_state c) +:+ " " +:+ st_busid c +:+ " (" +:+ st_server c +:+ ") — " +:+ st_state c.

Definition show_response (response : DaemonResponse) : Output :=
  if bool_decide (rp_status response = "ok") then
    prints (("OK: " +:+ default "" (rp_message response))
            :: match rp_connections response with
               | None => []
               | Some [] => ["  No active connections."]
               | Some connections => "  Connections:" :: map connection_line connections
               end)
  else {| out_stdout := []; out_stderr := ["Error: " +:+ default "unknown error" (rp_message response)]; out_end := Exit 1 |}.

(** [Commands::DaemonCtl]; [send] is [send_daemon_command]. *)
Definition main_daemon_ctl (send : string -> DaemonCommand -> UsbIpResult DaemonResponse) (socket : option string)
    (action : DaemonCtlAction) : Output :=
  let socket_path := ctl_socket_path socket in
  if negb (pa_exists p socket_path) then
    {| out_stdout := [];
       out_stderr := ["Error: daemon socket not found at " +:+ socket_path +:+ ". Is the daemon running?"];
       out_end := Exit 1 |}
  else
    match send socket_path (ctl_command action) with
    | Err k => fails [] k
    | Ok response => show_response response
    end.

(** [Commands::Daemon]: the client of [DaemonManager::new] is built from the default
    configuration, without discovery and reconnection. *)
Definition manager_config : ClientConfig :=
  {| cc_server_addr := None; cc_use_mdns := false; cc_auto_reconnect := false;
     cc_reconnect := cc_reconnect client_default; cc_tcp_nodelay := cc_tcp_nodelay client_default |}.

Definition main_daemon {V} `{!VhciBackend V} (vhci : UsbIpResult V) (fs : RunFs) (events : list run_event)
    (config : option string) : outcome Output :=
  match main_daemon_config config with
  | Err k => Returns (fails [] k)
  | Ok daemon_config =>
      match client_new manager_config vhci with
      | Err k => Returns (fails [] k)
      | Ok _ =>
          let! (_, _, r) := daemon_run fs daemon_config events in
          Returns {| out_stdout := ["Starting USB/IP client daemon..."]; out_stderr := [];
                     out_end := match r with Some r => Finished r | None => StillRunning end |}
      end
  end.
End Daemon_commands.

Inductive ClientCommands :=
| CmdlDiscover
| CmdlList (server : SocketAddr)
| CmdlConnect (server : SocketAddr) (busid : string) (no_reconnect : bool)
| CmdlDaemon (config : option string)
| CmdlDaemonCtl (socket : option string) (action : DaemonCtlAction).

(** What the commands meet. *)
Record ClientEnv {V D : Type} := {
  ce_vhci : UsbIpResult V;
  ce_mdns : result string D;
  ce_start : Z;
  ce_script : Script;
  ce_dial : SocketAddr -> Dial;
  ce_overflow_checks : bool;
  ce_chunks : nat -> nat;
  ce_ctrl_c : result IoError unit;
  ce_paths : Paths;
  ce_read : string -> result IoError string;
  ce_toml : string -> result string DaemonConfig;
  ce_run_fs : RunFs;
  ce_run_events : list run_event;
  ce_send : string -> DaemonCommand -> UsbIpResult DaemonResponse
}.
Arguments ClientEnv V D : clear implicits.

Definition client_main {V D} `{!VhciBackend V} `{!MdnsSd D} (env : ClientEnv V D) (cmd : ClientCommands) : outcome Output :=
  match cmd with
  | CmdlDiscover => main_discover (ce_vhci env) (ce_mdns env) (ce_start env) (ce_script env)
  | CmdlList server => Returns (main_list (ce_vhci env) (ce_dial env) server)
  | CmdlConnect server busid no_reconnect =>
      let! (out, _) := main_connect (ce_overflow_checks env) (ce_chunks env) (ce_vhci env) (ce_dial env)
                         server busid no_reconnect (ce_ctrl_c env) in
      Returns out
  | CmdlDaemon config =>
      main_daemon (ce_paths env) (ce_read env) (ce_toml env) (ce_vhci env) (ce_run_fs env) (ce_run_events env) config
  | CmdlDaemonCtl socket action =>
      Returns (main_daemon_ctl (ce_paths env) (ce_read env) (ce_toml env) (ce_send env) socket action)
  end.

(** ** Theorems *)

Section Ctl.
Context (p : Paths) (read_file : string -> result IoError string) (from_toml : string -> result string DaemonConfig).

(** When the daemon and [daemon-ctl] are both started without options they
    meet on one socket exactly if a configuration file is found or the run directory
    is the system's: without either, [daemon-ctl] looks at the system path while the
    daemon listens in the run directory of the user. *)
Theorem ctl_meets_daemon cfg :
  main_daemon_config p read_file from_toml None = Ok cfg ->
  (ctl_socket_path p read_file from_toml None = dc_socket_path cfg
   <-> is_Some (find_config p) \/ default_run_dir p = "/var/run/usbip-client").
Proof.
  unfold main_daemon_config, daemon_config_path, ctl_socket_path. destruct (find_config p) as [path|] eqn:Ef.
  { intros ->. split; [by left; eexists|done]. }
  assert (He : pa_exists p "/etc/usbip-client/config.toml" = false).
  { unfold find_config, default_paths in Ef. simpl in Ef. by destruct (pa_exists p "/etc/usbip-client/config.toml"). }
  unfold daemon_config_load. rewrite He. simpl. intros [= <-].
  change (dc_socket_path (daemon_config_default p)) with (default_run_dir p +:+ "/usbip-client.sock").
  change FALLBACK_SOCKET with ("/var/run/usbip-client" +:+ "/usbip-client.sock"). split.
  - intros H%string_app_inj_r. by right.
  - intros [[? H]|H]; [discriminate H|]. by rewrite H.
Qed.

(** What a control action is to bring about. *)
Definition accomplished (a : DaemonCtlAction) (d d' : Daemon) : Prop :=
  match a with
  | CtlConnect server busid => is_managed {| cf_server := addr_to_string server; cf_busid := busid |} d' = true
  | CtlDisconnect busid =>
      exists mc, remove_busid busid (dm_connections d) = Some (mc, dm_connections d') /\ mc_token mc ∈ dm_cancelled d'
  | CtlStatus => d' = d
  | CtlShutdown => dm_shutdown d' = true
  end.

(** The status the shell sees; [main] returns a [Result]. *)
Definition exit_code (e : ending) : option Z :=
  match e with Finished (Ok _) => Some 0 | Finished (Err _) => Some 1 | Exit code => Some code | StillRunning => None end.

(** A response tells whether the action was accomplished. *)
Lemma response_status import a d r d' :
  command_response import (ctl_command a) d = (Some r, d') ->
  exit_code (out_end (show_response r)) = Some 0 /\ accomplished a d d'
  \/ exit_code (out_end (show_response r)) = Some 1 /\ out_stderr (show_response r) <> []
     /\ dm_connections d' = dm_connections d /\ ~ accomplished a d d'.
Proof.
  unfold command_response. destruct a as [server busid|busid| |]; simpl.
  - destruct (is_managed _ d) eqn:Em; [intros [= <- <-]; by left|]. unfold finish_connect. simpl.
    rewrite length_app, Nat.add_sub, lookup_app_r, Nat.sub_diag by lia. simpl.
    destruct import as [[dev|e]|]; intros Hx; [injection Hx as <- <-..|discriminate Hx]; simpl.
    + left. split; [done|]. unfold is_managed. simpl. rewrite existsb_app. simpl. by rewrite bool_decide_eq_true_2, orb_true_r.
    + right. split_and!; [done..|]. intros H. unfold is_managed in H, Em. simpl in H, Em. congruence.
  - destruct (remove_busid busid _) as [[mc rest]|]; intros [= <- <-]; simpl.
    + left. split; [done|]. exists mc. split; [done|]. by left.
    + right. split_and!; [done..|]. by intros (mc & [=] & _).
  - intros [= <- <-]. by left.
  - intros [= <- <-]. by left.
Qed.

(** *** [daemon-ctl] and the daemon *)

Section Ctl_run.
Context `{!DaemonJson}.

(** A connection to the daemon: how much can be written on it, how much of the
    daemon's answer arrives, and how it ends. *)
Record CtlLink := { ln_room : option nat; ln_arrives : nat; ln_end : IoError }.

Definition ctl_stream (link : CtlLink) (reply : list byte) : Stream :=
  {| rx := reply; rx_end := ln_end link; tx := []; tx_room := ln_room link |}.

(** What the daemon gets to see of a command. *)
Definition ctl_writes (link : CtlLink) (cmd : DaemonCommand) : list byte :=
  match cmd_to_json cmd with
  | Ok t => tx (snd ((write_all (as_bytes t) ;;; write_all [x0a] ;;; Stream.flush) (ctl_stream link [])))
  | Err _ => []
  end.

(** [send_daemon_command] on a connection that [handle_connection] serves. *)
Definition ask_daemon (connect : string -> result IoError CtlLink) (imports : nat -> awaited (result string ImportedDevice))
    (d : Daemon) (path : string) (cmd : DaemonCommand) : UsbIpResult DaemonResponse * Daemon :=
  match connect path with
  | Err e => (fst (send_daemon_command (Err e) cmd), d)
  | Ok link =>
      let line := ctl_writes link cmd in
      match handle_connection (2 + length line) imports (peer_sends line) d with
      | Returns (_, s, d') => (fst (send_daemon_command (Ok (ctl_stream link (take (ln_arrives link) (tx s)))) cmd), d')
      | Panics | OutOfFuel => (Err ConnectionClosed, d)
      end
  end.

(** The program, and the daemon after it. *)
Definition daemon_ctl (connect : string -> result IoError CtlLink) (imports : nat -> awaited (result string ImportedDevice))
    (d : Daemon) (socket : option string) (a : DaemonCtlAction) : Output * Daemon :=
  let path := ctl_socket_path p read_file from_toml socket in
  (main_daemon_ctl p read_file from_toml (fun path cmd => fst (ask_daemon connect imports d path cmd)) socket a,
   if pa_exists p path then snd (ask_daemon connect imports d path (ctl_command a)) else d).

Context `{!DaemonJsonLaws}.

(** What is known when a response came. *)
Lemma ask_daemon_ok connect imports d path cmd r d' : ask_daemon connect imports d path cmd = (Ok r, d') ->
  command_response (imports O) cmd d = (Some r, d').
Proof.
  unfold ask_daemon. destruct (connect path) as [link|e]; [|done].
  destruct (handle_connection _ imports _ d) as [[[he s] d1]| |] eqn:Eh; [|done..].
  destruct (send_daemon_command (Ok (ctl_stream link (take (ln_arrives link) (tx s)))) cmd) as [r0 c'] eqn:Es. cbn [fst].
  intros [= -> <-].
  destruct (command_response (imports O) cmd d) as [resp d2] eqn:Ec.
  pose proof (sender_room _ _ _ _ Es) as (t & _ & _ & _ & Et & Hroom & _).
  unfold ctl_writes in Eh. rewrite Et in Eh. destruct (write_line_room (as_bytes t) (ctl_stream link []) Hroom) as (s1 & Ew & Htx).
  rewrite Ew in Eh. cbn [snd] in Eh. rewrite Htx in Eh. cbn [ctl_stream tx app] in Eh.
  destruct (handler_answers imports cmd d t (peer_sends (as_bytes t ++ [x0a])) resp d2 Et Ec eq_refl eq_refl eq_refl)
    as (e & s2 & Hh & Htx2 & _). cbn [rx peer_sends] in Hh. rewrite Hh in Eh. injection Eh as <- <- <-. simpl in Htx2.
  f_equal. apply (sender_gets cmd (ctl_stream link (take (ln_arrives link) (tx s2))) resp (ln_arrives link) r c'); [|exact Es].
  simpl. by rewrite Htx2.
Qed.

(** What is known when the whole answer arrives. *)
Lemma ask_daemon_answered connect imports d path cmd link t r d' rt :
  connect path = Ok link -> ln_room link = None -> cmd_to_json cmd = Ok t ->
  command_response (imports O) cmd d = (Some r, d') -> rsp_to_json r = Ok rt -> (length (as_bytes rt) < ln_arrives link)%nat ->
  ask_daemon connect imports d path cmd = (Ok r, d').
Proof.
  intros Hl Hroom Et Ec Er Hn. unfold ask_daemon. rewrite Hl. unfold ctl_writes. rewrite Et.
  destruct (write_line_room (as_bytes t) (ctl_stream link [])) as (s1 & Ew & Htx); [unfold has_room; simpl; by rewrite Hroom|].
  rewrite Ew. cbn [snd]. rewrite Htx. cbn [ctl_stream tx app].
  destruct (handler_answers imports cmd d t (peer_sends (as_bytes t ++ [x0a])) (Some r) d' Et Ec eq_refl eq_refl eq_refl)
    as (e & s2 & Hh & Htx2 & _). cbn [rx peer_sends] in Hh. rewrite Hh. unfold answer_line in Htx2. rewrite Er in Htx2. simpl in Htx2.
  rewrite Htx2, take_ge by (rewrite length_app; simpl; lia).
  destruct (sender_reads cmd t (ctl_stream link (as_bytes rt ++ [x0a])) r rt Et Er Hroom eq_refl) as (c' & -> & _). done.
Qed.

(** C34: The exit status of [daemon-ctl] can be relied on.  Whether or not the socket is
    there and can be connected to, however much of the command can be written, whatever
    the import of a Connect comes to and however little of the answer arrives, the
    program exits with 0 or 1, and with 0 only if the daemon accomplished the action.
    When the daemon can be reached and its answer arrives, it exits with 0 exactly if
    the action was accomplished; and otherwise with an error text, and the daemon
    manages the same connections as before. *)
Theorem ctl_exit_status connect imports d socket a out d' :
  daemon_ctl connect imports d socket a = (out, d') ->
  (exit_code (out_end out) = Some 0 \/ exit_code (out_end out) = Some 1)
  /\ (exit_code (out_end out) = Some 0 -> accomplished a d d')
  /\ forall link t r d1 rt, pa_exists p (ctl_socket_path p read_file from_toml socket) = true ->
       connect (ctl_socket_path p read_file from_toml socket) = Ok link -> ln_room link = None ->
       cmd_to_json (ctl_command a) = Ok t -> command_response (imports O) (ctl_command a) d = (Some r, d1) ->
       rsp_to_json r = Ok rt -> (length (as_bytes rt) < ln_arrives link)%nat ->
       (exit_code (out_end out) = Some 0 <-> accomplished a d d')
       /\ (~ accomplished a d d' -> out_stderr out <> [] /\ dm_connections d' = dm_connections d).
Proof.
  unfold daemon_ctl, main_daemon_ctl. set (path := ctl_socket_path p read_file from_toml socket).
  destruct (pa_exists p path) eqn:Ep; cbn [negb]; intros [= <- <-]; [|split_and!; [by right|done|done]].
  destruct (ask_daemon connect imports d path (ctl_command a)) as [res d2] eqn:Ea. cbn [fst snd].
  split_and!.
  - destruct res as [r|k]; [|by right]. pose proof (response_status _ _ _ _ _ (ask_daemon_ok _ _ _ _ _ _ _ Ea)) as Hst. tauto.
  - destruct res as [r|k]; [|done]. pose proof (response_status _ _ _ _ _ (ask_daemon_ok _ _ _ _ _ _ _ Ea)) as Hst.
    intros Hz. destruct Hst as [[_ Hst]|[Hone _]]; [done|congruence].
  - intros link t r d1 rt _ Hl Hroom Et Ec Er Hn. rewrite (ask_daemon_answered _ _ _ _ _ _ _ _ _ _ Hl Hroom Et Ec Er Hn) in Ea.
    injection Ea as <- <-. pose proof (response_status _ _ _ _ _ Ec) as [[Hz Hst]|(Hone & He & Hk & Hst)]; [tauto|].
    split; [split; [congruence|done]|done].
Qed.
End Ctl_run.
End Ctl.

(** *** The two lists *)

Section Lists.
Context `{!Ring} {B : Type} `{!UsbBackend B} {V : Type} `{!VhciBackend V}.

(** What [list] prints on the client for a device is what it prints on the server,
    without the speed. *)
Lemma device_line_prefix d : list_line d = device_line d +:+ "  speed=" +:+ pretty (speed_val d).
Proof. unfold list_line, device_line. by rewrite !string_app_assoc. Qed.

(** [usbip-client list] shows the devices of the server: the request it sends
    makes the server answer with bytes for which it prints one line per device, in
    the order of the server, and the line of a device is that of [usbip-server list]
    up to the speed. *)
Theorem client_list_shows_server fuel env config peer (c : Conn (B := B)) (v : V) server :
  env_nodelay env = Ok tt -> tx_room (cn_stream c) = None ->
  Forall entry_wf (list_devices (cn_usb c)) -> zlen (list_devices (cn_usb c)) < 2 ^ 32 ->
  exists request reply c' s',
    handle_client fuel env config peer (receives request c) = Returns (Ok tt, c')
    /\ tx (cn_stream c') = tx (cn_stream c) ++ reply
    /\ request_devices (peer_sends reply) = (Ok (list_devices (cn_usb c)), s') /\ tx s' = request
    /\ let out := main_list (Ok v) (fun _ => dial_to (peer_sends reply)) server in
       out_end out = Finished (Ok tt)
       /\ match list_devices (cn_usb c) with
          | [] => out_stdout out = ["No exportable devices on " +:+ addr_to_string server]
          | ds => exists title ls, out_stdout out = title :: ls
                    /\ map list_line ds = zip_with (fun l d => l +:+ "  speed=" +:+ pretty (speed_val d)) ls ds
                    /\ length ls = length ds
          end.
Proof.
  intros He Hc Hes Hn. set (es := list_devices (cn_usb c)) in *.
  pose proof (request_devices_ok es [] (peer_sends []) Hes Hn eq_refl) as Hr. rewrite app_nil_r in Hr.
  change (set_rx (devlist_reply es) (peer_sends [])) with (peer_sends (devlist_reply es)) in Hr.
  eexists (header_as_bytes (header_new OP_REQ_DEVLIST)), (devlist_reply es), _, _.
  split.
  { rewrite <- (app_nil_r (header_as_bytes _)).
    apply devlist_answered; [done|repeat split; vm_compute; congruence|done|done]. }
  split; [reflexivity|]. split; [exact Hr|]. split; [reflexivity|].
  cbv zeta. unfold main_list. cbn [client_new new_with_vhci]. unfold list_remote_devices.
  unfold open_stream, dial_to. cbn [dial_connect dial_nodelay cl_config client_config cc_tcp_nodelay].
  assert (Hl : forall ds, map list_line ds
    = zip_with (fun l d => l +:+ "  speed=" +:+ pretty (speed_val d)) (map device_line ds) ds).
  { induction ds as [|d ds IH]; [done|]. cbn [map zip_with]. by rewrite IH, device_line_prefix. }
  simpl. rewrite Hr. simpl. destruct es as [|e ds] eqn:E; [done|]. split; [done|].
  eexists _, (map device_line (e :: ds)). split_and!; [reflexivity|exact (Hl (e :: ds))|by rewrite length_map].
Qed.
End Lists.

(** *** Detaching *)

Section Detach.
Context {V : Type} `{!VhciBackend V}.

(** [Connect] never detaches: after the signal it says so, but the host
    controller is as the import left it, with the device attached. *)
Theorem connect_never_detaches overflow_checks chunks (v : V) dial server busid no_reconnect out c :
  main_connect overflow_checks chunks (Ok v) dial server busid no_reconnect (Ok tt) = Returns (out, Some c) ->
  out_end out = Finished (Ok tt) ->
  last (out_stdout out) = Some "Detaching device..."
  /\ exists entry descriptors,
       do_import overflow_checks chunks (dial server) busid true v = Returns (Ok (entry, descriptors), cl_vhci c).
Proof.
  unfold main_connect. cbn [client_new new_with_vhci]. unfold import_device, import_device_once.
  cbn [cl_config cl_vhci cl_connections client_config cc_tcp_nodelay client_default].
  destruct (do_import overflow_checks chunks (dial server) busid true v) as [[[[entry descriptors]|k] v']| |]; simpl; try done.
  - intros [= <- <-] _. split; [done|]. by eexists _, _.
  - by intros [= <- <-].
Qed.
End Detach.

(** Without a virtual host controller every command but [daemon-ctl] fails, listing
    and discovery included, which do not use it. *)
Lemma commands_need_vhci {V D} `{!VhciBackend V} `{!MdnsSd D} (env : ClientEnv V D) cmd k out :
  ce_vhci env = Err k -> client_main env cmd = Returns out ->
  match cmd with
  | CmdlDaemonCtl _ _ => True
  | CmdlDaemon _ => out_end out <> Finished (Ok tt)
  | _ => out = fails [] k
  end.
Proof.
  intros Hv. destruct cmd; simpl; unfold main_discover, main_list, main_connect, main_daemon, client_new; rewrite ?Hv; simpl.
  - by intros [= <-].
  - by intros [= <-].
  - by intros [= <-].
  - destruct (main_daemon_config _ _ _ _); by intros [= <-].
  - done.
Qed.

(** ** Witnesses *)

(** A user without the system directories: the daemon listens in the run directory
    of the user. *)
Definition user_paths : Paths :=
  {| pa_exists _ := false; pa_runtime_dir := Some "/run/user/1000"; pa_data_local_dir := None; pa_config_dir := None |}.

Definition no_file (path : string) : result IoError string :=
  Err {| io_kind := IoOther; io_text := "No such file or directory" |}.
Definition no_toml (content : string) : result string DaemonConfig := Err "expected a table".

Lemma ctl_meets_daemon_witness :
  ctl_socket_path user_paths no_file no_toml None <> "/run/user/1000/usbip-client/usbip-client.sock".
Proof.
  intros H. pose proof (proj1 (ctl_meets_daemon user_paths no_file no_toml (daemon_config_default user_paths) eq_refl) H) as Hc.
  destruct Hc as [[x Hx]|Hx]; vm_compute in Hx; discriminate Hx.
Defined.

(** The user asks a daemon to shut down, over a connection on which two bytes of the
    answer get lost, and over one on which nothing does. *)
Definition ctl_paths : Paths :=
  {| pa_exists path := bool_decide (path = FALLBACK_SOCKET); pa_runtime_dir := None; pa_data_local_dir := None; pa_config_dir := None |}.
Definition ctl_link (arrives : nat) (path : string) : result IoError CtlLink :=
  Ok {| ln_room := None; ln_arrives := arrives; ln_end := eof |}.
Definition asks_shutdown (arrives : nat) : Output * Daemon :=
  daemon_ctl ctl_paths no_file no_toml (ctl_link arrives) (fun _ => Unwound) daemon_new None CtlShutdown.

Lemma ctl_exit_status_witness :
  exit_code (out_end (fst (asks_shutdown 2))) = Some 1 /\ dm_shutdown (snd (asks_shutdown 2)) = true
  /\ exit_code (out_end (fst (asks_shutdown 4))) = Some 0 /\ accomplished CtlShutdown daemon_new (snd (asks_shutdown 4)).
Proof.
  split; [vm_compute; reflexivity|]. split; [vm_compute; reflexivity|].
  destruct (ctl_exit_status ctl_paths no_file no_toml (ctl_link 4) (fun _ => Unwound) daemon_new None CtlShutdown
              (fst (asks_shutdown 4)) (snd (asks_shutdown 4)) eq_refl) as (_ & H0 & Hwhole).
  assert (E : exit_code (out_end (fst (asks_shutdown 4))) = Some 0) by (vm_compute; reflexivity).
  split; [|exact (H0 E)]. apply (proj1 (Hwhole _ "shutdown" toy_shutdown (snd (asks_shutdown 4)) "bye" eq_refl eq_refl eq_refl eq_refl
    eq_refl eq_refl ltac:(vm_compute; lia))). exact (H0 E).
Defined.

Lemma client_list_shows_server_witness :
  exists request reply c' s',
    handle_client (H := toy_ring) 1 sample_env default_config "10.0.0.2:40000" (receives request wheel_conn) = Returns (Ok tt, c')
    /\ request_devices (peer_sends reply) = (Ok [wheel_entry], s') /\ tx s' = request
    /\ out_end (main_list (Ok mock_new) (fun _ => dial_to (peer_sends reply)) unspecified) = Finished (Ok tt).
Proof.
  destruct (client_list_shows_server (H := toy_ring) (B := Wheel) (UsbBackend0 := wheel_backend) (V := MockVhciBackend) 1 sample_env default_config "10.0.0.2:40000" wheel_conn mock_new unspecified
              eq_refl eq_refl (Forall_cons_2 _ _ _ sample_entry_1_1_wf (Forall_nil_2 _)) eq_refl)
    as (request & reply & c' & s' & H1 & _ & H3 & H4 & H5 & _).
  exists request, reply, c', s'. split_and!; [exact H1|exact H3|exact H4|exact H5].
Defined.

Definition import_answer : list byte :=
  header_as_bytes (header_new OP_REP_IMPORT) ++ entry_as_bytes sample_entry ++ serialize_descriptor_tree sample_tree.

Definition detach_run :=
  main_connect true (fun _ => 75%nat) (Ok mock_new) (fun _ => dial_to (peer_sends import_answer)) unspecified "1-2" false (Ok tt).

Lemma connect_never_detaches_witness :
  exists out c, detach_run = Returns (out, Some c) /\ last (out_stdout out) = Some "Detaching device..."
    /\ length (mk_devices (cl_vhci c)) = 1%nat.
Proof.
  assert (H : exists out c, detach_run = Returns (out, Some c) /\ out_end out = Finished (Ok tt)
                            /\ length (mk_devices (cl_vhci c)) = 1%nat).
  { eexists _, _. split; [vm_compute; reflexivity|]. split; reflexivity. }
  destruct H as (out & c & Hr & He & Hd). exists out, c. split; [exact Hr|]. split; [|exact Hd].
  exact (proj1 (connect_never_detaches true (fun _ => 75%nat) mock_new (fun _ => dial_to (peer_sends import_answer)) unspecified
                  "1-2" false out c Hr He)).
Defined.
