(* ===== verification/WindowsApp.v ===== *)
(** * The Windows application (windows/src/actions.rs, windows/src/main.rs)

    The server controller of the window and the thread it starts, the discoverer, the
    actions of the window, the commands [serve] and [connect], and the service.

    The thread races [server.run()] against [wait_for_shutdown]; the latter blocks
    the thread in [mpsc::Receiver::recv] as soon as it is polled, so the model keeps
    apart the polls of the race and the wait in [recv]. *)

From Stdlib Require Import Ascii.
From S2P Require Import Prelude RustStd RustFloat Errors Text NetAddr Proto Urb Stream Wire Bandwidth UsbBackend UsbManager.
From S2P Require Import Server Api Discovery Reconnect Vhci Client Wiring ServerCli SetupApi ClientCli.

(** ** actions.rs: errors and discovery *)

Inductive AnyPlugError := AlreadyRunning | Mdns (text : string).

Definition anyplug_to_string (e : AnyPlugError) : string :=
  match e with
  | AlreadyRunning => "server is already running"
  | Mdns text => "mDNS: " +:+ text
  end.

Record DiscoveredServer := { dv_addr : SocketAddr; dv_service_name : string }.

(** The text of an error that was just created; [uuid] is its correlation id. *)
Definition shown (uuid : string) (k : ErrorKind) : string := display_error (from_kind uuid k) [].

Section Discoverer.
Context {D : Type} `{!MdnsSd D}.

Definition discoverer_new (uuid : string) (daemon : result string D) : result AnyPlugError D :=
  map_err (fun k => Mdns ("mDNS init failed: " +:+ shown uuid k)) (browser_new daemon).

(** [Discoverer::discover]; the timeout is not used. *)
Definition discover (uuid : string) (timeout start : Z) (script : Script) (d : D)
    : outcome (result AnyPlugError (list DiscoveredServer) * D) :=
  let! (r, d) := client_browse start script d in
  Returns (match r with
           | Ok addrs => Ok (map (fun a => {| dv_addr := a; dv_service_name := addr_to_string a |}) addrs)
           | Err k => Err (Mdns (shown uuid k))
           end, d).
End Discoverer.

(** ** actions.rs: the server controller *)

Record ServerController := {
  shutdown_tx : option nat;
  join_handle : option nat;
  ctl_port : Z;
  running : bool
}.

Definition controller_new : ServerController :=
  {| shutdown_tx := None; join_handle := None; ctl_port := 0; running := false |}.

Definition is_running (c : ServerController) : bool := running c.
Definition controller_port (c : ServerController) : Z := ctl_port c.

Definition controller_config (port : Z) : ServerConfig :=
  {| sc_bind_address := "0.0.0.0"; sc_port := port; sc_allowed_vid_pid := []; sc_require_confirmation := true;
     sc_encryption_enabled := false; sc_tcp_nodelay := true; sc_max_bandwidth := unlimited; sc_per_client_bandwidth := None |}.

Section Threads.
Context {B D : Type} `{!UsbBackend B} `{!MdnsSd D}.
Abbreviation TheServer := (Server (B := B) (D := D)).

(** [server.run()]: not polled yet, or in its accept loop with the peers it
    spawned a task for. *)
Inductive RunFuture := NotStarted (sv : TheServer) | Accepting (peers : list string).

(** One poll of it: the accepts that are ready. [None]: the future is done. *)
Definition poll_run (env : RunEnv) (ready : list (result IoError string)) (f : RunFuture) : option RunFuture :=
  match f with
  | NotStarted sv =>
      let '(peers, r, _) := server_run env ready sv in
      match r with Some _ => None | None => Some (Accepting peers) end
  | Accepting before =>
      let '(peers, r) := accept_loop ready in
      match r with Some _ => None | None => Some (Accepting (before ++ peers)) end
  end.

(** Where the thread is: creating the server, before the first poll of the race, in
    [recv], in the race without a sender (the wait is pending for ever), or done. *)
Inductive thread_phase :=
| Creating
| Racing (sv : TheServer)
| InRecv (f : RunFuture)
| Serving (f : RunFuture)
| Done.

(** [th_inbox] counts the messages in the channel, [th_sender] tells whether its
    sender is alive. *)
Record Thread := { th_config : ServerConfig; th_phase : thread_phase; th_inbox : nat; th_sender : bool }.

Definition in_phase (p : thread_phase) (t : Thread) : Thread :=
  {| th_config := th_config t; th_phase := p; th_inbox := th_inbox t; th_sender := th_sender t |}.

Inductive thread_event :=
| Created (r : UsbIpResult TheServer)
| Polled (run_first : bool) (ready : list (result IoError string))
| RecvReturns.

(** The thread of [start] with [wait_for_shutdown]; [None]: it cannot do that now. *)
Definition thread_step (env : RunEnv) (ev : thread_event) (t : Thread) : option Thread :=
  match th_phase t, ev with
  | Creating, Created (Ok sv) => Some (in_phase (Racing sv) t)
  | Creating, Created (Err _) => Some (in_phase Done t)
  | Racing sv, Polled run_first ready =>
      if run_first then
        match poll_run env ready (NotStarted sv) with
        | Some f => Some (in_phase (InRecv f) t)
        | None => Some (in_phase Done t)
        end
      else Some (in_phase (InRecv (NotStarted sv)) t)
  | InRecv f, RecvReturns =>
      match th_inbox t with
      | S n => Some {| th_config := th_config t; th_phase := Done; th_inbox := n; th_sender := th_sender t |}
      | O => if th_sender t then None else Some (in_phase (Serving f) t)
      end
  | Serving f, Polled _ ready =>
      match poll_run env ready f with
      | Some f => Some (in_phase (Serving f) t)
      | None => Some (in_phase Done t)
      end
  | _, _ => None
  end.

(** [ServerController::start]: the thread it spawns is added to [threads]. *)
Definition start (port : Z) (c : ServerController) (threads : list Thread)
    : result AnyPlugError unit * ServerController * list Thread :=
  if running c then (Err AlreadyRunning, c, threads)
  else (Ok tt,
        {| shutdown_tx := Some (length threads); join_handle := Some (length threads); ctl_port := port; running := true |},
        threads ++ [{| th_config := controller_config port; th_phase := Creating; th_inbox := 0; th_sender := true |}]).

(** The message of [stop], and the drop of the sender after it; a thread that is
    done has no receiver. *)
Definition signal (t : Thread) : Thread :=
  {| th_config := th_config t; th_phase := th_phase t;
     th_inbox := match th_phase t with Done => th_inbox t | _ => S (th_inbox t) end; th_sender := false |}.

(** [ServerController::stop]. *)
Definition stop (c : ServerController) (threads : list Thread)
    : result AnyPlugError unit * ServerController * list Thread :=
  let stopped := {| shutdown_tx := None; join_handle := join_handle c; ctl_port := ctl_port c; running := false |} in
  match shutdown_tx c with
  | None => (Ok tt, stopped, threads)
  | Some i => (Ok tt, stopped, alter signal i threads)
  end.

(** ** main.rs: the window *)

Record AnyPlugApp := {
  local_devices : list UsbDeviceInfo;
  app_error : option string;
  server_port : Z;
  app_server : ServerController;
  app_discoverer : option D;
  app_discovered : list DiscoveredServer;
  app_threads : list Thread
}.

Definition app_new (discoverer : result AnyPlugError D) : AnyPlugApp :=
  {| local_devices := []; app_error := None; server_port := 3240; app_server := controller_new;
     app_discoverer := result_ok discoverer; app_discovered := []; app_threads := [] |}.

Definition set_error (e : option string) (a : AnyPlugApp) : AnyPlugApp :=
  {| local_devices := local_devices a; app_error := e; server_port := server_port a; app_server := app_server a;
     app_discoverer := app_discoverer a; app_discovered := app_discovered a; app_threads := app_threads a |}.

Definition set_server (c : ServerController) (threads : list Thread) (a : AnyPlugApp) : AnyPlugApp :=
  {| local_devices := local_devices a; app_error := app_error a; server_port := server_port a; app_server := c;
     app_discoverer := app_discoverer a; app_discovered := app_discovered a; app_threads := threads |}.

(** [refresh_devices], on the result of the enumeration. *)
Definition refresh_devices (uuid : string) (r : UsbIpResult (list UsbDeviceInfo)) (a : AnyPlugApp) : AnyPlugApp :=
  match r with
  | Ok devices =>
      {| local_devices := devices; app_error := None; server_port := server_port a; app_server := app_server a;
         app_discoverer := app_discoverer a; app_discovered := app_discovered a; app_threads := app_threads a |}
  | Err k => set_error (Some ("Enumeration failed: " +:+ shown uuid k)) a
  end.

Definition start_server (a : AnyPlugApp) : AnyPlugApp :=
  let '(r, c, threads) := start (server_port a) (app_server a) (app_threads a) in
  let a := set_server c threads a in
  match r with Ok _ => a | Err e => set_error (Some ("Start failed: " +:+ anyplug_to_string e)) a end.

(** The handler of the button [Stop Server]. *)
Definition stop_server (a : AnyPlugApp) : AnyPlugApp :=
  let '(r, c, threads) := stop (app_server a) (app_threads a) in
  let a := set_server c threads a in
  match r with Ok _ => a | Err e => set_error (Some ("Stop failed: " +:+ anyplug_to_string e)) a end.

Definition export_device (dev : UsbDeviceInfo) (a : AnyPlugApp) : AnyPlugApp :=
  set_error (Some ("Per-device export for " +:+ hex_pad 4 (vendor_id dev) +:+ ":" +:+ hex_pad 4 (product_id dev)
    +:+ " is not yet supported; start the server and use the USB/IP client to import it.")) a.

(** [run_discover], with what the browse meets. *)
Definition run_discover (uuid : string) (start_time : Z) (script : Script) (a : AnyPlugApp) : outcome AnyPlugApp :=
  match app_discoverer a with
  | None => Returns (set_error (Some "mDNS subsystem is not available on this host") a)
  | Some d =>
      let! (r, d) := discover uuid (2 * 10 ^ 9) start_time script d in
      Returns match r with
              | Ok servers =>
                  {| local_devices := local_devices a; app_error := None; server_port := server_port a;
                     app_server := app_server a; app_discoverer := Some d; app_discovered := servers;
                     app_threads := app_threads a |}
              | Err e => set_error (Some ("mDNS discover failed: " +:+ anyplug_to_string e)) a
              end
  end.

(** The status bar. *)
Definition status_bar (a : AnyPlugApp) : string :=
  if is_running (app_server a) then "Server running on port " +:+ pretty (controller_port (app_server a))
  else "Server stopped".

(** A click on a button, as [update] handles it, with what the handler meets. *)
Inductive click :=
| Export (i : nat)
| Refresh (uuid : string) (r : UsbIpResult (list UsbDeviceInfo))
| StartStop
| Discover (uuid : string) (start_time : Z) (script : Script).

Definition update (c : click) (a : AnyPlugApp) : outcome AnyPlugApp :=
  match c with
  | Export i => Returns match local_devices a !! i with Some dev => export_device dev a | None => a end
  | Refresh uuid r => Returns (refresh_devices uuid r a)
  | StartStop => Returns (if is_running (app_server a) then stop_server a else start_server a)
  | Discover uuid start_time script => run_discover uuid start_time script a
  end.

(** The window and the threads of the controller, interleaved. *)
Inductive app_step : AnyPlugApp -> AnyPlugApp -> Prop :=
| step_click c a a' : update c a = Returns a' -> app_step a a'
| step_thread env i ev a t t' :
    app_threads a !! i = Some t -> thread_step env ev t = Some t' ->
    app_step a (set_server (app_server a) (<[i := t']> (app_threads a)) a).
End Threads.
Arguments Thread B D : clear implicits.
Arguments AnyPlugApp B D : clear implicits.
Arguments thread_phase B D : clear implicits.
Arguments RunFuture B D : clear implicits.
Arguments thread_event B D : clear implicits.

(** ** Theorems about the controller *)

Section Controller.
Context {B D : Type} `{!UsbBackend B} `{!MdnsSd D}.

(** A thread is stopped for good: it is done, or a message waits for it. *)
Definition told_to_stop (t : Thread B D) : Prop :=
  th_sender t = false /\ (th_phase t = Done \/ (0 < th_inbox t)%nat).

Definition thread_ok (c : ServerController) (i : nat) (t : Thread B D) : Prop :=
  (if th_sender t then shutdown_tx c = Some i else told_to_stop t) /\ forall f, th_phase t <> Serving f.

Record app_inv (a : AnyPlugApp B D) : Prop := {
  ai_running : running (app_server a) = true <-> is_Some (shutdown_tx (app_server a));
  ai_sender : forall i, shutdown_tx (app_server a) = Some i -> exists t, app_threads a !! i = Some t /\ th_sender t = true;
  ai_threads : forall i t, app_threads a !! i = Some t -> thread_ok (app_server a) i t
}.

Lemma thread_step_ok env ev c i (t t' : Thread B D) :
  thread_ok c i t -> thread_step env ev t = Some t' -> thread_ok c i t' /\ th_sender t' = th_sender t.
Proof.
  intros [Hs Hn] H. unfold thread_ok, told_to_stop in *. unfold thread_step in H.
  destruct (th_phase t) as [|sv|f|f|] eqn:Ep, ev as [[sv'|k]|first ready|]; try done.
  - injection H as <-. simpl. split; [|done]. split; [|done]. destruct (th_sender t); [done|]. destruct Hs as [_ [|]]; [done|]. auto.
  - injection H as <-. simpl. split; [|done]. split; [|done]. destruct (th_sender t); [done|]. destruct Hs as [_ [|]]; [done|]. auto.
  - destruct first; [destruct (poll_run _ _ _)|]; injection H as <-; simpl; (split; [|done]); (split; [|done]);
      (destruct (th_sender t); [done|]); (destruct Hs as [_ [|]]; [done|]); auto.
  - destruct (th_inbox t) as [|n] eqn:Ei.
    + destruct (th_sender t); [done|]. destruct Hs as [_ [|]]; [done|lia].
    + injection H as <-. simpl. split; [|done]. split; [|done]. destruct (th_sender t); [done|]. auto.
  - by destruct (Hn f).
Qed.

Lemma app_inv_same (a a' : AnyPlugApp B D) :
  app_server a' = app_server a -> app_threads a' = app_threads a -> app_inv a -> app_inv a'.
Proof. intros Hs Ht [H1 H2 H3]. split; rewrite ?Hs, ?Ht; done. Qed.

Lemma start_inv (a : AnyPlugApp B D) : app_inv a -> running (app_server a) = false -> app_inv (start_server a).
Proof.
  intros [H1 H2 H3] Hr. unfold start_server, start. rewrite Hr. simpl. split; simpl.
  - by split.
  - intros i [= <-]. rewrite lookup_app_r, Nat.sub_diag by lia. by eexists.
  - intros i t Ht. apply lookup_app_Some in Ht as [Ht|[Hi Ht]].
    + destruct (H3 i t Ht) as [Hs Hn]. split; [|done]. destruct (th_sender t) eqn:Es; [|done].
      exfalso. assert (running (app_server a) = true) by (apply H1; by eexists). congruence.
    + destruct (i - length (app_threads a))%nat as [|n] eqn:Ei; [|done]. injection Ht as <-. split; [|done]. simpl. f_equal. lia.
Qed.

Lemma stop_inv (a : AnyPlugApp B D) : app_inv a -> app_inv (stop_server a).
Proof.
  intros [H1 H2 H3]. unfold stop_server, stop. destruct (shutdown_tx (app_server a)) as [j|] eqn:Ej; simpl.
  - split; simpl; [split; [done|by intros [? [=]]]|done|]. intros i t Ht.
    destruct (decide (i = j)) as [->|Hne].
    + rewrite list_lookup_alter_eq in Ht. destruct (app_threads a !! j) as [t0|] eqn:E0; [|done]. injection Ht as <-.
      destruct (H3 j t0 E0) as [_ Hn]. split; [|done]. split; [done|].
      unfold signal; cbn [th_phase th_inbox]. destruct (th_phase t0); first [by left | right; lia].
    + rewrite list_lookup_alter_ne in Ht by done. destruct (H3 i t Ht) as [Hs Hn]. split; [|done].
      destruct (th_sender t); [|done]. rewrite Ej in Hs. congruence.
  - split; simpl; [split; [done|by intros [? [=]]]|done|]. intros i t Ht. destruct (H3 i t Ht) as [Hs Hn]. split; [|done].
    destruct (th_sender t); [|done]. by rewrite Ej in Hs.
Qed.

(** What a click does to the server: nothing, start it or stop it. *)
Lemma update_server c (a a' : AnyPlugApp B D) : update c a = Returns a' ->
  (app_server a' = app_server a /\ app_threads a' = app_threads a)
  \/ (running (app_server a) = true /\ a' = stop_server a)
  \/ (running (app_server a) = false /\ a' = start_server a).
Proof.
  destruct c as [i|uuid r| |uuid s script]; simpl; intros Hu.
  - injection Hu as <-. left. by destruct (local_devices a !! i).
  - injection Hu as <-. left. by destruct r.
  - injection Hu as <-. unfold is_running. destruct (running (app_server a)); auto.
  - left. unfold run_discover in Hu. destruct (app_discoverer a) as [d|]; [|by injection Hu as <-].
    destruct (discover uuid _ s script d) as [[[l|e] d']| |]; try done; by injection Hu as <-.
Qed.

Lemma app_step_inv (a a' : AnyPlugApp B D) : app_inv a -> app_step a a' -> app_inv a'.
Proof.
  intros Hi Hs. destruct Hs as [c a a' Hu|env i ev a t t' Ht Hst].
  - apply update_server in Hu as [[Hs Ht]|[[Hr ->]|[Hr ->]]]; [by apply (app_inv_same a)|by apply stop_inv|by apply start_inv].
  - destruct Hi as [H1 H2 H3]. destruct (thread_step_ok env ev _ i t t' (H3 i t Ht) Hst) as [Hok Hse].
    split; simpl; [done| |].
    + intros j Hj. destruct (H2 j Hj) as (tj & Htj & Hsj). destruct (decide (i = j)) as [->|Hne].
      * exists t'. rewrite list_lookup_insert_eq by (by eapply lookup_lt_Some). rewrite Hse. split; [done|]. by simplify_eq.
      * exists tj. by rewrite list_lookup_insert_ne.
    + intros j tj Hj. apply list_lookup_insert_Some in Hj as [(-> & <- & _)|[_ Hj]]; [done|by apply H3].
Qed.

(** What one step does to one thread. *)
Lemma app_step_thread (a b : AnyPlugApp B D) i t : app_step a b -> app_threads a !! i = Some t ->
  exists t', app_threads b !! i = Some t'
    /\ (t' = t \/ t' = signal t \/ exists env ev, thread_step env ev t = Some t').
Proof.
  intros Hs Ht. destruct Hs as [c a b Hu|env j ev a tj t' Hj Hst].
  - apply update_server in Hu as [[_ Hth]|[[Hr ->]|[Hr ->]]].
    + exists t. rewrite Hth. auto.
    + unfold stop_server, stop. destruct (shutdown_tx _) as [j|]; simpl; [|by exists t; auto].
      destruct (decide (j = i)) as [->|Hne].
      * exists (signal t). rewrite list_lookup_alter_eq, Ht. auto.
      * exists t. rewrite list_lookup_alter_ne by done. auto.
    + unfold start_server, start. rewrite Hr. simpl. exists t. rewrite lookup_app_l by (by eapply lookup_lt_Some). auto.
  - simpl. destruct (decide (j = i)) as [->|Hne].
    + exists t'. rewrite list_lookup_insert_eq by (by eapply lookup_lt_Some). simplify_eq. eauto 6.
    + exists t. rewrite list_lookup_insert_ne by done. auto.
Qed.

Lemma app_inv_reachable discoverer (a : AnyPlugApp B D) : rtc app_step (app_new discoverer) a -> app_inv a.
Proof.
  intros Hr. remember (app_new discoverer) as a0. assert (H0 : app_inv a0).
  { subst. split; simpl; [split; [done|by intros [? [=]]]|done|by intros i t H; rewrite lookup_nil in H]. }
  clear Heqa0. induction Hr as [|x y z Hxy _ IH]; [done|]. apply IH. by eapply app_step_inv.
Qed.

(** The window keeps at most one server: in every reachable state it shows a
    server as running exactly when it holds the sender of one thread, that thread is
    the only one that has not been told to stop, and every other one is done or has a
    message waiting. *)
Theorem one_server_at_a_time discoverer (a : AnyPlugApp B D) :
  rtc app_step (app_new discoverer) a ->
  (running (app_server a) = true <->
     exists i t, shutdown_tx (app_server a) = Some i /\ app_threads a !! i = Some t /\ th_sender t = true)
  /\ forall i t, app_threads a !! i = Some t -> shutdown_tx (app_server a) <> Some i -> told_to_stop t.
Proof.
  intros [H1 H2 H3]%app_inv_reachable. split.
  - rewrite H1. split.
    + intros [i Hi]. destruct (H2 i Hi) as (t & Ht & Hs). by exists i, t.
    + intros (i & t & Hi & _). by eexists.
  - intros i t Ht Hne. destruct (H3 i t Ht) as [Hs _]. by destruct (th_sender t).
Qed.

(** C39: A server started from the window serves no one: once the thread waits for the
    stop signal, nothing but the end of the thread ever happens to the accept loop.
    The connections it ever accepts are those that were ready at its first poll. *)
Theorem window_server_stalls discoverer (a a' : AnyPlugApp B D) i t f :
  rtc app_step (app_new discoverer) a -> app_threads a !! i = Some t -> th_phase t = InRecv f -> rtc app_step a a' ->
  exists t', app_threads a' !! i = Some t' /\ (th_phase t' = InRecv f \/ th_phase t' = Done).
Proof.
  intros Hr%app_inv_reachable Ht Hp Hs.
  assert (Hq : th_phase t = InRecv f \/ th_phase t = Done) by (by left). clear Hp. revert t Ht Hq.
  induction Hs as [a|a b c Hab _ IH]; intros t Ht Hq; [by exists t|].
  destruct (app_step_thread a b i t Hab Ht) as (t' & Ht' & Hc). apply (IH (app_step_inv a b Hr Hab) t' Ht').
  destruct Hc as [->|[->|(env & ev & Hst)]]; [done|done|].
  destruct (ai_threads _ Hr i t Ht) as [Hs _]. unfold thread_step in Hst.
  destruct Hq as [Hq|Hq]; rewrite Hq in Hst; [|by destruct ev as [[]| |]].
  destruct ev as [[]|first ready|]; try done. destruct (th_inbox t) as [|n] eqn:Ei; [|by injection Hst as <-; right].
  unfold told_to_stop in Hs. destruct (th_sender t); [done|]. rewrite Hq, Ei in Hs. destruct Hs as [_ [|]]; [done|lia].
Qed.

(** Steps a thread takes on its own. *)
Fixpoint thread_steps (env : RunEnv) (evs : list (thread_event B D)) (t : Thread B D) : option (Thread B D) :=
  match evs with
  | [] => Some t
  | ev :: evs => t ← thread_step env ev t; thread_steps env evs t
  end.

(** How far a thread that was told to stop is from its end. *)
Definition distance (t : Thread B D) : nat :=
  match th_phase t with Creating => 3 | Racing _ => 2 | InRecv _ => 1 | Serving _ => 0 | Done => 0 end.

Lemma stopping_step env ev (t t' : Thread B D) :
  told_to_stop t -> (forall f, th_phase t <> Serving f) -> thread_step env ev t = Some t' ->
  told_to_stop t' /\ (forall f, th_phase t' <> Serving f) /\ (distance t' < distance t)%nat.
Proof.
  intros Ht Hn H. assert (Hs : th_sender t = false) by apply Ht.
  destruct (thread_step_ok env ev controller_new 0 t t') as [[Hok Hn'] Hs']; [|done|].
  { split; [|done]. by rewrite Hs. }
  rewrite Hs', Hs in Hok. split; [done|]. split; [done|]. clear Hok Hs' Hn'.
  unfold distance, thread_step in *. destruct (th_phase t) as [|sv|f|f|] eqn:Ep, ev as [[]|first ready|]; try done.
  - injection H as <-. simpl. lia.
  - injection H as <-. simpl. lia.
  - destruct first; [destruct (poll_run _ _ _)|]; injection H as <-; simpl; lia.
  - destruct Ht as [_ [Ht|Ht]]; [congruence|]. destruct (th_inbox t); [lia|]. injection H as <-. simpl. lia.
  - by destruct (Hn f).
Qed.

(** Stopping works: a thread that was told to stop takes at most three more
    steps, whatever they are, and until it is done it always has one it can take. *)
Theorem stop_ends_thread env evs (t t' : Thread B D) :
  told_to_stop t -> (forall f, th_phase t <> Serving f) -> thread_steps env evs t = Some t' ->
  (length evs <= 3)%nat /\ (th_phase t' = Done \/ exists ev, is_Some (thread_step env ev t')).
Proof.
  intros Ht Hn Hs. assert (H : told_to_stop t' /\ (forall f, th_phase t' <> Serving f) /\ (distance t' + length evs <= distance t)%nat).
  { revert t Ht Hn Hs. induction evs as [|ev evs IH]; intros t Ht Hn Hs; simpl in Hs.
    { injection Hs as <-. split; [done|]. split; [done|]. simpl. lia. }
    destruct (thread_step env ev t) as [t1|] eqn:E; [|done]. destruct (stopping_step env ev t t1 Ht Hn E) as (H1 & H2 & H3).
    destruct (IH t1 H1 H2 Hs) as (H4 & H5 & H6). split; [done|]. split; [done|]. simpl. lia. }
  clear Ht Hn Hs. destruct H as (Ht & Hn & Hd). split.
  { unfold distance in Hd at 2. destruct (th_phase t); lia. }
  unfold thread_step. destruct (th_phase t') as [|sv|f|f|] eqn:Ep; [right|right|right|by destruct (Hn f)|by left].
  - exists (Created (Err Timeout)). by eexists.
  - exists (Polled false []). by eexists.
  - exists RecvReturns. destruct Ht as [_ [Ht|Ht]]; [congruence|]. destruct (th_inbox t'); [lia|]. by eexists.
Qed.
End Controller.

(** ** Witnesses *)

(** The window after a click on [Start Server], and when its thread waits for the
    signal; one client was waiting when the server was first polled. *)
Definition first_window : AnyPlugApp FakeBackend bool := app_new (Err AlreadyRunning).
Definition started_window : AnyPlugApp FakeBackend bool := start_server first_window.

Definition window_server : Server (B := FakeBackend) (D := bool) :=
  {| sv_usb := with_backend {| fb_devices := [] |}; sv_exports := ∅; sv_mdns := None; sv_config := controller_config 3240 |}.

Definition window_thread (p : thread_phase FakeBackend bool) : Thread FakeBackend bool :=
  {| th_config := controller_config 3240; th_phase := p; th_inbox := 0; th_sender := true |}.

Definition waiting_window : AnyPlugApp FakeBackend bool :=
  set_server (app_server started_window) [window_thread (InRecv (Accepting ["10.0.0.2:5000"]))] started_window.

Lemma started_reachable : rtc app_step first_window started_window.
Proof. apply rtc_once. by apply (step_click StartStop). Qed.

Lemma waiting_reachable : rtc app_step first_window waiting_window.
Proof.
  transitivity started_window; [exact started_reachable|]. set (env := bind_env "0.0.0.0:" (Ok tt)).
  eapply rtc_l.
  { apply (step_thread env 0 (Created (Ok window_server)) started_window (window_thread Creating)
             (window_thread (Racing window_server))); reflexivity. }
  eapply rtc_once.
  apply (step_thread env 0 (Polled true [Ok "10.0.0.2:5000"])
           (set_server (app_server started_window) [window_thread (Racing window_server)] started_window)
           (window_thread (Racing window_server)) (window_thread (InRecv (Accepting ["10.0.0.2:5000"])))); [reflexivity|].
  vm_compute. reflexivity.
Qed.

Lemma one_server_at_a_time_witness :
  running (app_server started_window) = true
  /\ exists i t, shutdown_tx (app_server started_window) = Some i /\ app_threads started_window !! i = Some t /\ th_sender t = true.
Proof.
  split; [reflexivity|].
  exact (proj1 (proj1 (one_server_at_a_time (Err AlreadyRunning) started_window started_reachable)) eq_refl).
Defined.

Lemma window_server_stalls_witness :
  exists t', app_threads (stop_server waiting_window) !! 0%nat = Some t'
    /\ (th_phase t' = InRecv (Accepting ["10.0.0.2:5000"]) \/ th_phase t' = Done).
Proof.
  apply (window_server_stalls (Err AlreadyRunning) waiting_window (stop_server waiting_window) 0
           (window_thread (InRecv (Accepting ["10.0.0.2:5000"]))) (Accepting ["10.0.0.2:5000"]) waiting_reachable);
    [reflexivity|reflexivity|]. apply rtc_once. by apply (step_click StartStop).
Defined.

Lemma stop_ends_thread_witness :
  exists ev, is_Some (thread_step (bind_env "0.0.0.0:" (Ok tt)) ev (signal (window_thread Creating))).
Proof.
  destruct (stop_ends_thread (bind_env "0.0.0.0:" (Ok tt)) [] (signal (window_thread Creating)) (signal (window_thread Creating)))
    as [_ [H|H]]; [|discriminate|reflexivity|discriminate H|exact H].
  split; [reflexivity|]. right. simpl. lia.
Defined.
