(* ===== verification/WindowsMain.v ===== *)
(** * The commands of the Windows application (windows/src/main.rs)

    [serve], [connect] and the service, with the text [main] prints for an error.
    Runtimes, sockets and the service manager are given by what they answer. *)

From Stdlib Require Import Ascii.
From S2P Require Import Prelude RustStd RustFloat Errors Text NetAddr Proto Urb Stream Wire Descriptor Bandwidth UsbBackend.
From S2P Require Import UsbManager Server Api Discovery Reconnect Vhci Client Wiring ServerCli ClientCli WindowsApp.

(** [parse_vid_pid] has the same text as that of the server. *)
Definition windows_parse_vid_pid (s : string) : result string (Z * Z) :=
  match split_on ":"%char s with
  | [p0; p1] => let? vid := parse_hex16 p0 in let? pid := parse_hex16 p1 in Ok (vid, pid)
  | _ => Err "format: VID:PID (e.g., 046d:c261)"
  end.

(** ** Errors *)

(** [anyhow::Error], by what [downcast_ref] finds in it. *)
Inductive Anyhow := FromUsbIp (k : ErrorKind) | FromIo (e : IoError) | Message (text : string).

(** The line [main] prints before it exits with status 1. *)
Definition fatal_line (uuid : string) (e : Anyhow) : string :=
  match e with
  | FromUsbIp k =>
      "Fatal: [corr=" +:+ uuid +:+ "] [cat=" +:+ category_to_string (category k) +:+ "] " +:+ shown uuid k
  | FromIo e => "Fatal: " +:+ io_text e
  | Message text => "Fatal: " +:+ text
  end.

(** ** [serve] *)

Definition serve_config (bind : string) (port : Z) (allowed : list (Z * Z)) (require_confirmation encryption_enabled : bool)
    : ServerConfig :=
  {| sc_bind_address := bind; sc_port := port; sc_allowed_vid_pid := allowed;
     sc_require_confirmation := require_confirmation; sc_encryption_enabled := encryption_enabled; sc_tcp_nodelay := true;
     sc_max_bandwidth := unlimited; sc_per_client_bandwidth := None |}.

(** [run_server]: the peers served and the result, [None] while it runs. *)
Definition run_server {B D} `{!UsbBackend B} `{!MdnsSd D} (runtime : result IoError unit)
    (usb : UsbIpResult (UsbDeviceManager (B := B))) (daemon : result string D) (hostname : string) (env : RunEnv)
    (events : list (result IoError string)) (config : ServerConfig) : list string * option (result Anyhow unit) :=
  match runtime with
  | Err e => ([], Some (Err (FromIo e)))
  | Ok _ =>
      match server_new usb daemon hostname config with
      | Err k => ([], Some (Err (FromUsbIp k)))
      | Ok server =>
          let '(peers, r, _) := server_run env events server in
          (peers, option_map (map_err FromUsbIp) r)
      end
  end.

(** ** [connect] *)

(** How the command ends: with a result, or it stays for ever. *)
Inductive client_end := Ended (r : result Anyhow unit) | KeepsAlive.

Section Connect.
Context {V : Type} `{!VhciBackend V}.

Record ClientRun := { cu_stdout : list string; cu_end : client_end; cu_client : option (Client (V := V)) }.

Definition ended (out : list string) (e : Anyhow) (c : option (Client (V := V))) : ClientRun :=
  {| cu_stdout := out; cu_end := Ended (Err e); cu_client := c |}.

Definition windows_client_config (server_addr : option SocketAddr) (auto_reconnect : bool) : ClientConfig :=
  {| cc_server_addr := option_map addr_to_string server_addr;
     cc_use_mdns := match server_addr with None => true | Some _ => false end;
     cc_auto_reconnect := auto_reconnect;
     cc_reconnect := if auto_reconnect then with_max_retries 10 else no_retry;
     cc_tcp_nodelay := true |}.

(** [busid.unwrap_or_else(|| devices[0].busid_str().to_string())]. *)
Definition target_busid (busid : option string) (devices : list UsbIpDeviceEntry) : outcome string :=
  match busid, devices with
  | Some b, _ => Returns b
  | None, d :: _ => Returns (busid_str d)
  | None, [] => Panics
  end.

Context (overflow_checks : bool) (chunks : nat -> nat).
(** [dial n] is what the [n]-th connection of the command meets. *)
Context (vhci : UsbIpResult V) (dial : nat -> SocketAddr -> Dial).

(** From the list of the devices on: [out] was printed before. *)
Definition list_and_import (client : Client (V := V)) (addr : SocketAddr) (busid : option string) (keep : bool)
    (out : list string) : outcome ClientRun :=
  match list_remote_devices (cl_config client) (dial 0%nat addr) with
  | Err k => Returns (ended out (FromUsbIp k) (Some client))
  | Ok devices =>
      let out := out ++ ("Devices on " +:+ addr_to_string addr +:+ ":") :: map list_line devices in
      let! target := target_busid busid devices in
      let! (r, client, _) := import_device overflow_checks chunks (dial 1%nat addr) target client in
      match r with
      | Err k => Returns (ended out (FromUsbIp k) (Some client))
      | Ok _ =>
          Returns {| cu_stdout := out ++ ["Imported device " +:+ target +:+ " from " +:+ addr_to_string addr];
                     cu_end := if keep then KeepsAlive else Ended (Ok tt);
                     cu_client := Some client |}
      end
  end.

(** The numbered lines of the servers that were found. *)
Fixpoint server_lines (i : nat) (servers : list SocketAddr) : list string :=
  match servers with
  | [] => []
  | a :: servers => ("  " +:+ pretty (Z.of_nat i) +:+ ". " +:+ addr_to_string a) :: server_lines (S i) servers
  end.

Definition run_client_discover {D} `{!MdnsSd D} (daemon : result string D) (start : Z) (script : Script)
    (busid : option string) (auto_reconnect : bool) : outcome ClientRun :=
  match client_new (windows_client_config None auto_reconnect) vhci with
  | Err k => Returns (ended [] (FromUsbIp k) None)
  | Ok client =>
      let! servers := discover_servers daemon start script in
      match servers with
      | Err k => Returns (ended [] (FromUsbIp k) (Some client))
      | Ok [] => Returns (ended [] (Message "No USB/IP servers discovered on the network") (Some client))
      | Ok (addr :: rest) =>
          list_and_import client addr busid true ("Discovered servers:" :: server_lines 1 (addr :: rest) ++ [""])
      end
  end.

Definition run_client_direct (server : string) (busid : option string) (auto_reconnect : bool) : outcome ClientRun :=
  match parse_socket_addr server with
  | None => Returns (ended [] (Message ("Invalid server address: " +:+ server)) None)
  | Some addr =>
      match client_new (windows_client_config (Some addr) auto_reconnect) vhci with
      | Err k => Returns (ended [] (FromUsbIp k) None)
      | Ok client => list_and_import client addr busid auto_reconnect []
      end
  end.

(** [run_client]: one runtime is made first, a second one for discovery. *)
Definition run_client {D} `{!MdnsSd D} (runtime runtime' : result IoError unit) (daemon : result string D) (start : Z)
    (script : Script) (server : string) (busid : option string) (auto_reconnect discover : bool) : outcome ClientRun :=
  match runtime with
  | Err e => Returns (ended [] (FromIo e) None)
  | Ok _ =>
      if discover then
        match runtime' with
        | Err e => Returns (ended [] (FromIo e) None)
        | Ok _ => run_client_discover daemon start script busid auto_reconnect
        end
      else run_client_direct server busid auto_reconnect
  end.
End Connect.

(** ** The service *)

Inductive ServiceControl := CtlStop | CtlShutdownNow | CtlInterrogate | CtlOther.
Inductive HandlerResult := NoError | NotImplemented.
Inductive ServiceState := ServiceRunning | ServiceStopped.

(** The control handler: its answer, and whether it sends the shutdown message. *)
Definition control_handler (c : ServiceControl) : HandlerResult * bool :=
  match c with
  | CtlStop | CtlShutdownNow => (NoError, true)
  | CtlInterrogate => (NoError, false)
  | CtlOther => (NotImplemented, false)
  end.

Definition service_config : ServerConfig := serve_config "0.0.0.0" 3240 [] false false.

(** [my_service_main] while the manager sends [controls]: the states it reported
    and whether it returned.  A registration or a report that fails panics. *)
Definition my_service_main (register : bool) (set_status : ServiceState -> bool) (controls : list ServiceControl)
    : outcome (list ServiceState * bool) :=
  if negb register then Panics
  else if negb (set_status ServiceRunning) then Panics
  else if existsb (fun c => snd (control_handler c)) controls then
    if set_status ServiceStopped then Returns ([ServiceRunning; ServiceStopped], true) else Panics
  else Returns ([ServiceRunning], false).

(** ** [main] *)

Inductive WindowsCommands :=
| WServe (bind : string) (port : Z) (allowed : list (Z * Z)) (no_confirm encrypt service : bool)
| WConnect (server : string) (busid : option string) (auto_reconnect discover : bool)
| WGui.

(** What [main] goes on with; the default is the window. *)
Inductive Dispatch :=
| RunAsService
| RunServer (config : ServerConfig)
| RunClient (server : string) (busid : option string) (auto_reconnect discover : bool)
| RunGui.

Definition windows_main (command : option WindowsCommands) : Dispatch :=
  match default WGui command with
  | WServe bind port allowed no_confirm encrypt service =>
      if service then RunAsService else RunServer (serve_config bind port allowed (negb no_confirm) encrypt)
  | WConnect server busid auto_reconnect discover => RunClient server busid auto_reconnect discover
  | WGui => RunGui
  end.

(** [run_as_service], on the result of the dispatcher. *)
Definition run_as_service (dispatcher : result string unit) : result Anyhow unit :=
  map_err (fun e => Message ("Service dispatcher error: " +:+ e)) dispatcher.

(** ** Theorems *)

Section Connect_facts.
Context {V : Type} `{!VhciBackend V}.
Context (overflow_checks : bool) (chunks : nat -> nat) (v : V) (dial : nat -> SocketAddr -> Dial).

(** [connect] without a bus id imports the first device the server lists, and
    panics when the list is empty. After the import the command stays only with
    [--auto-reconnect]; without it the process ends at once, with the device attached
    and no one to forward its transfers. *)
Theorem connect_imports_first server addr devices auto_reconnect :
  parse_socket_addr server = Some addr ->
  list_remote_devices (windows_client_config (Some addr) auto_reconnect) (dial 0%nat addr) = Ok devices ->
  match devices with
  | [] => run_client_direct overflow_checks chunks (Ok v) dial server None auto_reconnect = Panics
  | d :: _ =>
      forall entry descriptors v',
        do_import overflow_checks chunks (dial 1%nat addr) (busid_str d) true v = Returns (Ok (entry, descriptors), v') ->
        exists run c, run_client_direct overflow_checks chunks (Ok v) dial server None auto_reconnect = Returns run
          /\ cu_client run = Some c /\ cl_vhci c = v'
          /\ cu_end run = (if auto_reconnect then KeepsAlive else Ended (Ok tt))
          /\ last (cu_stdout run) = Some ("Imported device " +:+ busid_str d +:+ " from " +:+ addr_to_string addr)
  end.
Proof.
  intros Ha Hl. unfold run_client_direct. rewrite Ha. cbn [client_new new_with_vhci]. unfold list_and_import.
  cbn [cl_config]. rewrite Hl. destruct devices as [|d ds]; [done|]. intros entry descriptors v' Hi.
  cbn [target_busid]. unfold import_device, import_device_once. cbn [cl_config cl_vhci windows_client_config cc_tcp_nodelay].
  rewrite Hi. eexists _, _. split; [reflexivity|]. split; [reflexivity|]. split; [reflexivity|]. split; [reflexivity|].
  cbn [cu_stdout]. by rewrite last_snoc.
Qed.
End Connect_facts.

(** The service reports that it has stopped exactly when it was told to stop
    or to shut down, and it reports running before that. *)
Lemma service_stops set_status controls states returned :
  my_service_main true set_status controls = Returns (states, returned) ->
  head states = Some ServiceRunning
  /\ (ServiceStopped ∈ states <-> CtlStop ∈ controls \/ CtlShutdownNow ∈ controls)
  /\ (returned = true <-> ServiceStopped ∈ states).
Proof.
  unfold my_service_main. simpl. destruct (set_status ServiceRunning); [|done]. simpl.
  destruct (existsb _ controls) eqn:E.
  - destruct (set_status ServiceStopped); [|done]. intros [= <- <-]. split; [done|].
    assert (Hin : ServiceStopped ∈ [ServiceRunning; ServiceStopped]) by (by right; left). split; [|by split].
    split; [intros _|done]. apply existsb_exists in E as ([] & Hc & He); try done; apply list_elem_of_In in Hc; auto.
  - intros [= <- <-]. split; [done|].
    assert (Hno : ServiceStopped ∉ [ServiceRunning]) by (intros H; by apply list_elem_of_singleton in H). split; [|by split].
    split; [done|]. intros Hc. exfalso. rewrite <- not_true_iff_false in E. apply E. apply existsb_exists.
    destruct Hc as [Hc|Hc]; apply list_elem_of_In in Hc; by eexists.
Qed.

(** ** Witnesses *)

(** The server lists one device and exports it. *)
Definition one_device_dial (n : nat) (a : SocketAddr) : Dial :=
  dial_to (peer_sends match n with O => devlist_reply [sample_entry] | _ => import_answer end).

Lemma connect_imports_first_witness :
  exists run, run_client_direct true (fun _ => 75%nat) (Ok mock_new) one_device_dial "10.0.0.1:3240" None false = Returns run
    /\ cu_end run = Ended (Ok tt).
Proof.
  assert (Hl : list_remote_devices (windows_client_config (parse_socket_addr "10.0.0.1:3240") false)
                 (one_device_dial 0 {| sa_ip := IpV4 10 0 0 1; sa_scope_id := 0; sa_port := 3240 |}) = Ok [sample_entry])
    by (vm_compute; reflexivity).
  assert (Hi : exists e d v', do_import true (fun _ => 75%nat)
                 (one_device_dial 1 {| sa_ip := IpV4 10 0 0 1; sa_scope_id := 0; sa_port := 3240 |})
                 (busid_str sample_entry) true mock_new = Returns (Ok (e, d), v')) by (eexists _, _, _; vm_compute; reflexivity).
  destruct Hi as (e & d & v' & Hi).
  destruct (connect_imports_first true (fun _ => 75%nat) mock_new one_device_dial "10.0.0.1:3240" _ [sample_entry] false
              eq_refl Hl e d v' Hi) as (run & c & Hr & _ & _ & He & _).
  exists run. split; [exact Hr|exact He].
Defined.
