(* ===== verification/WindowsView.v ===== *)
(** * The window of the Windows application (windows/src/main.rs)

    One call of [AnyPlugApp::update] by egui: the widgets it draws, from top to
    bottom, and the handlers it runs on the way, each on the state the handlers
    above it left.  Which buttons egui reports as clicked, and what the handlers
    meet, is the input.  [run_gui] with what the runtime and eframe answer. *)

From S2P Require Import Prelude RustStd Errors NetAddr Bandwidth UsbBackend Server Discovery SetupApi WindowsApp WindowsMain.

Inductive widget :=
| Heading (text : string)
| Separator
| Space (points : Z)
| Label (text : string)
| Button (text : string)
| RedLabel (text : string).

#[export] Instance widget_eq_dec : EqDecision widget.
Proof. solve_decision. Defined.

(** The buttons egui reports as clicked in this frame. *)
Record Clicks := {
  on_export : nat -> bool;
  on_refresh : option (string * UsbIpResult (list UsbDeviceInfo));
  on_server : bool;
  on_discover : option (string * Z * Script)
}.

Definition no_clicks : Clicks := {| on_export _ := false; on_refresh := None; on_server := false; on_discover := None |}.

Section View.
Context {B D : Type} `{!UsbBackend B} `{!MdnsSd D}.
Abbreviation App := (AnyPlugApp B D).

Definition device_row (dev : UsbDeviceInfo) : list widget :=
  [Label (hex_pad 4 (vendor_id dev) +:+ ":" +:+ hex_pad 4 (product_id dev) +:+ "  " +:+ description dev); Button "Export"].

(** The rows of the devices, on a copy of the list. *)
Fixpoint device_rows (i : nat) (devices : list UsbDeviceInfo) (c : Clicks) (a : App) : list widget * App :=
  match devices with
  | [] => ([], a)
  | dev :: devices =>
      let a := if on_export c i then export_device dev a else a in
      let '(rows, a) := device_rows (S i) devices c a in
      (device_row dev ++ rows, a)
  end.

Definition device_section (c : Clicks) (a : App) : list widget * App :=
  match local_devices a with
  | [] => ([Label "(No devices detected — click Refresh)"], a)
  | devices => device_rows 0 devices c a
  end.

(** The button that starts or stops the server. *)
Definition server_button (a : App) : string := if is_running (app_server a) then "Stop Server" else "Start Server".

Definition server_clicked (c : Clicks) (a : App) : App :=
  if on_server c then if is_running (app_server a) then stop_server a else start_server a else a.

Definition discovered_section (a : App) : list widget :=
  match app_discovered a with
  | [] => []
  | servers => Label "Discovered USB/IP servers:" :: map (fun s => Label ("  " +:+ addr_to_string (dv_addr s))) servers ++ [Separator]
  end.

Definition error_section (a : App) : list widget :=
  match app_error a with None => [] | Some err => [Separator; RedLabel ("Error: " +:+ err)] end.

Definition header_section : list widget := [Heading "AnyPlug"; Separator; Label "Local USB Devices:"; Space 4].
Definition button_section (server : string) : list widget :=
  [Space 8; Button "Refresh"; Button server; Button "Discover"; Separator].
Definition status_section (a : App) : list widget := [Label (status_bar a)].

Definition frame (c : Clicks) (a : App) : outcome (list widget * App) :=
  let '(devices, a) := device_section c a in
  let a := match on_refresh c with Some (uuid, r) => refresh_devices uuid r a | None => a end in
  let button := server_button a in
  let a := server_clicked c a in
  let! a := match on_discover c with Some (uuid, now, script) => run_discover uuid now script a | None => Returns a end in
  Returns (header_section ++ devices ++ button_section button ++ discovered_section a ++ status_section a ++ error_section a, a).

(** [run_gui]: the state of the window before its first frame, or the error. *)
Definition run_gui (nogui : bool) (runtime : result IoError unit) (discoverer : result AnyPlugError D)
    (native : App -> result string unit) : result Anyhow unit :=
  if nogui then Err (Message "GUI support is disabled (compiled with 'nogui' feature)")
  else match runtime with
       | Err e => Err (FromIo e)
       | Ok _ => map_err (fun e => Message ("GUI error: " +:+ e)) (native (app_new discoverer))
       end.

(** ** What a frame does *)

Definition buttons (ws : list widget) : list string := omap (fun w => match w with Button t => Some t | _ => None end) ws.
Definition red_labels (ws : list widget) : list string := omap (fun w => match w with RedLabel t => Some t | _ => None end) ws.

Lemma buttons_app ws1 ws2 : buttons (ws1 ++ ws2) = buttons ws1 ++ buttons ws2.
Proof. apply omap_app. Qed.

Lemma red_labels_app ws1 ws2 : red_labels (ws1 ++ ws2) = red_labels ws1 ++ red_labels ws2.
Proof. apply omap_app. Qed.

Lemma rows_steps i devices c (a : App) : drop i (local_devices a) = devices ->
  let '(ws, a') := device_rows i devices c a in
  rtc app_step a a' /\ app_server a' = app_server a /\ ((forall j, on_export c j = false) -> a' = a)
  /\ red_labels ws = [] /\ buttons ws = replicate (length devices) "Export".
Proof.
  revert i a. induction devices as [|dev devices IH]; intros i a Hd; simpl; [by repeat split|].
  set (a0 := if on_export c i then export_device dev a else a).
  assert (H0 : rtc app_step a a0 /\ app_server a0 = app_server a /\ local_devices a0 = local_devices a).
  { unfold a0. destruct (on_export c i); [|done]. split; [|done]. apply rtc_once, (step_click (Export i)). simpl.
    by replace (local_devices a !! i) with (Some dev) by (by rewrite <- (Nat.add_0_r i), <- lookup_drop, Hd). }
  destruct H0 as (Hr0 & Hs0 & Hd0). specialize (IH (S i) a0).
  destruct (device_rows (S i) devices c a0) as [rows a1]. destruct IH as (Hr & Hs & Hn & Hl & Hb).
  { rewrite Hd0. replace (S i) with (i + 1)%nat by lia. by rewrite <- drop_drop, Hd. }
  split_and!; [by etrans|congruence| |done|].
  - intros Hc. rewrite Hn by done. unfold a0. by rewrite Hc.
  - simpl. by rewrite <- Hb.
Qed.

Lemma section_steps c (a : App) :
  let '(ws, a') := device_section c a in
  rtc app_step a a' /\ app_server a' = app_server a /\ ((forall j, on_export c j = false) -> a' = a)
  /\ red_labels ws = [] /\ buttons ws = replicate (length (local_devices a)) "Export".
Proof.
  unfold device_section. destruct (local_devices a) as [|dev devices] eqn:E; [done|].
  apply (rows_steps 0). by rewrite drop_0.
Qed.

Lemma bottom_widgets (a : App) : buttons (discovered_section a) = [] /\ red_labels (discovered_section a) = []
  /\ buttons (error_section a) = [].
Proof.
  unfold discovered_section, error_section. split_and!; [| |by destruct (app_error a)]; (destruct (app_discovered a) as [|s l]; [done|]);
    unfold buttons, red_labels; simpl; rewrite omap_app; simpl; rewrite app_nil_r; (induction l as [|s' l IH]; [done|exact IH]).
Qed.

(** The window shows its state. In every frame, whatever is clicked: the handlers
    are steps of the window, so that all its invariants hold between frames; there
    is one button for each device, and the one between [Refresh] and [Discover]
    stops the server if and only if one is running when the frame begins; the status
    line and the one error shown are those of the state after the clicks; and a
    frame without clicks changes nothing. *)
Theorem frame_shows_state c (a : App) ws a' : frame c a = Returns (ws, a') ->
  rtc app_step a a'
  /\ buttons ws = replicate (length (local_devices a)) "Export"
       ++ ["Refresh"; if running (app_server a) then "Stop Server" else "Start Server"; "Discover"]
  /\ Label (status_bar a') ∈ ws
  /\ red_labels ws = match app_error a' with Some err => ["Error: " +:+ err] | None => [] end
  /\ (c = no_clicks -> a' = a).
Proof.
  unfold frame. pose proof (section_steps c a) as Hsec. destruct (device_section c a) as [devices a1].
  destruct Hsec as (H1 & Hs1 & Hn1 & Hl1 & Hb1).
  set (a2 := match on_refresh c with Some (uuid, r) => refresh_devices uuid r a1 | None => a1 end).
  assert (H2 : rtc app_step a1 a2 /\ app_server a2 = app_server a).
  { unfold a2. destruct (on_refresh c) as [[uuid r]|]; [|done]. split; [|by destruct r].
    apply rtc_once. by apply (step_click (Refresh uuid r)). }
  destruct H2 as [H2 Hs2]. set (a3 := server_clicked c a2). assert (H3 : rtc app_step a2 a3).
  { unfold a3, server_clicked. destruct (on_server c); [|done]. apply rtc_once. by apply (step_click StartStop). }
  destruct (match on_discover c with Some _ => _ | None => _ end) as [a4| |] eqn:E4; [|done..]. intros Heq.
  assert (ws = header_section ++ devices ++ button_section (server_button a2) ++ discovered_section a4 ++ status_section a4
            ++ error_section a4 /\ a' = a4) as [-> ->] by (split; congruence). clear Heq.
  assert (H4 : rtc app_step a3 a4).
  { destruct (on_discover c) as [[[uuid now] script]|]; [|by injection E4 as <-]. apply rtc_once.
    by apply (step_click (Discover uuid now script)). }
  destruct (bottom_widgets a4) as (Hb2 & Hl2 & Hb3). split_and!.
  - by do 3 (etrans; [eassumption|]).
  - rewrite !buttons_app, Hb1, Hb2, Hb3. unfold server_button, is_running. by rewrite Hs2.
  - unfold status_section. rewrite !elem_of_app, list_elem_of_singleton. tauto.
  - rewrite !red_labels_app, Hl1, Hl2. unfold error_section. by destruct (app_error a4).
  - intros ->. simpl in *. injection E4 as <-. apply Hn1. done.
Qed.
End View.

(** ** A frame *)

(** The first window, when [Start Server] is clicked: the status line of the same
    frame shows the server, the button still offers to start it. *)
Definition start_click : Clicks := {| on_export _ := false; on_refresh := None; on_server := true; on_discover := None |}.

Lemma frame_shows_state_witness :
  exists ws a', frame start_click first_window = Returns (ws, a') /\ buttons ws = ["Refresh"; "Start Server"; "Discover"]
  /\ Label "Server running on port 3240" ∈ ws /\ red_labels ws = [].
Proof.
  destruct (frame start_click first_window) as [[ws a']| |] eqn:E; [|vm_compute in E; discriminate E..].
  exists ws, a'. split; [done|].
  destruct (frame_shows_state start_click first_window ws a' E) as (_ & Hb & Hs & Hr & _).
  vm_compute in E. injection E as <- <-. split; [exact Hb|]. split; [exact Hs|exact Hr].
Defined.
