(* ===== verification/TestsClient.v ===== *)
(** * The unit tests of the client and of the Windows program

    The test functions of reconnect.rs, vhci/mod.rs and client.rs
    (client/usbip-client/src) and of actions.rs and windows_usb.rs (windows/src), as
    programs over the models.  The tests of client.rs run the client against the
    server task they spawn, over the bytes each side writes.  Tests that ask the
    machine for its devices or its multicast daemon have no counterpart. *)

From Stdlib Require Import Ascii Floats.SpecFloat.
From S2P Require Import Prelude RustStd RustFloat FloatFacts FloatRound Errors Proto Urb Stream Wire Server.
From S2P Require Import UsbBackend Discovery Reconnect Backoff Vhci Client SetupApi WindowsApp TestsCore.

(** ** reconnect.rs *)

Section Reconnect_tests.
Context (powi : f64 -> Z -> f64) (draw : f64 -> f64 -> f64).

Definition test_default_config_unlimited_retries : outcome unit :=
  let config := reconnect_default in
  assert_eq (max_retries config) None ;!
  assert (should_retry config 0) ;!
  assert (should_retry config 100).

Definition test_no_retry_config : outcome unit :=
  let config := no_retry in
  assert_eq (max_retries config) (Some 0) ;!
  assert (negb (should_retry config 0)).

Definition test_with_max_retries : outcome unit :=
  let config := with_max_retries 3 in
  assert_eq (max_retries config) (Some 3) ;!
  assert (should_retry config 0) ;!
  assert (should_retry config 2) ;!
  assert (negb (should_retry config 3)) ;!
  assert (negb (should_retry config 5)).

(** [config.delay_for_attempt(attempt).as_secs_f64()]. *)
Definition delay_secs (config : ReconnectConfig) (attempt : Z) : outcome f64 :=
  let! d := delay_for_attempt powi draw config attempt in Returns (as_secs_f64 d).

Definition test_delay_for_attempt_increases_exponentially : outcome unit :=
  let config := reconnect_default in
  let! d0 := delay_secs config 0 in
  let! d1 := delay_secs config 1 in
  let! d2 := delay_secs config 2 in
  let! d3 := delay_secs config 3 in
  let! d4 := delay_secs config 4 in
  assert (f64_lt d0 d1) ;!
  assert (f64_lt d1 d2) ;!
  assert (f64_lt d2 d3) ;!
  assert (f64_lt d3 d4).

Definition test_delay_caps_at_max_delay_secs : outcome unit :=
  let config := reconnect_default in
  let! d_high := delay_secs config 10 in
  assert (f64_le d_high (f64_ratio 75 2)) ;!
  assert (f64_le (f64_of_Z 20) d_high).

Definition test_delay_minimum_positive : outcome unit :=
  let config := reconnect_default in
  for_each (seqZ 0 20) (fun attempt =>
    let! delay := delay_secs config attempt in
    assert (f64_le (f64_ratio 1 10) delay)).

Definition test_delay_with_jitter_is_within_range : outcome unit :=
  let config := reconnect_default in
  for_each (seqZ 0 5) (fun attempt =>
    let! delay := delay_secs config attempt in
    let base := f64_mul (f64_of_Z (initial_delay_secs config)) (powi (backoff_multiplier config) (to_i32 attempt)) in
    let capped := f64_min base (f64_of_Z (max_delay_secs config)) in
    let min_expected := f64_max (f64_mul capped (f64_ratio 3 4)) (f64_ratio 1 10) in
    let max_expected := f64_mul capped (f64_ratio 5 4) in
    assert (f64_le min_expected delay) ;!
    assert (f64_le delay max_expected)).

(** An error of each category; the category is the one of its kind. *)
Definition make_error (c : ErrorCategory) : ErrorKind :=
  match c with
  | Transient => ConnectionClosed
  | Permanent => DeviceNotFound "test"
  | Fatal => UrbFailed 0
  end.

Definition is_backoff (n : Z) (s : ReconnectState) : bool :=
  match s with BackOff attempt _ => attempt =? n | _ => false end.
Definition is_stopped (s : ReconnectState) : bool := match s with Stopped => true | _ => false end.

Definition test_state_starts_active : outcome unit :=
  let! new := on_error powi draw Active (make_error Transient) reconnect_default in
  assert (is_backoff 0 new).

Definition test_transient_error_transitions_to_backoff : outcome unit :=
  let! new := on_error powi draw Active (make_error Transient) reconnect_default in
  assert (is_backoff 0 new).

Definition test_permanent_error_transitions_to_stopped : outcome unit :=
  let! new := on_error powi draw Active (make_error Permanent) reconnect_default in
  assert (is_stopped new).

Definition test_fatal_error_transitions_to_stopped : outcome unit :=
  let! new := on_error powi draw Active (make_error Fatal) reconnect_default in
  assert (is_stopped new).

Definition test_backoff_increments_attempt : outcome unit :=
  let! new := on_error powi draw (BackOff 0 1000000000) (make_error Transient) reconnect_default in
  assert (is_backoff 1 new).

Definition test_backoff_second_transient_increments_again : outcome unit :=
  let! new := on_error powi draw (BackOff 2 4000000000) (make_error Transient) reconnect_default in
  assert (is_backoff 3 new).

Definition test_max_retries_exhausted : outcome unit :=
  let! new := on_error powi draw (BackOff 1 2000000000) (make_error Transient) (with_max_retries 2) in
  assert (is_stopped new).

Definition test_limited_retries_allows_until_limit : outcome unit :=
  let! new := on_error powi draw (BackOff 2 4000000000) (make_error Transient) (with_max_retries 3) in
  assert (is_stopped new).

Definition test_classify_ok_stops : outcome unit :=
  let! (decision, state) := classify_and_backoff powi draw (Ok tt) Active reconnect_default in
  assert (negb (bool_decide (is_Some decision))) ;!
  assert (is_stopped state).

Definition test_classify_transient_returns_delay : outcome unit :=
  let! (decision, state) := classify_and_backoff powi draw (Err (make_error Transient)) Active reconnect_default in
  assert (bool_decide (is_Some decision)) ;!
  assert (is_backoff 0 state).

Definition test_classify_permanent_returns_none : outcome unit :=
  let! (decision, state) := classify_and_backoff powi draw (Err (make_error Permanent)) Active reconnect_default in
  assert (negb (bool_decide (is_Some decision))) ;!
  assert (is_stopped state).

(** Whether the decision is to stop. *)
Definition is_stop (d : ReconnectDecision) : bool := match d with Stop => true | RetryAfter _ => false end.

Definition test_decide_reconnect_ok_stops : outcome unit :=
  let! (d, _) := decide_reconnect powi draw (Ok tt) Active reconnect_default in assert (is_stop d).

Definition test_decide_reconnect_transient_retries : outcome unit :=
  let! (d, _) := decide_reconnect powi draw (Err (make_error Transient)) Active reconnect_default in assert (negb (is_stop d)).

Definition test_decide_reconnect_permanent_stops : outcome unit :=
  let! (d, _) := decide_reconnect powi draw (Err (make_error Permanent)) Active reconnect_default in assert (is_stop d).

Definition delay_tests : list (outcome unit) :=
  [test_delay_for_attempt_increases_exponentially; test_delay_caps_at_max_delay_secs; test_delay_minimum_positive;
   test_delay_with_jitter_is_within_range].

Definition state_tests : list (outcome unit) :=
  [test_default_config_unlimited_retries; test_no_retry_config; test_with_max_retries; test_state_starts_active;
   test_transient_error_transitions_to_backoff; test_permanent_error_transitions_to_stopped;
   test_fatal_error_transitions_to_stopped; test_backoff_increments_attempt;
   test_backoff_second_transient_increments_again; test_max_retries_exhausted; test_limited_retries_allows_until_limit;
   test_classify_ok_stops; test_classify_transient_returns_delay; test_classify_permanent_returns_none;
   test_decide_reconnect_ok_stops; test_decide_reconnect_transient_retries; test_decide_reconnect_permanent_stops].
End Reconnect_tests.

Section Reconnect_pass.
Context (powi : f64 -> Z -> f64) (draw : f64 -> f64 -> f64).
Hypothesis powi_two : forall n, 0 <= n < 2 ^ 31 -> powi (f64_of_Z 2) n = f64_of_Z (2 ^ n).
Hypothesis draw_ok : draws_in_range draw.

(** A delay of the tests, in seconds, between its bounds in quarters of a second. *)
Lemma delay_secs_bounds n : 0 <= n < 2 ^ 31 -> exists x, delay_secs powi draw reconnect_default n = Returns x
  /\ valid x /\ finite x
  /\ 3 * documented_secs n * 2 ^ 1072 <= fixed x <= 5 * documented_secs n * 2 ^ 1072.
Proof.
  intros Hn. unfold delay_secs.
  destruct (delay_bounds powi draw powi_two draw_ok reconnect_default n ltac:(done) Hn) as (d & -> & Hd).
  assert (Hs : 0 < documented_secs n <= 30)
    by (pose proof (documented_cases n ltac:(lia)) as H; simpl in H; lia).
  set (s := documented_secs n) in *. clearbody s. exists (as_secs_f64 d). split; [done|].
  destruct (as_secs_quarters d (3 * s) ltac:(lia) ltac:(lia)) as (Hf & Hv & H1 & _).
  destruct (as_secs_quarters d (5 * s) ltac:(lia) ltac:(lia)) as (_ & _ & _ & H2). specialize (H1 ltac:(lia)). specialize (H2 ltac:(lia)).
  destruct (quarter_fixed (3 * s) ltac:(lia)) as (Lv & Lf & Lx). destruct (quarter_fixed (5 * s) ltac:(lia)) as (Uv & Uf & Ux).
  rewrite fixed_le in H1, H2 by done. apply Z.leb_le in H1, H2. rewrite Lx in H1. rewrite Ux in H2. done.
Qed.

Lemma secs_lt x y lo hi : valid x -> finite x -> valid y -> finite y ->
  fixed x <= lo * 2 ^ 1072 -> hi * 2 ^ 1072 <= fixed y -> lo < hi -> f64_lt x y = true.
Proof. intros. rewrite fixed_lt by done. apply Z.ltb_lt. lia. Qed.

Definition f64_is_finite (c : f64) : bool := match c with S754_zero _ | S754_finite _ _ _ => true | _ => false end.

(** A bound of the tests is checked by computing the number it is. *)
Definition constant_below (k : Z) (c : f64) : bool := valid_binary prec emax c && f64_is_finite c && (fixed c <=? k * 2 ^ 1072).
Definition constant_above (k : Z) (c : f64) : bool := valid_binary prec emax c && f64_is_finite c && (k * 2 ^ 1072 <=? fixed c).

Lemma secs_ge x k c : valid x -> finite x -> k * 2 ^ 1072 <= fixed x -> constant_below k c = true -> f64_le c x = true.
Proof.
  intros Hv Hf Hk Hc. unfold constant_below in Hc. rewrite !andb_true_iff, Z.leb_le in Hc. destruct Hc as [[H1 H2] H3].
  rewrite fixed_le; [apply Z.leb_le; lia|done|done|by destruct c|done].
Qed.

Lemma secs_le x k c : valid x -> finite x -> fixed x <= k * 2 ^ 1072 -> constant_above k c = true -> f64_le x c = true.
Proof.
  intros Hv Hf Hk Hc. unfold constant_above in Hc. rewrite !andb_true_iff, Z.leb_le in Hc. destruct Hc as [[H1 H2] H3].
  rewrite fixed_le; [apply Z.leb_le; lia|done|done|done|by destruct c].
Qed.

Lemma increases_pass : passes (test_delay_for_attempt_increases_exponentially powi draw).
Proof.
  unfold test_delay_for_attempt_increases_exponentially, passes.
  destruct (delay_secs_bounds 0 ltac:(lia)) as (x0 & -> & V0 & F0 & B0). destruct (delay_secs_bounds 1 ltac:(lia)) as (x1 & -> & V1 & F1 & B1).
  destruct (delay_secs_bounds 2 ltac:(lia)) as (x2 & -> & V2 & F2 & B2). destruct (delay_secs_bounds 3 ltac:(lia)) as (x3 & -> & V3 & F3 & B3).
  destruct (delay_secs_bounds 4 ltac:(lia)) as (x4 & -> & V4 & F4 & B4).
  rewrite (secs_lt x0 x1 5 6), (secs_lt x1 x2 10 12), (secs_lt x2 x3 20 24), (secs_lt x3 x4 40 48); try done; apply B0 || apply B1 || apply B2 || apply B3 || apply B4.
Qed.

Lemma caps_pass : passes (test_delay_caps_at_max_delay_secs powi draw).
Proof.
  unfold test_delay_caps_at_max_delay_secs, passes. destruct (delay_secs_bounds 10 ltac:(lia)) as (x & -> & V & F & B1 & B2).
  rewrite (secs_le x _ _ V F B2), (secs_ge x _ _ V F B1); [done|by vm_compute..].
Qed.

Lemma for_each_passes {A} (l : list A) f : (forall x, x ∈ l -> f x = Returns tt) -> passes (for_each l f).
Proof.
  unfold passes. induction l as [|x l IH]; intros H; [done|]. simpl. rewrite H by apply list_elem_of_here.
  apply IH. intros y Hy. apply H. by apply list_elem_of_further.
Qed.

Lemma minimum_pass : passes (test_delay_minimum_positive powi draw).
Proof.
  apply for_each_passes. intros n Hn. apply elem_of_seqZ in Hn.
  destruct (delay_secs_bounds n ltac:(lia)) as (x & -> & V & F & B1 & B2). rewrite (secs_ge x 3 _ V F); [done| |by vm_compute].
  pose proof (documented_cases n ltac:(lia)) as H; simpl in H. lia.
Qed.

Lemma range_pass : passes (test_delay_with_jitter_is_within_range powi draw).
Proof.
  apply for_each_passes. intros n Hn. apply elem_of_seqZ in Hn.
  destruct (delay_secs_bounds n ltac:(lia)) as (x & -> & V & F & B1 & B2).
  change (f64_min _ _) with (capped_secs powi reconnect_default n). rewrite capped_default by (done || lia). cbv zeta.
  assert (n = 0 \/ n = 1 \/ n = 2 \/ n = 3 \/ n = 4) as [-> |[-> |[-> |[-> | ->]]]] by lia;
    (rewrite (secs_ge x _ _ V F B1), (secs_le x _ _ V F B2); [done|by vm_compute..]).
Qed.

Lemma state_tests_pass : Forall passes (state_tests powi draw).
Proof.
  assert (H : forall n, 0 <= n < 2 ^ 31 -> exists d, delay_for_attempt powi draw reconnect_default n = Returns d).
  { intros n Hn. destruct (delay_bounds powi draw powi_two draw_ok reconnect_default n ltac:(done) Hn) as (d & Hd & _). by exists d. }
  destruct (H 0 ltac:(lia)) as [d0 H0]. destruct (H 1 ltac:(lia)) as [d1 H1]. destruct (H 3 ltac:(lia)) as [d3 H3].
  repeat apply Forall_cons_2; [..|apply Forall_nil_2]; try reflexivity; unfold passes.
  - unfold test_state_starts_active, on_error. simpl. by rewrite H0.
  - unfold test_transient_error_transitions_to_backoff, on_error. simpl. by rewrite H0.
  - unfold test_backoff_increments_attempt, on_error. simpl. change (wrap 32 (0 + 1)) with 1. by rewrite H1.
  - unfold test_backoff_second_transient_increments_again, on_error. simpl. change (wrap 32 (2 + 1)) with 3. by rewrite H3.
  - unfold test_classify_transient_returns_delay, classify_and_backoff, on_error. simpl. by rewrite H0.
  - unfold test_decide_reconnect_transient_retries, decide_reconnect, on_error. simpl. by rewrite H0.
Qed.

Lemma reconnect_tests_pass : Forall passes (delay_tests powi draw ++ state_tests powi draw).
Proof.
  apply Forall_app. split; [|exact state_tests_pass].
  repeat apply Forall_cons_2; [exact increases_pass|exact caps_pass|exact minimum_pass|exact range_pass|apply Forall_nil_2].
Qed.
End Reconnect_pass.

(** ** vhci/mod.rs *)

(** [make_dummy_entry]: a zeroed entry with the bus id and the two numbers. *)
Definition make_dummy_entry (bus_id : string) (vid pid : Z) : UsbIpDeviceEntry :=
  {| path := zeros 256; busid := copy_padded 32 (as_bytes bus_id); busnum := 0; devnum := 0; speed := 0;
     id_vendor := vid; id_product := pid; bcd_device := 0; b_device_class := x00; b_device_sub_class := x00;
     b_device_protocol := x00; b_configuration_value := x00; b_num_configurations := x00; b_num_interfaces := x00 |}.

(** [recorded_urbs]: a copy of the completions so far. *)
Definition recorded_urbs (m : MockVhciBackend) : list RecordedUrb := mk_urbs m.

Definition test_mock_create_device : outcome unit :=
  let entry := make_dummy_entry "1-2" 0x1234 0x5678 in
  let '(r, backend) := vh_create_device entry (zeros 64) mock_new in
  let! device := unwrap_ok r in
  assert_eq (vd_port device) 0 ;!
  assert_eq (vd_vid device) 0x1234 ;!
  assert_eq (vd_pid device) 0x5678 ;!
  assert_eq (length (mk_devices backend)) 1%nat.

Definition test_mock_complete_urb : outcome unit :=
  let data := [x01; x02; x03; x04] in
  let '(r, backend) := vh_complete_urb 42 0 0 4 data mock_new in
  let! _ := unwrap_ok r in
  let urbs := recorded_urbs backend in
  assert_eq (length urbs) 1%nat ;!
  let! urb := unwrap (head urbs) in
  let '(seqnum, devid, _, actual_length, urb_data) := urb in
  assert_eq seqnum 42 ;!
  assert_eq devid 0 ;!
  assert_eq actual_length 4 ;!
  assert_eq urb_data data.

Definition test_mock_sequential_ports : outcome unit :=
  let entry := make_dummy_entry "1-2" 0x1234 0x5678 in
  let '(r0, backend) := vh_create_device entry (zeros 64) mock_new in
  let! d0 := unwrap_ok r0 in
  assert_eq (vd_port d0) 0 ;!
  let '(r1, backend) := vh_create_device entry (zeros 64) backend in
  let! d1 := unwrap_ok r1 in
  assert_eq (vd_port d1) 1 ;!
  let '(r2, backend) := vh_create_device entry (zeros 64) backend in
  let! d2 := unwrap_ok r2 in
  assert_eq (vd_port d2) 2 ;!
  assert_eq (length (mk_devices backend)) 3%nat.

(** ** client.rs *)

(** [make_device_entry_bytes]. *)
Definition make_device_entry_bytes (bus_id : string) : list byte :=
  zeros 256 ++ copy_padded 32 (as_bytes bus_id) ++ zeros 24.

(** The answer both tests queue behind the device entry. *)
Definition queued_ret (seqnum : Z) : UsbIpRetSubmit :=
  {| rs_seqnum := seqnum; rs_devid := 0; rs_direction := URB_DIR_IN; rs_ep := 0; rs_status := 0; rs_actual_length := 4;
     rs_start_frame := 0; rs_number_of_packets := 0; rs_error_count := 0; rs_setup := zeros 8 |}.

(** The server task: what it writes, given what the client wrote first. *)
Definition server_task (received : list byte) (seqnum : Z) (data : list byte) : outcome (list byte) :=
  if (length received <? 8)%nat then Panics
  else let cmd := be_val (take 2 (drop 2 received)) in
  assert_eq cmd OP_REQ_IMPORT ;!
  if (length (drop 8 received) <? 32)%nat then Panics
  else Returns (header_as_bytes (header_with_status OP_REP_IMPORT STATUS_SUCCESS)
                ++ make_device_entry_bytes "1-1" ++ serialize_ret_submit (queued_ret seqnum) data).

(** The client writes its request before it reads. *)
Definition client_request (bus_id : string) : list byte := tx (snd (request_import bus_id (peer_sends []))).

Definition test_config : ClientConfig :=
  {| cc_server_addr := cc_server_addr client_default; cc_use_mdns := cc_use_mdns client_default;
     cc_auto_reconnect := false; cc_reconnect := cc_reconnect client_default; cc_tcp_nodelay := cc_tcp_nodelay client_default |}.

(** Both tests: the session, and what the injected backend recorded.  Nobody
    presses ctrl-c. *)
Definition injected_session (seqnum : Z) (data : list byte) : outcome (UsbIpResult unit * list RecordedUrb) :=
  let! reply := server_task (client_request "1-1") seqnum data in
  let! client := unwrap_ok (new_with_vhci test_config mock_new) in
  let! (result, client) := run_urb_forwarding (fun _ => false) (dial_to (peer_sends reply)) "1-1" client in
  Returns (result, recorded_urbs (cl_vhci client)).

(** The assertions on the one recorded URB. *)
Definition assert_recorded (urbs : list RecordedUrb) (seqnum : Z) (data : list byte) : outcome unit :=
  assert_eq (length urbs) 1%nat ;!
  let! urb := unwrap (head urbs) in
  let '(s, devid, status, actual_len, urb_data) := urb in
  assert_eq s seqnum ;!
  assert_eq devid 0 ;!
  assert_eq status 0 ;!
  assert_eq actual_len 4 ;!
  assert_eq urb_data data.

Definition test_new_with_vhci_routes_complete_urb_to_injected_backend : outcome unit :=
  let! (result, urbs) := injected_session 0xC0FFEE [xde; xad; xbe; xef] in
  assert (match result with Ok _ => true | Err _ => false end) ;!
  assert_recorded urbs 0xC0FFEE [xde; xad; xbe; xef].

Definition test_tcp_connect_and_import_does_not_lose_queued_urb_bytes : outcome unit :=
  let! (result, urbs) := injected_session 0xDEADBEEF [xca; xfe; xba; xbe] in
  assert_recorded urbs 0xDEADBEEF [xca; xfe; xba; xbe].

Definition client_side_tests : list (outcome unit) :=
  [test_mock_create_device; test_mock_complete_urb; test_mock_sequential_ports;
   test_new_with_vhci_routes_complete_urb_to_injected_backend;
   test_tcp_connect_and_import_does_not_lose_queued_urb_bytes].

Lemma client_side_tests_pass : Forall passes client_side_tests.
Proof. repeat apply Forall_cons_2; [vm_compute; reflexivity..|apply Forall_nil_2]. Qed.

(** ** actions.rs and windows_usb.rs *)

Section Windows_tests.
Context {B D : Type} `{!UsbBackend B} `{!MdnsSd D}.
(** The port the kernel assigned, and the threads that run already. *)
Context (port : Z) (threads : list (Thread B D)).

Definition server_controller_lifecycle_reports_running : outcome unit :=
  let ctrl := controller_new in
  assert (negb (is_running ctrl)) ;!
  assert_eq (controller_port ctrl) 0 ;!
  let '(r, ctrl, threads) := start port ctrl threads in
  let! _ := unwrap_ok r in
  assert (is_running ctrl) ;!
  assert_eq (controller_port ctrl) port ;!
  let '(r, ctrl, threads) := stop ctrl threads in
  let! _ := unwrap_ok r in
  assert (negb (is_running ctrl)).

Definition server_controller_double_start_rejected : outcome unit :=
  let '(r, ctrl, threads) := start port controller_new threads in
  let! _ := unwrap_ok r in
  let '(r, ctrl, threads) := start port ctrl threads in
  assert (match r with Err AlreadyRunning => true | _ => false end).

Definition server_controller_stop_without_start_is_noop : outcome unit :=
  let '(r, ctrl, threads) := stop controller_new threads in
  let! _ := unwrap_ok r in
  assert (negb (is_running ctrl)).
End Windows_tests.

Definition parses_to (hw_id : string) (vid pid : Z) : outcome unit :=
  let! (v, p) := parse_vid_pid_from_hardware_id hw_id 0 0 in
  assert_eq v vid ;!
  assert_eq p pid.

Definition test_parse_vid_pid : outcome unit := parses_to "USB\VID_046D&PID_C261&REV_0100" 0x046D 0xC261.
Definition test_parse_vid_pid_pc : outcome unit := parses_to "USB\VID_046D&PID_C262&REV_0100" 0x046D 0xC262.
Definition test_parse_vid_pid_reverse_order : outcome unit := parses_to "USB\PID_C261&VID_046D" 0x046D 0xC261.

Definition windows_tests {B D : Type} `{!UsbBackend B} `{!MdnsSd D} (port : Z) (threads : list (Thread B D)) : list (outcome unit) :=
  [server_controller_lifecycle_reports_running port threads; server_controller_double_start_rejected port threads;
   server_controller_stop_without_start_is_noop threads; test_parse_vid_pid; test_parse_vid_pid_pc;
   test_parse_vid_pid_reverse_order].

Lemma windows_tests_pass {B D : Type} `{!UsbBackend B} `{!MdnsSd D} port (threads : list (Thread B D)) :
  Forall passes (windows_tests port threads).
Proof.
  repeat apply Forall_cons_2; [|vm_compute; reflexivity..|apply Forall_nil_2].
  unfold passes, server_controller_lifecycle_reports_running. simpl. by rewrite (assert_eq_refl port).
Qed.

(** ** All of them *)

Definition client_tests {B D : Type} `{!UsbBackend B} `{!MdnsSd D} (powi : f64 -> Z -> f64) (draw : f64 -> f64 -> f64)
    (port : Z) (threads : list (Thread B D)) : list (outcome unit) :=
  (delay_tests powi draw ++ state_tests powi draw) ++ client_side_tests ++ windows_tests port threads.

(** The test functions above pass on the models, whatever jitter is drawn from the range asked for, on whatever port and beside
    whatever threads the controller is started: in particular no draw can make two
    consecutive delays of the backoff test overlap, and the queued URB reaches the
    injected backend byte for byte. *)
Theorem client_tests_pass {B D : Type} `{!UsbBackend B} `{!MdnsSd D} powi draw port (threads : list (Thread B D)) :
  (forall n, 0 <= n < 2 ^ 31 -> powi (f64_of_Z 2) n = f64_of_Z (2 ^ n)) -> draws_in_range draw ->
  Forall passes (client_tests powi draw port threads).
Proof.
  intros Hp Hd. unfold client_tests. rewrite !Forall_app. split; [by apply Forall_app, reconnect_tests_pass|].
  split; [apply client_side_tests_pass|apply windows_tests_pass].
Qed.

Lemma client_tests_pass_witness :
  Forall passes (client_tests (B := FakeBackend) (D := bool) powi_two_exact draw_low 40123 []).
Proof. exact (client_tests_pass powi_two_exact draw_low 40123 [] powi_two_ok draw_low_ok). Defined.
